(* ===== verification/_CoqProject ===== *)
-Q . S2P
Prelude.v
Ticker.v
Sse.v
SseProofs.v
Feed.v
Reconnect.v
BsCore.v
BsEvents.v
BsEventsProofs.v
BsListeners.v
BsDom.v
BsConfig.v
BsUtil.v
BsAlert.v
BsButton.v
BsCollapse.v
BsCarousel.v
BsCarouselPage.v
BsToast.v
BsToastPage.v
BsScrollBar.v
BsModal.v
BsTree.v
BsStage.v
BsModalPage.v
BsModalFlow.v
BsOffcanvas.v
BsOffcanvasPage.v
BsOffcanvasFlow.v
BsTab.v
BsSanitizer.v
BsTemplate.v
BsTooltip.v
BsTooltipDelegate.v
BsDropdown.v
BsScrollSpy.v
BsPlugin.v
PopperGeometry.v
PopperDom.v
PopperState.v
PopperOrder.v
PopperModifiers.v
PopperCore.v
PopperTotal.v
PopperInstance.v
PopperLife.v
BsPopper.v
