(* ===== verification/Prelude.v ===== *)
(** * The browser side of EliteEvents

    EliteEvents ingests the Elite Dangerous Data Network, keeps what it learns in Redis and
    shows it on two web sites. The services are C# and a Go operator; this development is about
    the JavaScript that runs in the browser: the live feed of the home page, the
    reconnection dialog of the journal site, and the vendored libraries both sites rely on.

    ** The parts and how they interact

    - [wwwroot/js/ticker.js] keeps the feed to forty rows and shows whether the stream is
      connected. It listens to events that the SSE extension triggers.
    - [wwwroot/lib/htmx/sse.js] connects elements to an event stream, reconnects with a growing
      delay, and swaps messages into the elements that ask for them. It is called by htmx
      and calls htmx back.
    - [JournalWeb/Components/Layout/ReconnectModal.razor.js] reconnects a Blazor circuit.
    - [wwwroot/lib/bootstrap/dist/js/bootstrap.bundle.js] is Bootstrap 5.3.3 with Popper 2:
      helpers (instance store, events, selectors, configuration, transitions), components on
      top of [BaseComponent], and Popper, which positions one element next to another.

    ** The files

    - [Prelude]: results of code that may throw ([res], a monad), strings, objects as association
      lists ([obj]), rationals for lengths, the hint database [js] and the tactics.
    - [Ticker]: the page as a record; [trim], [status] and the listeners.
    - [Sse]: [world] holds the event sources with the variables their closures share
      ([eventSource]), the element data, the pending timeouts and the page. Every function of the
      extension is one definition; [step] is what one event of the browser does. htmx is
      the class [Htmx]. [SseProofs]: two preorders on worlds ([evolves], [registers]), the
      invariant [retryInv], and the reconnection schedule.
    - [Feed]: the home page as an instance of [Htmx], with ticker and extension together.
    - [Reconnect]: the dialog; an [async] function that waits is an entry of [mo_waiting].
    - [BsCore]: module [Data] (the instance store), module [Transition]
      ([executeAfterTransition]), [getTransitionDurationFromElement], [getNextActiveElement].
    - [BsEvents], [BsEventsProofs]: [EventHandler] with its registry, and the invariant [evInv].
      [BsListeners]: the list of registrations that [EventHandler] promises, and the delivery of events from it.
    - [BsDom]: the page as a map of nodes, [SelectorEngine] and the helpers; the browser's
      selectors and layout are the class [Browser].
    - [BsConfig]: [Manipulator] and [Config]. [BsUtil]: [getUID], [triggerTransitionEnd].
      [BsAlert]: [BaseComponent], [Alert], [Button]; [BsButton]: the clicks that toggle buttons.
      [BsCollapse]: [Collapse]. [BsCarousel]: [Swipe] and [Carousel]. [BsToast]: [Toast];
      [BsToastPage]: the toasts of one page, how they are made and dismissed.
      [BsScrollBar]: [ScrollBarHelper]. [BsModal]: [Backdrop], [FocusTrap], [Modal].
      [BsOffcanvas]: [Offcanvas]. [BsTab]: [Tab]. [BsScrollSpy]: [ScrollSpy].
      [BsCarouselPage]: the listeners of a carousel and its [Swipe], the data API, disposal.
    - [BsTree]: well-formed trees of nodes and the edits that keep them so. [BsStage]: a page with
      any number of instances of one overlay ([stage]): their store, the log of events, the focus
      restorers the data API registers, the focus and the trap that listens. An overlay states with the
      classes [Overlay] and [LawfulOverlay] what it shares with the page, and with [Resident] what its
      instances need of it; the lemmas on stages are proved against these. [BsModalPage] and
      [BsOffcanvasPage] are the two overlays, with their data API; [BsModalFlow] follows modals that
      open one another, [BsOffcanvasFlow] panels that are opened and closed one click at a time.
    - [BsSanitizer]: the sanitizer on parsed markup ([dom]); the browser's parser and printer are
      the class [Markup]. [BsTemplate]: [TemplateFactory] on it, with functions of the caller as
      the class [Caller]. [BsTooltip]: [Tooltip] and [Popover], which fill templates.
      [BsTooltipDelegate]: those with a [selector], which make instances for other elements.
      [BsDropdown]: [Dropdown], any number of them on one page.
    - [BsPopper]: the options that dropdowns and tooltips pass to [createPopper], as Popper reads them,
      and what becomes of the instances made with them.
    - [BsPlugin]: the components as jQuery plugins, over the class [Components] of what the
      interfaces call.
    - [PopperGeometry]: placements, rectangles, offsets, paddings. [PopperDom]: the walks of
      the tree, scroll parents and clipping, over the class [Browser] of that file, with the class
      [WfTree] for what a tree of nodes satisfies. [PopperState], [PopperModifiers]: the state and
      the nine modifiers. [PopperOrder]: merging and ordering of modifiers. [PopperCore]: the life
      of an instance. [PopperTotal]: each modifier succeeds and keeps what the others need.
      [PopperInstance]: creation, update and destruction. [PopperLife]: a popper that is updated
      while the page around it changes.

    Names are those of the source; [effect$2] and the like become [applyStylesEffect], a [$1] a
    [_1]. Callbacks that wait for a transition are constructors of a type, held in a queue, and
    run one at a time; events that components trigger go to a log, and whether a listener
    prevents one is a parameter. A reference to [null] that the code follows is an [Err]; a handler
    that changes the state before it throws has an [outcome], the state with what was thrown.

    ** What the theorems show

    - The feed (C1, C5 to C7): the list shows the rows of the stream newest first, each once, at
      most forty, through any outages; delays double from half a second to 64 seconds.
    - The dialog (C8, C9): one attempt at a time, and how an attempt ends.
    - Bootstrap's helpers: the registry and the browser's listeners agree after any calls
      (C2), and behave as one list of registrations (C3); [off] removes what [on] added and what a
      namespace names, a one-off handler runs once, a callback runs exactly once (C10), the instance
      store is a slot per element, options come from where they should and are type-checked (C40),
      data attributes are read back, the search for an identifier ends ([getUID_terminates]).
    - Markup: the sanitizer does in its walk what one pass down the tree specifies (C20), and what
      the default list leaves holds no script; with that, data attributes alone cannot make a
      tooltip show one (C19). Instances that a delegating tooltip makes get its options
      ([tooltip_delegate_options]).
    - Bootstrap's components one by one: alerts, panels, accordions, carousels and modals go
      through their phases in order, ignore requests while they move or carry them out later, and
      leave page, registry and store consistent (C12, C13, C30, C33, C38); buttons alternate
      ([button_clicks_alternate]). Tabs and off-canvas panels do so in whichever order their fades end
      (C28, C29). A tooltip leaves no tip, popper or timer behind (C21); dropdowns have a popper exactly
      while they are open, and events of the page close those that do not ask to stay (C23, C24); a
      scroll spy follows the scrolling and highlights one section at a time (C26, C27); the scroll bar
      comes back as it was (C31); a finger slides a carousel (C18).
    - Several instances on one page: pages of modals and of off-canvas panels stay well-formed
      trees in which each backdrop that was made has its own element (C16,
      [panel_pages_well_formed]); modals that open one another change places in whichever order their
      fades end (C14), and the focus comes back (C17); panels exclude each other when openers are
      clicked at rest (C15), and only then ([panels_open_together]); each toast of a page waits for
      its own user (C36).
    - The plugins that a page finds in jQuery, and that it gets its own back (C35).
    - Popper: creating a popper ends with a position ([createPopper_positions]), and so does every later
      update, under whichever layouts, with the last layout measured (C4); destroying leaves
      nothing (C11), modifiers run after what they require (C32), and offsets, clipping and scroll
      parents are what they should be (C37, C39). What dropdowns and tooltips ask of Popper ends with a
      position after any updates as well, and leaves a static menu alone (C22, C25).
    - A theorem of kind "error" shows that a carousel disposed of while it moves throws (C34). Other
      faults are shown by theorems and on concrete runs next to their components: a row swapped in
      twice ([processed_while_reconnecting_twice]), an alert that throws when it is closed twice
      ([alert_closed_twice_throws]), a disposed scroll spy whose links throw
      ([spy_disposed_click_throws]), modals that stop following the window when one of them is
      disposed of ([dispose_stops_resizing]), two panels open at once ([panels_open_together]), options
      that jQuery calls do not pass on and private methods that they reach
      ([jquery_collapse_ignores_options], [jquery_private_methods]), and
      [modal_reopened_without_backdrop], [toast_hides_under_pointer], [tooltip_hides_under_hover],
      [scrollbar_loses_styles], [shared_menu_keeps_popper] and [spy_toggle_stays_active].

    ** Bounds and fuel

    Walks of a tree take its size or height as fuel, which [WfTree] bounds and the theorems show
    to be enough. Popper's update loop has the fuel [updateFuel], more than the rounds that one
    reset can cause; [createPopper_positions] shows that it suffices when a popper is made, [popper_follows_layout]
    at every later update. [getUID] tries one draw more than there are elements, which is enough
    whatever is drawn, since what it tries gets longer. A carousel runs its queued
    requests with [fuelFor], which grows with their number. [Tab] follows links
    with the fuel [linkFuel], the size of the page; in the source links in a circle would not end. Lengths are rationals: the sources
    compute with doubles, whose rounding is not modelled.

    ** What is not modelled

    The C# services, the Razor pages and the Go operator; htmx itself (minified); the other
    builds of Bootstrap, which are copies: the same source in other module formats, without Popper
    or minified. Of the bundle: what only reads constants (the getters [Default],
    [DefaultType] and [NAME], which are the constants here), [reflow], which makes the browser lay
    out the page and changes nothing, and [findShadowRoot], whose result is an argument; a dialog
    that is not in the document when its modal is made; a [data-bs-slide-to] that is no number.

    The functions that [BsListeners] runs when an event is delivered leave the registry alone, apart
    from the one-off handlers, which [EventHandler] itself takes off. What a toast leaves behind
    when it is disposed of is in [BsToast], not in [BsToastPage]. The identifier that a tooltip
    draws from [getUID] is an argument of [BsTooltip].

    In [BsTooltip] and [BsDropdown] a popper is an identity with its options; [BsPopper] takes it
    from there, through any updates, for options without a [popperConfig]. The changes of a tip's contents
    between two updates reach Popper only as changes of the layout. *)
From Stdlib Require Import Ascii QArith Qminmax Qround Qabs Lqa Lia.
From stdpp Require Export base gmap strings list.

(** ** Results: the value a JavaScript function returns, or what it throws *)

Inductive exn :=
  | TypeError (msg : string)   (** a [TypeError], e.g. a property read of [undefined] *)
  | JsError (msg : string)         (** an [Error] that the code throws itself *)
  | DOMException (name : string)   (** what a method of the DOM throws *)
  | NaNResult                  (** arithmetic on [undefined]: the code goes on with [NaN] *)
  | OutOfFuel.                 (** the model's recursion bound was too small *)

Inductive res (A : Type) :=
  | Ok (a : A)
  | Err (e : exn).
Arguments Ok {A} a.
Arguments Err {A} e.

(** A handler that changes the state and may then throw. *)
Definition outcome (S : Type) : Type := S * option exn.
Definition andThen {S} (r : outcome S) (f : S -> outcome S) : outcome S :=
  match r with (s, None) => f s | (s, Some e) => (s, Some e) end.

#[export] Instance exn_eq_dec : EqDecision exn.
Proof. solve_decision. Defined.

#[export] Instance res_ret : MRet res := fun A a => Ok a.
#[export] Instance res_bind : MBind res :=
  fun A B f m => match m with Ok a => f a | Err e => Err e end.

(** An optional property read as a number: reading a missing one gives [NaN]. *)
Definition need {A} (o : option A) : res A :=
  match o with Some a => Ok a | None => Err NaNResult end.

(** A property read of a value that may be [undefined]. *)
Definition need_obj {A} (o : option A) : res A :=
  match o with Some a => Ok a | None => Err (TypeError "undefined") end.

Definition is_ok {A} (r : res A) : bool :=
  match r with Ok _ => true | Err _ => false end.

(** [Array.prototype.reduce] with a callback that may throw. *)
Fixpoint foldM {A B} (f : A -> B -> res A) (l : list B) (a : A) : res A :=
  match l with
  | [] => Ok a
  | x :: l => a' ← f a x; foldM f l a'
  end.

Lemma foldM_app {A B} (f : A -> B -> res A) (l1 l2 : list B) (a : A) : foldM f (l1 ++ l2) a = (a' ← foldM f l1 a; foldM f l2 a').
Proof. revert a. induction l1 as [|x l1 IH]; intros a; [done|]. cbn. destruct (f a x) as [a'|e]; [apply IH|done]. Qed.

Lemma filter_filter {A} (p q : A -> bool) l : List.filter p (List.filter q l) = List.filter (fun x => q x && p x) l.
Proof. induction l as [|x l IH]; [done|]. cbn. destruct (q x); cbn; by rewrite IH. Qed.

(** [Array.prototype.map] with a callback that may throw. *)
Fixpoint mapM_res {A B} (f : A -> res B) (l : list A) : res (list B) :=
  match l with
  | [] => Ok []
  | x :: l => y ← f x; ys ← mapM_res f l; Ok (y :: ys)
  end.

Lemma bind_ok {A B} (m : res A) (f : A -> res B) b :
  (m ≫= f) = Ok b <-> exists a, m = Ok a /\ f a = Ok b.
Proof.
  destruct m as [a|e]; cbn; split.
  - intros H; eauto.
  - intros (a' & [= ->] & H); done.
  - done.
  - intros (a' & H & _); done.
Qed.

Lemma mapM_res_ok {A B} (f : A -> res B) (g : A -> B) l :
  (forall x, In x l -> f x = Ok (g x)) -> mapM_res f l = Ok (map g l).
Proof.
  induction l as [|x l IH]; intros H; cbn; [done|].
  rewrite H by (left; done). cbn. rewrite IH; [done|].
  intros y Hy; apply H; by right.
Qed.

(** ** Strings, with the string methods of JavaScript that the sources use *)

Abbreviation str_eqb := String.eqb.

Fixpoint str_skip (n : nat) (s : string) : string :=
  match n, s with
  | O, _ => s
  | S n, String _ s => str_skip n s
  | S _, EmptyString => EmptyString
  end.

Lemma str_app_cons c (a b : string) : String c a +:+ b = String c (a +:+ b).
Proof. reflexivity. Qed.
Lemma str_app_nil (b : string) : "" +:+ b = b.
Proof. reflexivity. Qed.

Lemma string_app_assoc (a b c : string) : (a +:+ b) +:+ c = a +:+ b +:+ c.
Proof. induction a as [|x a IH]; [done|]. rewrite !str_app_cons. by rewrite IH. Qed.

(** [s.startsWith(p)] *)
Definition startsWith (s p : string) : bool := String.prefix p s.

(** [s.includes(p)] *)
Fixpoint str_includes (s p : string) : bool :=
  startsWith s p ||
  match s with
  | EmptyString => false
  | String _ s => str_includes s p
  end.

(** [s.split(c)] on a one-character separator; never the empty list. *)
Fixpoint split_char (c : ascii) (s : string) : list string :=
  match s with
  | EmptyString => [EmptyString]
  | String a s =>
      if Ascii.eqb a c then EmptyString :: split_char c s
      else match split_char c s with
           | [] => [String a EmptyString]
           | w :: ws => String a w :: ws
           end
  end.

(** [a.join(sep)] *)
Fixpoint str_join (sep : string) (l : list string) : string :=
  match l with
  | [] => ""
  | [s] => s
  | s :: l => s +:+ sep +:+ str_join sep l
  end.

Definition is_upper (a : ascii) : bool :=
  let n := Ascii.nat_of_ascii a in (65 <=? n)%nat && (n <=? 90)%nat.
Definition is_lower (a : ascii) : bool :=
  let n := Ascii.nat_of_ascii a in (97 <=? n)%nat && (n <=? 122)%nat.
Definition is_digit (a : ascii) : bool :=
  let n := Ascii.nat_of_ascii a in (48 <=? n)%nat && (n <=? 57)%nat.
(** The ASCII part of what [trim] and [\s] treat as white space. *)
Definition is_space (a : ascii) : bool :=
  let n := Ascii.nat_of_ascii a in (n =? 32)%nat || ((9 <=? n)%nat && (n <=? 13)%nat).

Definition ascii_lower (a : ascii) : ascii :=
  if is_upper a then Ascii.ascii_of_nat (Ascii.nat_of_ascii a + 32) else a.
Definition ascii_upper (a : ascii) : ascii :=
  if is_lower a then Ascii.ascii_of_nat (Ascii.nat_of_ascii a - 32) else a.

Fixpoint str_map (f : ascii -> ascii) (s : string) : string :=
  match s with
  | EmptyString => EmptyString
  | String a s => String (f a) (str_map f s)
  end.

(** [s.toLowerCase()], [s.toUpperCase()] on ASCII letters. *)
Definition toLowerCase (s : string) : string := str_map ascii_lower s.
Definition toUpperCase (s : string) : string := str_map ascii_upper s.

(** [s.trim()] *)
Fixpoint str_trimStart (s : string) : string :=
  match s with
  | EmptyString => EmptyString
  | String a s' => if is_space a then str_trimStart s' else s
  end.
Fixpoint str_trimEnd (s : string) : string :=
  match s with
  | EmptyString => EmptyString
  | String a s =>
      match str_trimEnd s with
      | EmptyString => if is_space a then EmptyString else String a EmptyString
      | s' => String a s'
      end
  end.
Definition str_trim (s : string) : string := str_trimEnd (str_trimStart s).

(** JavaScript's truthiness of a string. *)
Definition str_truthy (s : string) : bool := negb (str_eqb s "").

(** [===] on values that are a string or [undefined]. *)
Definition ostr_eqb (a b : option string) : bool :=
  match a, b with
  | Some x, Some y => str_eqb x y
  | None, None => true
  | _, _ => false
  end.

Lemma ostr_eqb_eq a b : ostr_eqb a b = true <-> a = b.
Proof.
  destruct a as [x|], b as [y|]; cbn; try (split; congruence).
  rewrite String.eqb_eq. split; congruence.
Qed.

(** ** Lists, with the array methods of JavaScript *)

(** [a.includes(x)] on strings. *)
Definition in_strs (x : string) (l : list string) : bool := existsb (str_eqb x) l.

(** [a.indexOf(x)], with [None] for [-1]. *)
Fixpoint indexOf {A} `{EqDecision A} (x : A) (l : list A) : option nat :=
  match l with
  | [] => None
  | y :: l => if decide (y = x) then Some O else S <$> indexOf x l
  end.

(** ** Objects used as maps: association lists in insertion order.
    (Keys that look like array indices, which JavaScript would list first, are
    not used as property names by the code modelled here.) *)

Definition obj (A : Type) := list (string * A).

Fixpoint oget {A} (k : string) (o : obj A) : option A :=
  match o with
  | [] => None
  | (k', v) :: o => if str_eqb k k' then Some v else oget k o
  end.

(** [o[k] = v]: an existing key keeps its position, a new one goes last. *)
Fixpoint oset {A} (k : string) (v : A) (o : obj A) : obj A :=
  match o with
  | [] => [(k, v)]
  | (k', v') :: o => if str_eqb k k' then (k', v) :: o else (k', v') :: oset k v o
  end.

(** [delete o[k]] *)
Fixpoint odelete {A} (k : string) (o : obj A) : obj A :=
  match o with
  | [] => []
  | (k', v') :: o => if str_eqb k k' then odelete k o else (k', v') :: odelete k o
  end.

(** [Object.keys(o)] *)
Definition okeys {A} (o : obj A) : list string := map fst o.

(** [Object.assign(a, b)], also the object spread [{...a, ...b}]. *)
Definition oassign {A} (a b : obj A) : obj A :=
  fold_left (fun acc kv => oset (fst kv) (snd kv) acc) b a.

Definition ohas {A} (k : string) (o : obj A) : bool :=
  match oget k o with Some _ => true | None => false end.

Section obj_lemmas.
Context {A : Type}.
Implicit Types (k j : string) (v : A) (o a b : obj A).

Lemma oget_oset_eq k v o : oget k (oset k v o) = Some v.
Proof.
  induction o as [|[k' v'] o IH]; cbn.
  - by rewrite String.eqb_refl.
  - destruct (String.eqb_spec k k') as [->|Hne]; cbn.
    + by rewrite String.eqb_refl.
    + by apply String.eqb_neq in Hne as ->.
Qed.

Lemma oget_oset_ne k j v o : j <> k -> oget j (oset k v o) = oget j o.
Proof.
  intros Hne. induction o as [|[k' v'] o IH]; cbn.
  - by apply String.eqb_neq in Hne as ->.
  - destruct (String.eqb_spec k k') as [->|Hk]; cbn.
    + by apply String.eqb_neq in Hne as ->.
    + by rewrite IH.
Qed.

Lemma oget_oset k j v o :
  oget j (oset k v o) = if str_eqb j k then Some v else oget j o.
Proof.
  destruct (String.eqb_spec j k) as [->|Hne].
  - apply oget_oset_eq.
  - by apply oget_oset_ne.
Qed.

Lemma oget_odelete k j o :
  oget j (odelete k o) = if str_eqb j k then None else oget j o.
Proof.
  induction o as [|[k' v'] o IH]; cbn.
  - by destruct (str_eqb j k).
  - destruct (String.eqb_spec k k') as [->|Hk]; cbn; rewrite IH.
    + by destruct (String.eqb_spec j k').
    + destruct (String.eqb_spec j k') as [->|]; [|done].
      destruct (String.eqb_spec k' k); [congruence|done].
Qed.

Lemma oget_Some_In k v o : oget k o = Some v -> In k (okeys o).
Proof.
  induction o as [|[k' v'] o IH]; cbn; [done|].
  destruct (String.eqb_spec k k') as [->|]; [by left|]. auto.
Qed.

Lemma oget_None k o : oget k o = None <-> ~ In k (okeys o).
Proof.
  induction o as [|[k' v'] o IH]; cbn; [tauto|].
  destruct (String.eqb_spec k k') as [->|Hne].
  - split; [done|tauto].
  - rewrite IH. unfold okeys. intuition congruence.
Qed.

Lemma okeys_oset_old k v o : In k (okeys o) -> okeys (oset k v o) = okeys o.
Proof.
  induction o as [|[k' v'] o IH]; cbn; [done|].
  destruct (String.eqb_spec k k') as [->|Hne]; cbn; [done|].
  intros [->|H]; [done|]. f_equal. by apply IH.
Qed.

Lemma okeys_oset_new k v o : ~ In k (okeys o) -> okeys (oset k v o) = okeys o ++ [k].
Proof.
  induction o as [|[k' v'] o IH]; cbn; [done|].
  destruct (String.eqb_spec k k') as [->|Hne]; cbn; [tauto|].
  intros H. f_equal. apply IH. tauto.
Qed.

Lemma In_okeys_oset k j v o : In j (okeys (oset k v o)) <-> j = k \/ In j (okeys o).
Proof.
  destruct (in_dec String.string_dec k (okeys o)) as [Hin|Hin].
  - rewrite okeys_oset_old by done. intuition congruence.
  - rewrite okeys_oset_new, in_app_iff by done. cbn. intuition congruence.
Qed.

Lemma NoDup_okeys_oset k v o : List.NoDup (okeys o) -> List.NoDup (okeys (oset k v o)).
Proof.
  intros H. destruct (in_dec String.string_dec k (okeys o)) as [Hin|Hin].
  - by rewrite okeys_oset_old.
  - rewrite okeys_oset_new by done. apply NoDup_ListNoDup, NoDup_app.
    split; [by apply NoDup_ListNoDup|]. split.
    + intros x Hx ->%list_elem_of_singleton. by apply Hin, list_elem_of_In.
    + apply NoDup_singleton.
Qed.

(** The last binding of [b] wins; keys that [b] does not have keep [a]'s value. *)
Lemma oget_oassign_cons a k v b :
  oassign a ((k, v) :: b) = oassign (oset k v a) b.
Proof. done. Qed.

Lemma oget_oassign_notin j a b : ~ In j (okeys b) -> oget j (oassign a b) = oget j a.
Proof.
  revert a. induction b as [|[k v] b IH]; intros a H; [done|].
  rewrite oget_oassign_cons. cbn in H. rewrite IH by tauto.
  apply oget_oset_ne. naive_solver.
Qed.

Lemma oget_oassign j a b :
  List.NoDup (okeys b) ->
  oget j (oassign a b) = match oget j b with Some v => Some v | None => oget j a end.
Proof.
  revert a. induction b as [|[k v] b IH]; intros a Hnd; [done|].
  rewrite oget_oassign_cons. cbn in Hnd. apply List.NoDup_cons_iff in Hnd as [Hk Hnd].
  cbn. destruct (String.eqb_spec j k) as [->|Hne].
  - rewrite oget_oassign_notin by done. apply oget_oset_eq.
  - rewrite IH, oget_oset_ne by done. done.
Qed.

Lemma okeys_odelete k o : okeys (odelete k o) = List.filter (fun j => negb (str_eqb k j)) (okeys o).
Proof.
  unfold okeys in *. induction o as [|[j w] o IH]; cbn; [done|].
  destruct (str_eqb k j) eqn:E; cbn; by rewrite IH.
Qed.

Lemma NoDup_odelete k o : List.NoDup (okeys o) -> List.NoDup (okeys (odelete k o)).
Proof. rewrite okeys_odelete. apply List.NoDup_filter. Qed.
End obj_lemmas.

Section list_lemmas.
Context {A : Type} `{EqDecision A}.
Implicit Types (x : A) (l : list A).

Lemma indexOf_Some x l i :
  indexOf x l = Some i -> l !! i = Some x /\ forall j, (j < i)%nat -> l !! j <> Some x.
Proof.
  revert i. induction l as [|y l IH]; intros i; cbn; [done|].
  case_decide as Hy.
  - intros [= <-]. subst. split; [done|]. lia.
  - destruct (indexOf x l) as [n|]; cbn; [|done]. intros [= <-].
    destruct (IH n eq_refl) as [Hl Hlt]. split; [done|].
    intros [|j] Hj; cbn; [congruence|]. apply Hlt; lia.
Qed.

Lemma indexOf_None x l : indexOf x l = None <-> ~ In x l.
Proof.
  induction l as [|y l IH]; cbn; [tauto|].
  case_decide as Hy; [intuition congruence|].
  destruct (indexOf x l) eqn:E; cbn; intuition congruence.
Qed.

Lemma indexOf_lt x l i : indexOf x l = Some i -> (i < length l)%nat.
Proof. intros [H _]%indexOf_Some. by eapply lookup_lt_Some. Qed.
End list_lemmas.

Lemma in_strs_In x l : in_strs x l = true <-> In x l.
Proof.
  unfold in_strs. rewrite existsb_exists. split.
  - intros (y & Hy & ->%String.eqb_eq). done.
  - intros H. exists x. by rewrite String.eqb_refl.
Qed.

Lemma in_strs_false x l : in_strs x l = false <-> ~ In x l.
Proof. rewrite <- in_strs_In. by destruct (in_strs x l). Qed.

(** ** Numbers: JavaScript numbers are modelled by exact rationals *)

Definition Qlt_bool (x y : Q) : bool := negb (Qle_bool y x).

Lemma Qlt_bool_iff x y : Qlt_bool x y = true <-> (x < y)%Q.
Proof.
  unfold Qlt_bool. rewrite negb_true_iff, <- not_true_iff_false, Qle_bool_iff.
  split; [apply Qnot_le_lt|apply Qlt_not_le].
Qed.

(** [Math.round]: halves are rounded up. *)
Definition Qround (x : Q) : Q := inject_Z (Qfloor (x + (1 # 2))).

Lemma Qround_bounds x : (x - (1 # 2) < Qround x)%Q /\ (Qround x <= x + (1 # 2))%Q.
Proof.
  unfold Qround. pose proof (Qlt_floor (x + (1 # 2))) as Hlt.
  pose proof (Qfloor_le (x + (1 # 2))) as Hle.
  rewrite inject_Z_plus in Hlt. change (inject_Z 1) with 1%Q in Hlt.
  split; lra.
Qed.

(** Case analysis on every [Qmin]/[Qmax] of the goal and the context, then [lra]. *)
Ltac q_case spec t :=
  let m := fresh "m" in let H := fresh "H" in
  pose proof spec as H; set (m := t) in *; clearbody m; destruct H as [[? ?]|[? ?]].
Ltac q_minmax :=
  repeat match goal with
  | |- context [Qmax ?a ?b] => q_case (Q.max_spec a b) (Qmax a b)
  | |- context [Qmin ?a ?b] => q_case (Q.min_spec a b) (Qmin a b)
  | _ : context [Qmax ?a ?b] |- _ => q_case (Q.max_spec a b) (Qmax a b)
  | _ : context [Qmin ?a ?b] |- _ => q_case (Q.min_spec a b) (Qmin a b)
  end.
(** [lra] after writing halves as products. *)
Ltac qlra := unfold Qdiv in *; change (/ 2)%Q with (1 # 2)%Q in *; lra.
Ltac q_lra := intros; q_minmax; repeat split; qlra.

(** Decide the boolean comparisons on rationals that the goal branches on. *)
Ltac q_cases :=
  repeat match goal with
  | |- context [Qle_bool ?a ?b] =>
      let E := fresh "E" in
      destruct (Qle_bool a b) eqn:E;
      [apply Qle_bool_iff in E | apply not_true_iff_false in E; rewrite Qle_bool_iff in E;
       apply Qnot_le_lt in E]
  | |- context [Qlt_bool ?a ?b] =>
      let E := fresh "E" in
      destruct (Qlt_bool a b) eqn:E;
      [apply Qlt_bool_iff in E | apply not_true_iff_false in E; rewrite Qlt_bool_iff in E;
       apply Qnot_lt_le in E]
  end.

(** ** Hint databases of the development *)
Create HintDb js discriminated.
Create Rewrite HintDb js.
#[export] Hint Resolve oget_oset_eq NoDup_okeys_oset Qround_bounds : js.
#[export] Hint Rewrite @oget_oset @oget_odelete : js.
