(* ===== verification/Ticker.v ===== *)
(** The site's own client script, [wwwroot/js/ticker.js]: it caps the live feed at
    [MAX_ROWS] rows and shows whether the event stream is connected. *)
From Stdlib Require Import Lia.
From S2P Require Import Prelude.

(** The parts of the home page the script reads and writes; [None] is an element that
    [getElementById] does not find. *)
Record page (row : Type) := Page {
  pg_ticker : option (list row);       (** the child elements of [#ticker] *)
  pg_empty : bool;                     (** [#ticker-empty] is on the page *)
  pg_dot : option string;              (** [className] of [#sse-status] *)
  pg_text : option string              (** [textContent] of [#sse-status-text] *)
}.
Arguments Page {row}.
Arguments pg_ticker {row}.
Arguments pg_empty {row}.
Arguments pg_dot {row}.
Arguments pg_text {row}.

Definition MAX_ROWS : nat := 40.

Section ticker.
Context {row : Type}.
Implicit Types (p : page row) (rows : list row).

(** [removeChild(lastElementChild)]; with no child left it throws. *)
Definition removeLast rows : res (list row) :=
  match rows with [] => Err (TypeError "removeChild") | _ => Ok (removelast rows) end.

(** The [while] loop of [trim]. *)
Fixpoint trimLoop (fuel : nat) rows : res (list row) :=
  if (MAX_ROWS <? length rows)%nat then
    match fuel with
    | O => Err OutOfFuel
    | S fuel => rows ← removeLast rows; trimLoop fuel rows
    end
  else Ok rows.

Definition trim p : res (page row) :=
  match pg_ticker p with
  | None => Ok p
  | Some rows =>
      rows ← trimLoop (length rows) rows;
      Ok (Page (Some rows) (pg_empty p && negb (0 <? length rows)%nat) (pg_dot p) (pg_text p))
  end.

Definition status (connected : bool) p : page row :=
  Page (pg_ticker p) (pg_empty p)
    (match pg_dot p with
     | Some _ => Some ("dot " +:+ (if connected then "on" else "off"))
     | None => None
     end)
    (match pg_text p with
     | Some _ => Some (if connected then "connected" else "offline")
     | None => None
     end).

(** The three listeners the script puts on [document.body]. *)
Definition onBodyEvent (name : string) p : res (page row) :=
  if str_eqb name "htmx:sseMessage" then trim p
  else if str_eqb name "htmx:sseOpen" then Ok (status true p)
  else if str_eqb name "htmx:sseError" then Ok (status false p)
  else Ok p.

(** ** The loop keeps the first rows *)

Lemma removeLast_take rows : rows <> [] -> removeLast rows = Ok (take (pred (length rows)) rows).
Proof. intros H. destruct rows; [done|]. cbn [removeLast]. by rewrite removelast_firstn_len. Qed.

Lemma trimLoop_spec fuel rows :
  (length rows <= MAX_ROWS + fuel)%nat -> trimLoop fuel rows = Ok (take MAX_ROWS rows).
Proof.
  revert rows. induction fuel as [|fuel IH]; intros rows Hlen; unfold trimLoop; fold trimLoop.
  - destruct (Nat.ltb_spec MAX_ROWS (length rows)); [lia|]. by rewrite take_ge by lia.
  - destruct (Nat.ltb_spec MAX_ROWS (length rows)) as [Hlt|Hge]; [|by rewrite take_ge by lia].
    rewrite removeLast_take by (by intros ->; cbn in Hlt; lia). cbn [mbind res_bind].
    rewrite IH by (rewrite length_take; lia). rewrite take_take. do 2 f_equal. lia.
Qed.

Lemma trim_eq p :
  trim p = Ok match pg_ticker p with
              | None => p
              | Some rows => Page (Some (take MAX_ROWS rows)) (pg_empty p && bool_decide (rows = []))
                               (pg_dot p) (pg_text p)
              end.
Proof.
  unfold trim. destruct (pg_ticker p) as [rows|] eqn:E; [|done].
  rewrite trimLoop_spec by lia. cbn [mbind res_bind]. do 3 f_equal.
  destruct rows; [done|]. by rewrite bool_decide_false by done.
Qed.
End ticker.

(** C7: [trim] comes to an end on every page without an error; it leaves the first forty
    rows in their order, and takes the "waiting" note away exactly when there is a row. *)
Theorem trim_spec {row} (p : page row) (rows : list row) :
  pg_ticker p = Some rows ->
  exists p', trim p = Ok p' /\ pg_ticker p' = Some (take MAX_ROWS rows) /\
    (pg_empty p' = true <-> pg_empty p = true /\ rows = []) /\
    pg_dot p' = pg_dot p /\ pg_text p' = pg_text p.
Proof.
  intros E. rewrite trim_eq, E. eexists. split; [done|]. cbn.
  rewrite andb_true_iff, bool_decide_eq_true. done.
Qed.

Lemma trim_spec_witness :
  exists p', trim (Page (Some (seq 0 45)) true None None) = Ok p' /\ pg_ticker p' = Some (seq 0 40) /\
    pg_empty p' = false.
Proof.
  destruct (trim_spec (Page (Some (seq 0 45)) true None None) (seq 0 45) eq_refl)
    as (p' & H & Ht & He & _).
  exists p'. split; [exact H|]. split; [exact Ht|].
  destruct (pg_empty p'); [|reflexivity]. destruct (proj1 He eq_refl) as [_ E]. discriminate E.
Defined.
