(* ===== verification/Sse.v ===== *)
(** The server-sent events extension of htmx, [wwwroot/lib/htmx/sse.js]: connecting an
    element to an event stream, reconnecting with a growing delay, and swapping the
    messages of the stream into the elements that ask for them. *)
From Stdlib Require Import Ascii Lia.
From S2P Require Import Prelude Ticker.

Abbreviation elt := nat (only parsing).
Abbreviation sid := nat (only parsing).                (** an [EventSource] object *)

Inductive readyState := CONNECTING | OPEN | CLOSED.
#[export] Instance readyState_eq_dec : EqDecision readyState.
Proof. solve_decision. Defined.

(** The closures the extension registers. [id] tells two closures made from the same
    source text apart, as [addEventListener] does. *)
Inductive listener :=
  | SwapListener (id : nat) (e sourceElement : elt) (source : sid) (name : string)
  | TriggerListener (id : nat) (e sourceElement : elt) (source : sid) (trigger : string)
  | CloseListener (id : nat) (e : elt) (source : sid).
#[export] Instance listener_eq_dec : EqDecision listener.
Proof. solve_decision. Defined.

(** An [EventSource] with the variables its [onerror] and [onopen] close over. *)
Record eventSource := EventSource {
  es_url : string;
  es_elt : elt;
  es_readyState : readyState;
  es_retryCount : option nat;          (** [None] is [undefined] *)
  es_listeners : list (string * listener)
}.

Definition set_readyState (r : readyState) (es : eventSource) : eventSource :=
  EventSource (es_url es) (es_elt es) r (es_retryCount es) (es_listeners es).
Definition set_retryCount (r : option nat) (es : eventSource) : eventSource :=
  EventSource (es_url es) (es_elt es) (es_readyState es) r (es_listeners es).
Definition set_es_listeners (l : list (string * listener)) (es : eventSource) : eventSource :=
  EventSource (es_url es) (es_elt es) (es_readyState es) (es_retryCount es) l.

(** What htmx and the page offer the extension. [dispatch] is [triggerEvent] with every
    listener the page has; its boolean is false when one of them prevents the event. *)
Class Htmx (dom : Type) := {
  rawAttribute : dom -> elt -> string -> option string;
  ancestorsOf : dom -> elt -> list elt;      (** the element itself first *)
  descendantsOf : dom -> elt -> list elt;    (** in document order, without the element *)
  bodyContains : dom -> elt -> bool;
  getTriggerSpecs : dom -> elt -> list string;
  transformResponse : dom -> elt -> string -> string;
  getSwapSpecification : dom -> elt -> string;
  getTarget : dom -> elt -> elt;
  swapContent : dom -> elt -> string -> string -> dom;
  dispatch : dom -> elt -> string -> dom * bool
}.

Inductive note := Triggered (e : elt) (name : string) | Swapped (e : elt) (content : string).

Record world (dom : Type) := World {
  w_dom : dom;
  w_sources : gmap sid eventSource;
  w_next : nat;                          (** the next identity of an object *)
  w_source : gmap elt sid;               (** [internalData.sseEventSource] *)
  w_listener : gmap elt listener;        (** [internalData.sseEventListener] *)
  w_timers : list (sid * nat);           (** pending timeouts: whose closure, how long *)
  w_log : list note
}.
Arguments World {dom}.
Arguments w_dom {dom}.
Arguments w_sources {dom}.
Arguments w_next {dom}.
Arguments w_source {dom}.
Arguments w_listener {dom}.
Arguments w_timers {dom}.
Arguments w_log {dom}.

Section extension.
Context {dom : Type} `{H : Htmx dom}.
Implicit Types (w : world dom) (e : elt) (s : sid).

Definition set_dom (d : dom) (n : list note) w : world dom :=
  World d (w_sources w) (w_next w) (w_source w) (w_listener w) (w_timers w) (w_log w ++ n).
Definition set_sources (m : gmap sid eventSource) w : world dom :=
  World (w_dom w) m (w_next w) (w_source w) (w_listener w) (w_timers w) (w_log w).
Definition set_timers (t : list (sid * nat)) w : world dom :=
  World (w_dom w) (w_sources w) (w_next w) (w_source w) (w_listener w) t (w_log w).
Definition update_source s (f : eventSource -> eventSource) w : world dom :=
  set_sources (alter f s (w_sources w)) w.

Definition truthy (o : option string) : option string :=
  match o with Some v => if str_truthy v then Some v else None | None => None end.

(** htmx: the attribute, or the same with [data-] in front. *)
Definition getAttributeValue (d : dom) e (name : string) : option string :=
  match truthy (rawAttribute d e name) with
  | Some v => Some v
  | None => rawAttribute d e ("data-" +:+ name)
  end.

Definition triggerEvent e (name : string) w : world dom * bool :=
  let '(d, ok) := dispatch (w_dom w) e name in (set_dom d [Triggered e name] w, ok).

Definition close s w : world dom := update_source s (set_readyState CLOSED) w.

Definition hasEventSource w e : bool := bool_decide (is_Some (w_source w !! e)).

(** htmx: the first of the element and its ancestors that satisfies the condition. *)
Definition getClosestMatch w e (condition : elt -> bool) : option elt :=
  List.find condition (ancestorsOf (w_dom w) e).

Definition createEventSource (url : string) e (retryCount : option nat) : eventSource :=
  EventSource url e CONNECTING retryCount [].

(** [source.addEventListener(name, listener)] with a closure made on the spot, which is
    also remembered in the element's internal data. *)
Definition addSseListener e s (name : string) (mk : nat -> listener) w : world dom :=
  let l := mk (w_next w) in
  World (w_dom w) (alter (fun es => set_es_listeners (es_listeners es ++ [(name, l)]) es) s (w_sources w))
    (S (w_next w)) (w_source w) (<[e := l]> (w_listener w)) (w_timers w) (w_log w).

Definition removeEventListener s (name : string) (l : listener) w : world dom :=
  update_source s (fun es => set_es_listeners (filter (fun x => x <> (name, l)) (es_listeners es)) es) w.

Definition swapNames (attr : string) : list string := map str_trim (split_char "," attr).

Definition sseTriggers (specs : list string) : list string :=
  List.filter (fun t => str_eqb (String.substring 0 4 t) "sse:") specs.

(** The two halves of [registerSSE]; [None] is its early return. *)
Definition registerSwaps e w : option (world dom) :=
  match truthy (getAttributeValue (w_dom w) e "sse-swap") with
  | None => Some w
  | Some attr =>
      sourceElement ← getClosestMatch w e (hasEventSource w);
      source ← w_source w !! sourceElement;
      Some (fold_left (fun w name => addSseListener e source name
              (fun id => SwapListener id e sourceElement source name) w) (swapNames attr) w)
  end.

Definition registerTriggers e w : option (world dom) :=
  match truthy (getAttributeValue (w_dom w) e "hx-trigger") with
  | None => Some w
  | Some _ =>
      sourceElement ← getClosestMatch w e (hasEventSource w);
      source ← w_source w !! sourceElement;
      Some (fold_left (fun w t => addSseListener e source (str_skip 4 t)
              (fun id => TriggerListener id e sourceElement source t) w)
              (sseTriggers (getTriggerSpecs (w_dom w) e)) w)
  end.

Definition registerSSE e w : world dom :=
  match registerSwaps e w with
  | None => w
  | Some w => match registerTriggers e w with None => w | Some w => w end
  end.

(** Creates the source and its handlers; the handlers are [onerror] and [onopen] below. *)
Definition ensureEventSource e (url : string) (retryCount : option nat) w : world dom :=
  let s := w_next w in
  let w := World (w_dom w) (<[s := createEventSource url e retryCount]> (w_sources w)) (S s)
             (<[e := s]> (w_source w)) (w_listener w) (w_timers w) (w_log w) in
  match truthy (getAttributeValue (w_dom w) e "sse-close") with
  | None => w
  | Some name =>
      World (w_dom w)
        (alter (fun es => set_es_listeners (es_listeners es ++ [(name, CloseListener (w_next w) e s)]) es)
           s (w_sources w))
        (S (w_next w)) (w_source w) (w_listener w) (w_timers w) (w_log w)
  end.

Definition ensureEventSourceOnElement (oe : option elt) (retryCount : option nat) w : world dom :=
  match oe with
  | None => w
  | Some e =>
      let w := match truthy (getAttributeValue (w_dom w) e "sse-connect") with
               | Some url => ensureEventSource e url retryCount w
               | None => w
               end in
      registerSSE e w
  end.

Definition maybeCloseSSESource e w : world dom * bool :=
  if negb (bodyContains (w_dom w) e) then
    match w_source w !! e with
    | Some s => let '(w, _) := triggerEvent e "htmx:sseClose" w in (close s w, true)
    | None => (w, false)
    end
  else (w, false).

Definition nextRetry (retryCount : option nat) : nat :=
  Nat.max (Nat.min (default 0 retryCount * 2) 128) 1.

Definition onerror s w : world dom :=
  match w_sources w !! s with
  | None => w
  | Some es =>
      let '(w, _) := triggerEvent (es_elt es) "htmx:sseError" w in
      let '(w, gone) := maybeCloseSSESource (es_elt es) w in
      if gone then w
      else
        match w_sources w !! s with
        | Some es =>
            if decide (es_readyState es = CLOSED) then
              let retryCount := nextRetry (es_retryCount es) in
              let w := update_source s (set_retryCount (Some retryCount)) w in
              set_timers (w_timers w ++ [(s, retryCount * 500)]) w
            else w
        | None => w
        end
  end.

Definition selectedAttributes : list string := ["sse-swap"; "data-sse-swap"; "hx-trigger"; "data-hx-trigger"].

Definition childrenToFix (d : dom) e : list elt :=
  List.filter (fun c => existsb (fun a => bool_decide (is_Some (rawAttribute d c a))) selectedAttributes)
    (descendantsOf d e).

Definition onopen s w : world dom :=
  match w_sources w !! s with
  | None => w
  | Some es =>
      let '(w, _) := triggerEvent (es_elt es) "htmx:sseOpen" w in
      if (0 <? default 0 (es_retryCount es)) then
        let w := fold_left (fun w c => registerSSE c w) (childrenToFix (w_dom w) (es_elt es)) w in
        update_source s (set_retryCount (Some 0)) w
      else w
  end.

Definition swap e (content : string) w : world dom :=
  let d := w_dom w in
  let content := transformResponse d e content in
  let swapSpec := getSwapSpecification d e in
  let target := getTarget d e in
  set_dom (swapContent d target content swapSpec) [Swapped e content] w.

Definition runListener (data : string) (l : listener) w : world dom :=
  match l with
  | SwapListener _ e sourceElement source name =>
      let '(w, gone) := maybeCloseSSESource sourceElement w in
      if gone then w
      else if negb (bodyContains (w_dom w) e) then removeEventListener source name l w
      else
        let '(w, ok) := triggerEvent e "htmx:sseBeforeMessage" w in
        if negb ok then w
        else fst (triggerEvent e "htmx:sseMessage" (swap e data w))
  | TriggerListener _ e sourceElement source trigger =>
      let '(w, gone) := maybeCloseSSESource sourceElement w in
      if gone then w
      else
        let w := if negb (bodyContains (w_dom w) e)
                 then removeEventListener source (str_skip 4 trigger) l w else w in
        let '(w, _) := triggerEvent e trigger w in
        fst (triggerEvent e "htmx:sseMessage" w)
  | CloseListener _ e source => close source (fst (triggerEvent e "htmx:sseClose" w))
  end.

(** The extension's [onEvent]. *)
Definition beforeCleanupElement e w : world dom :=
  match w_source w !! e with
  | Some s => close s (fst (triggerEvent e "htmx:sseClose" w))
  | None => w
  end.
Definition afterProcessNode e w : world dom := ensureEventSourceOnElement (Some e) None w.

(** ** What happens to the page, one event at a time *)

Inductive event :=
  | Process (e : elt)                              (** [htmx:afterProcessNode] *)
  | Cleanup (e : elt)                              (** [htmx:beforeCleanupElement] *)
  | SourceOpens (s : sid)
  | SourceFails (s : sid) (final : bool)           (** not final: the browser reconnects itself *)
  | SourceSends (s : sid) (name data : string)
  | TimerFires (k : nat)
  | PageChanges (d : dom).

Definition hasState s (r : readyState) w : bool :=
  match w_sources w !! s with Some es => bool_decide (es_readyState es = r) | None => false end.

(** The listeners of one message: those there when it arrives, unless one of the
    earlier ones has removed them. *)
Definition deliver s (name data : string) w : world dom :=
  let ls := match w_sources w !! s with
            | Some es => List.filter (fun x => str_eqb (fst x) name) (es_listeners es)
            | None => []
            end in
  fold_left (fun w x =>
    match w_sources w !! s with
    | Some es => if decide (x ∈ es_listeners es) then runListener data (snd x) w else w
    | None => w
    end) ls w.

Definition step w (ev : event) : world dom :=
  match ev with
  | Process e => afterProcessNode e w
  | Cleanup e => beforeCleanupElement e w
  | SourceOpens s =>
      if hasState s CONNECTING w then onopen s (update_source s (set_readyState OPEN) w) else w
  | SourceFails s final =>
      if hasState s CLOSED w then w
      else onerror s (update_source s (set_readyState (if final then CLOSED else CONNECTING)) w)
  | SourceSends s name data => if hasState s OPEN w then deliver s name data w else w
  | TimerFires k =>
      match w_timers w !! k with
      | Some (s, _) =>
          match w_sources w !! s with
          | Some es => ensureEventSourceOnElement (Some (es_elt es)) (es_retryCount es)
                         (set_timers (delete k (w_timers w)) w)
          | None => w
          end
      | None => w
      end
  | PageChanges d => set_dom d [] w
  end.

Definition run (w : world dom) (evs : list event) : world dom := fold_left step evs w.

Definition loaded (d : dom) : world dom := World d ∅ 0 ∅ ∅ [] [].
End extension.
