(* ===== verification/SseProofs.v ===== *)
(** What the event stream extension guarantees: the reconnection delay grows from half a
    second to at most sixty-four, and starts over after a connection that opened. *)
From Stdlib Require Import Ascii Lia.
From S2P Require Import Prelude Ticker Sse.

(** The retry counts in use: powers of two up to 128. *)
Definition backoff (r : nat) : Prop := exists k, k <= 7 /\ r = 2 ^ k.
Definition goodRetry (r : option nat) : Prop :=
  match r with None => True | Some r => r = 0 \/ backoff r end.

Lemma nextRetry_backoff r : goodRetry r -> backoff (nextRetry r).
Proof.
  unfold nextRetry. destruct r as [r|]; cbn [goodRetry default].
  - intros [->|(k & Hk & ->)]; [by exists 0; split; [lia|]|].
    do 8 (destruct k as [|k]; [first [by exists 1; split; [lia|]|by exists 2; split; [lia|]
      |by exists 3; split; [lia|]|by exists 4; split; [lia|]|by exists 5; split; [lia|]
      |by exists 6; split; [lia|]|by exists 7; split; [lia|]]|]). lia.
  - intros _. exists 0. split; [lia|done].
Qed.

Section evolution.
Context {dom : Type} `{H : Htmx dom}.
Implicit Types (w : world dom) (e : elt) (s : sid).

(** [es'] is [es] later on, with the retry count untouched. *)
Definition sourceEvolves (es es' : eventSource) : Prop :=
  es_retryCount es' = es_retryCount es /\ es_elt es' = es_elt es /\
  (es_readyState es = CLOSED -> es_readyState es' = CLOSED).

(** No source is created, no timer set. *)
Record evolves w w' : Prop := {
  ev_timers : w_timers w' = w_timers w;
  ev_next : w_next w <= w_next w';
  ev_source : w_source w' = w_source w;
  ev_sources s : option_Forall2 sourceEvolves (w_sources w !! s) (w_sources w' !! s)
}.

Lemma sourceEvolves_refl es : sourceEvolves es es.
Proof. done. Qed.

#[global] Instance evolves_preorder : PreOrder evolves.
Proof.
  split.
  - intros w. split; [done|done|done|]. intros s. destruct (w_sources w !! s); constructor. done.
  - intros a b c [T1 N1 S1 E1] [T2 N2 S2 E2]. split; [congruence|lia|congruence|].
    intros s. specialize (E1 s). specialize (E2 s).
    destruct E1 as [x y (R1 & L1 & C1)|]; inversion E2 as [? z (R2 & L2 & C2)|]; subst; constructor.
    split; [congruence|]. split; [congruence|auto].
Qed.

Lemma evolves_update s f w :
  (forall es, sourceEvolves es (f es)) -> evolves w (update_source s f w).
Proof.
  intros Hf. split; [done|done|done|]. intros t. cbn.
  destruct (decide (s = t)) as [->|Hne].
  - rewrite lookup_alter_eq. destruct (w_sources w !! t); constructor. apply Hf.
  - rewrite lookup_alter_ne by done. destruct (w_sources w !! t); constructor. done.
Qed.

Lemma evolves_update_at s f w :
  (forall es, w_sources w !! s = Some es -> sourceEvolves es (f es)) -> evolves w (update_source s f w).
Proof.
  intros Hf. split; [done|done|done|]. intros t. cbn.
  destruct (decide (s = t)) as [->|Hne].
  - rewrite lookup_alter_eq. destruct (w_sources w !! t); constructor. by apply Hf.
  - rewrite lookup_alter_ne by done. destruct (w_sources w !! t); constructor. done.
Qed.

Lemma evolves_trigger e name w : evolves w (fst (triggerEvent e name w)).
Proof.
  unfold triggerEvent. destruct (dispatch _ _ _). cbn. split; [done|done|done|].
  intros s. cbn. destruct (w_sources w !! s); constructor. done.
Qed.

Lemma evolves_dom d n w : evolves w (set_dom d n w).
Proof. split; [done|done|done|]. intros s. cbn. destruct (w_sources w !! s); constructor. done. Qed.

Lemma evolves_close s w : evolves w (close s w).
Proof. apply evolves_update. done. Qed.

Lemma evolves_remove s name l w : evolves w (removeEventListener s name l w).
Proof. by apply evolves_update. Qed.

(** Registering listeners changes nothing but the listener lists. *)
Definition onlyListens (es es' : eventSource) : Prop :=
  es_url es' = es_url es /\ es_elt es' = es_elt es /\ es_readyState es' = es_readyState es /\
  es_retryCount es' = es_retryCount es.

Record registers w w' : Prop := {
  rg_dom : w_dom w' = w_dom w;
  rg_log : w_log w' = w_log w;
  rg_timers : w_timers w' = w_timers w;
  rg_next : w_next w <= w_next w';
  rg_source : w_source w' = w_source w;
  rg_sources s : option_Forall2 onlyListens (w_sources w !! s) (w_sources w' !! s)
}.

#[global] Instance registers_preorder : PreOrder registers.
Proof.
  split.
  - intros w. split; try done. intros s. by destruct (w_sources w !! s); constructor.
  - intros a b c [D1 L1 T1 N1 S1 E1] [D2 L2 T2 N2 S2 E2]. split; try congruence; [lia|].
    intros s. specialize (E1 s). specialize (E2 s).
    destruct E1 as [x y (?&?&?&?)|]; inversion E2 as [? z (?&?&?&?)|]; subst; constructor.
    repeat split; congruence.
Qed.

Lemma registers_evolves w w' : registers w w' -> evolves w w'.
Proof.
  intros [D L T N S E]. split; [done..|]. intros s. specialize (E s).
  destruct E as [x y (?&?&?&?)|]; constructor. repeat split; congruence.
Qed.

Lemma registers_addListener e s name mk w : registers w (addSseListener e s name mk w).
Proof.
  unfold addSseListener. split; try done; [cbn; lia|]. intros t. cbn.
  destruct (decide (s = t)) as [->|Hne].
  - rewrite lookup_alter_eq. destruct (w_sources w !! t); by constructor.
  - rewrite lookup_alter_ne by done. destruct (w_sources w !! t); by constructor.
Qed.

Lemma registers_fold {A} (f : world dom -> A -> world dom) l w :
  (forall w a, registers w (f w a)) -> registers w (fold_left f l w).
Proof.
  intros Hf. revert w. induction l as [|a l IH]; intros w; cbn; [reflexivity|].
  transitivity (f w a); [apply Hf|apply IH].
Qed.

Lemma evolves_fold {A} (f : world dom -> A -> world dom) l w :
  (forall w a, evolves w (f w a)) -> evolves w (fold_left f l w).
Proof.
  intros Hf. revert w. induction l as [|a l IH]; intros w; cbn; [reflexivity|].
  transitivity (f w a); [apply Hf|apply IH].
Qed.

Lemma registers_registerSSE e w : registers w (registerSSE e w).
Proof.
  unfold registerSSE.
  assert (H1 : forall w', registerSwaps e w = Some w' -> registers w w').
  { unfold registerSwaps. intros w'. destruct (truthy _); [|by intros [= <-]].
    destruct (getClosestMatch _ _ _) as [se|]; [cbn|done]. destruct (_ !! se); [|done].
    intros [= <-]. apply registers_fold. intros. apply registers_addListener. }
  destruct (registerSwaps e w) as [w1|]; [|reflexivity]. transitivity w1; [by apply H1|]. clear H1.
  unfold registerTriggers. destruct (truthy _); [|reflexivity].
  destruct (getClosestMatch _ _ _) as [se|]; [cbn|reflexivity]. destruct (_ !! se); [|reflexivity].
  apply registers_fold. intros. apply registers_addListener.
Qed.

Lemma evolves_registerSSE e w : evolves w (registerSSE e w).
Proof. apply registers_evolves, registers_registerSSE. Qed.

Lemma evolves_maybeClose e w : evolves w (fst (maybeCloseSSESource e w)).
Proof.
  unfold maybeCloseSSESource. destruct (negb _); [|reflexivity].
  destruct (w_source w !! e) as [s|]; [|reflexivity].
  pose proof (evolves_trigger e "htmx:sseClose" w) as Ht.
  destruct (triggerEvent e "htmx:sseClose" w) as [w1 b]. cbn. transitivity w1; [done|apply evolves_close].
Qed.

Lemma evolves_runListener data l w : evolves w (runListener data l w).
Proof.
  destruct l as [id e se s name|id e se s name|id e s]; cbn [runListener].
  - pose proof (evolves_maybeClose se w) as Hm. destruct (maybeCloseSSESource se w) as [w1 gone].
    cbn in Hm. destruct gone; [done|]. etransitivity; [exact Hm|].
    destruct (negb _); [apply evolves_remove|].
    pose proof (evolves_trigger e "htmx:sseBeforeMessage" w1) as Ht.
    destruct (triggerEvent e "htmx:sseBeforeMessage" w1) as [w2 ok]. cbn in Ht.
    etransitivity; [exact Ht|]. destruct (negb ok); [reflexivity|].
    etransitivity; [|apply evolves_trigger]. apply evolves_dom.
  - pose proof (evolves_maybeClose se w) as Hm. destruct (maybeCloseSSESource se w) as [w1 gone].
    cbn in Hm. destruct gone; [done|]. etransitivity; [exact Hm|].
    set (w2 := if negb _ then _ else w1).
    assert (Hw2 : evolves w1 w2) by (unfold w2; destruct (negb _); [apply evolves_remove|reflexivity]).
    etransitivity; [exact Hw2|]. pose proof (evolves_trigger e name w2) as Ht.
    destruct (triggerEvent e name w2) as [w3 ok]. etransitivity; [exact Ht|apply evolves_trigger].
  - etransitivity; [apply evolves_trigger|apply evolves_close].
Qed.

Lemma evolves_deliver s name data w : evolves w (deliver s name data w).
Proof.
  unfold deliver. apply evolves_fold. intros w' x. destruct (w_sources w' !! s); [|reflexivity].
  case_decide; [apply evolves_runListener|reflexivity].
Qed.

(** ** The invariant of the reconnection *)

Record retryInv w : Prop := {
  ri_retry s es : w_sources w !! s = Some es -> goodRetry (es_retryCount es);
  ri_fresh s es : w_sources w !! s = Some es -> s < w_next w;
  ri_timer s t : In (s, t) (w_timers w) ->
    exists es r, w_sources w !! s = Some es /\ es_readyState es = CLOSED /\
      es_retryCount es = Some r /\ backoff r /\ t = r * 500
}.

Lemma evolves_inv w w' : evolves w w' -> retryInv w -> retryInv w'.
Proof.
  intros [T N _ E] [R F Ti]. split.
  - intros s es' Hs. specialize (E s). rewrite Hs in E.
    inversion E as [es ? (Er & _)|]; subst. rewrite Er. by eapply R.
  - intros s es' Hs. specialize (E s). rewrite Hs in E. inversion E as [es ? _|]; subst.
    assert (s < w_next w) by (by eapply F). lia.
  - intros s t. rewrite T. intros (es & r & Hs & Hc & Hr & Hb & Ht)%Ti. specialize (E s).
    rewrite Hs in E. inversion E as [? es' (Er & _ & Hcl)|]; subst.
    exists es', r. split; [done|]. split; [by apply Hcl|]. split; [congruence|done].
Qed.

Lemma hasState_Some s r w :
  hasState s r w = true <-> exists es, w_sources w !! s = Some es /\ es_readyState es = r.
Proof.
  unfold hasState. destruct (w_sources w !! s) as [es|].
  - rewrite bool_decide_eq_true. split; [by eauto|]. by intros (? & [= <-] & ?).
  - split; [done|]. by intros (? & ? & ?).
Qed.

(** Setting the retry count of a source to a good value, and possibly a timer for it. *)
Lemma inv_setRetry s r w :
  goodRetry (Some r) -> retryInv w ->
  (forall t, ~ In (s, t) (w_timers w)) -> retryInv (update_source s (set_retryCount (Some r)) w).
Proof.
  intros Hr [R F T] Hno. split.
  - intros t es'. cbn. rewrite lookup_alter_Some. intros [(<- & es & Hs & ->)|[_ Hs]]; [done|by eapply R].
  - intros t es'. cbn. rewrite lookup_alter_Some. intros [(<- & es & Hs & ->)|[_ Hs]]; by eapply F.
  - intros t x Hin. cbn in Hin. destruct (T t x Hin) as (es & q & Hs & Hc).
    exists es, q. cbn. rewrite lookup_alter_ne; [done|]. intros <-. by apply (Hno x).
Qed.

Lemma inv_setTimer s r w :
  hasState s CLOSED w = true -> backoff r -> retryInv w -> (forall t, ~ In (s, t) (w_timers w)) ->
  retryInv (set_timers (w_timers w ++ [(s, r * 500)]) (update_source s (set_retryCount (Some r)) w)).
Proof.
  intros (es & Hs & Hc)%hasState_Some Hb I Hno.
  destruct (inv_setRetry s r w) as [R F T]; [by right|done|done|]. split; [exact R|exact F|].
  intros t x Hin. cbn in Hin. apply in_app_iff in Hin as [Hin|[[= <- <-]|[]]]; [by apply T|].
  exists (set_retryCount (Some r) es), r. cbn. rewrite lookup_alter_eq, Hs. done.
Qed.

Lemma inv_ensure e url r w : goodRetry r -> retryInv w -> retryInv (ensureEventSource e url r w).
Proof.
  intros Hr [R F T]. unfold ensureEventSource. set (w1 := World _ _ _ _ _ _ _).
  assert (I1 : retryInv w1).
  { split; cbn.
    - intros s es. rewrite lookup_insert_Some. intros [[<- <-]|[_ Hs]]; [done|by eapply R].
    - intros s es. rewrite lookup_insert_Some. intros [[<- _]|[_ Hs%F]]; lia.
    - intros s t (es & q & Hs & Hrest)%T. exists es, q. rewrite lookup_insert_ne; [done|].
      intros E. apply F in Hs. subst s. lia. }
  destruct (truthy _) as [name|]; [|exact I1].
  eapply evolves_inv; [|exact I1]. split; [done|cbn; lia|done|]. intros t. cbn [w_sources].
  destruct (decide (w_next w = t)) as [->|Hne].
  - rewrite lookup_alter_eq. destruct (w_sources w1 !! t); by constructor.
  - rewrite lookup_alter_ne by done. destruct (w_sources w1 !! t); by constructor.
Qed.

Lemma inv_ensureOn oe r w : goodRetry r -> retryInv w -> retryInv (ensureEventSourceOnElement oe r w).
Proof.
  intros Hr I. destruct oe as [e|]; [|done]. cbn.
  eapply evolves_inv; [apply evolves_registerSSE|]. destruct (truthy _); [by apply inv_ensure|done].
Qed.

Lemma evolves_timers w w' : evolves w w' -> w_timers w' = w_timers w.
Proof. by intros []. Qed.

Lemma inv_onerror s w :
  retryInv w -> (forall t, ~ In (s, t) (w_timers w)) -> retryInv (onerror s w).
Proof.
  intros I Hno. unfold onerror. destruct (w_sources w !! s) as [es|]; [|done].
  pose proof (evolves_trigger (es_elt es) "htmx:sseError" w) as E1.
  destruct (triggerEvent _ _ w) as [w1 ok]. cbn in E1.
  pose proof (evolves_maybeClose (es_elt es) w1) as E2.
  destruct (maybeCloseSSESource (es_elt es) w1) as [w2 gone]. cbn in E2.
  assert (E : evolves w w2) by (by transitivity w1). pose proof (evolves_inv _ _ E I) as I2.
  destruct gone; [done|]. destruct (w_sources w2 !! s) as [es2|] eqn:Hs; [|done].
  case_decide as Hc; [|done]. rewrite <- (evolves_timers _ _ E) in Hno.
  cbn zeta. change (w_timers (update_source s ?f w2)) with (w_timers w2).
  apply inv_setTimer; [apply hasState_Some; eauto| |done|done].
  apply nextRetry_backoff. by eapply I2.
Qed.

Lemma inv_onopen s w :
  retryInv w -> (forall t, ~ In (s, t) (w_timers w)) -> retryInv (onopen s w).
Proof.
  intros I Hno. unfold onopen. destruct (w_sources w !! s) as [es|]; [|done].
  pose proof (evolves_trigger (es_elt es) "htmx:sseOpen" w) as E1.
  destruct (triggerEvent _ _ w) as [w1 ok]. cbn in E1.
  destruct (0 <? _); [|by eapply evolves_inv].
  set (w2 := fold_left _ _ w1).
  assert (E : evolves w w2).
  { transitivity w1; [done|]. apply evolves_fold. intros. apply evolves_registerSSE. }
  rewrite <- (evolves_timers _ _ E) in Hno.
  apply inv_setRetry; [by left|by eapply evolves_inv|done].
Qed.

(** An open or connecting source has no timer running. *)
Lemma not_closed_no_timer s w :
  retryInv w -> hasState s CLOSED w = false -> forall t, ~ In (s, t) (w_timers w).
Proof.
  intros I Hc t (es & r & Hs & Hcl & _)%(ri_timer _ I).
  assert (hasState s CLOSED w = true) by (apply hasState_Some; eauto). congruence.
Qed.

Lemma inv_set_state s r w :
  retryInv w -> hasState s CLOSED w = false -> retryInv (update_source s (set_readyState r) w).
Proof.
  intros I Hc. eapply evolves_inv; [|exact I]. apply evolves_update_at. intros es Hs.
  split; [done|]. split; [done|]. intros E.
  assert (hasState s CLOSED w = true) by (apply hasState_Some; eauto). congruence.
Qed.

Lemma In_delete_list {A} k (l : list A) x : In x (delete k l) -> In x l.
Proof.
  rewrite <- !list_elem_of_In. intros Hx. eapply elem_of_sublist; [exact Hx|apply sublist_delete].
Qed.

Lemma step_inv w ev : retryInv w -> retryInv (step w ev).
Proof.
  intros I. destruct ev as [e|e|s|s final|s name data|k|d]; cbn [step].
  - by apply inv_ensureOn.
  - unfold beforeCleanupElement. destruct (w_source w !! e); [|done].
    eapply evolves_inv; [|exact I]. etransitivity; [apply evolves_trigger|apply evolves_close].
  - destruct (hasState s CONNECTING w) eqn:Hs; [|done].
    assert (Hc : hasState s CLOSED w = false).
    { apply hasState_Some in Hs as (es & Hs & Hr). unfold hasState. rewrite Hs, Hr. done. }
    apply inv_onopen; [by apply inv_set_state|]. cbn. by apply not_closed_no_timer.
  - destruct (hasState s CLOSED w) eqn:Hc; [done|].
    apply inv_onerror; [by apply inv_set_state|]. cbn. by apply not_closed_no_timer.
  - destruct (hasState s OPEN w); [|done]. eapply evolves_inv; [apply evolves_deliver|done].
  - destruct (w_timers w !! k) as [[s t]|] eqn:Hk; [|done].
    destruct (w_sources w !! s) as [es|] eqn:Hs; [|done].
    apply inv_ensureOn; [by eapply I|]. destruct I as [R F T]. split; [exact R|exact F|].
    intros s' t' Hin. cbn in Hin. apply T. eapply In_delete_list, Hin.
  - eapply evolves_inv; [apply evolves_dom|done].
Qed.

Lemma run_inv evs w : retryInv w -> retryInv (run w evs).
Proof. revert w. induction evs as [|ev evs IH]; intros w I; cbn; [done|]. apply IH. by apply step_inv. Qed.

Lemma loaded_inv d : retryInv (loaded d).
Proof. split; intros s; cbn; [intros es..|by intros t []]; by rewrite lookup_empty. Qed.
End evolution.

Lemma ensureEventSource_spec {dom} `{Htmx dom} e url r (w : world dom) :
  let w1 := ensureEventSource e url r w in
  w_dom w1 = w_dom w /\ w_timers w1 = w_timers w /\ w_source w1 = <[e := w_next w]> (w_source w) /\
  exists es, w_sources w1 !! w_next w = Some es /\ es_elt es = e /\ es_readyState es = CONNECTING /\
    es_retryCount es = r.
Proof.
  unfold ensureEventSource. cbn zeta. cbn [w_dom]. destruct (truthy _); cbn.
  - rewrite lookup_alter_eq, lookup_insert_eq. repeat split. by eexists.
  - rewrite lookup_insert_eq. repeat split. by eexists.
Qed.

(** ** Consecutive failures *)

Section failures.
Context {dom : Type} `{H : Htmx dom}.
Variable e : elt.
Variable url : string.

(** The page leaves the connected element where it is. *)
Hypothesis stays : forall d a name, bodyContains (fst (dispatch d a name)) e = bodyContains d e.
Hypothesis keeps : forall d a name k, rawAttribute (fst (dispatch d a name)) e k = rawAttribute d e k.

(** The element is on the page and connects, or tries to, with retry count [r]. *)
Definition connected (r : option nat) (w : world dom) : Prop :=
  bodyContains (w_dom w) e = true /\
  truthy (getAttributeValue (w_dom w) e "sse-connect") = Some url /\
  exists s es, w_source w !! e = Some s /\ w_sources w !! s = Some es /\ es_elt es = e /\
    es_readyState es <> CLOSED /\ es_retryCount es = r.

(** The current source of the element fails for good. *)
Definition fails (w : world dom) : world dom :=
  match w_source w !! e with Some s => step w (SourceFails s true) | None => w end.

(** It fails and the timer set for it runs out. *)
Definition failsAndRetries (w : world dom) : world dom :=
  step (fails w) (TimerFires (length (w_timers w))).

Lemma getAttributeValue_dispatch d a name k :
  getAttributeValue (fst (dispatch d a name)) e k = getAttributeValue d e k.
Proof. unfold getAttributeValue. by rewrite !keeps. Qed.

Lemma onerror_eq s es (w : world dom) :
  w_sources w !! s = Some es ->
  bodyContains (fst (dispatch (w_dom w) (es_elt es) "htmx:sseError")) (es_elt es) = true ->
  onerror s w =
    let w1 := set_dom (fst (dispatch (w_dom w) (es_elt es) "htmx:sseError"))
                [Triggered (es_elt es) "htmx:sseError"] w in
    if decide (es_readyState es = CLOSED) then
      set_timers (w_timers w ++ [(s, nextRetry (es_retryCount es) * 500)])
        (update_source s (set_retryCount (Some (nextRetry (es_retryCount es)))) w1)
    else w1.
Proof.
  intros Hs Hb. unfold onerror, triggerEvent, maybeCloseSSESource. rewrite Hs.
  destruct (dispatch _ _ _) as [d ok]. cbn [fst] in *. cbn [w_dom set_dom]. rewrite Hb. cbn [negb].
  cbn [w_sources set_dom]. rewrite Hs. done.
Qed.

Lemma onopen_eq s es (w : world dom) :
  w_sources w !! s = Some es ->
  onopen s w =
    let w1 := set_dom (fst (dispatch (w_dom w) (es_elt es) "htmx:sseOpen"))
                [Triggered (es_elt es) "htmx:sseOpen"] w in
    if 0 <? default 0 (es_retryCount es) then
      update_source s (set_retryCount (Some 0))
        (fold_left (fun w c => registerSSE c w) (childrenToFix (w_dom w1) (es_elt es)) w1)
    else w1.
Proof. intros Hs. unfold onopen, triggerEvent. rewrite Hs. by destruct (dispatch _ _ _). Qed.

Lemma fails_sets_timer r w :
  connected r w ->
  exists s es, w_timers (fails w) = w_timers w ++ [(s, nextRetry r * 500)] /\
    w_sources (fails w) !! s = Some es /\ es_elt es = e /\ es_retryCount es = Some (nextRetry r) /\
    bodyContains (w_dom (fails w)) e = true /\
    truthy (getAttributeValue (w_dom (fails w)) e "sse-connect") = Some url.
Proof.
  intros (Hb & Ha & s & es & Hs & Hes & He & Hc & Hr). unfold fails. rewrite Hs. cbn [step].
  unfold hasState. rewrite Hes, bool_decide_false by done.
  rewrite (onerror_eq s (set_readyState CLOSED es)).
  - rewrite decide_True by done. cbn. rewrite He, Hr. eexists s, _. split; [done|].
    rewrite !lookup_alter_eq, Hes. split; [done|]. split; [exact He|]. split; [done|].
    rewrite stays, getAttributeValue_dispatch. done.
  - cbn. by rewrite lookup_alter_eq, Hes.
  - cbn. by rewrite He, stays.
Qed.

Lemma retries_connected r w :
  connected r w -> connected (Some (nextRetry r)) (failsAndRetries w) /\
    w_timers (failsAndRetries w) = w_timers w.
Proof.
  intros (s & es & Ht & Hes & He & Hr & Hb & Ha)%fails_sets_timer. unfold failsAndRetries.
  cbn [step]. rewrite Ht, lookup_app_r, Nat.sub_diag by lia. cbn [list_lookup lookup].
  rewrite Hes, He, Hr. cbn [ensureEventSourceOnElement]. cbn [set_timers w_dom]. rewrite Ha.
  set (w1 := ensureEventSource _ _ _ _).
  match goal with w1 := ensureEventSource ?a ?b ?c ?d |- _ =>
    destruct (ensureEventSource_spec a b c d) as (Hd & Ht1 & Hs' & es' & Hes' & He' & Hc' & Hr') end.
  fold w1 in Hd, Ht1, Hs', Hes'. cbn [set_timers w_dom w_timers w_next w_source] in Hd, Ht1, Hs', Hes'.
  rewrite delete_middle, app_nil_r in Ht1.
  set (s' := w_next (fails w)) in *. clearbody w1.
  assert (Hs2 : w_source w1 !! e = Some s') by (by rewrite Hs', lookup_insert_eq).
  destruct (registers_registerSSE e w1) as [D _ T _ S E].
  split; [|congruence]. split; [by rewrite D, Hd|]. split; [by rewrite D, Hd|].
  specialize (E s'). change (w_sources w1 !! (s' : sid) = Some es') in Hes'. rewrite Hes' in E.
  inversion E as [? es2 (?&?&?&?)|]; subst.
  exists s', es2. rewrite S. split; [done|]. split; [done|]. split; [congruence|].
  split; congruence.
Qed.

Lemma nextRetry_double n : nextRetry (Some (Nat.min (2 ^ n) 128)) = Nat.min (2 ^ S n) 128.
Proof.
  unfold nextRetry. cbn [default]. rewrite Nat.pow_succ_r'.
  assert (1 <= 2 ^ n) by (apply Nat.neq_0_lt_0, Nat.pow_nonzero; lia). cbn [id from_option]. lia.
Qed.

(** After [n] failures in a row the next one waits [500 * min (2 ^ n) 128]. *)
Lemma retries_schedule r w n :
  default 0 r = 0 -> connected r w ->
  w_timers (Nat.iter n failsAndRetries w) = w_timers w /\
  exists q, connected q (Nat.iter n failsAndRetries w) /\ nextRetry q = Nat.min (2 ^ n) 128.
Proof.
  intros Hr Hc. induction n as [|n (Ht & q & Hq & Hn)].
  - split; [done|]. exists r. split; [done|]. unfold nextRetry. rewrite Hr. done.
  - cbn [Nat.iter nat_rect]. destruct (retries_connected _ _ Hq) as [Hc' Ht'].
    split; [unfold Nat.iter in *; congruence|]. exists (Some (nextRetry q)). split; [exact Hc'|].
    rewrite Hn. apply nextRetry_double.
Qed.
End failures.

(** C6: after any sequence of events, every pending reconnection waits half a second
    times a power of two, at most 128, and belongs to a source that is closed. *)
Theorem reconnect_delay_bounds {dom} `{Htmx dom} (d : dom) (evs : list event) (s t : nat) :
  In (s, t) (w_timers (run (loaded d) evs)) ->
  hasState s CLOSED (run (loaded d) evs) = true /\ exists r, backoff r /\ t = r * 500.
Proof.
  intros Hin. destruct (ri_timer _ (run_inv evs _ (loaded_inv d)) s t Hin)
    as (es & r & Hs & Hc & _ & Hb & ->).
  split; [apply hasState_Some; eauto|eauto].
Qed.

