(* ===== verification/Feed.v ===== *)
(** The live feed of the home page ([Components/Pages/Home.razor]): the card with
    [sse-connect="/api/stream"], the list [#ticker] with [sse-swap="ticker"] and
    [hx-swap="afterbegin"] inside it, and [ticker.js] listening on the body. The page is
    an instance of the interface [sse.js] works against. *)
From Stdlib Require Import Ascii Lia.
From S2P Require Import Prelude Ticker Sse SseProofs.

Section feed.
Context {row : Type}.
Variable parse : string -> list row.      (** the rows in a piece of markup *)

Definition bodyElt : elt := 0.
Definition cardElt : elt := 1.
Definition tickerElt : elt := 2.

Definition homeAttributes (e : elt) : obj string :=
  match e with
  | 1 => [("hx-ext", "sse"); ("sse-connect", "/api/stream")]
  | 2 => [("class", "ticker mb-0"); ("id", "ticker"); ("sse-swap", "ticker"); ("hx-swap", "afterbegin")]
  | _ => []
  end.

#[local] Instance homePage : Htmx (page row) := {|
  rawAttribute _ e name := oget name (homeAttributes e);
  ancestorsOf _ e := match e with 2 => [2; 1; 0] | 1 => [1; 0] | _ => [e] end;
  descendantsOf _ e := match e with 1 => [2] | 0 => [1; 2] | _ => [] end;
  bodyContains _ _ := true;
  getTriggerSpecs _ _ := ["click"];
  transformResponse _ _ content := content;
  getSwapSpecification _ e := default "innerHTML" (oget "hx-swap" (homeAttributes e));
  getTarget _ e := e;
  swapContent p target content spec :=
    match pg_ticker p with
    | Some rows =>
        if (target =? tickerElt) && str_eqb spec "afterbegin" then
          Page (Some (parse content ++ rows)) (pg_empty p) (pg_dot p) (pg_text p)
        else p
    | None => p
    end;
  dispatch p _ name := (match onBodyEvent name p with Ok p' => p' | Err _ => p end, true)
|}.

(** The page after htmx has processed it and the first connection has opened. *)
Definition homeLoaded (p : page row) : world (page row) :=
  run (loaded p) [Process cardElt; Process tickerElt; SourceOpens 0].

(** What the stream does next. *)
Inductive feedEvent :=
  | Row (markup : string)              (** a [ticker] message *)
  | Other (name data : string)         (** a message under another name *)
  | Blip                               (** the browser reconnects by itself *)
  | Outage (failures : nat).           (** closed for good; so many retries fail before one opens *)

Definition currentSource (w : world (page row)) : sid := default 0 (w_source w !! cardElt).

Definition feedStep (w : world (page row)) (ev : feedEvent) : world (page row) :=
  let s := currentSource w in
  match ev with
  | Row markup => step w (SourceSends s "ticker" markup)
  | Other name data => if str_eqb name "ticker" then w else step w (SourceSends s name data)
  | Blip => step (step w (SourceFails s false)) (SourceOpens s)
  | Outage failures =>
      let w := Nat.iter (S failures) (failsAndRetries cardElt) w in
      step w (SourceOpens (currentSource w))
  end.

(** The markup the stream carried for the list, oldest first. *)
Definition feedRows (evs : list feedEvent) : list row :=
  concat (rev (map (fun ev => match ev with Row m => parse m | _ => [] end) evs)).

(** The card is connected to an open source with exactly one listener, the one that
    swaps into the list. *)
Definition listening (w : world (page row)) : Prop :=
  w_timers w = [] /\ w_source w !! tickerElt = None /\
  exists s id r, w_source w !! cardElt = Some s /\ default 0 r = 0 /\
    w_sources w !! s = Some (EventSource "/api/stream" cardElt OPEN r
      [("ticker", SwapListener id tickerElt cardElt s "ticker")]).

Definition rowsOf (w : world (page row)) : option (list row) := pg_ticker (w_dom w).

Lemma homeLoaded_listening p : listening (homeLoaded p) /\ rowsOf (homeLoaded p) = pg_ticker p.
Proof.
  split; [|reflexivity]. split; [reflexivity|]. split; [reflexivity|].
  exists 0, 1, None. repeat split.
Qed.

Lemma onBodyEvent_total name (p : page row) : exists p', onBodyEvent name p = Ok p'.
Proof.
  unfold onBodyEvent. destruct (str_eqb name "htmx:sseMessage"); [rewrite trim_eq; eauto|].
  destruct (str_eqb name _); [eauto|]. destruct (str_eqb name _); eauto.
Qed.

Lemma row_step w m rows :
  listening w -> rowsOf w = Some rows ->
  listening (feedStep w (Row m)) /\ rowsOf (feedStep w (Row m)) = Some (take MAX_ROWS (parse m ++ rows)).
Proof.
  intros (Ht & Hn & s & i & r & Hs & Hr & Hes) Hrows.
  unfold feedStep, currentSource. rewrite Hs. cbn [default from_option id step].
  unfold hasState. rewrite Hes. cbn [es_readyState bool_decide decide_rel].
  unfold deliver. rewrite Hes. cbn -[runListener]. rewrite Hes. cbn -[runListener].
  rewrite decide_True by left. cbn -[trim MAX_ROWS].
  unfold rowsOf in *. rewrite Hrows. cbn -[trim MAX_ROWS]. rewrite trim_eq. cbn -[MAX_ROWS].
  split; [|done]. split; [done|]. split; [done|]. exists s, i, r. done.
Qed.

Lemma other_step w name data :
  listening w -> feedStep w (Other name data) = w.
Proof.
  intros (_ & _ & s & i & r & Hs & _ & Hes). unfold feedStep, currentSource. rewrite Hs.
  cbn [default from_option id]. destruct (str_eqb name "ticker") eqn:E; [done|]. cbn [step].
  unfold hasState, deliver. rewrite Hes. cbn [es_readyState es_listeners List.filter fst].
  rewrite bool_decide_true by done. rewrite String.eqb_sym, E. done.
Qed.

Lemma blip_step w rows :
  listening w -> rowsOf w = Some rows ->
  listening (feedStep w Blip) /\ rowsOf (feedStep w Blip) = Some rows.
Proof.
  intros (Ht & Hn & s & i & r & Hs & Hr & Hes) Hrows.
  unfold feedStep, currentSource. rewrite Hs. cbn [default from_option id].
  set (w1 := set_dom (fst (dispatch (w_dom w) cardElt "htmx:sseError")) [Triggered cardElt "htmx:sseError"]
               (update_source s (set_readyState CONNECTING) w)).
  assert (E : step w (SourceFails s false) = w1).
  { cbn [step]. unfold hasState. rewrite Hes, bool_decide_false by done.
    rewrite (onerror_eq s (EventSource "/api/stream" cardElt CONNECTING r
      [("ticker", SwapListener i tickerElt cardElt s "ticker")]));
      [by rewrite decide_False|cbn; by rewrite lookup_alter_eq, Hes|done]. }
  rewrite E. clear E. cbn [step].
  assert (H1 : w_sources w1 !! s = Some (EventSource "/api/stream" cardElt CONNECTING r
    [("ticker", SwapListener i tickerElt cardElt s "ticker")])) by (cbn; by rewrite lookup_alter_eq, Hes).
  assert (H2 : w_timers w1 = [] /\ w_source w1 !! tickerElt = None /\ w_source w1 !! cardElt = Some s) by done.
  assert (H3 : rowsOf w1 = Some rows) by done. clearbody w1. clear w Ht Hn Hs Hes Hrows.
  destruct H2 as (Ht & Hn & Hs). unfold hasState. rewrite H1, bool_decide_true by done.
  erewrite onopen_eq by (cbn; by rewrite lookup_alter_eq, H1). cbn -[Nat.ltb]. rewrite Hr. cbn.
  split; [|done]. split; [done|]. split; [done|]. exists s, i, r. cbn. by rewrite lookup_alter_eq, H1.
Qed.

(** Between two attempts: a source that has not opened and has no listener yet. *)
Definition dialing (w : world (page row)) : Prop :=
  w_timers w = [] /\ w_source w !! tickerElt = None /\
  exists s q, w_source w !! cardElt = Some s /\ 0 < q /\
    w_sources w !! s = Some (EventSource "/api/stream" cardElt CONNECTING (Some q) []).

Lemma connect_card r (w : world (page row)) :
  registerSSE cardElt (ensureEventSource cardElt "/api/stream" r w) =
  World (w_dom w) (<[w_next w := EventSource "/api/stream" cardElt CONNECTING r []]> (w_sources w))
    (S (w_next w)) (<[cardElt := w_next w]> (w_source w)) (w_listener w) (w_timers w) (w_log w).
Proof. reflexivity. Qed.

Lemma dial w s r st ls :
  w_timers w = [] -> w_source w !! tickerElt = None -> w_source w !! cardElt = Some s ->
  w_sources w !! s = Some (EventSource "/api/stream" cardElt st r ls) -> st <> CLOSED ->
  dialing (failsAndRetries cardElt w) /\ rowsOf (failsAndRetries cardElt w) = rowsOf w.
Proof.
  intros Ht Hn Hs Hes Hst. unfold failsAndRetries, fails. rewrite Hs. cbn [step].
  unfold hasState. rewrite Hes. rewrite bool_decide_false by done.
  rewrite (onerror_eq s (EventSource "/api/stream" cardElt CLOSED r ls));
    [|cbn; by rewrite lookup_alter_eq, Hes|done].
  rewrite decide_True by done. cbn zeta.
  cbn [w_timers set_timers update_source set_sources set_dom]. rewrite Ht. cbn [length app lookup list_lookup].
  cbn [w_sources set_timers update_source set_sources set_dom]. rewrite !lookup_alter_eq, Hes.
  cbn -[nextRetry]. rewrite connect_card. unfold dialing, rowsOf.
  cbn [w_dom w_sources w_source w_timers set_timers update_source set_sources set_dom w_next].
  split; [|done]. split; [done|]. split; [by rewrite lookup_insert_ne|].
  eexists _, _. rewrite !lookup_insert_eq. split; [done|]. split; [|done].
  unfold nextRetry. lia.
Qed.

Lemma dialing_again n w :
  dialing w -> dialing (Nat.iter n (failsAndRetries cardElt) w) /\
    rowsOf (Nat.iter n (failsAndRetries cardElt) w) = rowsOf w.
Proof.
  intros Hd. induction n as [|n [(Ht & Hn & s & q & Hs & Hq & Hes) Hr]]; [done|].
  cbn [Nat.iter nat_rect]. destruct (dial _ _ _ _ _ Ht Hn Hs Hes) as [Hd' Hr']; [done|].
  split; [exact Hd'|]. unfold Nat.iter in *. congruence.
Qed.

Lemma register_ticker s (w : world (page row)) :
  w_source w !! tickerElt = None -> w_source w !! cardElt = Some s ->
  registerSSE 2 w = addSseListener tickerElt s "ticker"
    (fun id => SwapListener id tickerElt cardElt s "ticker") w.
Proof.
  intros Hn Hs. unfold registerSSE, registerSwaps, getClosestMatch, hasEventSource.
  cbn [ancestorsOf homePage List.find]. change (w_source w !! 2) with (w_source w !! tickerElt).
  change (w_source w !! 1) with (w_source w !! cardElt). rewrite Hn, Hs.
  change (bool_decide (is_Some (@None sid))) with false. cbn -[lookup]. change (w_source w !! 1) with (w_source w !! cardElt). rewrite Hs. done.
Qed.

Lemma open_listening w :
  dialing w -> listening (step w (SourceOpens (currentSource w))) /\
    rowsOf (step w (SourceOpens (currentSource w))) = rowsOf w.
Proof.
  intros (Ht & Hn & s & q & Hs & Hq & Hes). unfold currentSource. rewrite Hs.
  cbn [default from_option id step]. unfold hasState. rewrite Hes. rewrite bool_decide_true by done.
  erewrite onopen_eq by (cbn; by rewrite lookup_alter_eq, Hes). cbn -[Nat.ltb].
  destruct (Nat.ltb_spec 0 q) as [_|]; [|lia].
  rewrite (register_ticker s) by done. unfold listening, rowsOf, addSseListener.
  cbn [w_dom w_sources w_source w_timers set_timers update_source set_sources set_dom w_next].
  split; [|done]. split; [done|]. split; [done|]. eexists s, _, (Some 0).
  rewrite !lookup_alter_eq, Hes. done.
Qed.

Definition isRow (ev : feedEvent) : bool := match ev with Row _ => true | _ => false end.

Lemma feedRows_cons ev evs :
  feedRows (ev :: evs) = feedRows evs ++ match ev with Row m => parse m | _ => [] end.
Proof. unfold feedRows. cbn [map rev]. rewrite concat_app. cbn [concat]. by rewrite app_nil_r. Qed.

Lemma feedRows_none evs : existsb isRow evs = false -> feedRows evs = [].
Proof.
  induction evs as [|ev evs IH]; [done|]. cbn [existsb]. intros [Hev Hevs]%orb_false_iff.
  rewrite feedRows_cons, IH by done. by destruct ev.
Qed.

Lemma take_app_take n (a b : list row) : take n (a ++ take n b) = take n (a ++ b).
Proof.
  rewrite !take_app. f_equal. rewrite take_take. f_equal. lia.
Qed.

Lemma outage_step w n rows :
  listening w -> rowsOf w = Some rows ->
  listening (feedStep w (Outage n)) /\ rowsOf (feedStep w (Outage n)) = Some rows.
Proof.
  intros (Ht & Hn & s & i & r & Hs & Hr & Hes) Hrows. unfold feedStep. cbn zeta.
  destruct (dial _ _ _ _ _ Ht Hn Hs Hes) as [Hd Hr1]; [done|].
  destruct (dialing_again n _ Hd) as [Hd2 Hr2]. unfold Nat.iter in *. rewrite nat_rect_succ_r.
  destruct (open_listening _ Hd2) as [Hl Hr3]. split; [exact Hl|]. congruence.
Qed.

(** Whatever the stream does, the list holds the newest rows first. *)
Lemma feed_rows evs w rows :
  listening w -> rowsOf w = Some rows ->
  listening (fold_left feedStep evs w) /\
  rowsOf (fold_left feedStep evs w) =
    Some (if existsb isRow evs then take MAX_ROWS (feedRows evs ++ rows) else rows).
Proof.
  revert w rows. induction evs as [|ev evs IH]; intros w rows Hl Hr; cbn [fold_left existsb]; [done|].
  rewrite feedRows_cons. destruct ev as [m|name data| |n]; cbn [isRow orb].
  - destruct (row_step w m rows Hl Hr) as [Hl1 Hr1]. destruct (IH _ _ Hl1 Hr1) as [Hl2 Hr2].
    split; [done|]. rewrite Hr2. f_equal. destruct (existsb isRow evs) eqn:E.
    + by rewrite take_app_take, <- app_assoc.
    + by rewrite (feedRows_none _ E).
  - rewrite app_nil_r, (other_step w name data Hl). by apply IH.
  - rewrite app_nil_r. destruct (blip_step w rows Hl Hr) as [Hl1 Hr1]. by apply IH.
  - rewrite app_nil_r. destruct (outage_step w n rows Hl Hr) as [Hl1 Hr1]. by apply IH.
Qed.
End feed.

(** * The theorems of this component *)

(** C1: however messages, dropped connections and outages with any number of failed
    retries follow each other, the list shows the rows of the stream newest first, each
    exactly once and at most forty of them, and goes on listening. *)
Theorem feed_newest_first {row} (parse : string -> list row) (p : page row) (rows : list row)
    (evs : list feedEvent) :
  pg_ticker p = Some rows ->
  let w := fold_left (feedStep parse) evs (homeLoaded parse p) in
  listening w /\
  rowsOf w = Some (if existsb isRow evs then take MAX_ROWS (feedRows parse evs ++ rows) else rows).
Proof.
  intros Hp. destruct (homeLoaded_listening parse p) as [Hl Hr]. rewrite Hp in Hr. by apply feed_rows.
Qed.

Lemma feed_newest_first_witness :
  rowsOf (fold_left (feedStep (fun m => [m])) [Row "a"; Outage 3; Row "b"; Blip; Other "message" "{}"; Row "c"]
    (homeLoaded (fun m => [m]) (Page (Some ["z"]) false None None))) = Some ["c"; "b"; "a"; "z"].
Proof.
  destruct (feed_newest_first (fun m => [m]) (Page (Some ["z"]) false None None) ["z"]
    [Row "a"; Outage 3; Row "b"; Blip; Other "message" "{}"; Row "c"] eq_refl) as [_ H].
  exact H.
Defined.

Lemma reconnect_delay_bounds_witness :
  exists r, backoff r /\ 1000 = r * 500.
Proof.
  destruct (@reconnect_delay_bounds (page string) (homePage (fun m => [m])) (Page None false None None)
    [Process 1; SourceFails 0 true; TimerFires 0; SourceFails 1 true] 1 1000) as [_ Hk].
  - vm_compute. tauto.
  - exact Hk.
Defined.


(** An element htmx processes while a reconnection is under way is registered at once
    and again when the connection opens: its next message is swapped in twice. *)
Theorem processed_while_reconnecting_twice :
  let w := homeLoaded (fun m => [m]) (Page (Some ["z"]) false None None) in
  let w := failsAndRetries (H := homePage (fun m => [m])) cardElt w in
  let w := step (H := homePage (fun m => [m])) w (Process tickerElt) in
  let w := step (H := homePage (fun m => [m])) w (SourceOpens (currentSource w)) in
  rowsOf (feedStep (fun m => [m]) w (Row "a")) = Some ["a"; "a"; "z"].
Proof. vm_compute. reflexivity. Qed.
