(* ===== verification/Reconnect.v ===== *)
(** The reconnection dialog of the journal site,
    [EliteEvents.JournalWeb/Components/Layout/ReconnectModal.razor.js]: what it does on the
    state changes Blazor reports, on its two buttons and when the page becomes visible. *)
From Stdlib Require Import Lia.
From S2P Require Import Prelude.

(** The [async] functions that are waiting, each at one of its [await]s. *)
Inductive waiting :=
  | RetryReconnect                     (** [retry] awaits [Blazor.reconnect()] *)
  | RetryResume                        (** [retry] awaits [Blazor.resumeCircuit()] *)
  | ResumeResume.                      (** [resume] awaits [Blazor.resumeCircuit()] *)
#[export] Instance waiting_eq_dec : EqDecision waiting.
Proof. solve_decision. Defined.

Record modalState := ModalState {
  mo_open : bool;                      (** the dialog is shown *)
  mo_listening : bool;                 (** [retryWhenDocumentBecomesVisible] listens on the document *)
  mo_reload : bool;                    (** [location.reload()] was called *)
  mo_waiting : list waiting
}.

Definition showModal (m : modalState) := ModalState true (mo_listening m) (mo_reload m) (mo_waiting m).
Definition closeModal (m : modalState) := ModalState false (mo_listening m) (mo_reload m) (mo_waiting m).
Definition listen (b : bool) (m : modalState) := ModalState (mo_open m) b (mo_reload m) (mo_waiting m).
Definition reload (m : modalState) := ModalState (mo_open m) (mo_listening m) true (mo_waiting m).
Definition await (w : waiting) (m : modalState) :=
  ModalState (mo_open m) (mo_listening m) (mo_reload m) (mo_waiting m ++ [w]).

Definition handleReconnectStateChanged (state : string) (m : modalState) : modalState :=
  if str_eqb state "show" then showModal m
  else if str_eqb state "hide" then closeModal m
  else if str_eqb state "failed" then listen true m
  else if str_eqb state "rejected" then reload m
  else m.

(** How a call into Blazor ends: a boolean, or an exception. *)
Inductive answer := Answer (b : bool) | Throws.

(** [throws]: the call into Blazor throws at once instead of returning a promise. *)
Definition retry (throws : bool) (m : modalState) : modalState :=
  let m := listen false m in
  if throws then listen true m else await RetryReconnect m.

Definition resume (throws : bool) (m : modalState) : modalState :=
  if throws then reload m else await ResumeResume m.

Definition retryWhenDocumentBecomesVisible (visible throws : bool) (m : modalState) : modalState :=
  if visible then retry throws m else m.

(** The rest of the function that waited, once its promise is settled. *)
Definition continue (w : waiting) (a : answer) (resumeThrows : bool) (m : modalState) : modalState :=
  match w, a with
  | RetryReconnect, Answer true => m
  | RetryReconnect, Answer false => if resumeThrows then listen true m else await RetryResume m
  | RetryReconnect, Throws => listen true m
  | RetryResume, Answer true => closeModal m
  | RetryResume, Answer false => reload m
  | RetryResume, Throws => listen true m
  | ResumeResume, Answer true => m
  | ResumeResume, Answer false => reload m
  | ResumeResume, Throws => reload m
  end.

Inductive modalEvent :=
  | StateChanged (state : string)
  | RetryClicked (throws : bool)
  | ResumeClicked (throws : bool)
  | VisibilityChanged (visible throws : bool)
  | Settled (k : nat) (a : answer) (resumeThrows : bool).

Definition modalStep (m : modalState) (ev : modalEvent) : modalState :=
  match ev with
  | StateChanged state => handleReconnectStateChanged state m
  | RetryClicked throws => retry throws m
  | ResumeClicked throws => resume throws m
  | VisibilityChanged visible throws =>
      if mo_listening m then retryWhenDocumentBecomesVisible visible throws m else m
  | Settled k a resumeThrows =>
      match mo_waiting m !! k with
      | Some w => continue w a resumeThrows
                    (ModalState (mo_open m) (mo_listening m) (mo_reload m) (delete k (mo_waiting m)))
      | None => m
      end
  end.

Definition modalStart : modalState := ModalState false false false [].

Definition isRetry (w : waiting) : bool := match w with ResumeResume => false | _ => true end.
Definition retriesPending (m : modalState) : nat := length (List.filter isRetry (mo_waiting m)).

(** The retry button is left alone, and Blazor reports a failure only when no retry
    of this page is under way. *)
Fixpoint unattended (m : modalState) (evs : list modalEvent) : Prop :=
  match evs with
  | [] => True
  | ev :: evs =>
      match ev with
      | RetryClicked _ => False
      | StateChanged state => state = "failed" -> retriesPending m = 0
      | _ => True
      end /\ unattended (modalStep m ev) evs
  end.

(** ** One retry at a time *)

Definition oneRetry (m : modalState) : Prop :=
  retriesPending m <= 1 /\ (mo_listening m = true -> retriesPending m = 0).

Lemma filter_delete_retry k (l : list waiting) w :
  l !! k = Some w ->
  length (List.filter isRetry (delete k l)) + (if isRetry w then 1 else 0) = length (List.filter isRetry l).
Proof.
  intros Hk. rewrite <- (take_drop_middle l k w Hk) at 2. rewrite delete_take_drop.
  rewrite !List.filter_app. cbn. destruct (isRetry w); rewrite !length_app; cbn; lia.
Qed.

Lemma pending_await w m :
  retriesPending (await w m) = retriesPending m + (if isRetry w then 1 else 0).
Proof. unfold retriesPending, await. cbn. rewrite List.filter_app, length_app. cbn. by destruct (isRetry w). Qed.

Lemma continue_oneRetry w a rt m :
  mo_listening m = false \/ isRetry w = false ->
  retriesPending m + (if isRetry w then 1 else 0) <= 1 ->
  (mo_listening m = true -> retriesPending m = 0) -> oneRetry (continue w a rt m).
Proof.
  intros Hw Hp Hl. unfold oneRetry.
  destruct w, a as [[]|]; try destruct rt; cbn [continue isRetry] in *;
    rewrite ?pending_await; cbn [isRetry] in *;
    repeat match goal with |- context [retriesPending (?f m)] =>
      change (retriesPending (f m)) with (retriesPending m) end;
    cbn [mo_listening listen closeModal reload await];
    change (retriesPending (listen true m)) with (retriesPending m); try (split; [lia|intros; lia]);
    destruct Hw as [Hw|Hw]; try discriminate Hw; (split; [lia|]; try congruence; intros; auto; lia).
Qed.

Lemma unattended_step m ev evs :
  unattended m (ev :: evs) -> oneRetry m -> oneRetry (modalStep m ev).
Proof.
  intros [Hev _] [Hp Hl]. destruct ev as [state|throws|throws|visible throws|k a rt]; cbn [modalStep].
  - unfold handleReconnectStateChanged. destruct (str_eqb state "show"); [done|].
    destruct (str_eqb state "hide"); [done|]. destruct (str_eqb state "failed") eqn:E.
    + apply String.eqb_eq in E. specialize (Hev E). unfold oneRetry.
      change (retriesPending (listen true m)) with (retriesPending m). split; [lia|done].
    + by destruct (str_eqb state "rejected").
  - done.
  - unfold resume. destruct throws; [done|]. unfold oneRetry. rewrite pending_await. cbn. split; [lia|].
    intros Hx. specialize (Hl Hx). lia.
  - destruct (mo_listening m) eqn:E; [|split; [done|by rewrite E]]. specialize (Hl eq_refl).
    unfold retryWhenDocumentBecomesVisible, retry. destruct visible; [|by split].
    destruct throws; unfold oneRetry; rewrite ?pending_await.
    + change (retriesPending (listen true (listen false m))) with (retriesPending m). by split; [lia|].
    + change (retriesPending (listen false m)) with (retriesPending m). cbn. by split; [lia|].
  - destruct (mo_waiting m !! k) as [w|] eqn:E; [|done].
    pose proof (filter_delete_retry k _ w E) as Hd.
    unfold retriesPending in *. apply continue_oneRetry; unfold retriesPending; cbn [mo_listening mo_waiting].
    + destruct (mo_listening m); [|by left]. right. specialize (Hl eq_refl). destruct (isRetry w); [lia|done].
    + lia.
    + intros Hx. specialize (Hl Hx). lia.
Qed.

(** * The theorems of this component *)



(** How one attempt runs from the click to its end, given what Blazor answers. *)
Definition attempt (reconnect resumed : answer) (syncReconnect syncResume : bool) (m : modalState) : modalState :=
  let k := length (mo_waiting m) in
  let m1 := retry syncReconnect m in
  let m2 := modalStep m1 (Settled k reconnect syncResume) in
  modalStep m2 (Settled k resumed false).

(** C9: an attempt to reconnect always ends, and never leaves the user stuck: when
    the server was not reached it waits for the page to become visible again, when
    neither the circuit nor its state is left the page is reloaded, when the state could
    be resumed the dialog is closed, and nothing else changes. *)
Theorem attempt_outcome (reconnect resumed : answer) (syncReconnect syncResume : bool) (m : modalState) :
  attempt reconnect resumed syncReconnect syncResume m =
  (let unreachable := ModalState (mo_open m) true (mo_reload m) (mo_waiting m) in
   if syncReconnect then unreachable
   else match reconnect with
        | Throws => unreachable
        | Answer true => ModalState (mo_open m) false (mo_reload m) (mo_waiting m)
        | Answer false =>
            if syncResume then unreachable
            else match resumed with
                 | Throws => unreachable
                 | Answer true => ModalState false false (mo_reload m) (mo_waiting m)
                 | Answer false => ModalState (mo_open m) false true (mo_waiting m)
                 end
        end).
Proof.
  assert (Hlast : forall w, (mo_waiting m ++ [w]) !! length (mo_waiting m) = Some w).
  { intros w. by rewrite lookup_app_r, Nat.sub_diag. }
  assert (Hnone : mo_waiting m !! length (mo_waiting m) = None) by (by apply lookup_ge_None_2).
  assert (Hdel : forall w, delete (length (mo_waiting m)) (mo_waiting m ++ [w]) = mo_waiting m).
  { intros w. by rewrite delete_middle, app_nil_r. }
  destruct syncReconnect, reconnect as [[]|], syncResume, resumed as [[]|];
    unfold attempt, retry; cbn [modalStep mo_waiting listen await];
    rewrite ?Hlast, ?Hdel, ?Hnone; cbn [continue await listen closeModal reload mo_waiting];
    rewrite ?Hlast, ?Hdel, ?Hnone; reflexivity.
Qed.
