(* ===== verification/BsCore.v ===== *)
(** Bootstrap's foundations: the instance store [Data] and the helpers of [util/index.js]
    that work on numbers, lists and transitions. *)
From Stdlib Require Import Ascii QArith Lia ZArith.
From S2P Require Import Prelude.

Local Open Scope nat_scope.

(** ** Data: one instance per element *)

Module Data.
(** [elementMap]: from elements to maps from keys to instances. *)
Abbreviation elementMap inst := (gmap nat (obj inst)).

(** The contract: a store with one slot per element. *)
Abbreviation slots inst := (gmap nat (string * inst)).

Section store.
Context {inst : Type}.

(** [Data.set]; the second component is the key named in the console error. *)
Definition set (m : elementMap inst) (element : nat) (key : string) (instance : inst)
    : elementMap inst * option string :=
  let m := match m !! element with Some _ => m | None => <[element := []]> m end in
  match m !! element with
  | None => (m, None)
  | Some instanceMap =>
      if negb (ohas key instanceMap) && negb (length instanceMap =? 0) then
        (m, hd_error (okeys instanceMap))
      else (<[element := oset key instance instanceMap]> m, None)
  end.

Definition get (m : elementMap inst) (element : nat) (key : string) : option inst :=
  match m !! element with
  | Some instanceMap => oget key instanceMap
  | None => None
  end.

Definition remove (m : elementMap inst) (element : nat) (key : string) : elementMap inst :=
  match m !! element with
  | None => m
  | Some instanceMap =>
      let instanceMap := odelete key instanceMap in
      if length instanceMap =? 0 then delete element m else <[element := instanceMap]> m
  end.

(** The operations of the contract. *)
Definition slot_set (a : slots inst) element key instance : slots inst * option string :=
  match a !! element with
  | Some (key', _) =>
      if str_eqb key' key then (<[element := (key, instance)]> a, None) else (a, Some key')
  | None => (<[element := (key, instance)]> a, None)
  end.
Definition slot_get (a : slots inst) element key : option inst :=
  match a !! element with
  | Some (key', i) => if str_eqb key' key then Some i else None
  | None => None
  end.
Definition slot_remove (a : slots inst) element key : slots inst :=
  match a !! element with
  | Some (key', _) => if str_eqb key' key then delete element a else a
  | None => a
  end.

(** Calls, and what each of them lets the caller see. *)
Inductive call := Set_ (element : nat) (key : string) (i : inst)
                | Get (element : nat) (key : string)
                | Remove (element : nat) (key : string).
Definition seen : Type := option string + option inst.

Definition run (m : elementMap inst) (c : call) : elementMap inst * seen :=
  match c with
  | Set_ e k i => let '(m, err) := set m e k i in (m, inl err)
  | Get e k => (m, inr (get m e k))
  | Remove e k => (remove m e k, inl None)
  end.
Definition slot_run (a : slots inst) (c : call) : slots inst * seen :=
  match c with
  | Set_ e k i => let '(a, err) := slot_set a e k i in (a, inl err)
  | Get e k => (a, inr (slot_get a e k))
  | Remove e k => (slot_remove a e k, inl None)
  end.

Definition trace {S} (step : S -> call -> S * seen) (s : S) (cs : list call) : S * list seen :=
  fold_left (fun '(s, out) c => let '(s, o) := step s c in (s, out ++ [o])) cs (s, []).

(** The store as the slots it stands for. *)
Definition represents (m : elementMap inst) (a : slots inst) : Prop :=
  forall e, (m !! e : option (obj inst)) = match a !! e with Some (k, i) => Some ([(k, i)] : obj inst) | None => None end.

Lemma represents_insert m a e k i :
  represents m a -> represents (<[e := [(k, i)]]> m) (<[e := (k, i)]> a).
Proof.
  intros H e'. destruct (decide (e = e')) as [->|Hne].
  - by rewrite !lookup_insert_eq.
  - rewrite !lookup_insert_ne by done. apply H.
Qed.

Lemma represents_delete m a e : represents m a -> represents (delete e m) (delete e a).
Proof.
  intros H e'. destruct (decide (e = e')) as [->|Hne].
  - by rewrite !lookup_delete_eq.
  - rewrite !lookup_delete_ne by done. apply H.
Qed.

Lemma run_refines m a c :
  represents m a ->
  represents (fst (run m c)) (fst (slot_run a c)) /\ snd (run m c) = snd (slot_run a c).
Proof.
  intros H. destruct c as [e k i|e k|e k]; cbn [run slot_run]; pose proof (H e) as He.
  - unfold set, slot_set. destruct (m !! e) as [im|] eqn:Em; destruct (a !! e) as [[k' i']|] eqn:Ea;
      try discriminate He.
    + injection He as ->. cbv beta iota. rewrite Em. unfold ohas. cbn [oget length okeys map fst hd_error].
      rewrite (String.eqb_sym k' k). destruct (str_eqb k k') eqn:Ek; cbn [negb andb Nat.eqb].
      * apply String.eqb_eq in Ek as <-. split; [|done]. cbn [oset]. rewrite String.eqb_refl.
        by apply represents_insert.
      * split; [exact H|done].
    + rewrite lookup_insert_eq. cbn. split; [|done]. rewrite insert_insert_eq.
      by apply represents_insert.
  - split; [exact H|]. cbn. do 2 f_equal. unfold get, slot_get. rewrite He.
    destruct (a !! e) as [[k' i']|]; [|done]. cbn. rewrite String.eqb_sym. by destruct (str_eqb k' k).
  - split; [|done]. cbn. unfold remove, slot_remove. rewrite He.
    destruct (a !! e) as [[k' i']|]; [|exact H]. cbn.
    destruct (str_eqb k' k) eqn:Ek.
    + apply String.eqb_eq in Ek as <-. rewrite String.eqb_refl. cbn. by apply represents_delete.
    + rewrite String.eqb_sym, Ek. cbn. intros e'. destruct (decide (e = e')) as [->|Hne].
      * rewrite lookup_insert_eq, <- H. done.
      * rewrite lookup_insert_ne by done. apply H.
Qed.

Lemma trace_refines cs m a out :
  represents m a ->
  let r := fold_left (fun '(s, out) c => let '(s, o) := run s c in (s, out ++ [o])) cs (m, out) in
  let r' := fold_left (fun '(s, out) c => let '(s, o) := slot_run s c in (s, out ++ [o])) cs (a, out) in
  represents (fst r) (fst r') /\ snd r = snd r'.
Proof.
  cbv zeta. revert m a out. induction cs as [|c cs IH]; intros m a out H; cbn [fold_left]; [done|].
  pose proof (run_refines m a c H) as [Hr Ho].
  destruct (run m c) as [m1 o1], (slot_run a c) as [a1 o2]. cbn in Hr, Ho. subst o2. by apply IH.
Qed.
End store.
Arguments call : clear implicits.
Arguments seen : clear implicits.
End Data.

(** Whatever is stored, looked up and removed, the two nested maps behave as a
    store with one slot per element: a second component on an element is refused and
    named in the error, and removing the instance frees the slot. *)
Theorem data_refines_slots {inst} (cs : list (Data.call inst)) :
  snd (Data.trace Data.run (∅ : Data.elementMap inst) cs) =
  snd (Data.trace Data.slot_run (∅ : Data.slots inst) cs).
Proof. apply Data.trace_refines. intros e. by rewrite !lookup_empty. Qed.

(** ** Numbers in style values *)

(** Decimal digits from the front: their value, how many, and what follows. *)
Fixpoint digits (s : string) (value : Z) (count : nat) : Z * nat * string :=
  match s with
  | String a s' =>
      if is_digit a then digits s' (value * 10 + Z.of_nat (nat_of_ascii a - 48)) (S count)
      else (value, count, s)
  | EmptyString => (value, count, s)
  end.

Definition sign_of (s : string) : Z * string :=
  match s with
  | String "-" s => ((-1)%Z, s)
  | String "+" s => (1%Z, s)
  | _ => (1%Z, s)
  end.

Definition pow10 (e : Z) : Q := Qpower (10 # 1) e.

(** [Number.parseFloat] of a decimal number; [None] is [NaN]. *)
Definition parseFloat (s : string) : option Q :=
  let '(sign, s) := sign_of (str_trimStart s) in
  let '(whole, n, s) := digits s 0 0 in
  let '(value, m, s) := match s with
                        | String "." s' => digits s' whole 0
                        | _ => (whole, 0, s)
                        end in
  if (n + m =? 0) then None
  else
    let mantissa := (inject_Z (sign * value) * pow10 (- Z.of_nat m))%Q in
    match s with
    | String e s' =>
        if Ascii.eqb e "e" || Ascii.eqb e "E" then
          let '(esign, s') := sign_of s' in
          let '(ex, k, _) := digits s' 0 0 in
          Some (if (k =? 0) then mantissa else (mantissa * pow10 (esign * ex))%Q)
        else Some mantissa
    | EmptyString => Some mantissa
    end.

(** [Number.parseInt(s, 10)]; [None] is [NaN]. *)
Definition parseInt (s : string) : option Z :=
  let '(sign, s) := sign_of (str_trimStart s) in
  let '(value, n, _) := digits s 0 0 in
  if (n =? 0) then None else Some (sign * value)%Z.

Definition MILLISECONDS_MULTIPLIER : Q := 1000 # 1.

(** A number that is not truthy: [NaN] or zero. *)
Definition falsyNumber (q : option Q) : bool :=
  match q with Some q => Qeq_bool q 0 | None => true end.

(** [getTransitionDurationFromElement] on the two computed style values. *)
Definition getTransitionDurationFromElement (transitionDuration transitionDelay : string) : option Q :=
  if falsyNumber (parseFloat transitionDuration) && falsyNumber (parseFloat transitionDelay) then Some 0%Q
  else
    let first s := match split_char "," s with s :: _ => s | [] => "" end in
    match parseFloat (first transitionDuration), parseFloat (first transitionDelay) with
    | Some a, Some b => Some ((a + b) * MILLISECONDS_MULTIPLIER)%Q
    | _, _ => None
    end.

Example duration_first :
  option_map Qred (getTransitionDurationFromElement "0.35s, 1s" "1e-1s, 0s") = Some (450 # 1)%Q.
Proof. reflexivity. Qed.

(** ** The neighbour of an element in a list *)

Section neighbours.
Context {A : Type} `{EqDecision A}.

(** [list[i]] *)
Definition at_index (list : list A) (i : Z) : option A :=
  if (i <? 0)%Z then None else list !! Z.to_nat i.

Definition getNextActiveElement (list : list A) (activeElement : option A)
    (shouldGetNext isCycleAllowed : bool) : option A :=
  let listLength := Z.of_nat (length list) in
  match match activeElement with Some a => indexOf a list | None => None end with
  | None => if negb shouldGetNext && isCycleAllowed then at_index list (listLength - 1) else at_index list 0
  | Some index =>
      let index := (Z.of_nat index + (if shouldGetNext then 1 else -1))%Z in
      let index := if isCycleAllowed then Z.rem (index + listLength) listLength else index in
      at_index list (Z.max 0 (Z.min index (listLength - 1)))
  end.

Lemma at_index_nat l n : at_index l (Z.of_nat n) = l !! n.
Proof. unfold at_index. destruct (Z.ltb_spec (Z.of_nat n) 0); [lia|]. by rewrite Nat2Z.id. Qed.

Lemma getNextActiveElement_at l a i next cycle :
  indexOf a l = Some i ->
  getNextActiveElement l (Some a) next cycle =
    l !! (let n := length l in
          if next then if cycle then if S i =? n then 0 else S i else Nat.min (S i) (n - 1)
          else if cycle then if i =? 0 then n - 1 else i - 1 else i - 1).
Proof.
  intros Hi. pose proof (indexOf_lt _ _ _ Hi) as Hlt. unfold getNextActiveElement. rewrite Hi.
  rewrite <- at_index_nat. f_equal. cbv zeta.
  destruct next, cycle.
  - destruct (Nat.eqb_spec (S i) (length l)).
    + replace (Z.of_nat i + 1 + Z.of_nat (length l))%Z with (0 + 2 * Z.of_nat (length l))%Z by lia.
      rewrite Z.rem_add by lia. rewrite Z.rem_0_l by lia. lia.
    + rewrite Z.rem_mod_nonneg by lia.
      replace (Z.of_nat i + 1 + Z.of_nat (length l))%Z with (Z.of_nat i + 1 + 1 * Z.of_nat (length l))%Z by lia.
      rewrite Z.mod_add, Z.mod_small by lia. lia.
  - lia.
  - destruct (Nat.eqb_spec i 0) as [->|].
    + rewrite Z.rem_small by lia. lia.
    + rewrite Z.rem_mod_nonneg by lia.
      replace (Z.of_nat i + -1 + Z.of_nat (length l))%Z with (Z.of_nat i - 1 + 1 * Z.of_nat (length l))%Z by lia.
      rewrite Z.mod_add, Z.mod_small by lia. lia.
  - lia.
Qed.
End neighbours.

Section cycling.
Context {A : Type} `{EqDecision A}.

Lemma indexOf_lookup (l : list A) i a : List.NoDup l -> l !! i = Some a -> indexOf a l = Some i.
Proof.
  revert i. induction l as [|x l IH]; intros i Hnd Hi; [done|].
  apply List.NoDup_cons_iff in Hnd as [Hx Hnd]. cbn [indexOf]. destruct i as [|i]; cbn in Hi.
  - injection Hi as ->. by rewrite decide_True.
  - rewrite decide_False.
    + by rewrite (IH i Hnd Hi).
    + intros ->. apply Hx. apply list_elem_of_In. by eapply list_elem_of_lookup_2.
Qed.

(** Going [k] times to the next element. *)
Definition stepsNext (l : list A) (a : A) (k : nat) : option A :=
  Nat.iter k (fun o => o ≫= fun x => getNextActiveElement l (Some x) true true) (Some a).

Lemma stepsNext_at l a i k :
  List.NoDup l -> l !! i = Some a -> stepsNext l a k = l !! ((i + k) mod length l).
Proof.
  intros Hnd Hi. pose proof (lookup_lt_Some _ _ _ Hi) as Hlt.
  induction k as [|k IH]; unfold stepsNext in *; cbn [Nat.iter nat_rect].
  { by rewrite Nat.add_0_r, Nat.mod_small. }
  unfold Nat.iter in IH. rewrite IH. set (j := (i + k) mod length l).
  assert (Hj : j < length l) by (apply Nat.mod_upper_bound; lia).
  destruct (lookup_lt_is_Some_2 l j Hj) as [b Hb]. rewrite Hb. cbn [mbind option_bind].
  rewrite (getNextActiveElement_at _ _ j) by (by apply indexOf_lookup). cbv zeta.
  f_equal. replace (i + S k) with (S (i + k)) by lia.
  rewrite (Nat.div_mod_eq (i + k) (length l)). fold j.
  replace (S (length l * ((i + k) / length l) + j)) with (S j + (i + k) / length l * length l) by lia.
  rewrite Nat.Div0.mod_add. destruct (Nat.eqb_spec (S j) (length l)) as [->|].
  - by rewrite Nat.Div0.mod_same.
  - by rewrite Nat.mod_small by lia.
Qed.
End cycling.

(** With cycling allowed, going on to the next element again and again goes through
    the list in order and comes back round, and going back undoes going on. *)
Theorem cycling_visits_all {A} `{EqDecision A} (l : list A) (a : A) (i : nat) :
  List.NoDup l -> l !! i = Some a ->
  (forall k, stepsNext l a k = l !! ((i + k) mod length l)) /\
  (getNextActiveElement l (Some a) true true ≫= fun b => getNextActiveElement l (Some b) false true) = Some a.
Proof.
  intros Hnd Hi. split; [intros k; by apply stepsNext_at|].
  pose proof (lookup_lt_Some _ _ _ Hi) as Hlt.
  rewrite (getNextActiveElement_at _ _ i) by (by apply indexOf_lookup). cbv zeta.
  set (j := if S i =? length l then 0 else S i).
  assert (Hj : j < length l) by (unfold j; destruct (Nat.eqb_spec (S i) (length l)); lia).
  destruct (lookup_lt_is_Some_2 l j Hj) as [b Hb]. rewrite Hb. cbn [mbind option_bind].
  rewrite (getNextActiveElement_at _ _ j) by (by apply indexOf_lookup). cbv zeta.
  rewrite <- Hi. f_equal. unfold j.
  destruct (Nat.eqb_spec (S i) (length l)); [|destruct (Nat.eqb_spec (S i) 0); lia]. cbn. lia.
Qed.

Lemma cycling_visits_all_witness :
  stepsNext ["a"; "b"; "c"] "b" 5 = Some "a".
Proof.
  destruct (cycling_visits_all ["a"; "b"; "c"] "b" 1) as [H _].
  - repeat constructor; cbn; intuition discriminate.
  - reflexivity.
  - exact (H 5).
Defined.

(** ** executeAfterTransition *)

Module Transition.

(** One call with [waitForTransition]: what its handler and timer close over. *)
Record pending := Pending {
  p_element : nat;
  p_called : bool;
  p_listening : bool;                  (** the handler is registered *)
  p_timer : bool                       (** the timer is still to come *)
}.

(** The calls so far, each known by its number, and the callbacks run, in order. *)
Record state := State { t_calls : list pending; t_ran : list nat }.

Inductive event :=
  | Execute (element : nat) (waitForTransition : bool)   (** a call of the function *)
  | TransitionEnd (target : nat)                         (** a [transitionend] event *)
  | TimerExpires (k : nat).

Definition hears (target : nat) (p : pending) : bool := p_listening p && (p_element p =? target).
Definition handled (p : pending) : pending := Pending (p_element p) true false (p_timer p).

(** The indices in [l], counted from [k], whose entry satisfies [f]. *)
Fixpoint indices (f : pending -> bool) (k : nat) (l : list pending) : list nat :=
  match l with
  | [] => []
  | p :: l => (if f p then [k] else []) ++ indices f (S k) l
  end.

(** A handler on another element sees the event too when it bubbles, and ignores it. *)
Definition dispatch (target : nat) (s : state) : state :=
  State (map (fun p => if hears target p then handled p else p) (t_calls s))
        (t_ran s ++ indices (hears target) 0 (t_calls s)).

Definition step (s : state) (ev : event) : state :=
  match ev with
  | Execute element false =>
      State (t_calls s ++ [Pending element true false false]) (t_ran s ++ [length (t_calls s)])
  | Execute element true =>
      State (t_calls s ++ [Pending element false true true]) (t_ran s)
  | TransitionEnd target => dispatch target s
  | TimerExpires k =>
      match t_calls s !! k with
      | Some p =>
          if p_timer p then
            let s' := State (<[k := Pending (p_element p) (p_called p) (p_listening p) false]> (t_calls s)) (t_ran s) in
            if p_called p then s' else dispatch (p_element p) s'
          else s
      | None => s
      end
  end.

Definition run (evs : list event) : state := fold_left step evs (State [] []).

(** A call is handled exactly when it has stopped listening, its callback has run as often
    as it was handled, and a call whose timer is gone has been handled. *)
Record inv (s : state) : Prop := {
  i_call k p : t_calls s !! k = Some p ->
    p_listening p = negb (p_called p) /\ count_occ Nat.eq_dec (t_ran s) k = (if p_called p then 1 else 0) /\
    (p_timer p = false -> p_called p = true);
  i_none k : length (t_calls s) <= k -> count_occ Nat.eq_dec (t_ran s) k = 0
}.

Lemma count_indices f j l k :
  count_occ Nat.eq_dec (indices f j l) k =
  match l !! (k - j) with Some p => if (j <=? k) && f p then 1 else 0 | None => 0 end.
Proof.
  revert j. induction l as [|p l IH]; intros j; cbn [indices]; [done|].
  rewrite count_occ_app, IH. destruct (Nat.leb_spec j k) as [Hle|Hlt].
  - destruct (Nat.eq_dec j k) as [->|Hne].
    + rewrite Nat.sub_diag. cbn [lookup list_lookup andb].
      replace (match l !! (k - S k) with Some p0 => if (S k <=? k) && f p0 then 1 else 0 | None => 0 end) with 0.
      2:{ destruct (l !! _); [|done]. by destruct (Nat.leb_spec (S k) k); [lia|]. }
      destruct (f p); cbn; [|done]. by destruct (Nat.eq_dec k k).
    + replace (k - j) with (S (k - S j)) by lia. cbn [lookup list_lookup].
      destruct (Nat.leb_spec (S j) k); [|lia].
      destruct (f p); cbn; [|done]. destruct (Nat.eq_dec j k); [done|]. done.
  - replace (k - j) with 0 by lia. cbn [lookup list_lookup andb].
    destruct (Nat.leb_spec (S j) k); [lia|]. destruct (l !! _); cbn.
    + destruct (f p); cbn; [|done]. destruct (Nat.eq_dec j k); [lia|done].
    + destruct (f p); cbn; [|done]. destruct (Nat.eq_dec j k); [lia|done].
Qed.

Lemma inv_dispatch target s : inv s -> inv (dispatch target s).
Proof.
  intros [IC IN]. split; cbn [dispatch t_calls t_ran].
  - intros k p'. change (map ?f (t_calls s)) with (f <$> t_calls s).
    rewrite list_lookup_fmap_Some. intros (p & -> & Hp).
    destruct (IC k p Hp) as (Hl & Hc & Ht).
    rewrite count_occ_app, count_indices, Nat.sub_0_r, Hp, Hc. cbn [Nat.leb andb].
    unfold hears. rewrite Hl. destruct (p_called p) eqn:Ec; cbn [negb andb].
    + rewrite Ec, Hl. done.
    + destruct (p_element p =? target); cbn; [done|]. rewrite Ec, Hl. done.
  - intros k. rewrite length_map. intros Hk. rewrite count_occ_app, IN, count_indices, Nat.sub_0_r by done.
    by rewrite lookup_ge_None_2.
Qed.

Lemma inv_app p s ran :
  inv s -> p_listening p = negb (p_called p) -> (p_timer p = false -> p_called p = true) ->
  ran = (if p_called p then [length (t_calls s)] else []) ->
  inv (State (t_calls s ++ [p]) (t_ran s ++ ran)).
Proof.
  intros [IC IN] Hl Ht ->. split; cbn [t_calls t_ran].
  - intros k q. rewrite count_occ_app. intros [Hk|[Hk Hq]]%lookup_app_Some.
    + pose proof (lookup_lt_Some _ _ _ Hk). destruct (IC k q Hk) as (H1 & H2 & H3). split; [done|].
      split; [|done]. rewrite H2. destruct (p_called p); cbn; [|lia].
      destruct (Nat.eq_dec _ k); lia.
    + apply list_lookup_singleton_Some in Hq as [Hk0 <-].
      assert (k = length (t_calls s)) as -> by lia. rewrite IN by lia. split; [done|]. split; [|done].
      destruct (p_called p); cbn; [|done]. by destruct (Nat.eq_dec _ _).
  - intros k. rewrite length_app, count_occ_app. cbn. intros Hk. rewrite IN by lia.
    destruct (p_called p); cbn; [|done]. destruct (Nat.eq_dec _ k); lia.
Qed.

Lemma inv_step s ev : inv s -> inv (step s ev).
Proof.
  intros I. destruct ev as [element [|]|target|k]; cbn [step].
  - rewrite <- (app_nil_r (t_ran s)). by apply inv_app.
  - by apply inv_app.
  - by apply inv_dispatch.
  - destruct (t_calls s !! k) as [p|] eqn:Hp; [|done]. destruct (p_timer p) eqn:Ht; [|done].
    destruct I as [IC IN]. destruct (IC k p Hp) as (Hl & Hc & _). pose proof (lookup_lt_Some _ _ _ Hp).
    set (calls := <[k := _]> (t_calls s)). cbv zeta.
    assert (Hnone : forall j, length calls <= j -> count_occ Nat.eq_dec (t_ran s) j = 0).
    { intros j. unfold calls. rewrite length_insert. apply IN. }
    destruct (p_called p) eqn:Ec.
    + split; [|exact Hnone]. cbn [t_calls t_ran]. intros j q Hq. unfold calls in Hq.
      apply list_lookup_insert_Some in Hq as [(<- & <- & _)|[_ Hq]]; [|by apply IC].
      cbn. rewrite Hl, Hc. done.
    + split; cbn [dispatch t_calls t_ran].
      * intros j q'. change (map ?f calls) with (f <$> calls). rewrite list_lookup_fmap_Some.
        intros (q & -> & Hq). rewrite count_occ_app, count_indices, Nat.sub_0_r, Hq. cbn [Nat.leb andb].
        unfold calls in Hq. apply list_lookup_insert_Some in Hq as [(<- & <- & _)|[_ Hq]].
        -- rewrite Hc. unfold hears. cbn. rewrite Hl. cbn. rewrite Nat.eqb_refl. done.
        -- destruct (IC j q Hq) as (H1 & H2 & H3). rewrite H2. unfold hears. rewrite H1.
           destruct (p_called q) eqn:Eq; cbn [negb andb]; [rewrite Eq, H1; done|].
           destruct (p_element q =? p_element p); cbn; [done|]. rewrite Eq, H1. done.
      * intros j. rewrite length_map. intros Hj. rewrite count_occ_app, Hnone, count_indices, Nat.sub_0_r by done.
        by rewrite lookup_ge_None_2.
Qed.

Lemma run_snoc evs ev : run (evs ++ [ev]) = step (run evs) ev.
Proof. unfold run. by rewrite fold_left_app. Qed.

Lemma inv_run evs : inv (run evs).
Proof.
  induction evs as [|ev evs IH] using rev_ind; [|rewrite run_snoc; by apply inv_step].
  split; cbn; [intros k p; by rewrite lookup_nil|done].
Qed.

Lemma ran_le_1 evs k : count_occ Nat.eq_dec (t_ran (run evs)) k <= 1.
Proof.
  destruct (inv_run evs) as [IC IN]. destruct (t_calls (run evs) !! k) as [p|] eqn:Hp.
  - destruct (IC k p Hp) as (_ & -> & _). destruct (p_called p); lia.
  - apply lookup_ge_None_1 in Hp. rewrite IN by done. lia.
Qed.

Lemma ran_grows s evs k :
  count_occ Nat.eq_dec (t_ran s) k <= count_occ Nat.eq_dec (t_ran (fold_left step evs s)) k.
Proof.
  revert s. induction evs as [|ev evs IH]; intros s; cbn [fold_left]; [done|].
  etransitivity; [|apply IH]. destruct ev as [element [|]|target|j]; cbn [step dispatch t_ran];
    rewrite ?count_occ_app; try lia.
  destruct (t_calls s !! j) as [p|]; [|done]. destruct (p_timer p); [|done].
  destruct (p_called p); cbn; rewrite ?count_occ_app; lia.
Qed.

(** The timer of a call has expired: its callback has run. *)
Lemma timer_runs evs k :
  k < length (t_calls (run evs)) -> count_occ Nat.eq_dec (t_ran (step (run evs) (TimerExpires k))) k = 1.
Proof.
  intros Hk. pose proof (ran_le_1 (evs ++ [TimerExpires k]) k) as Hle. rewrite run_snoc in Hle.
  destruct (lookup_lt_is_Some_2 _ _ Hk) as [p Hp]. destruct (inv_run evs) as [IC _].
  destruct (IC k p Hp) as (Hl & Hc & Ht).
  pose proof (ran_grows (run evs) [TimerExpires k] k) as Hg. cbn [fold_left] in Hg.
  cbn [step] in *. rewrite Hp in *. destruct (p_timer p); [|rewrite Ht in Hc by done; lia].
  destruct (p_called p); [lia|]. cbn [dispatch t_ran t_calls] in *.
  rewrite count_occ_app, count_indices, Nat.sub_0_r, list_lookup_insert_eq by done.
  unfold hears. cbn. rewrite Hl, Nat.eqb_refl. cbn. lia.
Qed.
End Transition.

(** C10: however calls, transition events and timers follow each other, a callback never
    runs twice, and once its call's timer has expired it has run exactly once. *)
Theorem callback_runs_exactly_once (before after : list Transition.event) (k : nat) :
  count_occ Nat.eq_dec (Transition.t_ran (Transition.run (before ++ after))) k <= 1 /\
  (k < length (Transition.t_calls (Transition.run before)) ->
   count_occ Nat.eq_dec (Transition.t_ran (Transition.run (before ++ Transition.TimerExpires k :: after))) k = 1).
Proof.
  split; [apply Transition.ran_le_1|]. intros Hk.
  pose proof (Transition.ran_le_1 (before ++ Transition.TimerExpires k :: after) k) as Hle.
  pose proof (Transition.timer_runs before k Hk) as H1.
  pose proof (Transition.ran_grows (Transition.step (Transition.run before) (Transition.TimerExpires k)) after k) as Hg.
  unfold Transition.run in *. rewrite fold_left_app in *. cbn [fold_left] in *. lia.
Qed.

Lemma callback_runs_exactly_once_witness :
  count_occ Nat.eq_dec (Transition.t_ran (Transition.run
    ([Transition.Execute 7 true] ++ Transition.TimerExpires 0 :: [Transition.TransitionEnd 7]))) 0 = 1.
Proof.
  apply (callback_runs_exactly_once [Transition.Execute 7 true] [Transition.TransitionEnd 7] 0).
  vm_compute. lia.
Defined.
