(* ===== verification/BsEvents.v ===== *)
(** Bootstrap's [EventHandler]: a registry of event handlers beside the browser's own
    listeners, with namespaces ("click.bs.alert"), delegation to a selector, one-off
    handlers and removal by function or by namespace. *)
From Stdlib Require Import Ascii Lia.
From stdpp Require Import pretty.
From S2P Require Import Prelude.

Local Open Scope nat_scope.

Definition customEvents : obj string := [("mouseenter", "mouseover"); ("mouseleave", "mouseout")].

Definition nativeEvents : list string :=
  ["click"; "dblclick"; "mouseup"; "mousedown"; "contextmenu"; "mousewheel"; "DOMMouseScroll";
   "mouseover"; "mouseout"; "mousemove"; "selectstart"; "selectend"; "keydown"; "keypress"; "keyup";
   "orientationchange"; "touchstart"; "touchmove"; "touchend"; "touchcancel"; "pointerdown";
   "pointermove"; "pointerup"; "pointerleave"; "pointercancel"; "gesturestart"; "gesturechange";
   "gestureend"; "focus"; "blur"; "change"; "reset"; "select"; "submit"; "focusin"; "focusout"; "load";
   "unload"; "beforeunload"; "resize"; "move"; "DOMContentLoaded"; "readystatechange"; "error"; "abort";
   "scroll"].

(** [replace(stripNameRegex, '')]: what stands before the first dot. *)
Fixpoint stripName (s : string) : string :=
  match s with
  | EmptyString => EmptyString
  | String a s => if Ascii.eqb a "." then EmptyString else String a (stripName s)
  end.

(** [replace(namespaceRegex, '')]: what follows the first dot. *)
Fixpoint namespaceOf (s : string) : string :=
  match s with
  | EmptyString => EmptyString
  | String a s => if Ascii.eqb a "." then s else namespaceOf s
  end.

Fixpoint all_digits (s : string) : bool :=
  match s with EmptyString => true | String a s => is_digit a && all_digits s end.

(** [replace(stripUidRegex, '')]: without "::" and digits at the end. *)
Fixpoint stripUid (s : string) : string :=
  if startsWith s "::" && str_truthy (str_skip 2 s) && all_digits (str_skip 2 s) then EmptyString
  else match s with EmptyString => EmptyString | String a s => String a (stripUid s) end.

Definition getTypeEvent (event : string) : string :=
  let event := stripName event in default event (oget event customEvents).

(** Functions: one of the program's, or the wrapper made for [mouseenter] and [mouseleave]. *)
Inductive callable := Fn (n : nat) | Wrapped (id : nat).
#[export] Instance callable_eq_dec : EqDecision callable.
Proof. solve_decision. Defined.

(** The argument after the event name: a selector, a function, or nothing. *)
Inductive handlerArg := HSelector (s : string) | HFn (c : callable) | HNone.

(** The function registered with the browser and the properties put on it. *)
Record hfn := Hfn {
  h_id : nat;
  h_selector : option string;          (** [delegationSelector] *)
  h_callable : option callable;
  h_oneOff : bool;
  h_uid : string
}.

(** A listener of the browser: element, event type, function, capture. *)
Definition nativeListener : Type := nat * string * nat * bool.

Record evState := EvState {
  uidEvent : nat;
  elementUid : gmap nat nat;                     (** [element.uidEvent] *)
  eventRegistry : gmap nat (obj (obj hfn));      (** by the element's number, event type and key *)
  listeners : list nativeListener;
  nextFn : nat
}.

Definition evStart : evState := EvState 1 ∅ ∅ [] 0.

(** [element.uidEvent || uidEvent++], remembered on the element, with its events. *)
Definition getElementEvents (element : nat) (st : evState) : nat * obj (obj hfn) * evState :=
  let '(uid, st) := match elementUid st !! element with
                    | Some uid => (uid, st)
                    | None => (uidEvent st, EvState (S (uidEvent st)) (<[element := uidEvent st]> (elementUid st))
                                             (eventRegistry st) (listeners st) (nextFn st))
                    end in
  let events := default [] (eventRegistry st !! uid) in
  (uid, events, EvState (uidEvent st) (elementUid st) (<[uid := events]> (eventRegistry st))
                  (listeners st) (nextFn st)).

(** The key of a handler: its namespace and a running number. *)
Definition makeEventUid (namespace : string) (n : nat) : string :=
  if str_truthy namespace then namespace +:+ "::" +:+ pretty n else pretty n.

Definition findHandler (events : obj hfn) (c : option callable) (selector : option string) : option hfn :=
  List.find (fun h => bool_decide (h_callable h = c) && bool_decide (h_selector h = selector)) (map snd events).

Definition normalizeParameters (originalTypeEvent : string) (handler : handlerArg)
    (delegationFunction : option callable) : bool * option callable * string :=
  let isDelegated := match handler with HSelector _ => true | _ => false end in
  let callable := match handler with
                  | HSelector _ => delegationFunction
                  | HFn c => Some c
                  | HNone => delegationFunction
                  end in
  let typeEvent := getTypeEvent originalTypeEvent in
  (isDelegated, callable, if in_strs typeEvent nativeEvents then typeEvent else originalTypeEvent).

Definition selectorOf (handler : handlerArg) : option string :=
  match handler with HSelector s => Some s | _ => None end.

Definition eventsOf (uid : nat) (st : evState) : obj (obj hfn) := default [] (eventRegistry st !! uid).

(** [events[typeEvent] || {}] *)
Definition handlersOf (events : obj (obj hfn)) (typeEvent : string) : obj hfn :=
  default [] (oget typeEvent events).

Definition putHandlers (uid : nat) (typeEvent : string) (handlers : obj hfn) (st : evState) : evState :=
  EvState (uidEvent st) (elementUid st)
    (<[uid := oset typeEvent handlers (eventsOf uid st)]> (eventRegistry st))
    (listeners st) (nextFn st).

(** The part of [addHandler] after its function is settled. *)
Definition addCallable (element : nat) (originalTypeEvent typeEvent : string) (handler : handlerArg)
    (isDelegated : bool) (c : option callable) (oneOff : bool) (st : evState) : res evState :=
  let '(uid, events, st) := getElementEvents element st in
  let handlers := handlersOf events typeEvent in
  let st := putHandlers uid typeEvent handlers st in
  match findHandler handlers c (selectorOf handler) with
  | Some previous =>
      Ok (putHandlers uid typeEvent
            (oset (h_uid previous) (Hfn (h_id previous) (h_selector previous) (h_callable previous)
                                      (h_oneOff previous && oneOff) (h_uid previous)) handlers) st)
  | None =>
      let namespace := namespaceOf originalTypeEvent in
      if negb (str_truthy namespace) && bool_decide (c = None) then Err (TypeError "uidEvent")
      else
        let key := makeEventUid namespace (uidEvent st) in
        let h := Hfn (nextFn st) (selectorOf handler) c oneOff key in
        let st := putHandlers uid typeEvent (oset key h handlers) st in
        Ok (EvState (S (uidEvent st)) (elementUid st) (eventRegistry st)
              (listeners st ++ [(element, typeEvent, h_id h, isDelegated)]) (S (nextFn st)))
  end.

Definition addHandler (element : nat) (originalTypeEvent : string) (handler : handlerArg)
    (delegationFunction : option callable) (oneOff : bool) (st : evState) : res evState :=
  let '(isDelegated, fn, typeEvent) := normalizeParameters originalTypeEvent handler delegationFunction in
  if ohas originalTypeEvent customEvents then
    addCallable element originalTypeEvent typeEvent handler isDelegated (Some (Wrapped (nextFn st))) oneOff
      (EvState (uidEvent st) (elementUid st) (eventRegistry st) (listeners st) (S (nextFn st)))
  else addCallable element originalTypeEvent typeEvent handler isDelegated fn oneOff st.

Definition removeHandler (element uid : nat) (typeEvent : string) (c : option callable)
    (selector : option string) (st : evState) : evState :=
  let handlers := handlersOf (eventsOf uid st) typeEvent in
  match findHandler handlers c selector with
  | None => st
  | Some fn =>
      let capture := match selector with Some s => str_truthy s | None => false end in
      let st := EvState (uidEvent st) (elementUid st) (eventRegistry st)
                  (filter (fun l => l <> (element, typeEvent, h_id fn, capture)) (listeners st)) (nextFn st) in
      putHandlers uid typeEvent (odelete (h_uid fn) handlers) st
  end.

(** Removes the handlers among the entries [es] of one event type that [p] selects. *)
Definition removeSelected (element uid : nat) (typeEvent : string) (p : string -> bool) (es : obj hfn)
    (st : evState) : evState :=
  fold_left (fun st '(key, h) =>
    if p key then removeHandler element uid typeEvent (h_callable h) (h_selector h) st else st) es st.

Definition removeNamespacedHandlers (element uid : nat) (typeEvent namespace : string) (st : evState) : evState :=
  removeSelected element uid typeEvent (fun key => str_includes key namespace)
    (handlersOf (eventsOf uid st) typeEvent) st.

Definition on (element : nat) (event : string) (handler : handlerArg) (delegationFunction : option callable) :=
  addHandler element event handler delegationFunction false.
Definition one (element : nat) (event : string) (handler : handlerArg) (delegationFunction : option callable) :=
  addHandler element event handler delegationFunction true.

Definition off (element : nat) (originalTypeEvent : string) (handler : handlerArg)
    (delegationFunction : option callable) (st : evState) : evState :=
  let '(isDelegated, fn, typeEvent) := normalizeParameters originalTypeEvent handler delegationFunction in
  let inNamespace := negb (str_eqb typeEvent originalTypeEvent) in
  let '(uid, events, st) := getElementEvents element st in
  let storeElementEvent := handlersOf events typeEvent in
  match fn with
  | Some c =>
      if (length storeElementEvent =? 0) then st
      else removeHandler element uid typeEvent (Some c) (selectorOf handler) st
  | None =>
      let st := if startsWith originalTypeEvent "."
                then fold_left (fun st t => removeNamespacedHandlers element uid t (str_skip 1 originalTypeEvent) st)
                       (okeys events) st
                else st in
      removeSelected element uid typeEvent
        (fun keyHandlers => negb inNamespace || str_includes originalTypeEvent (stripUid keyHandlers))
        (handlersOf (eventsOf uid st) typeEvent) st
  end.

(** [mouseenter] and [mouseleave] run only when the pointer crosses the element's border. *)
Definition crossesBorder (contains : nat -> nat -> bool) (relatedTarget : option nat) (delegateTarget : nat) : bool :=
  match relatedTarget with
  | None => true
  | Some r => negb (r =? delegateTarget) && negb (contains delegateTarget r)
  end.

(** The nearest match of the selector on the way from the event's target up to the element. *)
Fixpoint delegationTarget (domElements : list nat) (element : nat) (path : list nat) : option nat :=
  match path with
  | [] => None
  | target :: path =>
      if (target =? element) then None
      else if bool_decide (target ∈ domElements) then Some target
      else delegationTarget domElements element path
  end.

(** What runs when the browser calls the function [h] of [element] for an event of type
    [type] whose target and ancestors are [path]: the callable with its [this]. *)
Definition runHandler (element : nat) (h : hfn) (type : string) (path : list nat)
    (querySelectorAll : string -> list nat) (st : evState) : evState * option (option callable * nat) :=
  match h_selector h with
  | None =>
      let st := if h_oneOff h
                then off element type (match h_callable h with Some c => HFn c | None => HNone end) None st else st in
      (st, Some (h_callable h, element))
  | Some selector =>
      match delegationTarget (querySelectorAll selector) element path with
      | None => (st, None)
      | Some target =>
          let st := if h_oneOff h then off element type (HSelector selector) (h_callable h) st else st in
          (st, Some (h_callable h, target))
      end
  end.

(** What jQuery reports of its own event, when the page has jQuery. *)
Record jQueryResult := JQuery {
  jq_propagationStopped : bool; jq_immediateStopped : bool; jq_prevented : bool
}.

(** The event [trigger] makes. *)
Record domEvent := DomEvent {
  ev_type : string; ev_bubbles : bool; ev_dispatched : bool; ev_prevented : bool
}.

(** [listenersPrevent]: whether a listener calls [preventDefault]. *)
Definition trigger (jq : option jQueryResult) (event : string) (listenersPrevent : bool) : domEvent :=
  let inNamespace := negb (str_eqb event (getTypeEvent event)) in
  let '(bubbles, nativeDispatch, prevented) :=
    match jq with
    | Some r => if inNamespace
                then (negb (jq_propagationStopped r), negb (jq_immediateStopped r), jq_prevented r)
                else (true, true, false)
    | None => (true, true, false)
    end in
  DomEvent event bubbles nativeDispatch (prevented || nativeDispatch && listenersPrevent).

(** A property of an event object: what it reads as, whether an assignment takes effect (without a setter it throws),
    and whether [defineProperty] may replace it. *)
Record property (A : Type) := Property { p_value : A; p_assigns : bool; p_configurable : bool }.
Arguments Property {A}.
Arguments p_value {A}.
Arguments p_assigns {A}.
Arguments p_configurable {A}.

Definition hydrateObj {A} (o : obj (property A)) (meta : obj A) : res (obj (property A)) :=
  foldM (fun o '(key, value) =>
    match oget key o with
    | None => Ok (oset key (Property value true true) o)
    | Some p =>
        if p_assigns p then Ok (oset key (Property value true (p_configurable p)) o)
        else if p_configurable p then Ok (oset key (Property value false true) o)
        else Err (TypeError "defineProperty")
    end) meta o.
