(* ===== verification/BsEventsProofs.v ===== *)
(** The registry of [EventHandler] and the browser's listeners stay in step; handlers are
    found again and removed by function or by namespace. *)
From Stdlib Require Import Ascii Lia.
From stdpp Require Import pretty.
From S2P Require Import Prelude BsEvents.

Local Open Scope nat_scope.

(** ** Association lists with distinct keys *)

Section distinct.
Context {A : Type}.
Implicit Types (o : obj A).

Lemma In_oget k v o : List.NoDup (okeys o) -> In (k, v) o <-> oget k o = Some v.
Proof.
  induction o as [|[j w] o IH]; cbn; [split; done|]. intros [Hj Hnd]%List.NoDup_cons_iff.
  destruct (str_eqb k j) eqn:E.
  - apply String.eqb_eq in E as ->. split; [|intros [= ->]; by left].
    intros [[= ->]|Hin]; [done|]. destruct Hj. by apply (in_map fst o (j, v)).
  - apply String.eqb_neq in E. rewrite <- IH by done. split; [|by right].
    intros [[= -> ->]|Hin]; done.
Qed.

Lemma In_odelete k j v o : List.NoDup (okeys o) -> In (j, v) (odelete k o) <-> In (j, v) o /\ j <> k.
Proof.
  intros Hnd. rewrite (In_oget j v (odelete k o)) by (by apply NoDup_odelete).
  rewrite In_oget by done. rewrite oget_odelete.
  destruct (str_eqb j k) eqn:E.
  - apply String.eqb_eq in E. split; [done|]. by intros [_ ?].
  - apply String.eqb_neq in E. tauto.
Qed.

Lemma In_oset k v j w o :
  List.NoDup (okeys o) -> In (j, w) (oset k v o) <-> j = k /\ w = v \/ j <> k /\ In (j, w) o.
Proof.
  intros Hnd. rewrite !In_oget by (done || by apply NoDup_okeys_oset). rewrite oget_oset.
  destruct (str_eqb j k) eqn:E.
  - apply String.eqb_eq in E. split; [intros [= ->]; by left|]. by intros [[_ ->]|[? _]].
  - apply String.eqb_neq in E. split; [by right|]. by intros [[? _]|[_ ?]].
Qed.
End distinct.

(** ** Keys *)

Lemma all_digits_app a b : all_digits (a +:+ b) = all_digits a && all_digits b.
Proof. 
  induction a as [|x a IH]; [done|]. rewrite str_app_cons. cbn [all_digits]. rewrite IH. by rewrite andb_assoc.
Qed.

Lemma is_digit_pretty_char x : (x < 10)%N -> is_digit (pretty_N_char x) = true.
Proof.
  intros H. assert (x = 0 \/ x = 1 \/ x = 2 \/ x = 3 \/ x = 4 \/ x = 5 \/ x = 6 \/ x = 7 \/ x = 8 \/ x = 9)%N
    as Hx by lia. by destruct Hx as [->|[->|[->|[->|[->|[->|[->|[->|[->| ->]]]]]]]]].
Qed.

Lemma all_digits_pretty_N_go x s : all_digits s = true -> all_digits (pretty_N_go x s) = true.
Proof.
  revert s. induction (N.lt_wf_0 x) as [x _ IH]. intros s Hs.
  destruct (decide (0 < x)%N) as [Hx|Hx].
  - rewrite pretty_N_go_step by done. apply IH; [apply N.div_lt; lia|].
    cbn. rewrite is_digit_pretty_char; [done|]. apply N.mod_lt. lia.
  - assert (x = 0%N) as -> by lia. by rewrite pretty_N_go_0.
Qed.

Lemma all_digits_pretty (n : nat) : all_digits (pretty n) = true.
Proof.
  unfold pretty, pretty_nat, pretty, pretty_N. destruct (decide _); [done|].
  by apply all_digits_pretty_N_go.
Qed.

(** Digits at the end of a key are its number. *)
Lemma colon_digits_inj a b c d :
  all_digits b = true -> all_digits d = true -> a +:+ ":" +:+ b = c +:+ ":" +:+ d -> b = d.
Proof.
  assert (Hno : forall x y, all_digits (x +:+ ":" +:+ y) = true -> False).
  { intros x y. rewrite !all_digits_app. cbn. by rewrite andb_false_r. }
  revert c. induction a as [|x a IH]; intros c Hb Hd Heq; destruct c as [|y c];
    rewrite ?str_app_cons, ?str_app_nil in Heq.
  - by injection Heq.
  - injection Heq as Hx Heq. subst b. by apply Hno in Hb.
  - injection Heq as Hx Heq. subst d. by apply Hno in Hd.
  - injection Heq as Hx Heq. by eapply IH.
Qed.

Lemma makeEventUid_inj ns n ns' n' : makeEventUid ns n = makeEventUid ns' n' -> n = n'.
Proof.
  unfold makeEventUid. intros Heq. apply (inj pretty).
  pose proof (all_digits_pretty n) as Hn. pose proof (all_digits_pretty n') as Hn'.
  destruct (str_truthy ns), (str_truthy ns').
  - change "::" with (":" +:+ ":") in Heq. rewrite !(string_app_assoc ":" ":"), <- !(string_app_assoc _ ":" (":" +:+ _)) in Heq.
    by eapply colon_digits_inj in Heq.
  - rewrite <- Heq, !all_digits_app in Hn'. cbn in Hn'. by rewrite andb_false_r in Hn'.
  - rewrite Heq, !all_digits_app in Hn. cbn in Hn. by rewrite andb_false_r in Hn.
  - done.
Qed.

(** ** The invariant *)

(** The handlers of an element for an event type. *)
Definition handlersAt (st : evState) (e : nat) (t : string) : obj hfn :=
  match elementUid st !! e with
  | Some uid => handlersOf (eventsOf uid st) t
  | None => []
  end.

Definition selectorOk (s : option string) : Prop := match s with Some s => str_truthy s = true | None => True end.

Record goodHandlers (st : evState) (hs : obj hfn) : Prop := {
  gh_keys : List.NoDup (okeys hs);
  gh_entry k h : In (k, h) hs ->
    h_uid h = k /\ h_id h < nextFn st /\ selectorOk (h_selector h) /\
    exists ns n, k = makeEventUid ns n /\ n < uidEvent st;
  gh_unique k h k' h' : In (k, h) hs -> In (k', h') hs ->
    h_callable h = h_callable h' -> h_selector h = h_selector h' -> k = k'
}.

Definition isDelegated (h : hfn) : bool := match h_selector h with Some _ => true | None => false end.

Record evInv (st : evState) : Prop := {
  ei_uid e u : elementUid st !! e = Some u -> u < uidEvent st;
  ei_inj e e' u : elementUid st !! e = Some u -> elementUid st !! e' = Some u -> e = e';
  ei_registry u x : eventRegistry st !! u = Some x -> u < uidEvent st;
  ei_handlers e t : goodHandlers st (handlersAt st e t);
  ei_ids e t k h e' t' k' h' : In (k, h) (handlersAt st e t) -> In (k', h') (handlersAt st e' t') ->
    h_id h = h_id h' -> e = e' /\ t = t' /\ k = k';
  ei_listeners e t i c : In (e, t, i, c) (listeners st) <->
    exists k h, In (k, h) (handlersAt st e t) /\ h_id h = i /\ c = isDelegated h
}.

Lemma evStart_inv : evInv evStart.
Proof.
  split; cbn.
  - intros e u. by rewrite lookup_empty.
  - intros e e' u. by rewrite lookup_empty.
  - intros u x. by rewrite lookup_empty.
  - intros e t. unfold handlersAt. cbn. rewrite lookup_empty. split; [constructor| |]; by intros k h.
  - unfold handlersAt. cbn. intros e t k h e' t' k' h'. by rewrite lookup_empty.
  - intros e t i c. unfold handlersAt. cbn. rewrite lookup_empty. split; [done|]. by intros (? & ? & [] & _).
Qed.

Lemma findHandler_Some hs c sel h :
  findHandler hs c sel = Some h -> exists k, In (k, h) hs /\ h_callable h = c /\ h_selector h = sel.
Proof.
  unfold findHandler. intros [Hin Hb]%List.find_some. apply in_map_iff in Hin as ([k h'] & <- & Hin).
  apply andb_true_iff in Hb as [H1%bool_decide_eq_true H2%bool_decide_eq_true]. by exists k.
Qed.

Lemma findHandler_None hs c sel k h :
  findHandler hs c sel = None -> In (k, h) hs -> h_callable h = c -> h_selector h = sel -> False.
Proof.
  unfold findHandler. intros Hn Hin Hc Hs.
  pose proof (List.find_none _ _ Hn h (in_map snd hs (k, h) Hin)) as Hf. cbn beta in Hf.
  rewrite !bool_decide_true in Hf by done. done.
Qed.

Lemma goodHandlers_weaken st st' hs :
  nextFn st <= nextFn st' -> uidEvent st <= uidEvent st' -> goodHandlers st hs -> goodHandlers st' hs.
Proof.
  intros Hn Hu [K E U]. split; [done| |done]. intros k h Hin.
  destruct (E k h Hin) as (? & ? & ? & ns & n & ? & ?). repeat split; try done; [lia|].
  exists ns, n. split; [done|lia].
Qed.

(** ** The operations *)

(** [st'] has the same handlers and listeners as [st]. *)
Definition sameHandlers (st st' : evState) : Prop :=
  (forall e t, handlersAt st' e t = handlersAt st e t) /\ listeners st' = listeners st.

Lemma getElementEvents_spec e st :
  evInv st ->
  exists uid st', getElementEvents e st = (uid, eventsOf uid st', st') /\ evInv st' /\
    elementUid st' !! e = Some uid /\ sameHandlers st st' /\ nextFn st' = nextFn st.
Proof.
  intros [U I R Hh Hid L]. unfold getElementEvents.
  set (p := match elementUid st !! e with Some uid => _ | None => _ end).
  assert (Hp : exists st1, p = (fst p, st1) /\ elementUid st1 !! e = Some (fst p) /\
    (forall e' u, elementUid st1 !! e' = Some u -> elementUid st !! e' = Some u \/
       e' = e /\ u = uidEvent st /\ uidEvent st < uidEvent st1 /\ elementUid st !! e = None) /\
    (forall e' u, elementUid st !! e' = Some u -> elementUid st1 !! e' = Some u) /\
    eventRegistry st1 = eventRegistry st /\ listeners st1 = listeners st /\ nextFn st1 = nextFn st /\
    uidEvent st <= uidEvent st1).
  { unfold p. destruct (elementUid st !! e) as [u|] eqn:E.
    - exists st. repeat split; try done. by left.
    - eexists. split; [reflexivity|]. cbn. split; [apply lookup_insert_eq|]. split.
      + intros e' u. rewrite lookup_insert_Some. intros [[<- <-]|[_ ?]]; [right|by left].
        repeat split; try done. lia.
      + split; [|repeat split; lia]. intros e' u Hu. rewrite lookup_insert_ne; [done|congruence]. }
  destruct Hp as (st1 & Ep & He & Hold & Hkeep & Hr & Hl & Hn & Hu). rewrite Ep. set (uid := fst p) in *.
  clearbody uid p. clear Ep.
  set (st2 := EvState _ _ _ _ _). exists uid, st2.
  assert (Hev : forall u, eventsOf u st2 = eventsOf u st).
  { intros u. unfold eventsOf. cbn. destruct (decide (uid = u)) as [->|Hne].
    - rewrite lookup_insert_eq. cbn. by rewrite Hr.
    - rewrite lookup_insert_ne by done. by rewrite Hr. }
  assert (Hat : forall e' t, handlersAt st2 e' t = handlersAt st e' t).
  { intros e' t. unfold handlersAt. cbn [elementUid st2].
    destruct (elementUid st1 !! e') as [u|] eqn:E1.
    - rewrite Hev. destruct (Hold _ _ E1) as [E0|(-> & -> & _ & E0)]; rewrite E0; [done|].
      unfold eventsOf. destruct (eventRegistry st !! uidEvent st) as [x|] eqn:Ex; [|done].
      apply R in Ex. lia.
    - destruct (elementUid st !! e') as [u|] eqn:E0; [|done]. apply Hkeep in E0. congruence. }
  assert (HL : listeners st2 = listeners st) by done.
  split; [|split; [|split; [exact He|split; [split; [exact Hat|exact HL]|exact Hn]]]].
  { unfold eventsOf, st2. cbn. rewrite lookup_insert_eq. cbn. done. }
  assert (Hub : forall e' u, elementUid st1 !! e' = Some u -> u < uidEvent st1).
  { intros e' u Hx. destruct (Hold _ _ Hx) as [Hx0|(_ & -> & ? & _)]; [apply U in Hx0; lia|done]. }
  split; cbn [elementUid uidEvent eventRegistry st2].
  - exact Hub.
  - intros e1 e2 u H1 H2. destruct (Hold _ _ H1) as [K1|(-> & Eu & _ & K1)], (Hold _ _ H2) as [K2|(-> & Eu' & _ & K2)].
    + by eapply I.
    + apply U in K1. lia.
    + apply U in K2. lia.
    + done.
  - intros u x. rewrite lookup_insert_Some. intros [[<- _]|[_ Hx]]; [by eapply Hub|].
    rewrite Hr in Hx. apply R in Hx. lia.
  - intros e' t. rewrite Hat. eapply goodHandlers_weaken; [..|apply Hh]; [cbn; lia|cbn; lia].
  - intros *. rewrite !Hat. apply Hid.
  - intros *. rewrite Hat, HL. apply L.
Qed.

Lemma putHandlers_at st e uid t hs e' t' :
  evInv st -> elementUid st !! e = Some uid ->
  handlersAt (putHandlers uid t hs st) e' t' =
    if bool_decide (e' = e) && str_eqb t' t then hs else handlersAt st e' t'.
Proof.
  intros I He. unfold handlersAt. cbn [putHandlers elementUid].
  destruct (elementUid st !! e') as [u|] eqn:E.
  - unfold eventsOf. cbn [putHandlers eventRegistry]. destruct (decide (e' = e)) as [->|Hne].
    + rewrite bool_decide_true by done. rewrite He in E. injection E as <-.
      rewrite lookup_insert_eq. cbn. rewrite oget_oset. by destruct (str_eqb t' t).
    + rewrite bool_decide_false by done. cbn. rewrite lookup_insert_ne; [done|].
      intros <-. apply Hne. by eapply I.
  - rewrite bool_decide_false; [done|]. intros ->. congruence.
Qed.

Lemma In_filter_ne {A} `{EqDecision A} (x y : A) l : In x (filter (fun z => z <> y) l) <-> In x l /\ x <> y.
Proof. rewrite <- !list_elem_of_In, list_elem_of_filter. tauto. Qed.

(** Removing one entry together with its listener keeps the invariant. *)
Lemma remove_entry_inv st e uid t k h :
  evInv st -> elementUid st !! e = Some uid -> In (k, h) (handlersAt st e t) ->
  let st' := putHandlers uid t (odelete k (handlersAt st e t))
    (EvState (uidEvent st) (elementUid st) (eventRegistry st)
       (filter (fun l => l <> (e, t, h_id h, isDelegated h)) (listeners st)) (nextFn st)) in
  evInv st' /\ elementUid st' = elementUid st /\
  forall e' t', handlersAt st' e' t' =
    if bool_decide (e' = e) && str_eqb t' t then odelete k (handlersAt st e t) else handlersAt st e' t'.
Proof.
  intros I He Hin. set (st1 := EvState _ _ _ _ _). set (hs := handlersAt st e t). cbv zeta.
  assert (Hat : forall e' t', handlersAt (putHandlers uid t (odelete k hs) st1) e' t' =
    if bool_decide (e' = e) && str_eqb t' t then odelete k hs else handlersAt st e' t').
  { intros e' t'. apply (putHandlers_at st e uid t (odelete k hs) e' t' I He). }
  split; [|split; [done|exact Hat]].
  destruct (ei_handlers _ I e t) as [K E Un]. fold hs in K, E, Un.
  assert (Hsub : forall e' t' j q, In (j, q) (handlersAt (putHandlers uid t (odelete k hs) st1) e' t') <->
    In (j, q) (handlersAt st e' t') /\ ~ (e' = e /\ t' = t /\ j = k)).
  { intros e' t' j q. rewrite Hat. destruct (decide (e' = e)) as [->|Hne].
    - rewrite bool_decide_true by done. destruct (str_eqb t' t) eqn:Et; cbn.
      + apply String.eqb_eq in Et as ->. rewrite In_odelete by done. fold hs. tauto.
      + apply String.eqb_neq in Et. tauto.
    - rewrite bool_decide_false by done. cbn. tauto. }
  destruct I as [U J R Hh Hid L]. split.
  - exact U.
  - exact J.
  - intros u x. cbn. rewrite lookup_insert_Some. intros [[<- _]|[_ Hx]]; [by eapply U|by eapply R].
  - intros e' t'. rewrite Hat. destruct (bool_decide (e' = e) && str_eqb t' t);
      [|eapply goodHandlers_weaken; [..|exact (Hh e' t')]; done].
    split; [by apply NoDup_odelete| |].
    + intros j q [Hj _]%In_odelete; [by apply E|done].
    + intros j q j' q' [Hj _]%In_odelete [Hj' _]%In_odelete; [by eapply Un|done..].
  - intros e1 t1 k1 h1 e2 t2 k2 h2 [H1 _]%Hsub [H2 _]%Hsub. by eapply Hid.
  - intros e' t' i c. cbn [putHandlers listeners st1]. rewrite In_filter_ne, L. split.
    + intros [(j & q & Hq & <- & ->) Hne]. exists j, q. split; [|done]. apply Hsub. split; [done|].
      intros (-> & -> & ->). apply Hne. fold hs in Hq.
      pose proof (proj1 (In_oget k q hs K) Hq) as E1. pose proof (proj1 (In_oget k h hs K) Hin) as E2.
      rewrite E1 in E2. by injection E2 as ->.
    + intros (j & q & [Hq Hno]%Hsub & <- & ->). split; [eauto|]. intros [= -> -> Hi _].
      destruct (Hid _ _ _ _ _ _ _ _ Hq Hin Hi) as (_ & _ & ->). by apply Hno.
Qed.

(** [st'] is [st] without the handlers that [P] describes. *)
Definition removes (P : nat -> string -> string -> hfn -> Prop) (st st' : evState) : Prop :=
  evInv st' /\ elementUid st' = elementUid st /\
  forall e t k h, In (k, h) (handlersAt st' e t) <-> In (k, h) (handlersAt st e t) /\ ~ P e t k h.

Lemma removes_refl P st : evInv st -> (forall e t k h, In (k, h) (handlersAt st e t) -> ~ P e t k h) -> removes P st st.
Proof. intros I H. split; [done|]. split; [done|]. intros e t k h. split; [|tauto]. intros Hin. split; [done|]. by apply H. Qed.

Lemma removes_trans P Q st st1 st2 :
  removes P st st1 -> removes Q st1 st2 -> removes (fun e t k h => P e t k h \/ Q e t k h) st st2.
Proof.
  intros (I1 & E1 & H1) (I2 & E2 & H2). split; [done|]. split; [congruence|].
  intros e t k h. rewrite H2, H1. tauto.
Qed.

Lemma removes_ext (P Q : nat -> string -> string -> hfn -> Prop) st st' :
  (forall e t k h, In (k, h) (handlersAt st e t) -> P e t k h <-> Q e t k h) ->
  removes P st st' -> removes Q st st'.
Proof.
  intros HPQ (I & E & H). split; [done|]. split; [done|]. intros e t k h. rewrite H.
  split; intros [Hin Hn]; (split; [done|]); by rewrite (HPQ e t k h Hin) in * || rewrite <- (HPQ e t k h Hin).
Qed.

Lemma handlersAt_uid st e uid t :
  elementUid st !! e = Some uid -> handlersAt st e t = handlersOf (eventsOf uid st) t.
Proof. intros He. unfold handlersAt. by rewrite He. Qed.

Lemma removeHandler_spec st e uid t c sel :
  evInv st -> elementUid st !! e = Some uid ->
  removes (fun e' t' _ h => e' = e /\ t' = t /\ h_callable h = c /\ h_selector h = sel) st
    (removeHandler e uid t c sel st).
Proof.
  intros I He. unfold removeHandler. rewrite <- (handlersAt_uid st e uid t He).
  destruct (findHandler (handlersAt st e t) c sel) as [h|] eqn:F.
  - apply findHandler_Some in F as (k & Hin & Hc & Hs).
    destruct (ei_handlers _ I e t) as [K E Un]. destruct (E k h Hin) as (Hk & _ & Hok & _).
    replace (match sel with Some s => str_truthy s | None => false end) with (isDelegated h).
    2:{ unfold isDelegated. rewrite Hs in *. destruct sel; [by rewrite Hok|done]. }
    rewrite Hk. destruct (remove_entry_inv st e uid t k h I He Hin) as (I' & Eu & Hat).
    split; [exact I'|]. split; [exact Eu|]. intros e' t' j q. rewrite Hat.
    destruct (decide (e' = e)) as [->|Hne]; [rewrite bool_decide_true by done|rewrite bool_decide_false by done; cbn; tauto].
    destruct (str_eqb t' t) eqn:Et; cbn [andb].
    + apply String.eqb_eq in Et as ->. rewrite In_odelete by done. split.
      * intros [Hj Hne]. split; [done|]. intros (_ & _ & Hc' & Hs'). apply Hne.
        eapply (Un j q k h); [done|done|congruence..].
      * intros [Hj Hno]. split; [done|]. intros ->. apply Hno.
        pose proof (proj1 (In_oget k q _ K) Hj) as E1. pose proof (proj1 (In_oget k h _ K) Hin) as E2.
        rewrite E1 in E2. injection E2 as ->. done.
    + apply String.eqb_neq in Et. tauto.
  - apply removes_refl; [done|]. intros e' t' k h Hin (-> & -> & Hc & Hs). by eapply findHandler_None.
Qed.

Lemma removeSelected_spec st e uid t p es :
  evInv st -> elementUid st !! e = Some uid ->
  removes (fun e' t' _ h => e' = e /\ t' = t /\
             exists k' h', In (k', h') es /\ p k' = true /\ h_callable h = h_callable h' /\ h_selector h = h_selector h')
    st (removeSelected e uid t p es st).
Proof.
  unfold removeSelected. revert st. induction es as [|[k h] es IH]; intros st I He; cbn [fold_left].
  { apply removes_refl; [done|]. by intros e' t' j q _ (_ & _ & k' & h' & [] & _). }
  destruct (p k) eqn:Hp.
  - pose proof (removeHandler_spec st e uid t (h_callable h) (h_selector h) I He) as R1.
    pose proof R1 as (I1 & E1 & _). rewrite <- E1 in He. specialize (IH _ I1 He).
    eapply removes_ext; [|exact (removes_trans _ _ _ _ _ R1 IH)]. intros e' t' j q _. cbn. split.
    + intros [(-> & -> & ? & ?)|(-> & -> & k' & h' & ? & ?)]; (split; [done|]; split; [done|]).
      * exists k, h. auto.
      * exists k', h'. auto.
    + intros (-> & -> & k' & h' & [[= <- <-]|Hin] & Hpk & Hc & Hs); [left; auto|right].
      split; [done|]. split; [done|]. exists k', h'. auto.
  - eapply removes_ext; [|exact (IH _ I He)]. intros e' t' j q _. cbn. split.
    + intros (-> & -> & k' & h' & ? & ?). split; [done|]. split; [done|]. exists k', h'. auto.
    + intros (-> & -> & k' & h' & [[= <- <-]|Hin] & Hpk & Hc & Hs); [congruence|].
      split; [done|]. split; [done|]. exists k', h'. auto.
Qed.

(** Over all handlers of a type, exactly the selected keys go. *)
Lemma removeSelected_all st e uid t p :
  evInv st -> elementUid st !! e = Some uid ->
  removes (fun e' t' k _ => e' = e /\ t' = t /\ p k = true) st
    (removeSelected e uid t p (handlersOf (eventsOf uid st) t) st).
Proof.
  intros I He. rewrite <- (handlersAt_uid st e uid t He).
  eapply removes_ext; [|exact (removeSelected_spec st e uid t p _ I He)].
  intros e' t' k h Hin. cbn. split.
  - intros (-> & -> & k' & h' & Hin' & Hp & Hc & Hs). split; [done|]. split; [done|].
    by rewrite (gh_unique _ _ (ei_handlers _ I e t) k h k' h' Hin Hin' Hc Hs).
  - intros (-> & -> & Hp). split; [done|]. split; [done|]. by exists k, h.
Qed.

Lemma removeNamespaced_types st e uid ns ts :
  evInv st -> elementUid st !! e = Some uid ->
  removes (fun e' t' k _ => e' = e /\ In t' ts /\ str_includes k ns = true) st
    (fold_left (fun st t => removeNamespacedHandlers e uid t ns st) ts st).
Proof.
  revert st. induction ts as [|t ts IH]; intros st I He; cbn [fold_left].
  { apply removes_refl; [done|]. by intros e' t' k h _ (_ & [] & _). }
  pose proof (removeSelected_all st e uid t (fun key => str_includes key ns) I He) as R1.
  fold (removeNamespacedHandlers e uid t ns st) in R1.
  pose proof R1 as (I1 & E1 & _). rewrite <- E1 in He. specialize (IH _ I1 He).
  eapply removes_ext; [|exact (removes_trans _ _ _ _ _ R1 IH)]. intros e' t' k h _. cbn. intuition congruence.
Qed.

(** Writing handlers for one type of one element: the numbering stays in order. *)
Lemma putHandlers_uids st e uid t hs :
  evInv st -> elementUid st !! e = Some uid ->
  forall u x, eventRegistry (putHandlers uid t hs st) !! u = Some x -> u < uidEvent st.
Proof.
  intros I He u x. cbn. rewrite lookup_insert_Some.
  intros [[<- _]|[_ Hx]]; [by eapply ei_uid|by eapply ei_registry].
Qed.

(** Writing back entries that differ in [oneOff] only. *)
Lemma put_same_inv st e uid t hs :
  evInv st -> elementUid st !! e = Some uid -> List.NoDup (okeys hs) ->
  (forall k h, In (k, h) hs -> exists h0, In (k, h0) (handlersAt st e t) /\ h_id h = h_id h0 /\
     h_uid h = h_uid h0 /\ h_callable h = h_callable h0 /\ h_selector h = h_selector h0) ->
  (forall k h0, In (k, h0) (handlersAt st e t) -> exists h, In (k, h) hs /\ h_id h = h_id h0 /\ h_selector h = h_selector h0) ->
  evInv (putHandlers uid t hs st).
Proof.
  intros I He Hnd Hback Hforth.
  assert (Hold : forall e' t' k h, In (k, h) (handlersAt (putHandlers uid t hs st) e' t') ->
    exists h0, In (k, h0) (handlersAt st e' t') /\ h_id h = h_id h0 /\ isDelegated h = isDelegated h0).
  { intros e' t' k h. rewrite (putHandlers_at st e) by done.
    destruct (bool_decide (e' = e) && str_eqb t' t) eqn:E; [|by eauto].
    apply andb_true_iff in E as [->%bool_decide_eq_true ->%String.eqb_eq].
    intros (h0 & Hin & Hi & _ & _ & Hs)%Hback. exists h0. unfold isDelegated. by rewrite Hs. }
  pose proof (putHandlers_uids st e uid t hs I He) as HU. destruct I as [U J R Hh Hid L]. split.
  - exact U.
  - exact J.
  - exact HU.
  - intros e' t'. rewrite (putHandlers_at st e) by done.
    destruct (bool_decide (e' = e) && str_eqb t' t) eqn:E;
      [|eapply goodHandlers_weaken; [..|exact (Hh e' t')]; done].
    apply andb_true_iff in E as [->%bool_decide_eq_true ->%String.eqb_eq].
    destruct (Hh e t) as [K E Un]. split; [done| |].
    + intros k h (h0 & Hin & Hi & Hu & Hc & Hs)%Hback. rewrite Hu, Hi, Hs. by apply E.
    + intros k h k' h' (h0 & Hin & _ & _ & Hc & Hs)%Hback (h0' & Hin' & _ & _ & Hc' & Hs')%Hback ? ?.
      eapply (Un k h0 k' h0'); [done|done|congruence..].
  - intros e1 t1 k1 h1 e2 t2 k2 h2 (g1 & H1 & E1 & _)%Hold (g2 & H2 & E2 & _)%Hold Heq.
    eapply Hid; [exact H1|exact H2|congruence].
  - intros e' t' i c. cbn [putHandlers listeners]. rewrite L. split.
    + intros (k & h0 & Hin & <- & ->). rewrite (putHandlers_at st e) by done.
      destruct (bool_decide (e' = e) && str_eqb t' t) eqn:E; [|by eauto].
      apply andb_true_iff in E as [->%bool_decide_eq_true ->%String.eqb_eq].
      destruct (Hforth k h0 Hin) as (h & Hh' & Hi & Hs). exists k, h. unfold isDelegated. by rewrite Hs.
    + intros (k & h & (h0 & Hin & Hi & Hd)%Hold & <- & ->). exists k, h0. done.
Qed.

(** Registering a new handler under a fresh key. *)
Lemma add_entry_inv st e uid t ns h :
  evInv st -> elementUid st !! e = Some uid -> h_uid h = makeEventUid ns (uidEvent st) ->
  h_id h = nextFn st -> selectorOk (h_selector h) ->
  (forall k g, In (k, g) (handlersAt st e t) -> h_callable g = h_callable h -> h_selector g = h_selector h -> False) ->
  let st1 := putHandlers uid t (oset (h_uid h) h (handlersAt st e t)) st in
  let st' := EvState (S (uidEvent st1)) (elementUid st1) (eventRegistry st1)
               (listeners st1 ++ [(e, t, h_id h, isDelegated h)]) (S (nextFn st1)) in
  evInv st' /\
  forall e' t' k g, In (k, g) (handlersAt st' e' t') <->
    In (k, g) (handlersAt st e' t') \/ e' = e /\ t' = t /\ k = h_uid h /\ g = h.
Proof.
  intros I He Hkey Hid0 Hsel Hnew. set (hs := handlersAt st e t). cbv zeta.
  set (st1 := putHandlers uid t _ st). set (st' := EvState _ _ _ _ _).
  destruct (ei_handlers _ I e t) as [K E Un]. fold hs in K, E, Un.
  assert (Hfresh : forall g, ~ In (h_uid h, g) hs).
  { intros g (_ & _ & _ & ns' & n & Hn & Hlt)%E. rewrite Hkey in Hn. apply makeEventUid_inj in Hn. lia. }
  assert (Hin : forall e' t' k g, In (k, g) (handlersAt st' e' t') <->
    In (k, g) (handlersAt st e' t') \/ e' = e /\ t' = t /\ k = h_uid h /\ g = h).
  { intros e' t' k g. change (handlersAt st' e' t') with (handlersAt st1 e' t').
    unfold st1. rewrite (putHandlers_at st e) by done.
    destruct (bool_decide (e' = e) && str_eqb t' t) eqn:Ee.
    - apply andb_true_iff in Ee as [->%bool_decide_eq_true ->%String.eqb_eq]. fold hs.
      rewrite In_oset by done. split; [intuition congruence|]. intros [Hg|(_ & _ & -> & ->)]; [|by left].
      right. split; [|done]. intros ->. by apply (Hfresh g).
    - apply andb_false_iff in Ee as [Ee%bool_decide_eq_false|Ee%String.eqb_neq]; intuition congruence. }
  split; [|exact Hin].
  pose proof (putHandlers_uids st e uid t (oset (h_uid h) h hs) I He) as HU. destruct I as [U J R Hh Hid L]. split.
  - intros e' u Hu. apply U in Hu. cbn. lia.
  - exact J.
  - intros u x Hx. apply HU in Hx. cbn. lia.
  - intros e' t'. change (handlersAt st' e' t') with (handlersAt st1 e' t'). unfold st1.
    rewrite (putHandlers_at st e) by done.
    destruct (bool_decide (e' = e) && str_eqb t' t) eqn:Ee;
      [|eapply goodHandlers_weaken; [..|exact (Hh e' t')]; cbn; lia].
    fold hs. split; [by apply NoDup_okeys_oset| |].
    + intros k g [[-> ->]|[_ Hg]]%In_oset; [| |done].
      * rewrite Hid0. repeat split; [cbn; lia|done|]. exists ns, (uidEvent st). split; [done|cbn; lia].
      * destruct (E k g Hg) as (? & ? & ? & ns' & n & ? & ?). repeat split; try done; [cbn; lia|].
        exists ns', n. split; [done|cbn; lia].
    + intros k g k' g' [[-> ->]|[_ Hg]]%In_oset [[-> ->]|[_ Hg']]%In_oset Hc Hs; try done.
      * by destruct (Hnew k' g' Hg').
      * by destruct (Hnew k g Hg).
      * by eapply Un.
  - assert (Hlt : forall e' t' k g, In (k, g) (handlersAt st e' t') -> h_id g < nextFn st).
    { intros e' t' k g Hg. by destruct (gh_entry _ _ (Hh e' t') k g Hg) as (_ & ? & _). }
    intros e1 t1 k1 h1 e2 t2 k2 h2 [H1|(-> & -> & -> & ->)]%Hin [H2|(-> & -> & -> & ->)]%Hin Heq.
    + by eapply Hid.
    + apply Hlt in H1. lia.
    + apply Hlt in H2. lia.
    + done.
  - intros e' t' i c. cbn [listeners st']. change (listeners st1) with (listeners st).
    rewrite in_app_iff, L. split.
    + intros [(k & g & Hg & <- & ->)|[[= <- <- <- <-]|[]]].
      * exists k, g. split; [|done]. apply Hin. by left.
      * exists (h_uid h), h. split; [|done]. apply Hin. by right.
    + intros (k & g & [Hg|(-> & -> & -> & ->)]%Hin & <- & ->); [left; eauto|right; by left].
Qed.

Lemma bumpFn_inv st :
  evInv st -> evInv (EvState (uidEvent st) (elementUid st) (eventRegistry st) (listeners st) (S (nextFn st))).
Proof.
  intros [U J R Hh Hid L]. split; try done.
  intros e t. eapply goodHandlers_weaken; [..|exact (Hh e t)]; cbn; lia.
Qed.

Lemma put_back_inv st e uid t :
  evInv st -> elementUid st !! e = Some uid -> evInv (putHandlers uid t (handlersAt st e t) st).
Proof.
  intros I He. apply (put_same_inv st e); try done; [apply I|by eauto 10|by eauto 10].
Qed.

Lemma put_back_at st e uid t e' t' :
  evInv st -> elementUid st !! e = Some uid ->
  handlersAt (putHandlers uid t (handlersAt st e t) st) e' t' = handlersAt st e' t'.
Proof.
  intros I He. rewrite (putHandlers_at st e) by done.
  destruct (bool_decide (e' = e) && str_eqb t' t) eqn:E; [|done].
  by apply andb_true_iff in E as [->%bool_decide_eq_true ->%String.eqb_eq].
Qed.

(** The function a handler argument stands for, and the type it is registered under. *)
Definition callableOf (handler : handlerArg) (df : option callable) : option callable :=
  match handler with HFn c => Some c | _ => df end.
Definition typeOf (event : string) : string :=
  if in_strs (getTypeEvent event) nativeEvents then getTypeEvent event else event.

Lemma normalizeParameters_eq event handler df :
  normalizeParameters event handler df =
    (match selectorOf handler with Some _ => true | None => false end, callableOf handler df, typeOf event).
Proof. by destruct handler. Qed.

(** [st'] has the handlers of [st], as to function, selector and key, and perhaps one more. *)
Definition addsTo (e : nat) (t : string) (c : option callable) (sel : option string) (st st' : evState) : Prop :=
  evInv st' /\
  (exists k h, In (k, h) (handlersAt st' e t) /\ h_callable h = c /\ h_selector h = sel) /\
  (forall e' t' k h, In (k, h) (handlersAt st e' t') ->
     exists h', In (k, h') (handlersAt st' e' t') /\ h_callable h' = h_callable h /\ h_selector h' = h_selector h) /\
  (forall e' t' k h, In (k, h) (handlersAt st' e' t') ->
     (exists h0, In (k, h0) (handlersAt st e' t') /\ h_callable h = h_callable h0 /\ h_selector h = h_selector h0) \/
     e' = e /\ t' = t /\ h_callable h = c /\ h_selector h = sel).

(** A handler registered again stays one-off only if it is registered so both times. *)
Definition again (b : bool) (h : hfn) : hfn := Hfn (h_id h) (h_selector h) (h_callable h) (h_oneOff h && b) (h_uid h).

(** What a registration does: it finds its handler, or makes one under a fresh key, last among the listeners. *)
Inductive added (e : nat) (t ns : string) (c : option callable) (sel : option string) (b : bool) (st st' : evState) : Prop :=
  | added_again k h : In (k, h) (handlersAt st e t) -> h_callable h = c -> h_selector h = sel -> listeners st' = listeners st ->
      (forall e' t' j q, In (j, q) (handlersAt st' e' t') <->
         e' = e /\ t' = t /\ j = k /\ q = again b h \/ In (j, q) (handlersAt st e' t') /\ ~ (e' = e /\ t' = t /\ j = k)) ->
      added e t ns c sel b st st'
  | added_new i n h : h = Hfn i sel c b (makeEventUid ns n) ->
      (forall k g, In (k, g) (handlersAt st e t) -> h_callable g = c -> h_selector g = sel -> False) ->
      listeners st' = listeners st ++ [(e, t, i, isDelegated h)] ->
      (forall e' t' j q, In (j, q) (handlersAt st' e' t') <->
         In (j, q) (handlersAt st e' t') \/ e' = e /\ t' = t /\ j = h_uid h /\ q = h) ->
      added e t ns c sel b st st'.

Lemma same_key st e t k h h' : evInv st -> In (k, h) (handlersAt st e t) -> In (k, h') (handlersAt st e t) -> h = h'.
Proof.
  intros I H1 H2. pose proof (gh_keys _ _ (ei_handlers _ I e t)) as K.
  pose proof (proj1 (In_oget k h _ K) H1) as E1. pose proof (proj1 (In_oget k h' _ K) H2) as E2. congruence.
Qed.

(** The handler under a key, written again with another [oneOff]. *)
Lemma put_again_inv st e uid t k h b :
  evInv st -> elementUid st !! e = Some uid -> In (k, h) (handlersAt st e t) ->
  let st' := putHandlers uid t (oset k (again b h) (handlersAt st e t)) st in
  evInv st' /\ forall e' t' j q, In (j, q) (handlersAt st' e' t') <->
    e' = e /\ t' = t /\ j = k /\ q = again b h \/ In (j, q) (handlersAt st e' t') /\ ~ (e' = e /\ t' = t /\ j = k).
Proof.
  intros I He Hin. destruct (ei_handlers _ I e t) as [K E Un]. cbv zeta.
  split.
  - apply (put_same_inv st e); try done; [by apply NoDup_okeys_oset|..].
    + intros j q [[-> ->]|[_ Hq]]%In_oset; [by exists h|by exists q|done].
    + intros j q Hq. destruct (decide (j = k)) as [->|Hne].
      * exists (again b h). split; [apply In_oset; [done|by left]|]. by rewrite (same_key st e t k q h).
      * exists q. split; [apply In_oset; [done|by right]|done].
  - intros e' t' j q. rewrite (putHandlers_at st e) by done.
    destruct (bool_decide (e' = e) && str_eqb t' t) eqn:Ee.
    + apply andb_true_iff in Ee as [->%bool_decide_eq_true ->%String.eqb_eq]. rewrite In_oset by done. intuition congruence.
    + apply andb_false_iff in Ee as [Ee%bool_decide_eq_false|Ee%String.eqb_neq]; intuition congruence.
Qed.

Lemma addCallable_exact e event t handler c b st st' :
  evInv st -> selectorOk (selectorOf handler) ->
  addCallable e event t handler (match selectorOf handler with Some _ => true | None => false end) c b st = Ok st' ->
  evInv st' /\ added e t (namespaceOf event) c (selectorOf handler) b st st'.
Proof.
  intros I Hsel. unfold addCallable.
  destruct (getElementEvents_spec e st I) as (uid & st1 & -> & I1 & He & [Hat Hl] & Hn).
  rewrite <- (handlersAt_uid st1 e uid _ He).
  set (hs := handlersAt st1 e t). set (st2 := putHandlers uid t hs st1).
  assert (I2 : evInv st2) by (by apply put_back_inv).
  assert (Hat2 : forall e' t', handlersAt st2 e' t' = handlersAt st e' t').
  { intros e' t'. unfold st2. by rewrite (put_back_at st1 e), Hat. }
  assert (He2 : elementUid st2 !! e = Some uid) by exact He.
  assert (Hl2 : listeners st2 = listeners st) by exact Hl.
  assert (Ehs : handlersAt st2 e t = hs) by (unfold st2; by rewrite (put_back_at st1 e)).
  clearbody st2. destruct (findHandler hs c (selectorOf handler)) as [prev|] eqn:F.
  - apply findHandler_Some in F as (k & Hin & Hc & Hs). intros [= <-]. rewrite <- Ehs in Hin.
    destruct (gh_entry _ _ (ei_handlers _ I2 e t) k prev Hin) as (Hk & _). rewrite Hk, <- Ehs.
    replace (Hfn _ _ _ _ k) with (again b prev) by (unfold again; by rewrite Hk).
    destruct (put_again_inv st2 e uid t k prev b I2 He2 Hin) as [I' H']. split; [exact I'|].
    rewrite Hat2 in Hin. apply (added_again _ _ _ _ _ _ _ _ k prev); try done. intros. by rewrite H', Hat2.
  - destruct (negb _ && _); [done|]. rewrite <- Ehs. set (h := Hfn _ _ _ _ _). intros [= <-].
    replace (match selectorOf handler with Some _ => true | None => false end) with (isDelegated h) by done.
    assert (Hno : forall k g, In (k, g) (handlersAt st2 e t) -> h_callable g = c -> h_selector g = selectorOf handler -> False).
    { intros k g Hg Hc Hs. rewrite Ehs in Hg. by eapply findHandler_None. }
    destruct (add_entry_inv st2 e uid t (namespaceOf event) h I2 He2) as [I' H']; try done.
    split; [exact I'|]. rewrite Hat2 in Hno.
    apply (added_new _ _ _ _ _ _ _ _ (nextFn st2) (uidEvent st2) h); try done; [cbn; by rewrite Hl2|].
    intros e' t' j q. pose proof (H' e' t' j q) as X. rewrite (Hat2 e' t') in X. exact X.
Qed.

Lemma added_addsTo e t ns c sel b st st' : evInv st -> evInv st' -> added e t ns c sel b st st' -> addsTo e t c sel st st'.
Proof.
  intros I0 I [k h Hin Hc Hs _ H|i n h -> _ _ H]; (split; [exact I|]); split.
  - exists k, (again b h). split; [apply H; by left|done].
  - split.
    + intros e' t' j q Hq. destruct (decide (e' = e /\ t' = t /\ j = k)) as [(-> & -> & ->)|Hne].
      * exists (again b h). split; [apply H; by left|].
        by rewrite (same_key st e t k q h).
      * exists q. split; [apply H; by right|done].
    + intros e' t' j q [(-> & -> & -> & ->)|[Hq _]]%H; left; [by exists h|by exists q].
  - eexists _, _. split; [apply H; by right|done].
  - split.
    + intros e' t' j q Hq. exists q. split; [apply H; by left|done].
    + intros e' t' j q [Hq|(-> & -> & -> & ->)]%H; [left; by exists q|by right].
Qed.

Lemma addCallable_spec e event t handler c b st st' :
  evInv st -> selectorOk (selectorOf handler) ->
  addCallable e event t handler (match selectorOf handler with Some _ => true | None => false end) c b st = Ok st' ->
  addsTo e t c (selectorOf handler) st st'.
Proof. intros I Hsel H. eapply addCallable_exact in H as [I' H]; [|done..]. by eapply added_addsTo. Qed.

Lemma addHandler_plain e event handler df b st st' :
  evInv st -> selectorOk (selectorOf handler) -> ohas event customEvents = false ->
  addHandler e event handler df b st = Ok st' ->
  addsTo e (typeOf event) (callableOf handler df) (selectorOf handler) st st'.
Proof.
  intros I Hsel Hcustom. unfold addHandler. rewrite normalizeParameters_eq, Hcustom.
  by apply addCallable_spec.
Qed.

Lemma addHandler_inv e event handler df b st st' :
  evInv st -> selectorOk (selectorOf handler) -> addHandler e event handler df b st = Ok st' -> evInv st'.
Proof.
  intros I Hsel. unfold addHandler. rewrite normalizeParameters_eq. destruct (ohas event customEvents).
  - intros H. eapply addCallable_spec in H as [H _]; [done|by apply bumpFn_inv|done].
  - intros H. eapply addCallable_spec in H as [H _]; done.
Qed.

(** ** Removal *)

(** [st'] is [st] without the handlers that [P] describes, whatever elements got a number. *)
Definition drops (P : nat -> string -> string -> hfn -> Prop) (st st' : evState) : Prop :=
  evInv st' /\
  forall e t k h, In (k, h) (handlersAt st' e t) <-> In (k, h) (handlersAt st e t) /\ ~ P e t k h.

Lemma removes_drops P st st1 st' : sameHandlers st st1 -> removes P st1 st' -> drops P st st'.
Proof. intros [Hat _] (I & _ & H). split; [done|]. intros e t k h. by rewrite H, Hat. Qed.

Lemma off_function e event handler df c st :
  evInv st -> callableOf handler df = Some c ->
  drops (fun e' t' _ h => e' = e /\ t' = typeOf event /\ h_callable h = Some c /\ h_selector h = selectorOf handler)
    st (off e event handler df st).
Proof.
  intros I Hc. unfold off. rewrite normalizeParameters_eq, Hc.
  destruct (getElementEvents_spec e st I) as (uid & st1 & -> & I1 & He & Hat & _).
  rewrite <- (handlersAt_uid st1 e uid _ He).
  destruct (Nat.eqb_spec (length (handlersAt st1 e (typeOf event))) 0) as [Hlen|Hlen].
  - eapply removes_drops; [exact Hat|]. apply removes_refl; [done|].
    intros e' t' k h Hin (-> & -> & _). apply nil_length_inv in Hlen. by rewrite Hlen in Hin.
  - eapply removes_drops; [exact Hat|]. by apply removeHandler_spec.
Qed.

Lemma typeOf_namespace ns : typeOf ("." +:+ ns) = "." +:+ ns.
Proof. reflexivity. Qed.

(** The keys that [off] removes when it is given no function. *)
Definition offKeys (e : nat) (event : string) (e' : nat) (t k : string) : bool :=
  (e' =? e) &&
  (startsWith event "." && str_includes k (str_skip 1 event) ||
   str_eqb t (typeOf event) && (str_eqb (typeOf event) event || str_includes event (stripUid k))).

Lemma off_keys e event handler df st :
  evInv st -> callableOf handler df = None ->
  drops (fun e' t' k _ => offKeys e event e' t' k = true) st (off e event handler df st).
Proof.
  intros I Hc. unfold off. rewrite normalizeParameters_eq, Hc.
  destruct (getElementEvents_spec e st I) as (uid & st1 & -> & I1 & He & Hat & _).
  set (st2 := if startsWith event "." then _ else st1).
  assert (R1 : removes (fun e' t' k _ => e' = e /\ startsWith event "." = true /\ str_includes k (str_skip 1 event) = true) st1 st2).
  { unfold st2. destruct (startsWith event ".").
    - eapply removes_ext; [|exact (removeNamespaced_types st1 e uid (str_skip 1 event) (okeys (eventsOf uid st1)) I1 He)].
      intros e' t' k h Hin. cbn beta. split; [intros (-> & _ & ?); done|]. intros (-> & _ & Hk). split; [done|]. split; [|done].
      rewrite (handlersAt_uid st1 e uid t' He) in Hin. unfold handlersOf in Hin.
      destruct (oget t' (eventsOf uid st1)) eqn:Et; [|done]. by eapply oget_Some_In.
    - apply removes_refl; [done|]. by intros e' t' k h _ (_ & ? & _). }
  pose proof R1 as (I2 & E2 & _). rewrite <- E2 in He.
  pose proof (removeSelected_all st2 e uid (typeOf event)
    (fun k => negb (negb (str_eqb (typeOf event) event)) || str_includes event (stripUid k)) I2 He) as R2.
  eapply removes_drops; [exact Hat|]. eapply removes_ext; [|exact (removes_trans _ _ _ _ _ R1 R2)].
  intros e' t' k h _. cbn beta. unfold offKeys. rewrite negb_involutive.
  set (b := str_eqb (typeOf event) event || _).
  rewrite andb_true_iff, orb_true_iff, !andb_true_iff, Nat.eqb_eq, String.eqb_eq. intuition congruence.
Qed.

Lemma off_namespace e ns st :
  evInv st ->
  drops (fun e' t' k _ => e' = e /\ (str_includes k ns = true \/ t' = "." +:+ ns)) st
    (off e ("." +:+ ns) HNone None st).
Proof.
  intros I. destruct (off_keys e ("." +:+ ns) HNone None st I eq_refl) as [I' H]. split; [exact I'|].
  intros e' t' k h. rewrite H. unfold offKeys. rewrite typeOf_namespace, String.eqb_refl.
  change (startsWith ("." +:+ ns) ".") with (startsWith ns ""). change (str_skip 1 ("." +:+ ns)) with ns.
  replace (startsWith ns "") with true by (by destruct ns). rewrite andb_true_l, orb_true_l, andb_true_r.
  rewrite andb_true_iff, orb_true_iff, Nat.eqb_eq, String.eqb_eq. tauto.
Qed.

Lemma off_inv e event handler df st : evInv st -> evInv (off e event handler df st).
Proof.
  intros I. destruct (callableOf handler df) as [c|] eqn:Hc; [by eapply off_function|by eapply off_keys].
Qed.

(** ** Programs that use the registry *)

Inductive evCall :=
  | CallOn (e : nat) (event : string) (handler : handlerArg) (df : option callable)
  | CallOne (e : nat) (event : string) (handler : handlerArg) (df : option callable)
  | CallOff (e : nat) (event : string) (handler : handlerArg) (df : option callable).

Definition evRun (st : evState) (c : evCall) : res evState :=
  match c with
  | CallOn e event handler df => on e event handler df st
  | CallOne e event handler df => one e event handler df st
  | CallOff e event handler df => Ok (off e event handler df st)
  end.

(** No call uses the empty string as a selector. *)
Definition callOk (c : evCall) : Prop :=
  match c with CallOn _ _ h _ | CallOne _ _ h _ | CallOff _ _ h _ => selectorOk (selectorOf h) end.

Lemma evRun_inv cs st st' : Forall callOk cs -> evInv st -> foldM evRun cs st = Ok st' -> evInv st'.
Proof.
  revert st. induction cs as [|c cs IH]; intros st Hcs I; cbn [foldM]; [by intros [= <-]|].
  inversion Hcs as [|? ? Hc Hcs']; subst. intros (st1 & H1 & H2)%bind_ok. apply (IH st1); [done| |done].
  destruct c; cbn [evRun callOk] in H1, Hc; unfold on, one in H1.
  - by eapply addHandler_inv.
  - by eapply addHandler_inv.
  - injection H1 as <-. by apply off_inv.
Qed.

Lemma native_types_plain t : In t nativeEvents -> getTypeEvent t = t.
Proof. cbn [nativeEvents In]. intros H. repeat (destruct H as [<-|H]; [reflexivity|]). done. Qed.

Lemma typeOf_idem event : typeOf (typeOf event) = typeOf event.
Proof.
  unfold typeOf at 2 3. destruct (in_strs (getTypeEvent event) nativeEvents) eqn:E.
  - unfold typeOf. rewrite native_types_plain, E by (by apply in_strs_In). done.
  - unfold typeOf. by rewrite E.
Qed.

(** * The theorems of this component *)

(** C2: after any calls of [on], [one] and [off], the browser's listeners are exactly the
    functions in the registry: none is lost and none leaks. *)
Theorem listeners_match_registry (cs : list evCall) (st : evState) :
  Forall callOk cs -> foldM evRun cs evStart = Ok st ->
  forall e t i c, In (e, t, i, c) (listeners st) <->
    exists k h, In (k, h) (handlersAt st e t) /\ h_id h = i /\ c = isDelegated h.
Proof. intros Hcs Hrun. apply ei_listeners. eapply evRun_inv; [exact Hcs|apply evStart_inv|exact Hrun]. Qed.

Definition demoCalls : list evCall :=
  [CallOn 1 "click.bs.alert" (HFn (Fn 5)) None; CallOne 1 "mouseenter" (HFn (Fn 6)) None;
   CallOn 2 "click.bs.tab.data-api" (HSelector "a") (Some (Fn 7)); CallOff 1 ".bs.alert" HNone None].

Lemma listeners_match_registry_witness :
  exists st, foldM evRun demoCalls evStart = Ok st /\ length (listeners st) = 2 /\
    forall e t i c, In (e, t, i, c) (listeners st) <->
      exists k h, In (k, h) (handlersAt st e t) /\ h_id h = i /\ c = isDelegated h.
Proof.
  destruct (foldM evRun demoCalls evStart) as [st|] eqn:E; [|vm_compute in E; discriminate E].
  exists st. split; [reflexivity|]. split.
  - vm_compute in E. injection E as <-. reflexivity.
  - apply (listeners_match_registry demoCalls st); [|exact E].
    repeat constructor.
Defined.

(** A function registered with [on] is registered once, however often [on] is called,
    and [off] with the same arguments leaves the handlers as they were before. *)
Theorem on_off_roundtrip (e : nat) (event : string) (handler : handlerArg) (df : option callable) (c : callable)
    (st st1 st2 : evState) :
  evInv st -> selectorOk (selectorOf handler) -> ohas event customEvents = false ->
  callableOf handler df = Some c ->
  (forall k h, In (k, h) (handlersAt st e (typeOf event)) ->
     h_callable h = Some c -> h_selector h = selectorOf handler -> False) ->
  on e event handler df st = Ok st1 -> on e event handler df st1 = Ok st2 ->
  (exists k, forall k' h', In (k', h') (handlersAt st2 e (typeOf event)) ->
     h_callable h' = Some c -> h_selector h' = selectorOf handler -> k' = k) /\
  forall e' t' k, (exists h, In (k, h) (handlersAt (off e event handler df st2) e' t')) <->
                  (exists h, In (k, h) (handlersAt st e' t')).
Proof.
  intros I Hs Hcu Hc Hnew H1 H2.
  destruct (addHandler_plain _ _ _ _ _ _ _ I Hs Hcu H1) as (I1 & _ & F1 & B1).
  destruct (addHandler_plain _ _ _ _ _ _ _ I1 Hs Hcu H2) as (I2 & (k0 & h0 & Hin0 & Hc0 & Hs0) & F2 & B2).
  rewrite Hc in *. split.
  { exists k0. intros k' h' Hin' Hc' Hs'. eapply (gh_unique _ _ (ei_handlers _ I2 e (typeOf event)));
      [exact Hin'|exact Hin0|congruence..]. }
  destruct (off_function e event handler df c st2 I2 Hc) as [_ Hoff]. intros e' t' k. split.
  - intros (h & [Hin Hno]%Hoff).
    destruct (B2 _ _ _ _ Hin) as [(h1 & Hin1 & E1 & E2)|(-> & -> & ? & ?)]; [|by destruct Hno].
    destruct (B1 _ _ _ _ Hin1) as [(h2 & Hin2 & _)|(-> & -> & ? & ?)]; [by exists h2|].
    destruct Hno. repeat split; congruence.
  - intros (h & Hin). destruct (F1 _ _ _ _ Hin) as (h1 & Hin1 & E1 & E1').
    destruct (F2 _ _ _ _ Hin1) as (h2 & Hin2 & E2 & E2'). exists h2. apply Hoff. split; [done|].
    intros (-> & -> & ? & ?). eapply Hnew; [exact Hin|congruence..].
Qed.

Lemma on_off_roundtrip_witness :
  exists st1 st2, on 1 "click.bs.alert" (HFn (Fn 5)) None evStart = Ok st1 /\
    on 1 "click.bs.alert" (HFn (Fn 5)) None st1 = Ok st2 /\
    forall e' t' k, (exists h, In (k, h) (handlersAt (off 1 "click.bs.alert" (HFn (Fn 5)) None st2) e' t')) <->
                    (exists h, In (k, h) (handlersAt evStart e' t')).
Proof.
  destruct (on 1 "click.bs.alert" (HFn (Fn 5)) None evStart) as [st1|] eqn:E1; [|vm_compute in E1; discriminate E1].
  destruct (on 1 "click.bs.alert" (HFn (Fn 5)) None st1) as [st2|] eqn:E2.
  - exists st1, st2. split; [reflexivity|]. split; [exact E2|].
    apply (on_off_roundtrip 1 "click.bs.alert" (HFn (Fn 5)) None (Fn 5) evStart st1 st2).
    + apply evStart_inv.
    + exact Logic.I.
    + reflexivity.
    + reflexivity.
    + intros k h [].
    + exact E1.
    + exact E2.
  - vm_compute in E1. injection E1 as <-. vm_compute in E2. discriminate E2.
Defined.

(** [off] with a namespace removes from the element every handler whose key names it,
    of every event type, and no other handler of any element. *)
Theorem off_namespace_exact (cs : list evCall) (st : evState) (e : nat) (ns : string) :
  Forall callOk cs -> foldM evRun cs evStart = Ok st ->
  forall e' t' k h, In (k, h) (handlersAt (off e ("." +:+ ns) HNone None st) e' t') <->
    In (k, h) (handlersAt st e' t') /\ ~ (e' = e /\ (str_includes k ns = true \/ t' = "." +:+ ns)).
Proof.
  intros Hcs Hrun. apply off_namespace. eapply evRun_inv; [exact Hcs|apply evStart_inv|exact Hrun].
Qed.

Lemma off_namespace_exact_witness :
  exists st, foldM evRun demoCalls evStart = Ok st /\
    forall e' t' k h, In (k, h) (handlersAt (off 2 ("." +:+ "bs.tab") HNone None st) e' t') <->
      In (k, h) (handlersAt st e' t') /\ ~ (e' = 2 /\ (str_includes k "bs.tab" = true \/ t' = "." +:+ "bs.tab")).
Proof.
  destruct (foldM evRun demoCalls evStart) as [st|] eqn:E; [|vm_compute in E; discriminate E].
  exists st. split; [reflexivity|].
  apply (off_namespace_exact demoCalls st 2 "bs.tab"); [|exact E]. repeat constructor.
Defined.

(** A one-off handler that runs is removed before its function is called, and with it no
    other handler. *)
Theorem one_off_removed (st : evState) (e : nat) (event k : string) (h : hfn) (c : callable) (path : list nat)
    (qsa : string -> list nat) :
  evInv st -> In (k, h) (handlersAt st e (typeOf event)) -> h_oneOff h = true ->
  h_callable h = Some c -> h_selector h = None ->
  let '(st', ran) := runHandler e h (typeOf event) path qsa st in
  ran = Some (Some c, e) /\
  forall e' t' k' h', In (k', h') (handlersAt st' e' t') <->
    In (k', h') (handlersAt st e' t') /\ ~ (e' = e /\ t' = typeOf event /\ k' = k).
Proof.
  intros I Hin Ho Hc Hs. unfold runHandler. rewrite Hs, Ho, Hc. split; [done|].
  destruct (off_function e (typeOf event) (HFn c) None c st I eq_refl) as [_ Hoff].
  intros e' t' k' h'. rewrite Hoff, typeOf_idem. cbn [selectorOf]. split.
  - intros [Hin' Hno]. split; [done|]. intros (-> & -> & ->). apply Hno.
    pose proof (gh_keys _ _ (ei_handlers _ I e (typeOf event))) as K.
    pose proof (proj1 (In_oget k h' _ K) Hin') as E1. pose proof (proj1 (In_oget k h _ K) Hin) as E2.
    rewrite E1 in E2. injection E2 as ->. done.
  - intros [Hin' Hno]. split; [done|]. intros (-> & -> & Hc' & Hs'). apply Hno. split; [done|]. split; [done|].
    eapply (gh_unique _ _ (ei_handlers _ I e (typeOf event))); [exact Hin'|exact Hin|congruence..].
Qed.

Lemma one_off_removed_witness :
  exists st h, one 1 "shown.bs.modal" (HFn (Fn 3)) None evStart = Ok st /\
    In ("bs.modal::2", h) (handlersAt st 1 "shown.bs.modal") /\
    let '(st', ran) := runHandler 1 h "shown.bs.modal" [1] (fun _ => []) st in
    ran = Some (Some (Fn 3), 1) /\
    forall e' t' k' h', In (k', h') (handlersAt st' e' t') <->
      In (k', h') (handlersAt st e' t') /\ ~ (e' = 1 /\ t' = "shown.bs.modal" /\ k' = "bs.modal::2").
Proof.
  destruct (one 1 "shown.bs.modal" (HFn (Fn 3)) None evStart) as [st|] eqn:E; [|vm_compute in E; discriminate E].
  exists st, (Hfn 0 None (Some (Fn 3)) true "bs.modal::2"). split; [reflexivity|].
  assert (Hin : In ("bs.modal::2", Hfn 0 None (Some (Fn 3)) true "bs.modal::2") (handlersAt st 1 "shown.bs.modal")).
  { vm_compute in E. injection E as <-. vm_compute. left. reflexivity. }
  split; [exact Hin|].
  assert (Hinv : evInv st).
  { exact (addHandler_inv 1 "shown.bs.modal" (HFn (Fn 3)) None true evStart st evStart_inv Logic.I E). }
  exact (one_off_removed st 1 "shown.bs.modal" "bs.modal::2" (Hfn 0 None (Some (Fn 3)) true "bs.modal::2")
    (Fn 3) [1] (fun _ => []) Hinv Hin eq_refl eq_refl eq_refl).
Defined.

(** A function registered for [mouseenter] is wrapped, so that [off] with the same
    function does not find it; under a namespace, as the carousel registers it, it is
    not wrapped at all. *)
Theorem mouseenter_not_removed :
  (exists st, on 1 "mouseenter" (HFn (Fn 7)) None evStart = Ok st /\
    listeners (off 1 "mouseenter" (HFn (Fn 7)) None st) = [(1, "mouseover", 1, false)]) /\
  (exists st h, on 1 "mouseenter.bs.carousel" (HFn (Fn 7)) None evStart = Ok st /\
    handlersAt st 1 "mouseover" = [("bs.carousel::2", h)] /\ h_callable h = Some (Fn 7)).
Proof. split; [eexists; split; vm_compute; reflexivity|eexists _, _; split; [|split]; vm_compute; reflexivity]. Qed.

(** ** Event objects *)

(** [hydrateObj] gives an event every property it is asked to, also those that the event has without a setter,
    such as [target], and leaves the others; it throws only at one that cannot be replaced either. *)
Theorem hydrateObj_reads {A} (meta : obj A) (o : obj (property A)) :
  List.NoDup (okeys meta) ->
  (forall k p, In k (okeys meta) -> oget k o = Some p -> p_assigns p || p_configurable p = true) ->
  exists o', hydrateObj o meta = Ok o' /\
    forall k, option_map p_value (oget k o') = match oget k meta with Some v => Some v | None => option_map p_value (oget k o) end.
Proof.
  revert o. induction meta as [|[k v] meta IH]; intros o Hnd Hp; [by exists o|]. inversion Hnd as [|? ? Hk Hnd']; subst.
  unfold hydrateObj. cbn [foldM].
  assert (S : exists q, p_value q = v /\
    match oget k o with
    | None => Ok (oset k (Property v true true) o)
    | Some p => if p_assigns p then Ok (oset k (Property v true (p_configurable p)) o)
                else if p_configurable p then Ok (oset k (Property v false true) o) else Err (TypeError "defineProperty")
    end = Ok (oset k q o)).
  { destruct (oget k o) as [p|] eqn:E; [|by exists (Property v true true)]. specialize (Hp k p (or_introl eq_refl) E).
    destruct (p_assigns p); [by exists (Property v true (p_configurable p))|]. cbn in Hp. rewrite Hp. by exists (Property v false true). }
  destruct S as (q & Hq & ->). cbn [mbind res_bind]. destruct (IH (oset k q o) Hnd') as (o' & E & R).
  - intros j p Hj Hp'. rewrite oget_oset_ne in Hp' by congruence. apply (Hp j); [by right|done].
  - exists o'. split; [exact E|]. intros j. rewrite R, oget_oset. cbn [oget].
    destruct (String.eqb_spec j k) as [->|Hne].
    + assert (N : oget k meta = None) by (by apply oget_None). rewrite N. cbn. by rewrite Hq.
    + done.
Qed.
