(* ===== verification/BsListeners.v ===== *)
(** What [EventHandler] promises to the components: one list of registrations, in the order in which they were
    made, from which events are delivered. The registry of [BsEvents], with its numbers, keys and wrappers, is shown
    to behave as that list. *)
From Stdlib Require Import Ascii Lia.
From S2P Require Import Prelude BsEvents BsEventsProofs.

Local Open Scope nat_scope.

Module Listeners.

(** ** The specification *)

(** A function that is registered, under a key that names its namespace. *)
Record registration := Registration {
  r_element : nat; r_type : string; r_key : string;
  r_function : option callable; r_selector : option string; r_once : bool
}.
#[global] Instance registration_eq_dec : EqDecision registration.
Proof. solve_decision. Defined.

Definition same (r r' : registration) : bool :=
  (r_element r =? r_element r') && str_eqb (r_type r) (r_type r') &&
  bool_decide (r_function r = r_function r') && bool_decide (r_selector r = r_selector r').

Definition stillOnce (b : bool) (r : registration) : registration :=
  Registration (r_element r) (r_type r) (r_key r) (r_function r) (r_selector r) (r_once r && b).

(** A function is registered once; it is delivered to for good if it was registered so once. *)
Definition register (r : registration) (rs : list registration) : list registration :=
  if existsb (same r) rs then map (fun x => if same r x then stillOnce (r_once r) x else x) rs else rs ++ [r].

Definition unregister (p : registration -> bool) (rs : list registration) : list registration :=
  List.filter (fun r => negb (p r)) rs.

(** What [off] removes: a function, or all that is registered under a name. *)
Definition removed (e : nat) (event : string) (handler : handlerArg) (df : option callable) (r : registration) : bool :=
  match callableOf handler df with
  | Some c => same (Registration e (typeOf event) "" (Some c) (selectorOf handler) false) r
  | None => offKeys e event (r_element r) (r_type r) (r_key r)
  end.

(** An event of type [t] reaches the element [e] in one of the two phases: delegation listens to the first. *)
Definition hears (e : nat) (t : string) (capture : bool) (r : registration) : bool :=
  (r_element r =? e) && str_eqb (r_type r) t &&
  Bool.eqb (match r_selector r with Some _ => true | None => false end) capture.

(** The call that a registration gets: its function with its [this]. *)
Definition receives (path : list nat) (querySelectorAll : string -> list nat) (r : registration) : option (option callable * nat) :=
  match r_selector r with
  | None => Some (r_function r, r_element r)
  | Some s => (fun x => (r_function r, x)) <$> delegationTarget (querySelectorAll s) (r_element r) path
  end.

Definition isCalled path qsa r : bool := bool_decide (is_Some (receives path qsa r)).

(** ** Programs *)

Inductive op :=
  | Call (c : evCall)
  | Dispatch (e : nat) (t : string) (capture : bool) (path : list nat) (querySelectorAll : string -> list nat).

Definition calls : Type := list (option callable * nat).

(** What each operation makes of the list. The number in a key is free; a function for [mouseenter] or [mouseleave]
    gets a wrapper of its own at every registration, so it is never found again. *)
Inductive specStep (rs : list registration) : op -> list registration -> calls -> Prop :=
  | spec_on e event handler df n : ohas event customEvents = false ->
      specStep rs (Call (CallOn e event handler df))
        (register (Registration e (typeOf event) (makeEventUid (namespaceOf event) n) (callableOf handler df) (selectorOf handler) false) rs) []
  | spec_one e event handler df n : ohas event customEvents = false ->
      specStep rs (Call (CallOne e event handler df))
        (register (Registration e (typeOf event) (makeEventUid (namespaceOf event) n) (callableOf handler df) (selectorOf handler) true) rs) []
  | spec_crossing e event handler df n i (once : bool) : ohas event customEvents = true ->
      Forall (fun r => r_function r <> Some (Wrapped i)) rs ->
      specStep rs (Call (if once then CallOne e event handler df else CallOn e event handler df))
        (rs ++ [Registration e (typeOf event) (makeEventUid (namespaceOf event) n) (Some (Wrapped i)) (selectorOf handler) once]) []
  | spec_off e event handler df :
      specStep rs (Call (CallOff e event handler df)) (unregister (removed e event handler df) rs) []
  | spec_dispatch e t capture path qsa :
      specStep rs (Dispatch e t capture path qsa)
        (unregister (fun r => hears e t capture r && (r_once r && isCalled path qsa r)) rs)
        (omap (receives path qsa) (List.filter (hears e t capture) rs)).

Inductive specRun : list registration -> list op -> list registration -> calls -> Prop :=
  | spec_nil rs : specRun rs [] rs []
  | spec_cons rs o rs1 out ops rs2 out' : specStep rs o rs1 out -> specRun rs1 ops rs2 out' -> specRun rs (o :: ops) rs2 (out ++ out').

(** ** The program *)

(** The function that a listener of the browser calls, with its properties. *)
Definition handlerOf (st : evState) (e : nat) (t : string) (i : nat) : option hfn :=
  List.find (fun h => h_id h =? i) (map snd (handlersAt st e t)).

(** The browser goes through the listeners that were there at first, and calls those that still are. What they call
    leaves the registry alone, except that a one-off handler is taken off. *)
Fixpoint phase (path : list nat) (qsa : string -> list nat) (ls : list nativeListener) (st : evState) : evState * calls :=
  match ls with
  | [] => (st, [])
  | (e, t, i, c) :: ls =>
      match (if bool_decide ((e, t, i, c) ∈ listeners st) then handlerOf st e t i else None) with
      | None => phase path qsa ls st
      | Some h =>
          let '(st, r) := runHandler e h t path qsa st in
          let '(st, out) := phase path qsa ls st in (st, match r with Some x => x :: out | None => out end)
      end
  end.

Definition listensTo (e : nat) (t : string) (capture : bool) (l : nativeListener) : bool :=
  let '(e', t', _, c) := l in (e' =? e) && str_eqb t' t && Bool.eqb c capture.

Definition dispatch e t capture path qsa st : evState * calls :=
  phase path qsa (List.filter (listensTo e t capture) (listeners st)) st.

Definition perform (o : op) (st : evState) : res (evState * calls) :=
  match o with
  | Call c => st ← evRun st c; Ok (st, [])
  | Dispatch e t capture path qsa => Ok (dispatch e t capture path qsa st)
  end.

Fixpoint performAll (ops : list op) (st : evState) : res (evState * calls) :=
  match ops with
  | [] => Ok (st, [])
  | o :: ops => '(st, out) ← perform o st; '(st, out') ← performAll ops st; Ok (st, out ++ out')
  end.

(** The program registers functions of its own; no selector is empty. *)
Definition opOk (o : op) : Prop :=
  match o with
  | Call c => callOk c /\ match c with CallOn _ _ h df | CallOne _ _ h df => exists n, callableOf h df = Some (Fn n) | CallOff _ _ _ _ => True end
  | Dispatch _ _ _ _ _ => True
  end.

(** ** The simulation *)

(** The registration [r] describes the listener [l]. *)
Definition entry (st : evState) (l : nativeListener) (r : registration) : Prop :=
  let '(e, t, i, c) := l in
  exists h, In (r_key r, h) (handlersAt st e t) /\ h_id h = i /\ c = isDelegated h /\
    r = Registration e t (r_key r) (h_callable h) (h_selector h) (h_oneOff h).

(** A registration that the components can have made. *)
Definition proper (r : registration) : Prop := typeOf (r_type r) = r_type r /\ r_function r <> None.

(** The wrappers that were made are numbered below [n]. *)
Definition below (n : nat) (c : option callable) : Prop := match c with Some (Wrapped j) => j < n | _ => True end.

Record stands (st : evState) (rs : list registration) : Prop := {
  sd_inv : evInv st;
  sd_entries : Forall2 (entry st) (listeners st) rs;
  sd_listeners : List.NoDup (listeners st);
  sd_proper : Forall proper rs;
  sd_wrappers : Forall (fun r => below (nextFn st) (r_function r)) rs
}.

Lemma below_mono n m c : n <= m -> below n c -> below m c.
Proof. destruct c as [[]|]; cbn; [done|lia|done]. Qed.

Lemma same_iff r r' : same r r' = true <->
  r_element r = r_element r' /\ r_type r = r_type r' /\ r_function r = r_function r' /\ r_selector r = r_selector r'.
Proof. unfold same. rewrite !andb_true_iff, Nat.eqb_eq, String.eqb_eq, !bool_decide_eq_true. tauto. Qed.

Lemma stands_start : stands evStart [].
Proof. split; [apply evStart_inv|constructor..]. Qed.

(** Every handler is described. *)
Lemma entry_of st rs e t k h : stands st rs -> In (k, h) (handlersAt st e t) ->
  In (Registration e t k (h_callable h) (h_selector h) (h_oneOff h)) rs.
Proof.
  intros [I F _ _ _] Hin. assert (Hl : In (e, t, h_id h, isDelegated h) (listeners st)) by (apply (ei_listeners _ I); eauto).
  apply list_elem_of_In, list_elem_of_lookup in Hl as (n & Hn).
  destruct (Forall2_lookup_l _ _ _ _ _ F Hn) as (r & Hr & h' & Hin' & Hi & _ & E).
  destruct (ei_ids _ I _ _ _ _ _ _ _ _ Hin' Hin Hi) as (_ & _ & Hk). rewrite Hk in Hin', E.
  rewrite (same_key _ _ _ _ _ _ I Hin' Hin) in E. rewrite <- E. apply list_elem_of_In. by eapply list_elem_of_lookup_2.
Qed.

(** What a registration describes. *)
Lemma handler_of st rs r : stands st rs -> In r rs ->
  exists h, In (r_key r, h) (handlersAt st (r_element r) (r_type r)) /\
    r_function r = h_callable h /\ r_selector r = h_selector h /\ r_once r = h_oneOff h.
Proof.
  intros [_ F _ _ _] (n & Hn)%list_elem_of_In%list_elem_of_lookup.
  destruct (Forall2_lookup_r _ _ _ _ _ F Hn) as ([[[e t] i] c] & _ & h & Hin & _ & _ & ->). by exists h.
Qed.

Lemma stands_unique st rs r r' : stands st rs -> In r rs -> In r' rs -> same r r' = true -> r = r'.
Proof.
  intros S H H' (E1 & E2 & E3 & E4)%same_iff. pose proof (sd_inv _ _ S) as I.
  destruct (handler_of _ _ _ S H) as (h & Hin & F1 & F2 & F3). destruct (handler_of _ _ _ S H') as (h' & Hin' & F1' & F2' & F3').
  rewrite <- E1, <- E2 in Hin'.
  assert (Ek : r_key r = r_key r') by (eapply (gh_unique _ _ (ei_handlers _ I _ _)); [exact Hin|exact Hin'|congruence..]).
  rewrite <- Ek in Hin'. rewrite (same_key _ _ _ _ _ _ I Hin Hin') in F3. destruct r, r'; cbn in *; congruence.
Qed.

(** *** Removal *)

Definition shrinks (st st' : evState) : Prop := exists q : nativeListener -> bool, listeners st' = List.filter q (listeners st) /\ nextFn st' = nextFn st.

Lemma filter_List {A} (P : A -> Prop) `{forall x, Decision (P x)} (l : list A) : filter P l = List.filter (fun x => bool_decide (P x)) l.
Proof. induction l as [|x l IH]; [done|]. rewrite filter_cons. cbn. destruct (decide (P x)); [rewrite bool_decide_true by done|rewrite bool_decide_false by done]; by rewrite IH. Qed.

Lemma filter_all {A} (l : list A) : l = List.filter (fun _ => true) l.
Proof. induction l as [|x l IH]; [done|]. cbn. by rewrite <- IH. Qed.

#[local] Instance shrinks_preorder : PreOrder shrinks.
Proof.
  split; [intros st; exists (fun _ => true); split; [apply filter_all|done]|].
  intros a b c [p [E N]] [q [E' N']]. exists (fun x => p x && q x). split; [|congruence]. by rewrite E', E, filter_filter.
Qed.

Lemma removeHandler_shrinks e uid t c sel st : shrinks st (removeHandler e uid t c sel st).
Proof. unfold removeHandler. destruct (findHandler _ _ _); [|done]. eexists. split; [cbn; apply filter_List|done]. Qed.

Lemma removeSelected_shrinks e uid t p es st : shrinks st (removeSelected e uid t p es st).
Proof.
  unfold removeSelected. revert st. induction es as [|[k h] es IH]; intros st; cbn [fold_left]; [done|].
  destruct (p k); [|apply IH]. etransitivity; [apply removeHandler_shrinks|apply IH].
Qed.

Lemma getElementEvents_shrinks e st uid events st1 : getElementEvents e st = (uid, events, st1) -> shrinks st st1.
Proof.
  intros E. exists (fun _ => true). unfold getElementEvents in E.
  destruct (elementUid st !! e); injection E as _ _ <-; cbn; split; done || apply filter_all.
Qed.

Lemma off_shrinks e event handler df st : shrinks st (off e event handler df st).
Proof.
  unfold off. rewrite normalizeParameters_eq. destruct (getElementEvents e st) as [[uid events] st1] eqn:E.
  etransitivity; [by eapply getElementEvents_shrinks|]. clear E. destruct (callableOf handler df).
  - destruct (_ =? 0); [done|]. apply removeHandler_shrinks.
  - etransitivity; [|apply removeSelected_shrinks]. destruct (startsWith event "."); [|done].
    revert st1. induction (okeys events) as [|t ts IH]; intros st1; cbn [fold_left]; [done|].
    etransitivity; [apply removeSelected_shrinks|apply IH].
Qed.

Lemma addCallable_counts e event t handler d c b st st' :
  addCallable e event t handler d c b st = Ok st' -> nextFn st <= nextFn st'.
Proof.
  unfold addCallable. destruct (getElementEvents e st) as [[uid events] st1] eqn:E.
  apply getElementEvents_shrinks in E as (_ & _ & <-). destruct (findHandler _ _ _); [by intros [= <-]|].
  destruct (_ && _); [done|]. intros [= <-]. cbn. lia.
Qed.

Lemma Forall2_filter {A B} (R R' : A -> B -> Prop) (q : A -> bool) (p : B -> bool) l k :
  Forall2 R l k -> (forall x y, In x l -> R x y -> q x = p y /\ (q x = true -> R' x y)) ->
  Forall2 R' (List.filter q l) (List.filter p k).
Proof.
  induction 1 as [|x y l k HR F IH]; intros H; cbn; [constructor|].
  destruct (H x y (or_introl eq_refl) HR) as [E HR']. rewrite <- E.
  assert (F' : Forall2 R' (List.filter q l) (List.filter p k)) by (apply IH; intros; apply H; [by right|done]).
  destruct (q x); [|done]. constructor; auto.
Qed.

Lemma Forall_unregister (Q : registration -> Prop) p rs : Forall Q rs -> Forall Q (unregister p rs).
Proof. rewrite !List.Forall_forall. intros H r [Hr _]%filter_In. by apply H. Qed.

Lemma stands_drop st st' rs (P : nat -> string -> string -> hfn -> Prop) (p : registration -> bool) :
  stands st rs -> drops P st st' -> shrinks st st' ->
  (forall e t k h, In (k, h) (handlersAt st e t) ->
     P e t k h <-> p (Registration e t k (h_callable h) (h_selector h) (h_oneOff h)) = true) ->
  stands st' (unregister p rs).
Proof.
  intros [I F N T W] [I' H] [q [E En]] Hp. split; [done| |by rewrite E; apply List.NoDup_filter|by apply Forall_unregister|].
  - rewrite E. apply (Forall2_filter (entry st)); [done|]. intros [[[e t] i] c] r Hl (h & Hin & Hi & Hc & Er).
    assert (Hq : q (e, t, i, c) = negb (p r)).
    { rewrite Er. apply eq_true_iff_eq. rewrite negb_true_iff, <- not_true_iff_false, <- (Hp e t _ h Hin). split.
      - intros Hq. assert (Hl' : In (e, t, i, c) (listeners st')) by (rewrite E; by apply filter_In).
        apply (ei_listeners _ I') in Hl' as (k & g & Hg & Hgi & _). apply H in Hg as [Hg Hn].
        destruct (ei_ids _ I _ _ _ _ _ _ _ _ Hg Hin ltac:(congruence)) as (_ & _ & ->). by rewrite (same_key _ _ _ _ _ _ I Hin Hg).
      - intros Hn. assert (Hin' : In (r_key r, h) (handlersAt st' e t)) by (by apply H).
        assert (Hl' : In (e, t, i, c) (listeners st')) by (apply (ei_listeners _ I'); eauto).
        rewrite E in Hl'. by apply filter_In in Hl' as [_ ?]. }
    split; [done|]. rewrite Hq. intros Hn%negb_true_iff. exists h. split; [|done]. apply H. split; [done|].
    rewrite (Hp _ _ _ _ Hin), <- Er. by rewrite Hn.
  - rewrite En. by apply Forall_unregister.
Qed.

(** *** Registration *)

Lemma same_reg e t k c sel b k' c' sel' b' :
  same (Registration e t k c sel b) (Registration e t k' c' sel' b') = bool_decide (c = c') && bool_decide (sel = sel').
Proof. unfold same. cbn. by rewrite Nat.eqb_refl, String.eqb_refl. Qed.

Lemma stands_added st st' rs e t ns c sel b :
  stands st rs -> evInv st' -> added e t ns c sel b st st' -> nextFn st <= nextFn st' -> typeOf t = t -> c <> None -> below (nextFn st') c ->
  exists n, stands st' (register (Registration e t (makeEventUid ns n) c sel b) rs).
Proof.
  intros S I' A Hn Ht Hc Hb. pose proof S as [I F N T W].
  assert (W' : Forall (fun r => below (nextFn st') (r_function r)) rs) by (apply (Forall_impl _ _ _ W); intros x; by apply below_mono). destruct A as [k h Hin Hf Hs Hl H|i n h Eh Hno Hl H].
  - exists 0. set (r := Registration e t _ c sel b). unfold register.
    assert (Hx : existsb (same r) rs = true).
    { apply existsb_exists. eexists. split; [by apply (entry_of st rs e t k h)|]. unfold r. rewrite same_reg, Hf, Hs. by rewrite !bool_decide_true. }
    rewrite Hx. split; [done| |by rewrite Hl| |].
    + rewrite Hl. apply Forall2_fmap_r. apply (Forall2_impl _ _ _ _ F). intros [[[e' t'] i'] c'] x (h0 & Hin0 & Hi & Hd & Ex).
      cbv beta delta [compose]. destruct (same r x) eqn:E.
      * apply same_iff in E. rewrite Ex in E. cbn in E. destruct E as (<- & <- & Ef & Es).
        assert (Ek : r_key x = k) by (eapply (gh_unique _ _ (ei_handlers _ I e t)); [exact Hin0|exact Hin|congruence..]).
        rewrite Ek in Hin0. rewrite (same_key _ _ _ _ _ _ I Hin0 Hin) in Hi, Hd, Ex. exists (again b h).
        split; [apply H; left; by rewrite <- Ek|]. split; [done|]. split; [done|]. by rewrite Ex.
      * exists h0. split; [|done]. apply H. right. split; [done|]. intros (-> & -> & Ek).
        rewrite Ek in Hin0. rewrite (same_key _ _ _ _ _ _ I Hin0 Hin) in Ex. apply not_true_iff_false in E. apply E.
        rewrite Ex. unfold r. rewrite same_reg, Hf, Hs. by rewrite !bool_decide_true.
    + apply Forall_fmap. apply (Forall_impl _ _ _ T). intros x Hx'. cbn. by destruct (same r x).
    + apply Forall_fmap. apply (Forall_impl _ _ _ W'). intros x Hx'. cbn. by destruct (same r x).
  - exists n. set (r := Registration e t _ c sel b). unfold register.
    assert (Hx : existsb (same r) rs = false).
    { apply not_true_iff_false. intros (x & Hin & (E1 & E2 & E3 & E4)%same_iff)%existsb_exists.
      destruct (handler_of _ _ _ S Hin) as (g & Hg & G1 & G2 & _). rewrite <- E1, <- E2 in Hg. eapply Hno; [exact Hg|..]; cbn in *; congruence. }
    rewrite Hx. assert (Hnew : In (h_uid h, h) (handlersAt st' e t)) by (apply H; by right). split; [done| |rewrite Hl| |].
    + rewrite Hl. apply Forall2_app.
      * apply (Forall2_impl _ _ _ _ F). intros [[[e' t'] i'] c'] x (h0 & Hin0 & Hrest). exists h0. split; [|done]. apply H. by left.
      * constructor; [|constructor]. exists h. rewrite Eh in *. done.
    + apply NoDup_ListNoDup, NoDup_app. split; [by apply NoDup_ListNoDup|]. split; [|apply NoDup_singleton].
      intros [[[e' t'] i'] c'] Hold%list_elem_of_In [= -> -> -> _]%list_elem_of_singleton.
      apply (ei_listeners _ I) in Hold as (k & g & Hg & Hgi & _).
      assert (Hg' : In (k, g) (handlersAt st' e t)) by (apply H; by left).
      destruct (ei_ids _ I' _ _ _ _ _ _ _ _ Hg' Hnew) as (_ & _ & Ek); [by rewrite Eh|]. rewrite Ek in Hg'.
      rewrite (same_key _ _ _ _ _ _ I' Hg' Hnew) in Hg. eapply Hno; [exact Hg|by rewrite Eh..].
    + apply Forall_app. split; [done|]. by constructor.
    + apply Forall_app. split; [done|]. by constructor.
Qed.

Lemma addCallable_simulated st rs e event handler c b :
  stands st rs -> selectorOk (selectorOf handler) -> c <> None -> below (nextFn st) c ->
  exists st' n, addCallable e event (typeOf event) handler (match selectorOf handler with Some _ => true | None => false end) c b st = Ok st' /\
    stands st' (register (Registration e (typeOf event) (makeEventUid (namespaceOf event) n) c (selectorOf handler) b) rs).
Proof.
  intros S Hs Hc Hb.
  assert (exists st', addCallable e event (typeOf event) handler (match selectorOf handler with Some _ => true | None => false end) c b st = Ok st') as [st' E].
  { unfold addCallable. destruct (getElementEvents e st) as [[uid events] st1].
    destruct (findHandler _ _ _); [by eexists|]. rewrite (bool_decide_false (c = None)), andb_false_r by done. by eexists. }
  pose proof (addCallable_counts _ _ _ _ _ _ _ _ _ E) as Hn. pose proof E as [I' A]%addCallable_exact; [|apply S|done].
  destruct (stands_added st st' rs _ _ _ _ _ _ S I' A Hn (typeOf_idem event) Hc) as [n Sn]; [by eapply below_mono|]. eauto.
Qed.

Lemma addHandler_simulated st rs e event handler (df : option callable) (b : bool) k :
  stands st rs -> selectorOk (selectorOf handler) -> callableOf handler df = Some (Fn k) ->
  exists st' rs', addHandler e event handler df b st = Ok st' /\
    specStep rs (Call (if b then CallOne e event handler df else CallOn e event handler df)) rs' [] /\ stands st' rs'.
Proof.
  intros S Hs Hc. unfold addHandler. rewrite normalizeParameters_eq. destruct (ohas event customEvents) eqn:Ecust.
  - set (st0 := EvState _ _ _ _ _). set (w := Some (Wrapped (nextFn st))).
    assert (Hfresh : Forall (fun r => r_function r <> w) rs).
    { apply (Forall_impl _ _ _ (sd_wrappers _ _ S)). unfold w. intros r Hr Ew. rewrite Ew in Hr. cbn in Hr. lia. }
    assert (S0 : stands st0 rs).
    { destruct S as [I F N T W]. split; [by apply bumpFn_inv|done..|]. apply (Forall_impl _ _ _ W). intros r. apply below_mono. cbn. lia. }
    destruct (addCallable_simulated st0 rs e event handler w b S0 Hs ltac:(done)) as (st' & n & E & Sn); [cbn; lia|].
    exists st'. eexists. split; [exact E|]. split; [by apply (spec_crossing _ _ _ _ _ n (nextFn st))|].
    unfold register in Sn. destruct (existsb _ rs) eqn:Ex; [|exact Sn]. exfalso.
    apply existsb_exists in Ex as (x & Hx & (_ & _ & Ef & _)%same_iff). rewrite List.Forall_forall in Hfresh. by apply (Hfresh x Hx).
  - destruct (addCallable_simulated st rs e event handler (callableOf handler df) b S Hs) as (st' & n & E & Sn); [by rewrite Hc..|].
    exists st'. eexists. split; [exact E|]. split; [|exact Sn]. destruct b; by constructor.
Qed.

Lemma off_simulated st rs e event handler df :
  stands st rs -> stands (off e event handler df st) (unregister (removed e event handler df) rs).
Proof.
  intros S. pose proof (sd_inv _ _ S) as I. destruct (callableOf handler df) as [c|] eqn:Ec.
  - eapply stands_drop; [exact S|by apply (off_function e event handler df c)|apply off_shrinks|].
    intros e' t k h Hin. unfold removed. rewrite Ec, same_iff. cbn. intuition congruence.
  - eapply stands_drop; [exact S|by apply (off_keys e event handler df)|apply off_shrinks|].
    intros e' t k h Hin. unfold removed. by rewrite Ec.
Qed.

(** *** Delivery *)

Lemma off_drops e event handler df st : evInv st -> exists P, drops P st (off e event handler df st).
Proof.
  intros I. destruct (callableOf handler df) as [c|] eqn:Ec; eexists; [by apply (off_function e event handler df c)|by apply (off_keys e event handler df)].
Qed.

(** What is still registered is still listened to by the same listener. *)
Lemma entry_kept P st st' ys l x : evInv st -> drops P st st' -> stands st' ys -> entry st l x -> In x ys ->
  entry st' l x /\ In l (listeners st').
Proof.
  intros I [I' H] S Hl Hx. destruct l as [[[e t] i] c], Hl as (h & Hin & Hi & Hc & Ex).
  assert (Hin' : In (r_key x, h) (handlersAt st' e t)).
  { destruct (handler_of _ _ _ S Hx) as (h' & Hh & _). assert (Hel : r_element x = e /\ r_type x = t) by (by rewrite Ex).
    destruct Hel as [Ee Et]. rewrite Ee, Et in Hh. pose proof (proj1 (H _ _ _ _) Hh) as [Hh' _]. by rewrite (same_key _ _ _ _ _ _ I Hin Hh'). }
  split; [by exists h|]. apply (ei_listeners _ I'). eauto.
Qed.

Lemma handlerOf_entry st e t i c x : evInv st -> entry st (e, t, i, c) x ->
  exists h, handlerOf st e t i = Some h /\ In (r_key x, h) (handlersAt st e t) /\
    x = Registration e t (r_key x) (h_callable h) (h_selector h) (h_oneOff h).
Proof.
  intros I (h & Hin & Hi & _ & Ex). exists h. split; [|done]. unfold handlerOf.
  destruct (List.find _ _) as [h'|] eqn:Ef.
  - apply List.find_some in Ef as [((k & g) & Eg & Hg)%in_map_iff Hi'%Nat.eqb_eq]. cbn in Eg. subst g.
    destruct (ei_ids _ I _ _ _ _ _ _ _ _ Hg Hin ltac:(congruence)) as (_ & _ & Ek). rewrite Ek in Hg. by rewrite (same_key _ _ _ _ _ _ I Hin Hg).
  - pose proof (List.find_none _ _ Ef h (in_map snd _ _ Hin)) as Hn. cbn beta in Hn. by rewrite Hi, Nat.eqb_refl in Hn.
Qed.

Definition spent path qsa (r : registration) : bool := r_once r && isCalled path qsa r.

Lemma unregister_none p rs : (forall r, In r rs -> p r = false) -> unregister p rs = rs.
Proof.
  intros H. unfold unregister. induction rs as [|r rs IH]; [done|]. cbn. rewrite H by (by left). cbn. rewrite IH; [done|]. intros; apply H; by right.
Qed.

(** A call of one function: a one-off registration is removed before. *)
Lemma run_simulated st ys e t h x path qsa :
  stands st ys -> In x ys -> In (r_key x, h) (handlersAt st e t) ->
  x = Registration e t (r_key x) (h_callable h) (h_selector h) (h_oneOff h) ->
  let '(st', r) := runHandler e h t path qsa st in
  r = receives path qsa x /\ (exists P, drops P st st') /\
  stands st' (unregister (fun y => bool_decide (y = x) && spent path qsa x) ys).
Proof.
  intros S Hx Hin Ex. pose proof (sd_inv _ _ S) as I.
  assert (Hp : proper x) by (eapply Forall_forall; [apply (sd_proper _ _ S)|by apply list_elem_of_In]).
  destruct Hp as [Ht Hf]. rewrite Ex in Ht, Hf. cbn in Ht, Hf. destruct (h_callable h) as [c|] eqn:Ec; [|done].
  assert (Stays : forall b, b = false -> (exists P, drops P st st) /\ stands st (unregister (fun y => bool_decide (y = x) && b) ys)).
  { intros b ->. split; [exists (fun _ _ _ _ => False); split; [done|]; by intuition|].
    rewrite unregister_none by (intros; by rewrite andb_false_r). done. }
  assert (Goes : forall handler df b, b = true -> callableOf handler df = Some c -> selectorOf handler = h_selector h ->
    (exists P, drops P st (off e t handler df st)) /\ stands (off e t handler df st) (unregister (fun y => bool_decide (y = x) && b) ys)).
  { intros handler df b -> Hc Hs. split; [by apply off_drops|].
    replace (unregister _ ys) with (unregister (removed e t handler df) ys); [by apply off_simulated|].
    apply List.filter_ext_in. intros y Hy. f_equal. unfold removed. rewrite Hc, Ht, Hs, andb_true_r. apply eq_true_iff_eq. rewrite bool_decide_eq_true.
    assert (E : same (Registration e t "" (Some c) (h_selector h) false) y = same x y) by (rewrite Ex; done). rewrite E. split.
    - intros Hsame. symmetry. by eapply stands_unique.
    - intros ->. by apply same_iff. }
  unfold runHandler. rewrite Ec. destruct (h_selector h) as [sel|] eqn:Es.
  - assert (Er : receives path qsa x = (fun y => (Some c, y)) <$> delegationTarget (qsa sel) e path) by (by rewrite Ex).
    destruct (delegationTarget (qsa sel) e path) as [y|] eqn:Ed.
    + split; [by rewrite Er|]. destruct (h_oneOff h) eqn:Eo; [apply Goes|apply Stays]; try done;
        unfold spent, isCalled; rewrite Er; rewrite Ex; cbn; by rewrite ?Eo.
    + split; [by rewrite Er|]. apply Stays. unfold spent, isCalled. rewrite Er, bool_decide_false by (by intros []). apply andb_false_r.
  - assert (Er : receives path qsa x = Some (Some c, e)) by (by rewrite Ex).
    split; [done|]. destruct (h_oneOff h) eqn:Eo; [apply Goes|apply Stays]; try done;
      unfold spent, isCalled; rewrite Er; rewrite Ex; cbn; by rewrite ?Eo.
Qed.

Lemma phase_simulated path qsa ls : forall xs st ys,
  stands st ys -> Forall2 (entry st) ls xs -> (forall l, In l ls -> In l (listeners st)) -> List.NoDup xs ->
  let '(st', out) := phase path qsa ls st in
  out = omap (receives path qsa) xs /\ stands st' (unregister (fun r => bool_decide (r ∈ xs) && spent path qsa r) ys).
Proof.
  induction ls as [|[[[e t] i] c] ls IH]; intros xs st ys S F Hin N; inversion F as [|l0 x ? xs' Hx F']; subst; cbn [phase].
  { split; [done|]. rewrite unregister_none; [done|]. intros r _. by rewrite bool_decide_false by apply not_elem_of_nil. }
  pose proof (sd_inv _ _ S) as I. rewrite bool_decide_true by (apply list_elem_of_In, Hin; by left).
  destruct (handlerOf_entry _ _ _ _ _ _ I Hx) as (h & -> & Hh & Ex).
  assert (Hxin : In x ys) by (rewrite Ex; by eapply entry_of).
  pose proof (run_simulated st ys e t h x path qsa S Hxin Hh Ex) as R. destruct (runHandler e h t path qsa st) as [st1 r].
  destruct R as (-> & [P D] & S1). inversion N as [|? ? Nx N']; subst.
  assert (Keep : forall l x', In x' xs' -> entry st l x' -> entry st1 l x' /\ In l (listeners st1)).
  { intros l x' Hx' Hl. eapply (entry_kept P); [done..|]. apply filter_In. split.
    - destruct l as [[[e' t'] i'] c'], Hl as (h' & Hh' & _ & _ & Ex'). rewrite Ex'. by eapply entry_of.
    - rewrite bool_decide_false; [done|]. intros ->. done. }
  specialize (IH xs' st1 _ S1).
  destruct (phase path qsa ls st1) as [st2 out] eqn:E2. destruct IH as [-> S2].
  - clear -F' Keep. induction F' as [|l y ls xs Hl F' IHF]; constructor; [by apply Keep; [left|]|].
    apply IHF. intros l' x' Hx'. apply Keep. by right.
  - intros l (n & Hn)%list_elem_of_In%list_elem_of_lookup. destruct (Forall2_lookup_l _ _ _ _ _ F' Hn) as (y & Hy & Hly).
    eapply Keep; [|exact Hly]. apply list_elem_of_In. by eapply list_elem_of_lookup_2.
  - done.
  - split; [cbn [omap list_omap]; by destruct (receives path qsa x)|].
    replace (unregister _ ys) with (unregister (fun r => bool_decide (r ∈ xs') && spent path qsa r)
      (unregister (fun y => bool_decide (y = x) && spent path qsa x) ys)); [done|].
    unfold unregister. rewrite filter_filter. apply List.filter_ext_in. intros y _.
    rewrite (bool_decide_ext (y ∈ x :: xs') (y = x \/ y ∈ xs')) by apply elem_of_cons.
    rewrite bool_decide_or. destruct (decide (y = x)) as [->|Hne]; [|by rewrite bool_decide_false by done].
    rewrite bool_decide_true by done. destruct (spent path qsa x); cbn; [done|]. by rewrite andb_false_r.
Qed.

Lemma entry_inj st l l' r : evInv st -> entry st l r -> entry st l' r -> l = l'.
Proof.
  intros I. destruct l as [[[e t] i] c], l' as [[[e' t'] i'] c']. intros (h & Hh & <- & -> & E) (h' & Hh' & <- & -> & E').
  rewrite E in E'. injection E' as -> -> _ _ _. by rewrite (same_key _ _ _ _ _ _ I Hh Hh').
Qed.

Lemma NoDup_Forall2 {A B} (R : A -> B -> Prop) l k :
  (forall x x' y, R x y -> R x' y -> x = x') -> Forall2 R l k -> List.NoDup l -> List.NoDup k.
Proof.
  intros Hi. induction 1 as [|x y l k HR F IH]; [constructor|]. intros [Hx N]%List.NoDup_cons_iff. constructor; [|by apply IH].
  intros (n & Hn)%list_elem_of_In%list_elem_of_lookup. destruct (Forall2_lookup_r _ _ _ _ _ F Hn) as (x' & Hx' & HR').
  apply Hx. rewrite (Hi _ _ _ HR HR'). apply list_elem_of_In. by eapply list_elem_of_lookup_2.
Qed.

Lemma stands_NoDup st rs : stands st rs -> List.NoDup rs.
Proof. intros [I F N _ _]. eapply NoDup_Forall2; [|exact F|exact N]. intros l l' r. by apply entry_inj. Qed.

Lemma dispatch_simulated st rs e t capture path qsa : stands st rs ->
  let '(st', out) := dispatch e t capture path qsa st in
  exists rs', specStep rs (Dispatch e t capture path qsa) rs' out /\ stands st' rs'.
Proof.
  intros S. unfold dispatch.
  assert (F : Forall2 (entry st) (List.filter (listensTo e t capture) (listeners st)) (List.filter (hears e t capture) rs)).
  { eapply Forall2_filter; [apply S|]. intros [[[e' t'] i] c] r _ (h & Hh & Hi & -> & E). split; [|intros _; by exists h].
    rewrite E. unfold listensTo, hears, isDelegated. cbn. by destruct (h_selector h). }
  pose proof (phase_simulated path qsa _ _ st rs S F) as H. destruct (phase _ _ _ st) as [st' out]. destruct H as [-> S'].
  - by intros l [? _]%filter_In.
  - apply List.NoDup_filter. by eapply stands_NoDup.
  - eexists. split; [constructor|]. replace (unregister _ rs) with
      (unregister (fun r => bool_decide (r ∈ List.filter (hears e t capture) rs) && spent path qsa r) rs); [done|].
    apply List.filter_ext_in. intros r Hr. f_equal. f_equal. apply eq_true_iff_eq. rewrite bool_decide_eq_true, list_elem_of_In, filter_In. tauto.
Qed.

Lemma perform_simulated st rs o : stands st rs -> opOk o ->
  exists st' rs' out, perform o st = Ok (st', out) /\ specStep rs o rs' out /\ stands st' rs'.
Proof.
  intros S Ho. destruct o as [[e event handler df|e event handler df|e event handler df]|e t capture path qsa]; cbn [perform evRun].
  - destruct Ho as [Hs [k Hk]]. destruct (addHandler_simulated st rs e event handler df false k S Hs Hk) as (st' & rs' & E & H & S').
    unfold on. rewrite E. cbn. eauto 10.
  - destruct Ho as [Hs [k Hk]]. destruct (addHandler_simulated st rs e event handler df true k S Hs Hk) as (st' & rs' & E & H & S').
    unfold one. rewrite E. cbn. eauto 10.
  - eexists _, _, _. split; [reflexivity|]. split; [constructor|by apply off_simulated].
  - pose proof (dispatch_simulated st rs e t capture path qsa S) as H. destruct (dispatch _ _ _ _ _ st) as [st' out].
    destruct H as (rs' & H & S'). eauto 10.
Qed.

Lemma performAll_simulated ops : forall st rs, stands st rs -> Forall opOk ops ->
  exists st' rs' out, performAll ops st = Ok (st', out) /\ specRun rs ops rs' out /\ stands st' rs'.
Proof.
  induction ops as [|o ops IH]; intros st rs S H.
  - exists st, rs, []. split; [done|]. split; [constructor|done].
  - inversion H as [|? ? Ho H']; subst. destruct (perform_simulated st rs o S Ho) as (st1 & rs1 & out1 & E1 & H1 & S1).
    destruct (IH st1 rs1 S1 H') as (st2 & rs2 & out2 & E2 & H2 & S2). exists st2, rs2, (out1 ++ out2).
    split; [cbn; rewrite E1; cbn; by rewrite E2|]. split; [by econstructor|done].
Qed.

(** C3: the registry of [EventHandler], its numbered elements, keys, wrappers and the browser's listeners, behaves as
    one list of registrations in the order in which they were made. Any program of [on], [one], [off] and events runs
    without an error, and its calls are those that the list gives: an event calls each registered function of its element
    and type once, in that order, delegated ones with the nearest match as [this]; registering a function again changes
    nothing, except that it is no longer one-off when either was for good; a one-off function goes when it is called, and
    only then; [off] removes the function, or all that its name covers, and nothing else. *)
Theorem events_refine_list (ops : list op) : Forall opOk ops ->
  exists st rs out, performAll ops evStart = Ok (st, out) /\ specRun [] ops rs out /\ stands st rs.
Proof. apply performAll_simulated, stands_start. Qed.

(** A delegated handler, a one-off one and one registered both ways, through two clicks. *)
Definition demoOps : list op :=
  [Call (CallOn 1 "click.bs.tab.data-api" (HSelector "a") (Some (Fn 7))); Call (CallOne 1 "click.bs.alert" (HFn (Fn 5)) None);
   Call (CallOne 1 "click.bs.modal" (HFn (Fn 6)) None); Call (CallOn 1 "click.bs.modal" (HFn (Fn 6)) None);
   Dispatch 1 "click" true [3; 2; 1] (fun _ => [2]); Dispatch 1 "click" false [3; 2; 1] (fun _ => [2]);
   Call (CallOff 1 ".bs.tab" HNone None);
   Dispatch 1 "click" true [3; 2; 1] (fun _ => [2]); Dispatch 1 "click" false [3; 2; 1] (fun _ => [2])].

Lemma events_refine_list_witness : exists st rs out, performAll demoOps evStart = Ok (st, out) /\ specRun [] demoOps rs out /\ stands st rs /\
  out = [(Some (Fn 7), 2); (Some (Fn 5), 1); (Some (Fn 6), 1); (Some (Fn 6), 1)].
Proof.
  destruct (events_refine_list demoOps) as (st & rs & out & E & H & S); [repeat constructor; by eexists|].
  exists st, rs, out. split; [exact E|]. split; [exact H|]. split; [exact S|]. vm_compute in E. by injection E as _ <-.
Defined.
End Listeners.
