(* ===== verification/BsDom.v ===== *)
(** Bootstrap's view of the page: elements with classes, attributes and inline styles, the
    visibility helpers of [util/index.js], [getSelector] and [SelectorEngine]. *)
From Stdlib Require Import Ascii QArith Lia.
From S2P Require Import Prelude.

Local Open Scope nat_scope.

(** ** Elements *)

Record node := Node {
  n_tag : string;                      (** upper case, as [tagName] *)
  n_classes : list string;
  n_attrs : obj string;
  n_style : obj string;                (** inline styles *)
  n_parent : option nat;
  n_children : list nat;
  n_disabled : option bool             (** the [disabled] property, where the element has one *)
}.

Abbreviation page := (gmap nat node) (only parsing).

Definition set_classes (c : list string) (n : node) : node :=
  Node (n_tag n) c (n_attrs n) (n_style n) (n_parent n) (n_children n) (n_disabled n).
Definition set_attrs (a : obj string) (n : node) : node :=
  Node (n_tag n) (n_classes n) a (n_style n) (n_parent n) (n_children n) (n_disabled n).
Definition set_style (s : obj string) (n : node) : node :=
  Node (n_tag n) (n_classes n) (n_attrs n) s (n_parent n) (n_children n) (n_disabled n).

(** [classList] *)
Definition hasClass (d : page) (e : nat) (c : string) : bool :=
  match d !! e with Some n => in_strs c (n_classes n) | None => false end.
Definition addClass (c : string) (n : node) : node :=
  if in_strs c (n_classes n) then n else set_classes (n_classes n ++ [c]) n.
Definition removeClass (c : string) (n : node) : node :=
  set_classes (List.filter (fun x => negb (str_eqb x c)) (n_classes n)) n.
Definition classList_add (e : nat) (cs : list string) (d : page) : page :=
  alter (fun n => fold_left (fun n c => addClass c n) cs n) e d.
Definition classList_remove (e : nat) (cs : list string) (d : page) : page :=
  alter (fun n => fold_left (fun n c => removeClass c n) cs n) e d.
(** [classList.toggle(c, force)] *)
Definition classList_toggle (e : nat) (c : string) (force : bool) (d : page) : page :=
  if force then classList_add e [c] d else classList_remove e [c] d.

Definition getAttribute (d : page) (e : nat) (k : string) : option string :=
  match d !! e with Some n => oget k (n_attrs n) | None => None end.
Definition setAttribute (e : nat) (k v : string) (d : page) : page :=
  alter (fun n => set_attrs (oset k v (n_attrs n)) n) e d.
Definition removeAttribute (e : nat) (k : string) (d : page) : page :=
  alter (fun n => set_attrs (odelete k (n_attrs n)) n) e d.
Definition setStyle (e : nat) (k v : string) (d : page) : page :=
  alter (fun n => set_style (if str_eqb v "" then odelete k (n_style n) else oset k v (n_style n)) n) e d.

(** A string in double quotes. *)
Definition quoted (s : string) : string := String "034" (s +:+ String "034" "").

Definition bool_str (b : bool) : string := if b then "true" else "false".

(** [element.remove()] *)
Definition removeElement (e : nat) (d : page) : page :=
  match d !! e with
  | Some n =>
      match n_parent n with
      | Some p =>
          alter (fun m => Node (n_tag m) (n_classes m) (n_attrs m) (n_style m) None (n_children m) (n_disabled m)) e
            (alter (fun m => Node (n_tag m) (n_classes m) (n_attrs m) (n_style m) (n_parent m)
                               (filter (fun c => c <> e) (n_children m)) (n_disabled m)) p d)
      | None => d
      end
  | None => d
  end.

(** What the browser computes from the page: selectors and layout. *)
Class Browser := {
  matches : page -> nat -> string -> bool;
  rectCount : page -> nat -> nat;                    (** [getClientRects().length] *)
  visibilityOf : page -> nat -> string;              (** the computed [visibility] *)
  cssEscape : option (string -> string)              (** [CSS.escape], where there is one *)
}.

Section selectors.
Context `{B : Browser}.
Implicit Types (d : page) (e : nat).

(** The element and its ancestors, nearest first. *)
Fixpoint ancestors (fuel : nat) d e : list nat :=
  match fuel with
  | O => []
  | S fuel => e :: match d !! e with
                   | Some n => match n_parent n with Some p => ancestors fuel d p | None => [] end
                   | None => []
                   end
  end.

(** The descendants in document order. *)
Fixpoint descendants (fuel : nat) d e : list nat :=
  match fuel with
  | O => []
  | S fuel => match d !! e with
              | Some n => flat_map (fun c => c :: descendants fuel d c) (n_children n)
              | None => []
              end
  end.

(** A page with [size d] elements has no longer path. *)
Definition closest d e (selector : string) : option nat :=
  List.find (fun a => matches d a selector) (ancestors (size d) d e).

(** [SelectorEngine] *)
Definition find d (selector : string) (root : nat) : list nat :=
  List.filter (fun c => matches d c selector) (descendants (size d) d root).
Definition findOne d (selector : string) (root : nat) : option nat := hd_error (find d selector root).
Definition children d e (selector : string) : list nat :=
  match d !! e with
  | Some n => List.filter (fun c => matches d c selector) (n_children n)
  | None => []
  end.
(** The document has no [closest]: asking beyond the root element throws. *)
Fixpoint parentsFrom (fuel : nat) d e (selector : string) : res (list nat) :=
  match fuel with
  | O => Err OutOfFuel
  | S fuel =>
      match (d !! e) ≫= n_parent with
      | None => Err (TypeError "closest")
      | Some p =>
          match closest d p selector with
          | None => Ok []
          | Some ancestor => r ← parentsFrom fuel d ancestor selector; Ok (ancestor :: r)
          end
      end
  end.
Definition parents d e (selector : string) : res (list nat) := parentsFrom (size d) d e selector.

(** The siblings before an element, nearest first, and those after it. *)
Definition siblings d e : list nat * list nat :=
  match d !! e with
  | Some n =>
      match n_parent n with
      | Some p =>
          match d !! p with
          | Some m =>
              match indexOf e (n_children m) with
              | Some i => (rev (take i (n_children m)), drop (S i) (n_children m))
              | None => ([], [])
              end
          | None => ([], [])
          end
      | None => ([], [])
      end
  | None => ([], [])
  end.
Definition prev d e (selector : string) : list nat :=
  match List.find (fun s => matches d s selector) (fst (siblings d e)) with Some s => [s] | None => [] end.
Definition next d e (selector : string) : list nat :=
  match List.find (fun s => matches d s selector) (snd (siblings d e)) with Some s => [s] | None => [] end.

(** ** Disabled and visible elements *)

Definition isDisabled d (oe : option nat) : bool :=
  match oe with
  | None => true
  | Some e =>
      if hasClass d e "disabled" then true
      else
        match d !! e with
        | Some n =>
            match n_disabled n with
            | Some b => b
            | None => match oget "disabled" (n_attrs n) with
                      | Some v => negb (str_eqb v "false")
                      | None => false
                      end
            end
        | None => true
        end
  end.

Definition isVisible d (oe : option nat) : bool :=
  match oe with
  | None => false
  | Some e =>
      if (rectCount d e =? 0) then false
      else
        let elementIsVisible := str_eqb (visibilityOf d e) "visible" in
        match closest d e "details:not([open])" with
        | None => elementIsVisible
        | Some closedDetails =>
            if negb (closedDetails =? e) then
              match closest d e "summary" with
              | None => false
              | Some summary =>
                  if bool_decide ((d !! summary) ≫= n_parent <> Some closedDetails) then false
                  else elementIsVisible
              end
            else elementIsVisible
        end
  end.

Definition focusables : string :=
  str_join "," (map (fun s => s +:+ ":not([tabindex^=" +:+ quoted "-" +:+ "])")
    ["a"; "button"; "input"; "textarea"; "select"; "details"; "[tabindex]";
     "[contenteditable=" +:+ quoted "true" +:+ "]"]).

(** ** getSelector *)

(** The characters that end an id in [parseSelector]. *)
Definition endsId (a : ascii) : bool :=
  is_space a || Ascii.eqb a "034" || Ascii.eqb a "#" || Ascii.eqb a "'".

(** Splits off the longest prefix without such a character. *)
Fixpoint spanId (s : string) : string * string :=
  match s with
  | EmptyString => (EmptyString, EmptyString)
  | String a s' => if endsId a then (EmptyString, s)
                   else let '(x, y) := spanId s' in (String a x, y)
  end.

(** The global replacement of every hash sign with a non-empty id behind it; each step
    consumes a character. *)
Fixpoint escapeIds (fuel : nat) (escape : string -> string) (s : string) : string :=
  match fuel with
  | O => s
  | S fuel =>
      match s with
      | EmptyString => EmptyString
      | String a s' =>
          if Ascii.eqb a "#" then
            let '(x, y) := spanId s' in
            if str_truthy x then "#" +:+ escape x +:+ escapeIds fuel escape y
            else String a (escapeIds fuel escape s')
          else String a (escapeIds fuel escape s')
      end
  end.

Definition parseSelector (selector : string) : string :=
  match cssEscape with
  | Some escape => escapeIds (S (String.length selector)) escape selector
  | None => selector
  end.

Definition getSelector d e : option string :=
  let target := default "" (getAttribute d e "data-bs-target") in
  let selector :=
    if negb (str_truthy target) || str_eqb target "#" then
      match getAttribute d e "href" with
      | None => None
      | Some href =>
          if negb (str_truthy href) || (negb (str_includes href "#") && negb (startsWith href ".")) then None
          else
            let href := if str_includes href "#" && negb (startsWith href "#")
                        then "#" +:+ default "" (split_char "#" href !! 1) else href in
            if str_truthy href && negb (str_eqb href "#") then Some (str_trim href) else None
      end
    else Some target in
  match selector with
  | Some s => if str_truthy s then Some (str_join "," (map parseSelector (split_char "," s))) else None
  | None => None
  end.

Variable root : nat.                  (** [document.documentElement] *)

Definition getSelectorFromElement d e : option string :=
  match getSelector d e with
  | Some s => match findOne d s root with Some _ => Some s | None => None end
  | None => None
  end.
Definition getElementFromSelector d e : option nat :=
  match getSelector d e with Some s => findOne d s root | None => None end.
Definition getMultipleElementsFromSelector d e : list nat :=
  match getSelector d e with Some s => find d s root | None => [] end.

Definition focusableChildren d e : list nat :=
  List.filter (fun el => negb (isDisabled d (Some el)) && isVisible d (Some el)) (find d focusables e).
End selectors.

(** ** Classes and attributes after a change *)

Lemma in_addClass c x n : in_strs x (n_classes (addClass c n)) = str_eqb x c || in_strs x (n_classes n).
Proof.
  unfold addClass. destruct (in_strs c (n_classes n)) eqn:E.
  - destruct (String.eqb_spec x c) as [->|]; [by rewrite E|done].
  - cbn [n_classes set_classes]. unfold in_strs. rewrite existsb_app. cbn. rewrite orb_false_r. apply orb_comm.
Qed.

Lemma in_removeClass c x n : in_strs x (n_classes (removeClass c n)) = negb (str_eqb x c) && in_strs x (n_classes n).
Proof.
  cbn [n_classes removeClass set_classes]. unfold in_strs. induction (n_classes n) as [|y l IH]; cbn.
  - by rewrite andb_false_r.
  - destruct (String.eqb_spec y c) as [->|Hy]; cbn; rewrite IH.
    + destruct (String.eqb_spec x c); cbn; [done|]. done.
    + destruct (String.eqb_spec x y) as [->|]; cbn; [|done].
      destruct (String.eqb_spec y c); [done|]. done.
Qed.

Lemma in_addClasses cs x n :
  in_strs x (n_classes (fold_left (fun n c => addClass c n) cs n)) = in_strs x cs || in_strs x (n_classes n).
Proof.
  revert n. induction cs as [|c cs IH]; intros n; cbn [fold_left]; [done|].
  rewrite IH, in_addClass. unfold in_strs at 3. cbn. fold (in_strs x cs).
  destruct (str_eqb x c), (in_strs x cs), (in_strs x (n_classes n)); done.
Qed.

Lemma in_removeClasses cs x n :
  in_strs x (n_classes (fold_left (fun n c => removeClass c n) cs n)) = negb (in_strs x cs) && in_strs x (n_classes n).
Proof.
  revert n. induction cs as [|c cs IH]; intros n; cbn [fold_left]; [done|].
  rewrite IH, in_removeClass. unfold in_strs at 3. cbn. fold (in_strs x cs).
  destruct (str_eqb x c), (in_strs x cs), (in_strs x (n_classes n)); done.
Qed.

Lemma hasClass_alter d e f e' x :
  hasClass (alter f e d) e' x =
    match d !! e' with
    | Some n => in_strs x (n_classes (if bool_decide (e' = e) then f n else n))
    | None => false
    end.
Proof.
  unfold hasClass. destruct (decide (e' = e)) as [->|Hne].
  - rewrite lookup_alter_eq, bool_decide_true by done. by destruct (d !! e).
  - rewrite lookup_alter_ne, bool_decide_false by done. by destruct (d !! e').
Qed.

Lemma hasClass_add d e cs e' x :
  hasClass (classList_add e cs d) e' x =
    hasClass d e' x || (bool_decide (e' = e) && bool_decide (is_Some (d !! e)) && in_strs x cs).
Proof.
  unfold classList_add. rewrite hasClass_alter. unfold hasClass. destruct (decide (e' = e)) as [->|Hne].
  - rewrite (bool_decide_true (e = e)) by done. destruct (d !! e) as [n|]; [|done].
    rewrite bool_decide_true by eauto. rewrite in_addClasses. cbn. apply orb_comm.
  - rewrite (bool_decide_false (e' = e)) by done. cbn. by destruct (d !! e'); rewrite ?orb_false_r.
Qed.

Lemma hasClass_remove d e cs e' x :
  hasClass (classList_remove e cs d) e' x = hasClass d e' x && negb (bool_decide (e' = e) && in_strs x cs).
Proof.
  unfold classList_remove. rewrite hasClass_alter. unfold hasClass. destruct (decide (e' = e)) as [->|Hne].
  - rewrite (bool_decide_true (e = e)) by done. destruct (d !! e) as [n|]; [|done].
    rewrite in_removeClasses. cbn. apply andb_comm.
  - rewrite (bool_decide_false (e' = e)) by done. cbn. by destruct (d !! e'); rewrite ?andb_true_r.
Qed.

Lemma hasClass_setAttribute e k v d e' x : hasClass (setAttribute e k v d) e' x = hasClass d e' x.
Proof. unfold setAttribute. rewrite hasClass_alter. unfold hasClass. destruct (d !! e'); [|done]. by destruct (bool_decide _). Qed.

Lemma hasClass_removeAttribute e k d e' x : hasClass (removeAttribute e k d) e' x = hasClass d e' x.
Proof. unfold removeAttribute. rewrite hasClass_alter. unfold hasClass. destruct (d !! e'); [|done]. by destruct (bool_decide _). Qed.

Lemma hasClass_setStyle e k v d e' x : hasClass (setStyle e k v d) e' x = hasClass d e' x.
Proof. unfold setStyle. rewrite hasClass_alter. unfold hasClass. destruct (d !! e'); [|done]. by destruct (bool_decide _). Qed.

Lemma alter_is_Some (f : node -> node) e (d : gmap nat node) e' : is_Some (alter f e d !! e') <-> is_Some (d !! e').
Proof.
  destruct (decide (e = e')) as [->|Hne].
  - rewrite lookup_alter_eq. apply fmap_is_Some.
  - by rewrite lookup_alter_ne.
Qed.

#[export] Hint Rewrite hasClass_add hasClass_remove hasClass_setAttribute hasClass_removeAttribute
  hasClass_setStyle : js.

(** ** The tree under changes of single elements *)

(** [d'] has the same tree as [d]. *)
Definition sameTree (d d' : gmap nat node) : Prop :=
  size d' = size d /\ forall x, option_map n_children (d' !! x) = option_map n_children (d !! x).

#[export] Instance sameTree_preorder : PreOrder sameTree.
Proof. split; [done|]. intros a b c [S1 H1] [S2 H2]. split; [congruence|]. intros x. by rewrite H2. Qed.

Lemma sameTree_alter f e d : (forall n, n_children (f n) = n_children n) -> sameTree d (alter f e d).
Proof.
  intros Hf. split.
  - rewrite <- !size_dom. by rewrite dom_alter_L.
  - intros x. destruct (decide (e = x)) as [->|Hne].
    + rewrite lookup_alter_eq. destruct (d !! x); cbn; [by rewrite Hf|done].
    + by rewrite lookup_alter_ne.
Qed.

Lemma sameTree_classes e cs d : sameTree d (classList_add e cs d) /\ sameTree d (classList_remove e cs d).
Proof.
  split; apply sameTree_alter; induction cs as [|c cs IH]; intros n; cbn [fold_left]; try done; rewrite IH; [|done].
  unfold addClass. by destruct (in_strs c (n_classes n)).
Qed.

Lemma getAttribute_alter d t f e k :
  getAttribute (alter f t d) e k =
    match d !! e with Some n => oget k (n_attrs (if bool_decide (e = t) then f n else n)) | None => None end.
Proof.
  unfold getAttribute. destruct (decide (e = t)) as [->|Hne].
  - rewrite lookup_alter_eq, bool_decide_true by done. by destruct (d !! t).
  - rewrite lookup_alter_ne, bool_decide_false by done. by destruct (d !! e).
Qed.

Lemma getAttribute_classes d t (cs : list string) e k :
  getAttribute (classList_add t cs d) e k = getAttribute d e k /\
  getAttribute (classList_remove t cs d) e k = getAttribute d e k.
Proof.
  assert (Ha : forall n, n_attrs (fold_left (fun n c => addClass c n) cs n) = n_attrs n).
  { induction cs as [|c cs IH]; intros n; cbn [fold_left]; [done|]. rewrite IH. unfold addClass.
    by destruct (in_strs c (n_classes n)). }
  assert (Hr : forall n, n_attrs (fold_left (fun n c => removeClass c n) cs n) = n_attrs n).
  { clear Ha. induction cs as [|c cs IH]; intros n; cbn [fold_left]; [done|]. by rewrite IH. }
  unfold classList_add, classList_remove. rewrite !getAttribute_alter. unfold getAttribute.
  destruct (d !! e) as [n|]; [|done]. destruct (bool_decide (e = t)); by rewrite ?Ha, ?Hr.
Qed.

Lemma getAttribute_setStyle d t k' v e k : getAttribute (setStyle t k' v d) e k = getAttribute d e k.
Proof.
  unfold setStyle. rewrite getAttribute_alter. unfold getAttribute. destruct (d !! e); [|done].
  by destruct (bool_decide _).
Qed.

Lemma getAttribute_set d e k v e' k' :
  getAttribute (setAttribute e k v d) e' k' =
    if bool_decide (e' = e) && str_eqb k' k && bool_decide (is_Some (d !! e)) then Some v else getAttribute d e' k'.
Proof.
  unfold setAttribute. rewrite getAttribute_alter. unfold getAttribute. destruct (bool_decide_reflect (e' = e)) as [->|]; cbn; [|by destruct (d !! e')].
  destruct (d !! e) as [n|]; cbn; [|by rewrite andb_false_r].
  rewrite andb_true_r, oget_oset. by destruct (str_eqb k' k).
Qed.

Lemma getAttribute_remove d e k e' k' :
  getAttribute (removeAttribute e k d) e' k' = if bool_decide (e' = e) && str_eqb k' k then None else getAttribute d e' k'.
Proof.
  unfold removeAttribute. rewrite getAttribute_alter. unfold getAttribute. destruct (bool_decide_reflect (e' = e)) as [->|]; cbn; [|by destruct (d !! e')].
  destruct (d !! e) as [n|]; cbn; [|by destruct (str_eqb k' k)]. rewrite oget_odelete. by destruct (str_eqb k' k).
Qed.

Lemma sameTree_attribute e k v d : sameTree d (setAttribute e k v d) /\ sameTree d (removeAttribute e k d).
Proof. split; by apply sameTree_alter. Qed.

(** [d'] is [d] with other classes [cs] and other attributes [ats] here and there. *)
Record changes (cs ats : list string) (d d' : gmap nat node) : Prop := {
  ch_tree : sameTree d d';
  ch_parent x : option_map n_parent (d' !! x) = option_map n_parent (d !! x);
  ch_tag x : option_map n_tag (d' !! x) = option_map n_tag (d !! x);
  ch_class x k : in_strs k cs = false -> hasClass d' x k = hasClass d x k;
  ch_attr x k : in_strs k ats = false -> getAttribute d' x k = getAttribute d x k
}.

#[export] Instance changes_preorder cs ats : PreOrder (changes cs ats).
Proof.
  split; [by split|]. intros a b c [T1 P1 G1 C1 A1] [T2 P2 G2 C2 A2]. split; [by transitivity b| | | |].
  - intros x. by rewrite P2.
  - intros x. by rewrite G2.
  - intros x k Hk. by rewrite C2, C1.
  - intros x k Hk. by rewrite A2, A1.
Qed.

Lemma field_alter {A} (g : node -> A) (f : node -> node) e (d : gmap nat node) x : (forall n, g (f n) = g n) ->
  option_map g (alter f e d !! x) = option_map g (d !! x).
Proof.
  intros Hf. destruct (decide (x = e)) as [->|Hne].
  - rewrite lookup_alter_eq. destruct (d !! e); cbn; by rewrite ?Hf.
  - by rewrite lookup_alter_ne by done.
Qed.

Lemma changes_classes cs ats e k d : in_strs k cs = true ->
  changes cs ats d (classList_add e [k] d) /\ changes cs ats d (classList_remove e [k] d).
Proof.
  intros Hk. assert (Hne : forall q, in_strs q cs = false -> str_eqb q k = false).
  { intros q Hq. apply String.eqb_neq. intros ->. congruence. }
  split; split.
  - apply (proj1 (sameTree_classes e [k] d)).
  - intros x. apply (field_alter n_parent). intros n. cbn [fold_left]. unfold addClass. by destruct (in_strs k (n_classes n)).
  - intros x. apply (field_alter n_tag). intros n. cbn [fold_left]. unfold addClass. by destruct (in_strs k (n_classes n)).
  - intros x q Hq. rewrite hasClass_add. unfold in_strs at 1. cbn. by rewrite (Hne q Hq), andb_false_r, orb_false_r.
  - intros. apply getAttribute_classes.
  - apply (proj2 (sameTree_classes e [k] d)).
  - intros x. by apply (field_alter n_parent).
  - intros x. by apply (field_alter n_tag).
  - intros x q Hq. rewrite hasClass_remove. unfold in_strs at 1. cbn. by rewrite (Hne q Hq), andb_false_r, andb_true_r.
  - intros. apply getAttribute_classes.
Qed.

Lemma changes_attribute cs ats e k v d : in_strs k ats = true ->
  changes cs ats d (setAttribute e k v d) /\ changes cs ats d (removeAttribute e k d).
Proof.
  intros Hk. assert (Hne : forall q, in_strs q ats = false -> str_eqb q k = false).
  { intros q Hq. apply String.eqb_neq. intros ->. congruence. }
  split; (split; [apply (sameTree_attribute e k v d)|intros x; by apply (field_alter n_parent)|intros x; by apply (field_alter n_tag)| |]); intros x q Hq.
  - apply hasClass_setAttribute.
  - by rewrite getAttribute_set, (Hne q Hq), andb_false_r.
  - apply hasClass_removeAttribute.
  - by rewrite getAttribute_remove, (Hne q Hq), andb_false_r.
Qed.

Lemma changes_some cs ats d d' e : changes cs ats d d' -> is_Some (d' !! e) <-> is_Some (d !! e).
Proof.
  intros S. pose proof (ch_parent _ _ _ _ S e) as H. destruct (d' !! e), (d !! e); cbn in H; try discriminate H; split; eauto; by intros [? ?].
Qed.

Lemma ancestors_changes cs ats fuel d d' e : changes cs ats d d' -> ancestors fuel d' e = ancestors fuel d e.
Proof.
  intros S. revert e. induction fuel as [|fuel IH]; intros e; cbn [ancestors]; [done|]. f_equal.
  pose proof (ch_parent _ _ _ _ S e) as H. destruct (d' !! e) as [n'|], (d !! e) as [n|]; cbn in H; try discriminate H; [|done].
  injection H as ->. by destruct (n_parent n).
Qed.

Lemma descendants_same fuel d d' e : sameTree d d' -> descendants fuel d' e = descendants fuel d e.
Proof.
  intros [_ H]. revert e. induction fuel as [|fuel IH]; intros e; cbn [descendants]; [done|].
  specialize (H e). destruct (d' !! e) as [n'|], (d !! e) as [n|]; cbn in H; try discriminate H; [|done].
  injection H as ->. induction (n_children n) as [|c l IHl]; cbn; [done|]. by rewrite IH, IHl.
Qed.

Lemma find_same `{B : Browser} d d' sel root :
  sameTree d d' -> (forall x, matches d' x sel = matches d x sel) -> find d' sel root = find d sel root.
Proof.
  intros HT Hm. unfold find. rewrite (descendants_same _ d d') by done. rewrite (proj1 HT).
  induction (descendants (size d) d root) as [|x l IH]; cbn; [done|]. by rewrite Hm, IH.
Qed.

Lemma siblings_changes cs ats d d' e : changes cs ats d d' -> siblings d' e = siblings d e.
Proof.
  intros S. unfold siblings. pose proof (ch_parent _ _ _ _ S e) as H.
  destruct (d' !! e) as [n'|], (d !! e) as [n|]; cbn in H; try discriminate H; [|done]. injection H as ->.
  destruct (n_parent n) as [p|]; [|done]. pose proof (proj2 (ch_tree _ _ _ _ S) p) as H.
  destruct (d' !! p) as [m'|], (d !! p) as [m|]; cbn in H; try discriminate H; [|done]. by injection H as ->.
Qed.

(** ** Fragments of links *)

Fixpoint has_char (c : ascii) (s : string) : bool :=
  match s with EmptyString => false | String a s => Ascii.eqb a c || has_char c s end.

Lemma split_char_none c s : has_char c s = false -> split_char c s = [s].
Proof.
  induction s as [|a s IH]; cbn; [done|]. intros [Ha Hs]%orb_false_iff. by rewrite Ha, IH.
Qed.

Lemma split_char_app c a b : has_char c a = false -> split_char c (a +:+ String c b) = a :: split_char c b.
Proof.
  induction a as [|x a IH]; intros Ha.
  - rewrite str_app_nil. cbn. by rewrite Ascii.eqb_refl.
  - cbn in Ha. apply orb_false_iff in Ha as [Hx Ha]. rewrite str_app_cons. cbn. by rewrite Hx, IH.
Qed.

Lemma startsWith_nil s : startsWith s "" = true.
Proof. by destruct s. Qed.

Lemma includes_app c a b : str_includes (a +:+ String c b) (String c "") = true.
Proof.
  induction a as [|x a IH].
  - rewrite str_app_nil. cbn. unfold startsWith. cbn. destruct (ascii_dec c c) as [_|]; [|done].
    by destruct b.
  - rewrite str_app_cons. cbn [str_includes]. rewrite IH. by rewrite orb_true_r.
Qed.

Lemma trimEnd_id s : (forall c, In c (String.list_ascii_of_string s) -> is_space c = false) -> str_trimEnd s = s.
Proof.
  induction s as [|a s IH]; [done|]. intros H. cbn [str_trimEnd]. rewrite IH by (intros; apply H; by right).
  destruct s; [|done]. by rewrite (H a) by (by left).
Qed.

(** A link to a fragment of any address points at the element with that id: the
    address before the hash sign does not matter. *)
Theorem link_fragment_selector `{B : Browser} (d : gmap nat node) (e : nat) (address frag : string) :
  cssEscape = None -> getAttribute d e "data-bs-target" = None ->
  getAttribute d e "href" = Some (address +:+ String "#" frag) ->
  str_truthy address = true -> str_truthy frag = true -> has_char "#" address = false -> has_char "#" frag = false ->
  has_char "," frag = false -> (forall c, In c (String.list_ascii_of_string frag) -> is_space c = false) ->
  getSelector d e = Some (String "#" frag).
Proof.
  intros Hesc Ht Hh Hne Hid Ha Hi Hcomma Hsp. unfold getSelector. rewrite Ht, Hh. cbn [default from_option str_truthy negb orb].
  rewrite includes_app. cbn [negb andb].
  assert (Ht1 : str_truthy (address +:+ String "#" frag) = true) by (destruct address; [done|by rewrite str_app_cons]).
  rewrite Ht1. cbn [negb orb andb].
  assert (Hs : startsWith (address +:+ String "#" frag) "#" = false).
  { destruct address as [|x address]; [done|]. rewrite str_app_cons. unfold startsWith. cbn [String.prefix].
    destruct (ascii_dec "#" x) as [<-|]; [|done]. cbn in Ha. done. }
  rewrite Hs. cbn [negb andb]. rewrite split_char_app, split_char_none by done. cbn [lookup list_lookup default from_option id].
  change (negb (str_truthy "") || str_eqb "" "#") with true. cbv beta iota.
  change ("#" +:+ frag) with (String "#" frag). change (str_truthy (String "#" frag)) with true. cbn [andb].
  assert (Hn : str_eqb (String "#" frag) "#" = false) by (destruct frag; done). rewrite Hn. cbn [negb].
  assert (Htr : str_trim (String "#" frag) = String "#" frag).
  { unfold str_trim. cbn [str_trimStart]. change (is_space "#") with false. apply trimEnd_id.
    intros c [<-|Hc]; [done|by apply Hsp]. }
  rewrite Htr. change (str_truthy (String "#" frag)) with true. cbn iota.
  rewrite split_char_none by done. cbn [map str_join]. unfold parseSelector. by rewrite Hesc.
Qed.

Lemma link_fragment_selector_witness :
  exists (B : Browser) (d : gmap nat node),
    getSelector d 1 = Some "#features" /\ getAttribute d 1 "href" = Some "https://example.org/page#features".
Proof.
  exists (Build_Browser (fun _ _ _ => false) (fun _ _ => 1) (fun _ _ => "visible") None).
  exists {[1 := Node "A" [] [("href", "https://example.org/page#features")] [] None [] None]}.
  split; [|reflexivity].
  apply (@link_fragment_selector (Build_Browser (fun _ _ _ => false) (fun _ _ => 1) (fun _ _ => "visible") None)
    {[1 := Node "A" [] [("href", "https://example.org/page#features")] [] None [] None]} 1
    "https://example.org/page" "features"); try reflexivity.
  intros c Hc. cbn in Hc. repeat (destruct Hc as [<-|Hc]; [reflexivity|]). destruct Hc.
Defined.
