(* ===== verification/BsConfig.v ===== *)
(** Options of Bootstrap components: [Manipulator] reads them from data attributes,
    [Config] merges them with the defaults and checks their types. *)
From Stdlib Require Import Ascii QArith Lia.
From stdpp Require Import pretty.
From S2P Require Import Prelude BsCore BsDom.

Local Open Scope nat_scope.

(** JavaScript values an option can have. *)
#[local] Set Warnings "-register-all".
Inductive value :=
  | VUndefined | VNull
  | VBool (b : bool)
  | VNum (q : Q)
  | VNaN
  | VStr (s : string)
  | VObj (o : list (string * value))
  | VArr (l : list value)
  | VElement (e : nat)
  | VFunction (id : nat).

(** JavaScript's truthiness. *)
Definition value_truthy (v : value) : bool :=
  match v with
  | VUndefined | VNull | VNaN => false
  | VBool b => b
  | VNum q => negb (Qeq_bool q 0)
  | VStr s => str_truthy s
  | VObj _ | VArr _ | VElement _ | VFunction _ => true
  end.

(** ** Manipulator *)

(** Every character of a string satisfies [p]. *)
Fixpoint str_all (p : ascii -> bool) (s : string) : bool :=
  match s with EmptyString => true | String a s => p a && str_all p s end.

Fixpoint last_char (s : string) : option ascii :=
  match s with
  | EmptyString => None
  | String a EmptyString => Some a
  | String _ s => last_char s
  end.

(** The digits before and after the point, when the text is how a number prints. *)
Definition printedParts (s : string) : bool :=
  let whole := match split_char "." s with w :: _ => w | [] => "" end in
  let wholeOk := str_truthy whole && str_all is_digit whole &&
                 (str_eqb whole "0" || negb (startsWith whole "0")) in
  match split_char "." s with
  | [_] => wholeOk
  | [_; frac] =>
      wholeOk && str_truthy frac && str_all is_digit frac &&
      negb (bool_decide (last_char frac = Some "0"%char)) &&
      negb (str_eqb whole "0" && startsWith frac "000000")
  | _ => false
  end.

(** [Number(value)] when [value === Number(value).toString()], for numbers of up to
    fifteen digits. *)
Definition canonicalNumber (s : string) : option value :=
  if str_eqb s "NaN" then Some VNaN
  else
    let body := if startsWith s "-" then str_skip 1 s else s in
    if printedParts body && negb (str_eqb s "-0") && (String.length body <=? 16)
    then match parseFloat s with Some q => Some (VNum (Qred q)) | None => None end
    else None.

Section manipulator.
(** [JSON.parse(decodeURIComponent(_))]; [None] when it throws. *)
Variable parseJson : string -> option value.

Definition normalizeData (v : option string) : value :=
  match v with
  | None => VNull
  | Some s =>
      if str_eqb s "true" then VBool true
      else if str_eqb s "false" then VBool false
      else match canonicalNumber s with
           | Some n => n
           | None =>
               if str_eqb s "" || str_eqb s "null" then VNull
               else default (VStr s) (parseJson s)
           end
  end.

(** [replace] of every capital by a dash and the small letter. *)
Fixpoint normalizeDataKey (key : string) : string :=
  match key with
  | EmptyString => EmptyString
  | String a key => if is_upper a then String "-" (String (ascii_lower a) (normalizeDataKey key))
                    else String a (normalizeDataKey key)
  end.

Definition dataAttribute (key : string) : string := "data-bs-" +:+ normalizeDataKey key.

Definition setDataAttribute (e : nat) (key v : string) (d : page) : page := setAttribute e (dataAttribute key) v d.
Definition removeDataAttribute (e : nat) (key : string) (d : page) : page := removeAttribute e (dataAttribute key) d.

(** The name of an attribute in [element.dataset]: without "data-", a dash and the small
    letter after it become a capital. *)
Fixpoint camelCase (s : string) : string :=
  match s with
  | String a (String b s' as t) =>
      if Ascii.eqb a "-" && is_lower b then String (ascii_upper b) (camelCase s') else String a (camelCase t)
  | _ => s
  end.

Definition dataset (d : page) (e : nat) : obj string :=
  match d !! e with
  | Some n => map (fun '(k, v) => (camelCase (str_skip 5 k), v))
                (List.filter (fun '(k, _) => startsWith k "data-") (n_attrs n))
  | None => []
  end.

Definition pureKey (key : string) : string :=
  match str_skip 2 key with
  | EmptyString => EmptyString
  | String a s => String (ascii_lower a) s
  end.

Definition getDataAttributes (d : page) (oe : option nat) : obj value :=
  match oe with
  | None => []
  | Some e =>
      fold_left (fun attributes '(key, v) =>
        if startsWith key "bs" && negb (startsWith key "bsConfig")
        then oset (pureKey key) (normalizeData (Some v)) attributes else attributes)
        (dataset d e) []
  end.

Definition getDataAttribute (d : page) (e : nat) (key : string) : value :=
  normalizeData (getAttribute d e (dataAttribute key)).

(** ** Config *)

Definition toType (v : value) : string :=
  match v with
  | VUndefined => "undefined" | VNull => "null" | VBool _ => "boolean" | VNum _ | VNaN => "number"
  | VStr _ => "string" | VObj _ => "object" | VArr _ => "array" | VElement _ => "element"
  | VFunction _ => "function"
  end.

(** The regular expressions of [DefaultType]: alternatives in parentheses, or one word. *)
Definition alternatives (expectedTypes : string) : list string :=
  let s := if startsWith expectedTypes "(" then str_skip 1 expectedTypes else expectedTypes in
  map (fun w => match split_char ")" w with x :: _ => x | [] => w end) (split_char "|" s).

Definition typeTest (expectedTypes valueType : string) : bool :=
  existsb (fun w => str_includes valueType w) (alternatives expectedTypes).

(** The properties a spread copies. *)
Definition asObject (v : value) : obj value :=
  match v with
  | VObj o => o
  | VArr l => imap (fun i x => (pretty i, x)) l
  | _ => []
  end.

(** [{...Default, ...jsonConfig, ...data attributes, ...config}]; [element] is [None] for a
    configuration without an element. *)
Definition mergeConfigObj (Default : obj value) (config : value) (d : page) (element : option nat) : obj value :=
  let jsonConfig := match element with Some e => getDataAttribute d e "config" | None => VObj [] end in
  oassign (oassign (oassign Default (asObject jsonConfig)) (getDataAttributes d element)) (asObject config).

Definition typeCheckConfig (NAME : string) (config : obj value) (configTypes : obj string) : res unit :=
  foldM (fun _ '(property, expectedTypes) =>
    let valueType := toType (default VUndefined (oget property config)) in
    if typeTest expectedTypes valueType then Ok tt
    else Err (TypeError (toUpperCase NAME +:+ ": Option " +:+ quoted property +:+ " provided type " +:+
                quoted valueType +:+ " but expected type " +:+ quoted expectedTypes +:+ ".")))
    configTypes tt.

(** [_getConfig]; [configAfterMerge] is the component's hook. *)
Definition getConfig (NAME : string) (Default : obj value) (DefaultType : obj string)
    (configAfterMerge : obj value -> obj value) (config : value) (d : page) (element : option nat)
    : res (obj value) :=
  let config := configAfterMerge (mergeConfigObj Default config d element) in
  _ ← typeCheckConfig NAME config DefaultType;
  Ok config.
End manipulator.

(** [getElement]: an element, or what a selector finds first on the page. *)
Definition getElement `{B : Browser} (root : nat) (d : page) (v : value) : option nat :=
  match v with
  | VElement e => Some e
  | VStr s => if str_truthy s then findOne d (parseSelector s) root else None
  | _ => None
  end.

(** [Number.parseInt] and [Number.parseFloat] as the options use them. *)
Definition parseIntValue (s : string) : value :=
  match parseInt s with Some z => VNum (inject_Z z) | None => VNaN end.
Definition parseFloatValue (s : string) : value :=
  match parseFloat s with Some q => VNum (Qred q) | None => VNaN end.

(** ** Keys of data attributes *)

(** A key as the components use them: letters and digits, a small letter first. *)
Definition keyChar (a : ascii) : bool := is_lower a || is_upper a || is_digit a.
Definition optionKey (key : string) : bool :=
  match key with String a _ => is_lower a && str_all keyChar key | EmptyString => false end.

Lemma upper_lower_upper a : is_upper a = true -> ascii_upper (ascii_lower a) = a /\ is_lower (ascii_lower a) = true.
Proof. destruct a as [[] [] [] [] [] [] [] []]; vm_compute; intros H; try discriminate H; split; reflexivity. Qed.

Lemma keyChar_not_dash a : keyChar a = true -> Ascii.eqb a "-" = false.
Proof. destruct a as [[] [] [] [] [] [] [] []]; vm_compute; intros H; try discriminate H; reflexivity. Qed.

Lemma lower_not_upper a : is_lower a = true -> is_upper a = false /\ ascii_lower a = a.
Proof. destruct a as [[] [] [] [] [] [] [] []]; vm_compute; intros H; try discriminate H; split; reflexivity. Qed.

Lemma lower_upper_lower a : is_lower a = true -> ascii_lower (ascii_upper a) = a.
Proof. destruct a as [[] [] [] [] [] [] [] []]; vm_compute; intros H; try discriminate H; reflexivity. Qed.

Lemma camelCase_cons a s : Ascii.eqb a "-" = false -> camelCase (String a s) = String a (camelCase s).
Proof. intros Ha. destruct s; [done|]. cbn [camelCase]. by rewrite Ha. Qed.

Lemma camelCase_normalize key : str_all keyChar key = true -> camelCase (normalizeDataKey key) = key.
Proof.
  induction key as [|a key IH]; [done|]. cbn [str_all]. intros [Ha Hk]%andb_true_iff.
  cbn [normalizeDataKey]. destruct (is_upper a) eqn:Hu.
  - destruct (upper_lower_upper a Hu) as [E1 E2]. cbn [camelCase]. rewrite E2, E1. cbn. by rewrite IH.
  - rewrite camelCase_cons by (by apply keyChar_not_dash). by rewrite IH.
Qed.

(** The name of the attribute of an option among the data of the element. *)
Lemma dataset_key key :
  optionKey key = true ->
  pureKey (camelCase (str_skip 5 (dataAttribute key))) = key /\
  startsWith (camelCase (str_skip 5 (dataAttribute key))) "bs" = true.
Proof.
  intros Hk. unfold dataAttribute. change (str_skip 5 ("data-bs-" +:+ normalizeDataKey key)) with
    (String "b" (String "s" (String "-" (normalizeDataKey key)))).
  rewrite !camelCase_cons by done. destruct key as [|a key]; [done|].
  cbn in Hk. apply andb_true_iff in Hk as [Ha Hk]. apply andb_true_iff in Hk as [Hka Hk].
  destruct (lower_not_upper a Ha) as [Hu _]. cbn [normalizeDataKey]. rewrite Hu.
  cbn [camelCase]. rewrite Ha. cbn [Ascii.eqb Bool.eqb andb].
  split.
  - unfold pureKey. cbn [str_skip]. rewrite lower_upper_lower by done. f_equal. by apply camelCase_normalize.
  - reflexivity.
Qed.

Section attributes.
Variable parseJson : string -> option value.

Definition dataStep (attributes : obj value) (kv : string * string) : obj value :=
  let '(k, v) := kv in
  if startsWith k "bs" && negb (startsWith k "bsConfig")
  then oset (pureKey k) (normalizeData parseJson (Some v)) attributes else attributes.

Lemma dataStep_other (l : obj string) acc key :
  (forall k v, In (k, v) l -> pureKey k <> key) -> oget key (fold_left dataStep l acc) = oget key acc.
Proof.
  revert acc. induction l as [|[k v] l IH]; intros acc H; cbn [fold_left]; [done|].
  rewrite IH by (intros k' v' Hin; apply (H k' v'); by right). cbn. destruct (_ && _); [|done].
  apply oget_oset_ne. intros E. apply (H k v); [by left|done].
Qed.

Lemma dataStep_hit (l1 l2 : obj string) acc k v :
  startsWith k "bs" = true -> startsWith k "bsConfig" = false ->
  (forall k' v', In (k', v') l2 -> pureKey k' <> pureKey k) ->
  oget (pureKey k) (fold_left dataStep (l1 ++ (k, v) :: l2) acc) = Some (normalizeData parseJson (Some v)).
Proof.
  intros Hb Hc H. rewrite fold_left_app. cbn [fold_left]. rewrite dataStep_other by done.
  cbn. rewrite Hb, Hc. apply oget_oset_eq.
Qed.

Lemma dataset_app d e n l1 l2 :
  d !! e = Some n -> n_attrs n = l1 ++ l2 ->
  exists m1 m2, dataset d e = m1 ++ m2 /\
    m2 = map (fun '(k, v) => (camelCase (str_skip 5 k), v)) (List.filter (fun '(k, _) => startsWith k "data-") l2).
Proof.
  intros Hd Hn. unfold dataset. rewrite Hd, Hn, List.filter_app, map_app. by eexists _, _.
Qed.

(** The option of an element's data attribute. *)
Lemma getDataAttributes_at d e n key v :
  d !! e = Some n -> List.NoDup (okeys (n_attrs n)) -> oget (dataAttribute key) (n_attrs n) = Some v ->
  optionKey key = true -> startsWith (camelCase (str_skip 5 (dataAttribute key))) "bsConfig" = false ->
  (forall k, In k (okeys (n_attrs n)) -> k <> dataAttribute key -> pureKey (camelCase (str_skip 5 k)) <> key) ->
  oget key (getDataAttributes parseJson d (Some e)) = Some (normalizeData parseJson (Some v)).
Proof.
  intros Hd Hnd Hv Hkey Hconf Hother. unfold getDataAttributes. fold dataStep.
  assert (Hin : In (dataAttribute key, v) (n_attrs n)).
  { clear -Hv. induction (n_attrs n) as [|[k w] l IH]; [done|]. cbn in Hv.
    destruct (str_eqb (dataAttribute key) k) eqn:E; [|right; by apply IH].
    apply String.eqb_eq in E as <-. injection Hv as ->. by left. }
  apply in_split in Hin as (l1 & l2 & Hl).
  destruct (dataset_app d e n l1 ((dataAttribute key, v) :: l2) Hd Hl) as (m1 & m2 & -> & Hm2).
  cbn [List.filter map] in Hm2. change (startsWith (dataAttribute key) "data-") with true in Hm2.
  cbn [map] in Hm2. rewrite Hm2.
  destruct (dataset_key key Hkey) as [Hp Hb]. rewrite <- Hp at 1. apply dataStep_hit; [done|done|].
  intros k' v' Hin. rewrite Hp. apply in_map_iff in Hin as ([k w] & [= <- <-] & [Hin _]%filter_In).
  apply Hother.
  - rewrite Hl. unfold okeys. rewrite map_app. apply in_app_iff. right. right. by apply (in_map fst l2 (k, w)).
  - intros ->. rewrite Hl in Hnd. unfold okeys in Hnd. rewrite map_app in Hnd. cbn in Hnd.
    apply List.NoDup_remove_2 in Hnd. apply Hnd, in_app_iff. right. by apply (in_map fst l2 (dataAttribute key, w)).
Qed.
End attributes.

Lemma typeCheck_ok NAME config types :
  typeCheckConfig NAME config types = Ok tt <->
  forall p t, In (p, t) types -> typeTest t (toType (default VUndefined (oget p config))) = true.
Proof.
  unfold typeCheckConfig. induction types as [|[p t] types IH]; cbn [foldM]; [split; [by intros _ p t []|done]|].
  destruct (typeTest t _) eqn:E; cbn [mbind res_bind].
  - rewrite IH. split.
    + intros H p' t' [[= <- <-]|Hin]; [done|by apply H].
    + intros H p' t' Hin. apply H. by right.
  - split; [done|]. intros H. rewrite (H p t) in E by (by left). done.
Qed.

Lemma typeCheck_cases NAME config types :
  typeCheckConfig NAME config types = Ok tt \/ exists msg, typeCheckConfig NAME config types = Err (TypeError msg).
Proof.
  unfold typeCheckConfig. induction types as [|[p t] types IH]; cbn [foldM]; [by left|].
  destruct (typeTest t _); cbn [mbind res_bind]; [done|]. right. by eexists.
Qed.

(** * The theorems of this component *)

(** An option written with [setDataAttribute] is read back by [getDataAttributes]
    under the same key, with its text turned into a value. *)
Theorem data_attribute_roundtrip (parseJson : string -> option value) (d : gmap nat node) (e : nat) (n : node)
    (key v : string) :
  d !! e = Some n -> List.NoDup (okeys (n_attrs n)) -> optionKey key = true ->
  startsWith (camelCase (str_skip 5 (dataAttribute key))) "bsConfig" = false ->
  (forall k, In k (okeys (n_attrs n)) -> k <> dataAttribute key -> pureKey (camelCase (str_skip 5 k)) <> key) ->
  oget key (getDataAttributes parseJson (setDataAttribute e key v d) (Some e)) =
    Some (normalizeData parseJson (Some v)) /\
  getDataAttribute parseJson (setDataAttribute e key v d) e key = normalizeData parseJson (Some v).
Proof.
  intros Hd Hnd Hkey Hconf Hother. unfold setDataAttribute.
  assert (Hd' : setAttribute e (dataAttribute key) v d !! e =
                Some (set_attrs (oset (dataAttribute key) v (n_attrs n)) n)).
  { unfold setAttribute. by rewrite lookup_alter_eq, Hd. }
  split.
  - eapply getDataAttributes_at; [exact Hd'|by apply NoDup_okeys_oset|apply oget_oset_eq|done|done|].
    cbn [n_attrs set_attrs]. intros k [->|Hin]%In_okeys_oset Hne; [done|by apply Hother].
  - unfold getDataAttribute, getAttribute. rewrite Hd'. cbn [n_attrs set_attrs]. by rewrite oget_oset_eq.
Qed.

Lemma data_attribute_roundtrip_witness :
  oget "fallbackPlacements" (getDataAttributes (fun _ => None)
    (setDataAttribute 1 "fallbackPlacements" "top" {[1 := Node "DIV" [] [("data-bs-delay", "100")] [] None [] None]})
    (Some 1)) = Some (VStr "top").
Proof.
  destruct (data_attribute_roundtrip (fun _ => None) {[1 := Node "DIV" [] [("data-bs-delay", "100")] [] None [] None]}
    1 (Node "DIV" [] [("data-bs-delay", "100")] [] None [] None) "fallbackPlacements" "top") as [H _].
  - reflexivity.
  - repeat constructor. intros [].
  - reflexivity.
  - reflexivity.
  - intros k [<-|[]] _. vm_compute. discriminate.
  - exact H.
Defined.

(** C40: an option comes from the call if it is given there, else from the element's data
    attributes, else from its [data-bs-config], else from the defaults; and a
    configuration is accepted exactly when every option has one of its declared types,
    and refused with a [TypeError] otherwise. *)
Theorem config_precedence_and_types (parseJson : string -> option value) (NAME : string) (Default config : obj value)
    (DefaultType : obj string) (d : gmap nat node) (e : nat) :
  List.NoDup (okeys config) -> List.NoDup (okeys (getDataAttributes parseJson d (Some e))) ->
  List.NoDup (okeys (asObject (getDataAttribute parseJson d e "config"))) ->
  let merged := mergeConfigObj parseJson Default (VObj config) d (Some e) in
  (forall k, oget k merged =
     match oget k config with
     | Some v => Some v
     | None => match oget k (getDataAttributes parseJson d (Some e)) with
               | Some v => Some v
               | None => match oget k (asObject (getDataAttribute parseJson d e "config")) with
                         | Some v => Some v
                         | None => oget k Default
                         end
               end
     end) /\
  let wellTyped := forall p t, In (p, t) DefaultType ->
                     typeTest t (toType (default VUndefined (oget p merged))) = true in
  (wellTyped <-> getConfig parseJson NAME Default DefaultType (fun c => c) (VObj config) d (Some e) = Ok merged) /\
  (~ wellTyped -> exists msg,
     getConfig parseJson NAME Default DefaultType (fun c => c) (VObj config) d (Some e) = Err (TypeError msg)).
Proof.
  intros H1 H2 H3. cbv zeta. split.
  { intros k. unfold mergeConfigObj. cbn [asObject]. by rewrite !oget_oassign. }
  set (merged := mergeConfigObj _ _ _ _ _). unfold getConfig. fold merged.
  rewrite <- (typeCheck_ok NAME). destruct (typeCheck_cases NAME merged DefaultType) as [->|[msg ->]]; cbn.
  - split; [done|]. by intros [].
  - split; [split; done|]. intros _. by eexists.
Qed.

Lemma config_precedence_and_types_witness :
  exists msg, getConfig (fun _ => None) "collapse" [("parent", VNull); ("toggle", VBool true)]
    [("parent", "(null|element)"); ("toggle", "boolean")] (fun c => c) (VObj [("toggle", VStr "yes")])
    {[1 := Node "DIV" [] [] [] None [] None]} (Some 1) = Err (TypeError msg).
Proof.
  destruct (config_precedence_and_types (fun _ => None) "collapse" [("parent", VNull); ("toggle", VBool true)]
    [("toggle", VStr "yes")] [("parent", "(null|element)"); ("toggle", "boolean")]
    {[1 := Node "DIV" [] [] [] None [] None]} 1) as [_ [_ H]].
  - repeat constructor. intros [].
  - constructor.
  - constructor.
  - apply H. intros Hw. specialize (Hw "toggle" "boolean" (or_intror (or_introl eq_refl))).
    vm_compute in Hw. discriminate Hw.
Defined.
