(* ===== verification/BsUtil.v ===== *)
(** Helpers of the components: identifiers that no element of the page has yet. *)
From Stdlib Require Import Ascii Lia.
From stdpp Require Import pretty.
From S2P Require Import Prelude BsCore BsDom.

Local Open Scope nat_scope.

Module Util.

Section uid.
Variable d : gmap nat node.
Variable root : nat.                    (** [document] *)
Variable random : nat -> nat.           (** what the draws of [Math.floor(Math.random() * MAX_UID)] come to *)
Implicit Types (prefix : string).

Definition getElementById (id : string) : option nat :=
  if str_truthy id then List.find (fun x => bool_decide (getAttribute d x "id" = Some id)) (descendants (size d) d root) else None.

(** [prefix += ...] until no element has it; [k] draws have been made. *)
Fixpoint getUID (fuel k : nat) prefix : option string :=
  match fuel with
  | O => None
  | S fuel =>
      let prefix := prefix +:+ pretty (random k) in
      match getElementById prefix with Some _ => getUID fuel (S k) prefix | None => Some prefix end
  end.

Lemma getElementById_Some id x : getElementById id = Some x -> getAttribute d x "id" = Some id /\ is_Some (d !! x).
Proof.
  unfold getElementById. destruct (str_truthy id); [|done]. intros [_ H%bool_decide_eq_true]%List.find_some. split; [done|].
  unfold getAttribute in H. by destruct (d !! x).
Qed.

Lemma pretty_nonempty (n : nat) : String.length (pretty n) <> 0.
Proof.
  unfold pretty, pretty_nat, pretty, pretty_N. case_decide; [done|]. rewrite pretty_N_go_step by lia.
  assert (G : forall x s, String.length s <= String.length (pretty_N_go x s)).
  { intros x. induction (N.lt_wf_0 x) as [x _ IH]. intros s. destruct (decide (0 < x)%N) as [Hx|Hx].
    - rewrite pretty_N_go_step by done. etransitivity; [|apply IH; apply N.div_lt; lia]. cbn. lia.
    - assert (x = 0%N) as -> by lia. by rewrite pretty_N_go_0. }
  match goal with |- context [pretty_N_go ?x ?s] => pose proof (G x s) as Hg; intros Hz; rewrite Hz in Hg; inversion Hg end.
Qed.

Lemma length_append (a b : string) : String.length (a +:+ b) = String.length a + String.length b.
Proof. induction a as [|x a IH]; [done|]. rewrite str_app_cons. cbn. by rewrite IH. Qed.

(** Each round that finds an element finds another one: its identifier is longer. *)
Lemma getUID_rounds fuel k prefix : getUID fuel k prefix = None ->
  exists l, length l = fuel /\ List.NoDup l /\
    forall x, In x l -> is_Some (d !! x) /\ exists id, getAttribute d x "id" = Some id /\ String.length prefix < String.length id.
Proof.
  revert k prefix. induction fuel as [|fuel IH]; intros k prefix; cbn [getUID].
  { intros _. exists []. split; [done|]. split; [constructor|done]. }
  destruct (getElementById _) as [x|] eqn:Ex; [|done]. intros (l & Hl & N & Hin)%IH.
  apply getElementById_Some in Ex as [Hx Hd]. assert (Hlen : String.length prefix < String.length (prefix +:+ pretty (random k))).
  { rewrite length_append. pose proof (pretty_nonempty (random k)). lia. }
  exists (x :: l). split; [cbn; by rewrite Hl|]. split.
  - constructor; [|done]. intros (_ & id & Hid & Hlt)%Hin. rewrite Hx in Hid. injection Hid as <-. lia.
  - intros y [<-|Hy]; [split; [done|by eexists]|]. destruct (Hin y Hy) as (Hyd & id & Hid & Hlt). split; [done|]. exists id. split; [done|lia].
Qed.

Lemma getUID_fresh fuel k prefix id : getUID fuel k prefix = Some id ->
  getElementById id = None /\ exists s, id = prefix +:+ s /\ String.length s <> 0.
Proof.
  revert k prefix. induction fuel as [|fuel IH]; intros k prefix; cbn [getUID]; [done|].
  destruct (getElementById (prefix +:+ pretty (random k))) as [x|] eqn:Ex.
  - intros (H & s & -> & Hs)%IH. split; [done|]. exists (pretty (random k) +:+ s). split; [apply string_app_assoc|rewrite length_append; lia].
  - intros [= <-]. split; [done|]. exists (pretty (random k)). split; [reflexivity|apply pretty_nonempty].
Qed.
End uid.

(** [element.dispatchEvent(new Event('transitionend'))]: the callbacks that wait for the element run. *)
Definition triggerTransitionEnd (element : nat) (s : Transition.state) : Transition.state := Transition.dispatch element s.
End Util.

(** [getUID] comes to an end, after no more rounds than the page has elements and one, whatever the draws are; what it
    returns is the prefix with more behind it, and no element of the document has it. *)
Theorem getUID_terminates (d : gmap nat node) (root : nat) (random : nat -> nat) (prefix : string) :
  exists id s, Util.getUID d root random (S (size d)) 0 prefix = Some id /\ Util.getElementById d root id = None /\
    id = prefix +:+ s /\ String.length s <> 0.
Proof.
  destruct (Util.getUID d root random (S (size d)) 0 prefix) as [id|] eqn:E.
  - destruct (Util.getUID_fresh d root random _ _ _ _ E) as (H & s & H1 & H2). by exists id, s.
  - destruct (Util.getUID_rounds d root random _ _ _ E) as (l & Hl & N & Hin). exfalso.
    assert (Hsub : length l <= length (elements (dom d))).
    { apply NoDup_incl_length; [done|]. intros x Hx. apply list_elem_of_In, elem_of_elements, elem_of_dom. by apply Hin. }
    change (length (elements (dom d))) with (size (dom d)) in Hsub. rewrite size_dom in Hsub. lia.
Qed.
