(* ===== verification/BsAlert.v ===== *)
(** Bootstrap's [BaseComponent] with the components [Alert] and [Button], and the dismiss
    trigger that closes alerts from a click. *)
From Stdlib Require Import Ascii Lia.
From S2P Require Import Prelude BsCore BsEvents BsEventsProofs BsDom.

Local Open Scope nat_scope.

(** ** BaseComponent *)

(** The state the components share. [I] are the fields of an instance, [K] the callbacks
    it hands to [_queueCallback]. *)
Record world (I K : Type) := World {
  w_page : gmap nat node;
  w_data : Data.elementMap nat;          (** the store [Data]; instances are numbers *)
  w_events : evState;
  w_insts : gmap nat I;
  w_next : nat;
  w_log : list (nat * string);           (** events triggered, oldest first *)
  w_queue : list (nat * K)               (** callbacks waiting for a transition of the element *)
}.
Arguments World {I K}.
Arguments w_page {I K}.
Arguments w_data {I K}.
Arguments w_events {I K}.
Arguments w_insts {I K}.
Arguments w_next {I K}.
Arguments w_log {I K}.
Arguments w_queue {I K}.

Section base.
Context {I K : Type}.
Implicit Types (w : world I K).

(** What the listeners of the page do: whether one prevents an event, given the events so
    far. *)
Variable prevents : list (nat * string) -> nat -> string -> bool.

Definition set_page (p : gmap nat node) w : world I K :=
  World p (w_data w) (w_events w) (w_insts w) (w_next w) (w_log w) (w_queue w).
Definition set_inst (i : nat) (x : I) w : world I K :=
  World (w_page w) (w_data w) (w_events w) (<[i := x]> (w_insts w)) (w_next w) (w_log w) (w_queue w).
Definition set_queue (q : list (nat * K)) w : world I K :=
  World (w_page w) (w_data w) (w_events w) (w_insts w) (w_next w) (w_log w) q.

(** [EventHandler.trigger]: the event is logged, the result is [defaultPrevented]. *)
Definition triggers (e : nat) (name : string) w : world I K * bool :=
  (World (w_page w) (w_data w) (w_events w) (w_insts w) (w_next w) (w_log w ++ [(e, name)]) (w_queue w),
   prevents (w_log w) e name).

Definition getInstance (DATA_KEY : string) (e : nat) w : option nat := Data.get (w_data w) e DATA_KEY.

(** [new Component(element)]: the fields of the instance and its place in the store. *)
Definition construct (DATA_KEY : string) (fields : I) (e : nat) w : nat * world I K :=
  let i := w_next w in
  (i, World (w_page w) (fst (Data.set (w_data w) e DATA_KEY i)) (w_events w) (<[i := fields]> (w_insts w)) (S i)
        (w_log w) (w_queue w)).

(** [dispose]; [nulled] are the fields set to [null]. *)
Definition dispose (DATA_KEY : string) (nulled : I) (i e : nat) w : world I K :=
  World (w_page w) (Data.remove (w_data w) e DATA_KEY) (off e ("." +:+ DATA_KEY) HNone None (w_events w))
    (<[i := nulled]> (w_insts w)) (w_next w) (w_log w) (w_queue w).
End base.

(** ** Alert *)

Module Alert.

Definition DATA_KEY : string := "bs.alert".
Definition EVENT_CLOSE : string := "close.bs.alert".
Definition EVENT_CLOSED : string := "closed.bs.alert".

(** The one field: [_element], [None] once it is [null]. *)
Record fields := Fields { _element : option nat }.
Inductive callback := DestroyElement (i : nat).
Abbreviation state := (world fields callback).

Section alert.
Context `{B : Browser}.
Variable prevents : list (nat * string) -> nat -> string -> bool.
Implicit Types (w : state).

Definition getOrCreateInstance (oe : option nat) w : nat * state :=
  match oe with
  | Some e =>
      match getInstance DATA_KEY e w with
      | Some i => (i, w)
      | None => construct DATA_KEY (Fields (Some e)) e w
      end
  | None => (w_next w, World (w_page w) (w_data w) (w_events w) (<[w_next w := Fields None]> (w_insts w))
                         (S (w_next w)) (w_log w) (w_queue w))
  end.

Definition elementOf (i : nat) w : option nat := (w_insts w !! i) ≫= _element.

(** [_destroyElement] *)
Definition _destroyElement (i : nat) w : res state :=
  match elementOf i w with
  | None => Err (TypeError "remove")
  | Some e =>
      let w := set_page (removeElement e (w_page w)) w in
      let '(w, _) := triggers prevents e EVENT_CLOSED w in
      Ok (dispose DATA_KEY (Fields None) i e w)
  end.

Definition close (i : nat) w : res state :=
  match elementOf i w with
  | None => Err (TypeError "defaultPrevented")
  | Some e =>
      let '(w, prevented) := triggers prevents e EVENT_CLOSE w in
      if prevented then Ok w
      else
        let w := set_page (classList_remove e ["show"] (w_page w)) w in
        if hasClass (w_page w) e "fade" then Ok (set_queue (w_queue w ++ [(e, DestroyElement i)]) w)
        else _destroyElement i w
  end.

(** The [k]-th waiting callback runs. *)
Definition complete (k : nat) w : res state :=
  match w_queue w !! k with
  | Some (_, DestroyElement i) => _destroyElement i (set_queue (delete k (w_queue w)) w)
  | None => Ok w
  end.

(** The click handler of [enableDismissTrigger(Alert, 'close')] for a clicked element; the
    boolean tells whether the click's default action is prevented. *)
Definition dismiss (root clicked : nat) w : res (state * bool) :=
  let d := w_page w in
  let isLink := match d !! clicked with Some n => in_strs (n_tag n) ["A"; "AREA"] | None => false end in
  if isDisabled d (Some clicked) then Ok (w, isLink)
  else
    let target := match getElementFromSelector root d clicked with
                  | Some t => Some t
                  | None => closest d clicked ".alert"
                  end in
    let '(i, w) := getOrCreateInstance target w in
    w ← close i w;
    Ok (w, isLink).

(** [jQueryInterface] with a string: which method is called. *)
Definition jQueryInterface (config : string) : res string :=
  if negb (in_strs config ["close"; "dispose"; "constructor"; "_destroyElement"; "_queueCallback"; "_getConfig";
                           "_mergeConfigObj"; "_configAfterMerge"; "_typeCheckConfig"])
     || startsWith config "_" || str_eqb config "constructor"
  then Err (TypeError ("No method named " +:+ quoted config))
  else Ok config.

(** ** Closing *)

(** The alert [i] of element [e] is alive. *)
Definition alive (i e : nat) w : Prop :=
  elementOf i w = Some e /\ Data.get (w_data w) e DATA_KEY = Some i /\ evInv (w_events w) /\
  (exists a, Data.represents (w_data w) a).

Lemma remove_forgets (m : Data.elementMap nat) a e key :
  Data.represents m a -> Data.get (Data.remove m e key) e key = None.
Proof.
  intros H. unfold Data.get, Data.remove. rewrite H. destruct (a !! e) as [[k i]|] eqn:E.
  - cbn. destruct (str_eqb key k) eqn:Ek; cbn.
    + by rewrite lookup_delete_eq.
    + rewrite lookup_insert_eq. cbn. by rewrite Ek.
  - by rewrite H, E.
Qed.

Definition detached (d : gmap nat node) (e : nat) : Prop :=
  forall n, d !! e = Some n -> n_parent n = None.

Lemma removeElement_detached e d : detached (removeElement e d) e.
Proof.
  intros n. unfold removeElement. destruct (d !! e) as [m|] eqn:E; [|congruence].
  destruct (n_parent m) as [p|] eqn:Ep; [|rewrite E; by intros [= <-]].
  intros [(_ & m' & _ & ->)|[Hne _]]%lookup_alter_Some; done.
Qed.

(** What is left of a destroyed alert: nothing on the page, in the store or among the
    listeners of its element that carries its name. *)
Definition gone (i e : nat) w : Prop :=
  elementOf i w = None /\ detached (w_page w) e /\ Data.get (w_data w) e DATA_KEY = None /\
  forall t k h, In (k, h) (handlersAt (w_events w) e t) -> str_includes k DATA_KEY = false.

Lemma destroy_gone i e w :
  alive i e w -> exists w', _destroyElement i w = Ok w' /\ gone i e w' /\ w_log w' = w_log w ++ [(e, EVENT_CLOSED)].
Proof.
  intros (He & Hd & Hev & a & Ha). unfold _destroyElement. rewrite He. cbn [triggers].
  eexists. split; [reflexivity|]. split; [|done]. split; [|split; [|split]].
  - unfold elementOf. cbn. by rewrite lookup_insert_eq.
  - apply removeElement_detached.
  - cbn. by eapply remove_forgets.
  - cbn. intros t k h Hin. apply (proj2 (off_namespace e DATA_KEY _ Hev)) in Hin as [_ Hno].
    destruct (str_includes k DATA_KEY) eqn:E; [|done]. destruct Hno. auto.
Qed.
End alert.
End Alert.

(** ** Button *)

Module Button.
(** [toggle]: the class and [aria-pressed] change together. *)
Definition toggle (e : nat) (d : gmap nat node) : gmap nat node :=
  let active := negb (hasClass d e "active") in
  setAttribute e "aria-pressed" (bool_str active) (classList_toggle e "active" active d).
End Button.

(** * The theorems of these components *)

(** C38: closing an alert asks first; when nothing prevents it, the alert ends up removed
    from the page, from the store and from the event registry, with exactly one [close]
    and one [closed] event: at once, or when its fade is over. *)
Theorem alert_close_outcome `{B : Browser} (prevents : list (nat * string) -> nat -> string -> bool)
    (i e : nat) (w : Alert.state) :
  Alert.alive i e w -> is_Some (w_page w !! e) ->
  exists w1, Alert.close prevents i w = Ok w1 /\
    if prevents (w_log w) e Alert.EVENT_CLOSE then
      w_page w1 = w_page w /\ Alert.alive i e w1 /\ w_log w1 = w_log w ++ [(e, Alert.EVENT_CLOSE)]
    else if hasClass (w_page w) e "fade" then
      hasClass (w_page w1) e "show" = false /\
      exists w2, Alert.complete prevents (length (w_queue w)) w1 = Ok w2 /\ Alert.gone i e w2 /\
        w_queue w2 = w_queue w /\ w_log w2 = w_log w ++ [(e, Alert.EVENT_CLOSE); (e, Alert.EVENT_CLOSED)]
    else
      Alert.gone i e w1 /\ w_log w1 = w_log w ++ [(e, Alert.EVENT_CLOSE); (e, Alert.EVENT_CLOSED)].
Proof.
  intros Ha Hp. pose proof Ha as (He & Hd & Hev & Hr). unfold Alert.close. rewrite He. cbn [triggers].
  destruct (prevents (w_log w) e Alert.EVENT_CLOSE); [by eexists|].
  cbn [w_page set_page]. rewrite hasClass_remove.
  change (in_strs "fade" ["show"]) with false. rewrite andb_false_r, andb_true_r.
  destruct (hasClass (w_page w) e "fade").
  - eexists. split; [reflexivity|]. cbn [w_page set_queue set_page w_queue]. split.
    { rewrite hasClass_remove, bool_decide_true by done. apply andb_false_r. }
    unfold Alert.complete. cbn [w_queue set_queue set_page]. rewrite lookup_app_r, Nat.sub_diag by done.
    cbn [lookup list_lookup].
    match goal with |- context [Alert._destroyElement _ i ?x] =>
      destruct (Alert.destroy_gone prevents i e x) as (w2 & Hw2 & Hg & Hl); [exact Ha|] end.
    exists w2. split; [exact Hw2|]. split; [exact Hg|]. split.
    + unfold Alert._destroyElement in Hw2. destruct (Alert.elementOf i _); [|done].
      cbn in Hw2. injection Hw2 as <-. cbn. by rewrite delete_middle, app_nil_r.
    + rewrite Hl. cbn. by rewrite <- app_assoc.
  - match goal with |- context [Alert._destroyElement _ i ?x] =>
      destruct (Alert.destroy_gone prevents i e x) as (w2 & Hw2 & Hg & Hl); [exact Ha|] end.
    exists w2. split; [exact Hw2|]. split; [exact Hg|]. rewrite Hl. cbn. by rewrite <- app_assoc.
Qed.

(** A page with one alert, made by the data API. *)
Definition plainBrowser : Browser := Build_Browser (fun _ _ _ => false) (fun _ _ => 1) (fun _ _ => "visible") None.

Definition demoPage : gmap nat node :=
  <[1 := Node "DIV" ["alert"; "fade"; "show"] [] [] (Some 0) [] None]>
    {[0 := Node "BODY" [] [] [] None [1] None]}.
Definition demoAlert : Alert.state :=
  snd (Alert.getOrCreateInstance (Some 1) (World demoPage ∅ evStart ∅ 0 [] [])).

Lemma demoAlert_alive : Alert.alive 0 1 demoAlert.
Proof.
  split; [reflexivity|]. split; [reflexivity|]. split; [apply evStart_inv|].
  exists {[1 := ("bs.alert", 0)]}. intros e.
  change (w_data demoAlert) with ({[1 := [("bs.alert", 0)]]} : gmap nat (obj nat)).
  destruct (decide (e = 1)) as [->|Hne]; [reflexivity|]. by rewrite !lookup_singleton_ne.
Qed.

Lemma alert_close_outcome_witness :
  exists w1 w2, Alert.close (fun _ _ _ => false) 0 demoAlert = Ok w1 /\
    Alert.complete (fun _ _ _ => false) 0 w1 = Ok w2 /\ Alert.gone 0 1 w2.
Proof.
  destruct (@alert_close_outcome plainBrowser (fun _ _ _ => false) 0 1 demoAlert demoAlert_alive)
    as (w1 & H1 & _ & w2 & H2 & Hg & _); [eexists; reflexivity|].
  exists w1, w2. split; [exact H1|]. split; [exact H2|exact Hg].
Defined.

(** Closing a fading alert twice queues its removal twice: the second callback finds
    [_element] already [null] and throws. *)
Theorem alert_closed_twice_throws (i e : nat) (w : Alert.state) :
  Alert.alive i e w -> hasClass (w_page w) e "fade" = true -> w_queue w = [] ->
  exists w1 w2 w3, Alert.close (fun _ _ _ => false) i w = Ok w1 /\ Alert.close (fun _ _ _ => false) i w1 = Ok w2 /\
    Alert.complete (fun _ _ _ => false) 0 w2 = Ok w3 /\
    Alert.complete (fun _ _ _ => false) 0 w3 = Err (TypeError "remove").
Proof.
  intros (He & _) Hf Hq. unfold Alert.close at 1. rewrite He. cbn [triggers w_page set_page].
  rewrite hasClass_remove, Hf. change (in_strs "fade" ["show"]) with false. rewrite andb_false_r.
  eexists _, _, _. split; [reflexivity|]. unfold Alert.close. cbn [Alert.elementOf w_insts set_queue set_page].
  unfold Alert.elementOf in *. cbn [w_insts set_queue set_page triggers]. rewrite He. cbn [triggers w_page set_page set_queue].
  rewrite !hasClass_remove, Hf. change (in_strs "fade" ["show"]) with false. rewrite andb_false_r.
  split; [reflexivity|]. unfold Alert.complete. cbn [w_queue set_queue set_page triggers fst]. rewrite Hq. cbn.
  unfold Alert._destroyElement, Alert.elementOf. cbn. rewrite He. cbn. split; [reflexivity|].
  cbn. by rewrite lookup_insert_eq.
Qed.

Lemma alert_closed_twice_throws_witness :
  exists w3, Alert.complete (fun _ _ _ => false) 0 w3 = Err (TypeError "remove").
Proof.
  destruct (alert_closed_twice_throws 0 1 demoAlert demoAlert_alive) as (w1 & w2 & w3 & _ & _ & _ & H).
  - reflexivity.
  - reflexivity.
  - exists w3. exact H.
Defined.

(** Toggling a button turns its state over, and [aria-pressed] always tells the state; no
    other class changes. *)
Theorem button_toggle_sync (d : gmap nat node) (e : nat) :
  is_Some (d !! e) ->
  let d' := Button.toggle e d in
  hasClass d' e "active" = negb (hasClass d e "active") /\
  getAttribute d' e "aria-pressed" = Some (bool_str (hasClass d' e "active")) /\
  forall e' c, c <> "active" -> hasClass d' e' c = hasClass d e' c.
Proof.
  intros [n Hn]. cbv zeta. unfold Button.toggle, classList_toggle.
  assert (Ha : hasClass (Button.toggle e d) e "active" = negb (hasClass d e "active")).
  { unfold Button.toggle, classList_toggle. rewrite hasClass_setAttribute.
    destruct (hasClass d e "active") eqn:E; cbn [negb].
    - rewrite hasClass_remove, bool_decide_true by done. cbn. apply andb_false_r.
    - rewrite hasClass_add, (bool_decide_true (e = e)) by done. rewrite bool_decide_true by eauto. apply orb_true_r. }
  unfold Button.toggle, classList_toggle in Ha. rewrite Ha. split; [done|]. split.
  - unfold getAttribute, setAttribute. rewrite lookup_alter_eq.
    assert (Hs : is_Some ((if negb (hasClass d e "active") then classList_add e ["active"] d
                           else classList_remove e ["active"] d) !! e)).
    { unfold classList_add, classList_remove. destruct (negb _); apply alter_is_Some; eauto. }
    destruct Hs as [m ->]. cbn. apply oget_oset_eq.
  - intros e' c Hc. apply String.eqb_neq in Hc. rewrite hasClass_setAttribute.
    destruct (negb _); [rewrite hasClass_add|rewrite hasClass_remove]; unfold in_strs; cbn; rewrite Hc; cbn;
      rewrite ?andb_false_r, ?orb_false_r, ?andb_true_r; done.
Qed.

Lemma button_toggle_sync_witness :
  getAttribute (Button.toggle 1 demoPage) 1 "aria-pressed" = Some (bool_str (hasClass (Button.toggle 1 demoPage) 1 "active")).
Proof. apply (button_toggle_sync demoPage 1). eexists. reflexivity. Defined.
