(* ===== verification/BsButton.v ===== *)
(** The data API of [Button]: a click on a button, or inside one, gets the button's instance from the store and toggles it. *)
From Stdlib Require Import Ascii Lia.
From S2P Require Import Prelude BsCore BsEvents BsDom BsAlert.

Local Open Scope nat_scope.

Module ButtonPage.

Definition DATA_KEY : string := "bs.button".
Definition SELECTOR_DATA_TOGGLE : string := "[data-bs-toggle=" +:+ quoted "button" +:+ "]".

(** A button has no field but its element, and hands on no callback. *)
Abbreviation state := (world nat Empty_set).

Section button.
Context `{B : Browser}.
Implicit Types (w : state) (e i target : nat).

Definition getOrCreateInstance e w : nat * state :=
  match getInstance DATA_KEY e w with Some i => (i, w) | None => construct DATA_KEY e e w end.

(** [this.toggle()] of the instance [i]. *)
Definition toggleAt i w : res state :=
  match w_insts w !! i with
  | Some e => Ok (set_page (Button.toggle e (w_page w)) w)
  | None => Err (TypeError "_element")
  end.

(** The handler of the document, which runs when the click is inside a button. *)
Definition clickToggle target w : res state :=
  match closest (w_page w) target SELECTOR_DATA_TOGGLE with
  | None => Err (TypeError "_element")
  | Some e => let '(i, w) := getOrCreateInstance e w in toggleAt i w
  end.

Definition clicks (targets : list nat) w : res state := foldM (fun w target => clickToggle target w) targets w.

(** ** The store and the page *)

(** The store has one component at most for each element; its buttons know their elements, and new ones get new numbers. *)
Record stored w (a : Data.slots nat) : Prop := {
  bu_store : Data.represents (w_data w) a;
  bu_button e i : Data.slot_get a e DATA_KEY = Some i -> w_insts w !! i = Some e /\ i < w_next w
}.

Lemma getInstance_slot e w a : Data.represents (w_data w) a -> getInstance DATA_KEY e w = Data.slot_get a e DATA_KEY.
Proof. intros R. destruct (Data.run_refines (w_data w) a (Data.Get e DATA_KEY) R) as [_ H]. cbn in H. by injection H. Qed.

(** A click toggles the button, whose instance it makes unless it is there; where another component has the element, the store
    refuses the instance, and the click toggles the button all the same. *)
Lemma click_toggles target e w a : stored w a -> closest (w_page w) target SELECTOR_DATA_TOGGLE = Some e ->
  exists w' a', clickToggle target w = Ok w' /\ stored w' a' /\ w_page w' = Button.toggle e (w_page w) /\
    a' !! e = match a !! e with Some x => Some x | None => Some (DATA_KEY, w_next w) end /\
    (forall x, x <> e -> a' !! x = a !! x).
Proof.
  intros [R E] Hc. unfold clickToggle, getOrCreateInstance. rewrite Hc, (getInstance_slot e w a R).
  destruct (Data.slot_get a e DATA_KEY) as [i|] eqn:G.
  - unfold toggleAt. rewrite (proj1 (E e i G)). exists (set_page (Button.toggle e (w_page w)) w), a. split; [done|]. split; [by split|]. split; [done|].
    split; [|done]. unfold Data.slot_get in G. by destruct (a !! e).
  - unfold construct, toggleAt. cbn [w_insts]. rewrite lookup_insert_eq. set (w1 := World _ _ _ _ _ _ _).
    assert (R' : Data.represents (Data.set (w_data w) e DATA_KEY (w_next w)).1 (Data.slot_set a e DATA_KEY (w_next w)).1).
    { destruct (Data.run_refines (w_data w) a (Data.Set_ e DATA_KEY (w_next w)) R) as [R' _]. cbn in R'. revert R'.
      by destruct (Data.set _ _ _ _), (Data.slot_set _ _ _ _). }
    exists (set_page (Button.toggle e (w_page w1)) w1), (Data.slot_set a e DATA_KEY (w_next w)).1. split; [done|]. split; [|split; [done|]].
    + split; [exact R'|]. intros e' i'. cbn. unfold Data.slot_get, Data.slot_set in *. intros H.
      assert (Old : forall k, a !! e' = Some (k, i') -> str_eqb k DATA_KEY = true -> w_insts w !! i' = Some e' /\ i' < w_next w).
      { intros k Hk Hs. apply E. by rewrite Hk, Hs. }
      assert (Keep : w_insts w !! i' = Some e' /\ i' < w_next w -> (<[w_next w := e]> (w_insts w)) !! i' = Some e' /\ i' < S (w_next w)).
      { intros [H1 H2]. rewrite lookup_insert_ne by lia. split; [done|lia]. }
      destruct (a !! e) as [[k j]|] eqn:Ea.
      * destruct (str_eqb k DATA_KEY); [done|]. cbn in H. destruct (a !! e') as [[k' j']|] eqn:Ea'; [|done].
        destruct (str_eqb k' DATA_KEY) eqn:Ek; [|done]. injection H as ->. apply Keep. by apply (Old k').
      * cbn in H. destruct (decide (e' = e)) as [->|Hne].
        -- rewrite lookup_insert_eq in H. cbn in H. injection H as <-. rewrite lookup_insert_eq. split; [done|lia].
        -- rewrite lookup_insert_ne in H by done. destruct (a !! e') as [[k' j']|] eqn:Ea'; [|done].
           destruct (str_eqb k' DATA_KEY) eqn:Ek; [|done]. injection H as ->. apply Keep. by apply (Old k').
    + unfold Data.slot_set, Data.slot_get in *. destruct (a !! e) as [[k j]|] eqn:Ea.
      * destruct (str_eqb k DATA_KEY); [done|]. cbn. split; [exact Ea|done].
      * cbn. rewrite lookup_insert_eq. split; [done|]. intros x Hx. by rewrite lookup_insert_ne.
Qed.

(** The button's look after so many clicks. *)
Definition pressed (d : gmap nat node) e (b : bool) : Prop :=
  is_Some (d !! e) /\ hasClass d e "active" = b.

Lemma pressed_toggle d e b : pressed d e b -> pressed (Button.toggle e d) e (negb b) /\
  getAttribute (Button.toggle e d) e "aria-pressed" = Some (bool_str (negb b)).
Proof.
  intros [Hd Hb]. destruct (button_toggle_sync d e Hd) as (H1 & H2 & _). rewrite Hb in H1. rewrite H1 in H2.
  split; [|done]. split; [|done]. unfold Button.toggle, setAttribute, classList_toggle, classList_add, classList_remove.
  rewrite Hb. apply alter_is_Some. destruct b; by apply alter_is_Some.
Qed.

(** Marking a button as pressed does not make an element a button or none. *)
Definition steady : Prop := forall d e x, closest (Button.toggle e d) x SELECTOR_DATA_TOGGLE = closest d x SELECTOR_DATA_TOGGLE.

Lemma clicks_toggle (St : steady) targets e : forall w a b, stored w a -> pressed (w_page w) e b ->
  Forall (fun t => closest (w_page w) t SELECTOR_DATA_TOGGLE = Some e) targets ->
  exists w' a', clicks targets w = Ok w' /\ stored w' a' /\ pressed (w_page w') e (xorb b (Nat.odd (length targets))) /\
    (targets <> [] -> getAttribute (w_page w') e "aria-pressed" = Some (bool_str (xorb b (Nat.odd (length targets)))) /\
      a' !! e = match a !! e with Some x => Some x | None => Some (DATA_KEY, w_next w) end).
Proof.
  induction targets as [|t targets IH]; intros w a b S P F.
  - exists w, a. split; [done|]. split; [done|]. split; [by destruct b|done].
  - apply Forall_cons in F as [Ht F]. destruct (click_toggles t e w a S Ht) as (w1 & a1 & E1 & S1 & P1 & A1 & _).
    destruct (pressed_toggle _ _ _ P) as [P2 Q2]. rewrite <- P1 in P2, Q2.
    destruct (IH w1 a1 (negb b) S1 P2) as (w2 & a2 & E2 & S2 & P3 & Q3).
    { apply (Forall_impl _ _ _ F). intros x Hx. by rewrite P1, St. }
    assert (Odd : xorb (negb b) (Nat.odd (length targets)) = xorb b (Nat.odd (length (t :: targets)))).
    { cbn [length]. rewrite Nat.odd_succ, <- Nat.negb_odd. by destruct b, (Nat.odd _). }
    rewrite Odd in *. exists w2, a2. split; [cbn; rewrite E1; exact E2|]. split; [done|]. split; [done|]. intros _.
    destruct targets as [|t' targets]; [|destruct Q3 as [Q3 A3]; [done|]; split; [done|]; rewrite A3, A1; by destruct (a !! e)].
    cbn in E2. injection E2 as <-. split; [by rewrite <- Odd, xorb_false_r, Q2|]. destruct S1 as [R1 _], S2 as [R2 _].
    pose proof (R1 e) as X1. rewrite (R2 e), A1 in X1. destruct (a !! e) as [[k j]|], (a2 !! e) as [[k2 j2]|]; cbn in X1 |- *; congruence.
Qed.
End button.
End ButtonPage.

(** Clicks in a button, whichever of its descendants they hit, turn it on and off in turn, and the attribute for assistive
    technology says which. The first click makes the button's instance, and there is never a second one. *)
Theorem button_clicks_alternate `{B : Browser} (targets : list nat) (e : nat) (w : ButtonPage.state) (a : Data.slots nat) (b : bool) :
  ButtonPage.steady -> ButtonPage.stored w a -> a !! e = None -> ButtonPage.pressed (w_page w) e b -> targets <> [] ->
  Forall (fun t => closest (w_page w) t ButtonPage.SELECTOR_DATA_TOGGLE = Some e) targets ->
  exists w', ButtonPage.clicks targets w = Ok w' /\
    hasClass (w_page w') e "active" = xorb b (Nat.odd (length targets)) /\
    getAttribute (w_page w') e "aria-pressed" = Some (bool_str (xorb b (Nat.odd (length targets)))) /\
    getInstance ButtonPage.DATA_KEY e w' = Some (w_next w).
Proof.
  intros St S Ha P N F. destruct (ButtonPage.clicks_toggle St targets e w a b S P F) as (w' & a' & E & S' & [_ P'] & Q).
  destruct (Q N) as [Q1 Q2]. exists w'. split; [done|]. split; [done|]. split; [done|].
  rewrite (ButtonPage.getInstance_slot e w' a') by apply S'. unfold Data.slot_get. by rewrite Q2, Ha.
Qed.

(** A button with an icon in it. *)
Definition buttonPage : gmap nat node :=
  list_to_map [(0, Node "BODY" [] [] [] None [1] None); (1, Node "BUTTON" ["btn"] [("data-bs-toggle", "button")] [] (Some 0) [2] None);
    (2, Node "I" [] [] [] (Some 1) [] None)].

Definition buttonBrowser : Browser :=
  Build_Browser (fun d x sel => str_eqb sel ButtonPage.SELECTOR_DATA_TOGGLE && (x =? 1)) (fun _ _ => 1) (fun _ _ => "visible") None.

Definition buttonWorld : ButtonPage.state := World buttonPage ∅ evStart ∅ 0 [] [].

Lemma button_steady : @ButtonPage.steady buttonBrowser.
Proof.
  intros d e x. unfold closest. cbn [matches buttonBrowser].
  assert (A : forall fuel y, ancestors fuel (Button.toggle e d) y = ancestors fuel d y).
  { assert (P : forall y, option_map n_parent (Button.toggle e d !! y) = option_map n_parent (d !! y)).
    { assert (Al : forall f (d : gmap nat node) z y, (forall n, n_parent (f n) = n_parent n) ->
        option_map n_parent (alter f z d !! y) = option_map n_parent (d !! y)).
      { intros f d1 z y Hf. destruct (decide (y = z)) as [->|Hne]; [|by rewrite lookup_alter_ne].
        rewrite lookup_alter_eq. destruct (d1 !! z); [|done]. cbn. by rewrite Hf. }
      intros y. unfold Button.toggle, setAttribute, classList_toggle, classList_add, classList_remove.
      rewrite Al by done. destruct (negb _); apply Al; intros n; cbn; [|done]. unfold addClass. by destruct (in_strs _ _). }
    induction fuel as [|fuel IH]; intros y; cbn; [done|]. f_equal. specialize (P y).
    destruct (Button.toggle e d !! y), (d !! y); try done. cbn in P. injection P as ->. destruct (n_parent n0); [apply IH|done]. }
  rewrite A. f_equal. f_equal.
  assert (D : forall f (d : gmap nat node) z, size (alter f z d) = size d).
  { intros f d1 z. rewrite <- !size_dom. by rewrite dom_alter_L. }
  unfold Button.toggle, setAttribute, classList_toggle, classList_add, classList_remove. rewrite D. destruct (negb _); apply D.
Qed.

Lemma button_clicks_alternate_witness :
  exists w', @ButtonPage.clicks buttonBrowser [2; 1; 2] buttonWorld = Ok w' /\
    getAttribute (w_page w') 1 "aria-pressed" = Some "true" /\ getInstance ButtonPage.DATA_KEY 1 w' = Some 0.
Proof.
  destruct (@button_clicks_alternate buttonBrowser [2; 1; 2] 1 buttonWorld ∅ false) as (w' & E & _ & H1 & H2).
  - apply button_steady.
  - split; [intros e; reflexivity|]. intros e i. unfold Data.slot_get. rewrite lookup_empty. done.
  - reflexivity.
  - split; [eexists; vm_compute; reflexivity|vm_compute; reflexivity].
  - done.
  - repeat constructor.
  - exists w'. split; [exact E|]. split; [exact H1|exact H2].
Defined.
