(* ===== verification/BsCollapse.v ===== *)
(** Bootstrap's [Collapse]: showing and hiding a panel with a transition, the state of its
    triggers, and accordions, where the panels of a parent close each other. *)
From Stdlib Require Import Ascii Lia.
From S2P Require Import Prelude BsCore BsEvents BsEventsProofs BsDom BsAlert.

Local Open Scope nat_scope.

Module Collapse.

Definition DATA_KEY : string := "bs.collapse".
Definition EVENT_SHOW : string := "show.bs.collapse".
Definition EVENT_SHOWN : string := "shown.bs.collapse".
Definition EVENT_HIDE : string := "hide.bs.collapse".
Definition EVENT_HIDDEN : string := "hidden.bs.collapse".
Definition SELECTOR_ACTIVES : string := ".collapse.show, .collapse.collapsing".
Definition SELECTOR_DATA_TOGGLE : string := "[data-bs-toggle=" +:+ quoted "collapse" +:+ "]".
Definition CLASS_NAME_DEEPER_CHILDREN : string := ":scope .collapse .collapse".

(** An instance: its element, its configuration and its fields. *)
Record fields := Fields {
  _element : nat;
  c_parent : option nat;
  c_toggle : bool;
  _isTransitioning : bool;
  _triggerArray : list nat
}.

Definition set_transitioning (b : bool) (f : fields) : fields :=
  Fields (_element f) (c_parent f) (c_toggle f) b (_triggerArray f).

(** The two [complete] functions, with the dimension they close over. *)
Inductive callback := ShowComplete (i : nat) (dimension : string) | HideComplete (i : nat).
Abbreviation state := (world fields callback).

Section collapse.
Context `{B : Browser}.
Variable prevents : list (nat * string) -> nat -> string -> bool.
Variable root : nat.                                       (** [document.documentElement] *)
Variables scrollSize rectSize : gmap nat node -> nat -> string -> string.   (** pixels, as text *)
Implicit Types (w : state) (d : gmap nat node).

Definition _isShown d (e : nat) : bool := hasClass d e "show".

Definition _getDimension d (e : nat) : string := if hasClass d e "collapse-horizontal" then "width" else "height".

Definition _getFirstLevelChildren d (parent : nat) (selector : string) : list nat :=
  let children := find d CLASS_NAME_DEEPER_CHILDREN parent in
  List.filter (fun e => negb (bool_decide (e ∈ children))) (find d selector parent).

Definition _addAriaAndCollapsedClass (triggerArray : list nat) (isOpen : bool) d : gmap nat node :=
  fold_left (fun d e => setAttribute e "aria-expanded" (bool_str isOpen) (classList_toggle e "collapsed" (negb isOpen) d))
    triggerArray d.

Definition _initializeChildren (parent : option nat) d : gmap nat node :=
  match parent with
  | None => d
  | Some p =>
      fold_left (fun d e =>
        match getElementFromSelector root d e with
        | Some selected => _addAriaAndCollapsedClass [e] (_isShown d selected) d
        | None => d
        end) (_getFirstLevelChildren d p SELECTOR_DATA_TOGGLE) d
  end.

(** The triggers whose selector finds the element. *)
Definition triggersOf d (e : nat) : list nat :=
  List.filter (fun elem =>
    match getSelectorFromElement root d elem with
    | Some selector => bool_decide (e ∈ find d selector root)
    | None => false
    end) (find d SELECTOR_DATA_TOGGLE root).

(** [getElement(config.parent)] for the parent named in the data attribute. *)
Definition parentOf d (e : nat) : option nat :=
  match getAttribute d e "data-bs-parent" with
  | Some s => if str_truthy s then findOne d (parseSelector s) root else None
  | None => None
  end.

(** The constructor up to its last statement, [if (config.toggle) this.toggle()]. *)
Definition create (e : nat) (parent : option nat) (toggle : bool) w : nat * state :=
  let triggerArray := triggersOf (w_page w) e in
  let '(i, w) := construct DATA_KEY (Fields e parent toggle false triggerArray) e w in
  let d := _initializeChildren parent (w_page w) in
  let d := match parent with
           | None => _addAriaAndCollapsedClass triggerArray (_isShown d e) d
           | Some _ => d
           end in
  (i, set_page d w).

(** [getOrCreateInstance(element, {toggle: false})] *)
Definition getOrCreateInstance (e : nat) w : nat * state :=
  match getInstance DATA_KEY e w with
  | Some i => (i, w)
  | None => create e (parentOf (w_page w) e) false w
  end.

Definition transitioning (i : nat) w : bool :=
  match w_insts w !! i with Some f => _isTransitioning f | None => false end.

Definition hide (i : nat) w : state :=
  match w_insts w !! i with
  | None => w
  | Some f =>
      let e := _element f in
      if _isTransitioning f || negb (_isShown (w_page w) e) then w
      else
        let '(w, prevented) := triggers prevents e EVENT_HIDE w in
        if prevented then w
        else
          let dimension := _getDimension (w_page w) e in
          let d := setStyle e dimension (rectSize (w_page w) e dimension) (w_page w) in
          let d := classList_add e ["collapsing"] d in
          let d := classList_remove e ["collapse"; "show"] d in
          let d := fold_left (fun d trigger =>
                     match getElementFromSelector root d trigger with
                     | Some element => if negb (_isShown d element)
                                       then _addAriaAndCollapsedClass [trigger] false d else d
                     | None => d
                     end) (_triggerArray f) d in
          let d := setStyle e dimension "" d in
          let w := set_inst i (set_transitioning true f) (set_page d w) in
          set_queue (w_queue w ++ [(e, HideComplete i)]) w
  end.

Definition show (i : nat) w : state :=
  match w_insts w !! i with
  | None => w
  | Some f =>
      let e := _element f in
      if _isTransitioning f || _isShown (w_page w) e then w
      else
        let actives := match c_parent f with
                       | Some p => List.filter (fun x => negb (x =? e))
                                     (_getFirstLevelChildren (w_page w) p SELECTOR_ACTIVES)
                       | None => []
                       end in
        let '(activeChildren, w) :=
          fold_left (fun '(found, w) x => let '(j, w) := getOrCreateInstance x w in (found ++ [j], w)) actives ([], w) in
        if match activeChildren with j :: _ => transitioning j w | [] => false end then w
        else
          let '(w, prevented) := triggers prevents e EVENT_SHOW w in
          if prevented then w
          else
            let w := fold_left (fun w j => hide j w) activeChildren w in
            let dimension := _getDimension (w_page w) e in
            let d := classList_remove e ["collapse"] (w_page w) in
            let d := classList_add e ["collapsing"] d in
            let d := setStyle e dimension "0px" d in
            let d := _addAriaAndCollapsedClass (_triggerArray f) true d in
            let w := set_inst i (set_transitioning true f) (set_page d w) in
            let w := set_queue (w_queue w ++ [(e, ShowComplete i dimension)]) w in
            set_page (setStyle e dimension (scrollSize (w_page w) e dimension) (w_page w)) w
  end.

Definition toggle (i : nat) w : state :=
  match w_insts w !! i with
  | Some f => if _isShown (w_page w) (_element f) then hide i w else show i w
  | None => w
  end.

(** The constructor. *)
Definition new (e : nat) (parent : option nat) (toggle_ : bool) w : nat * state :=
  let '(i, w) := create e parent toggle_ w in
  (i, if toggle_ then toggle i w else w).

Definition runCallback (c : callback) w : state :=
  match c with
  | ShowComplete i dimension =>
      match w_insts w !! i with
      | None => w
      | Some f =>
          let e := _element f in
          let w := set_inst i (set_transitioning false f) w in
          let d := classList_remove e ["collapsing"] (w_page w) in
          let d := classList_add e ["collapse"; "show"] d in
          let w := set_page (setStyle e dimension "" d) w in
          fst (triggers prevents e EVENT_SHOWN w)
      end
  | HideComplete i =>
      match w_insts w !! i with
      | None => w
      | Some f =>
          let e := _element f in
          let w := set_inst i (set_transitioning false f) w in
          let d := classList_remove e ["collapsing"] (w_page w) in
          let w := set_page (classList_add e ["collapse"] d) w in
          fst (triggers prevents e EVENT_HIDDEN w)
      end
  end.

(** The [k]-th waiting callback runs. *)
Definition complete (k : nat) w : state :=
  match w_queue w !! k with
  | Some (_, c) => runCallback c (set_queue (delete k (w_queue w)) w)
  | None => w
  end.

(** The click handler of the data API: every target of the trigger is toggled. *)
Definition clickToggle (trigger : nat) w : state :=
  fold_left (fun w e => let '(i, w) := getOrCreateInstance e w in toggle i w)
    (getMultipleElementsFromSelector root (w_page w) trigger) w.

(** ** Classes and attributes of panels and triggers *)

Lemma aria_class ts b d e x :
  x <> "collapsed" -> hasClass (_addAriaAndCollapsedClass ts b d) e x = hasClass d e x.
Proof.
  intros Hx. unfold _addAriaAndCollapsedClass. revert d. induction ts as [|t ts IH]; intros d; cbn [fold_left]; [done|].
  rewrite IH, hasClass_setAttribute. apply String.eqb_neq in Hx. unfold classList_toggle.
  destruct (negb b); [rewrite hasClass_add|rewrite hasClass_remove]; unfold in_strs; cbn; rewrite Hx; cbn;
    rewrite ?andb_false_r, ?orb_false_r, ?andb_true_r; done.
Qed.

Lemma toggleClass_kept t c b d e : is_Some (classList_toggle t c b d !! e) <-> is_Some (d !! e).
Proof. unfold classList_toggle, classList_add, classList_remove. destruct b; apply alter_is_Some. Qed.

Lemma aria_step_kept t b d e :
  is_Some (setAttribute t "aria-expanded" (bool_str b) (classList_toggle t "collapsed" (negb b) d) !! e) <->
  is_Some (d !! e).
Proof. unfold setAttribute. rewrite alter_is_Some. apply toggleClass_kept. Qed.

Lemma aria_kept ts b d e : is_Some (_addAriaAndCollapsedClass ts b d !! e) <-> is_Some (d !! e).
Proof.
  unfold _addAriaAndCollapsedClass. revert d. induction ts as [|t ts IH]; intros d; cbn [fold_left]; [done|].
  by rewrite IH, aria_step_kept.
Qed.

Lemma aria_step d t b e :
  getAttribute (setAttribute t "aria-expanded" (bool_str b) (classList_toggle t "collapsed" (negb b) d)) e "aria-expanded" =
  if bool_decide (e = t) && bool_decide (is_Some (d !! e)) then Some (bool_str b) else getAttribute d e "aria-expanded".
Proof.
  unfold setAttribute. rewrite getAttribute_alter.
  assert (Hc : getAttribute (classList_toggle t "collapsed" (negb b) d) e "aria-expanded" = getAttribute d e "aria-expanded").
  { unfold classList_toggle. destruct (negb b); apply getAttribute_classes. }
  pose proof (toggleClass_kept t "collapsed" (negb b) d e) as Hk. unfold getAttribute in Hc at 1.
  destruct (classList_toggle t "collapsed" (negb b) d !! e) as [n|].
  - rewrite (bool_decide_true (is_Some (d !! e))) by (apply Hk; eauto). rewrite andb_true_r.
    destruct (bool_decide (e = t)); [cbn; apply oget_oset_eq|exact Hc].
  - rewrite (bool_decide_false (is_Some (d !! e))) by (intros Hs; by apply Hk in Hs as [? [=]]).
    by rewrite andb_false_r.
Qed.

(** The triggers tell the state they were given. *)
Lemma aria_told ts b d t :
  In t ts -> is_Some (d !! t) -> getAttribute (_addAriaAndCollapsedClass ts b d) t "aria-expanded" = Some (bool_str b).
Proof.
  unfold _addAriaAndCollapsedClass.
  assert (Hstay : forall ts d, getAttribute d t "aria-expanded" = Some (bool_str b) ->
    getAttribute (fold_left (fun d e => setAttribute e "aria-expanded" (bool_str b)
      (classList_toggle e "collapsed" (negb b) d)) ts d) t "aria-expanded" = Some (bool_str b)).
  { clear ts d. induction ts as [|x ts IH]; intros d Hd; cbn [fold_left]; [done|]. apply IH.
    rewrite aria_step. by destruct (_ && _). }
  revert d. induction ts as [|x ts IH]; intros d Hin Hp; [destruct Hin|]. cbn [fold_left].
  destruct Hin as [->|Hin].
  - apply Hstay. rewrite aria_step, !bool_decide_true by done. done.
  - apply IH; [done|]. by apply aria_step_kept.
Qed.

(** ** Phases of a panel *)

(** Which of its three classes the panel has. *)
Definition phase d (e : nat) (collapse collapsing shown : bool) : Prop :=
  is_Some (d !! e) /\ hasClass d e "collapse" = collapse /\ hasClass d e "collapsing" = collapsing /\
  hasClass d e "show" = shown.
Definition hidden d e := phase d e true false false.
Definition moving d e := phase d e false true false.
Definition shown d e := phase d e true false true.

Lemma phase_setStyle d e k v a b c : phase (setStyle e k v d) e a b c <-> phase d e a b c.
Proof. unfold phase. rewrite !hasClass_setStyle. unfold setStyle. by rewrite alter_is_Some. Qed.

Lemma phase_aria d e ts o a b c : phase (_addAriaAndCollapsedClass ts o d) e a b c <-> phase d e a b c.
Proof. unfold phase. by rewrite aria_kept, !aria_class. Qed.

Lemma class_kept e cs d x : is_Some (classList_add e cs d !! x) <-> is_Some (d !! x).
Proof. apply alter_is_Some. Qed.
Lemma class_kept' e cs d x : is_Some (classList_remove e cs d !! x) <-> is_Some (d !! x).
Proof. apply alter_is_Some. Qed.

Lemma phase_swap d e out inn a b c :
  phase d e a b c ->
  phase (classList_add e inn (classList_remove e out d)) e
    (a && negb (in_strs "collapse" out) || in_strs "collapse" inn)
    (b && negb (in_strs "collapsing" out) || in_strs "collapsing" inn)
    (c && negb (in_strs "show" out) || in_strs "show" inn).
Proof.
  intros (Hp & Ha & Hb & Hc). split; [by apply class_kept, class_kept'|].
  rewrite !hasClass_add, !hasClass_remove, (bool_decide_true (e = e)) by done.
  rewrite !bool_decide_true by (by apply class_kept'). cbn [andb]. by rewrite Ha, Hb, Hc.
Qed.

(** What the queue of an instance holds after it has started to move. *)
Definition started (i : nat) (f : fields) (c : callback) (name : string) w w1 : Prop :=
  moving (w_page w1) (_element f) /\ w_insts w1 !! i = Some (set_transitioning true f) /\
  w_queue w1 = w_queue w ++ [(_element f, c)] /\ w_log w1 = w_log w ++ [(_element f, name)].

Lemma show_starts i f w :
  w_insts w !! i = Some f -> c_parent f = None -> _isTransitioning f = false ->
  hidden (w_page w) (_element f) -> prevents (w_log w) (_element f) EVENT_SHOW = false ->
  exists dim, started i f (ShowComplete i dim) EVENT_SHOW w (show i w) /\
    forall t, In t (_triggerArray f) -> is_Some (w_page w !! t) ->
      getAttribute (w_page (show i w)) t "aria-expanded" = Some "true".
Proof.
  intros Hi Hpar Ht Hh Hprev. unfold show. rewrite Hi, Ht. unfold _isShown.
  destruct Hh as (Hp & Ha & Hb & Hc). rewrite Hc, Hpar. cbn [orb fold_left triggers]. rewrite Hprev. cbn [fold_left].
  eexists. split; [split; [|split; [|split]]|].
  - cbn [w_page set_page set_queue set_inst]. apply phase_setStyle, phase_aria, phase_setStyle.
    eapply (phase_swap _ _ ["collapse"] ["collapsing"] true false false). by repeat split.
  - cbn. by rewrite lookup_insert_eq.
  - reflexivity.
  - reflexivity.
  - intros t Hin Hs. cbn [w_page set_page set_queue set_inst]. rewrite getAttribute_setStyle.
    rewrite (aria_told _ true); [done|done|]. unfold setStyle. by apply alter_is_Some, class_kept, class_kept'.
Qed.

Lemma show_completes i f dim w q :
  w_insts w !! i = Some f -> w_queue w = q ++ [(_element f, ShowComplete i dim)] -> moving (w_page w) (_element f) ->
  let w2 := complete (length q) w in
  shown (w_page w2) (_element f) /\ w_insts w2 !! i = Some (set_transitioning false f) /\ w_queue w2 = q /\
  w_log w2 = w_log w ++ [(_element f, EVENT_SHOWN)] /\
  forall t, getAttribute (w_page w2) t "aria-expanded" = getAttribute (w_page w) t "aria-expanded".
Proof.
  intros Hi Hq Hm. unfold complete. rewrite Hq, lookup_app_r, Nat.sub_diag by done. cbn [lookup list_lookup].
  unfold runCallback. cbn [w_insts set_queue]. rewrite Hi. cbn [triggers fst]. split; [|split; [|split; [|split]]].
  - cbn [w_page set_page set_inst set_queue]. apply phase_setStyle.
    apply (phase_swap _ _ ["collapsing"] ["collapse"; "show"] false true false Hm).
  - cbn. by rewrite lookup_insert_eq.
  - cbn. by rewrite delete_middle, app_nil_r.
  - reflexivity.
  - intros t. cbn [w_page set_page set_inst set_queue]. rewrite getAttribute_setStyle.
    rewrite (proj1 (getAttribute_classes _ _ _ _ _)). apply getAttribute_classes.
Qed.

(** Classes other than "collapsed" survive the update of the triggers in [hide]. *)
Lemma hideTriggers_phase ts d e a b c :
  phase (fold_left (fun d trigger =>
           match getElementFromSelector root d trigger with
           | Some element => if negb (_isShown d element) then _addAriaAndCollapsedClass [trigger] false d else d
           | None => d
           end) ts d) e a b c <-> phase d e a b c.
Proof.
  revert d. induction ts as [|t ts IH]; intros d; cbn [fold_left]; [done|]. rewrite IH.
  destruct (getElementFromSelector root d t); [|done]. destruct (negb _); [apply phase_aria|done].
Qed.

Lemma hide_starts i f w :
  w_insts w !! i = Some f -> _isTransitioning f = false -> shown (w_page w) (_element f) ->
  prevents (w_log w) (_element f) EVENT_HIDE = false ->
  started i f (HideComplete i) EVENT_HIDE w (hide i w).
Proof.
  intros Hi Ht Hs Hprev. unfold hide. rewrite Hi, Ht. unfold _isShown at 1.
  pose proof Hs as (_ & _ & _ & ->). cbn [orb negb triggers]. rewrite Hprev.
  split; [|split; [|split]].
  - cbn [w_page set_page set_queue set_inst]. apply phase_setStyle, hideTriggers_phase.
    set (d := setStyle _ _ _ _). assert (Hd : shown d (_element f)) by (by apply phase_setStyle).
    destruct Hd as (Hp & Ha & Hb & Hc). split; [by apply class_kept', class_kept|].
    rewrite !hasClass_remove, !hasClass_add, !bool_decide_true by done. by rewrite Ha, Hb, Hc.
  - cbn. by rewrite lookup_insert_eq.
  - reflexivity.
  - reflexivity.
Qed.

Lemma hide_completes i f w q :
  w_insts w !! i = Some f -> w_queue w = q ++ [(_element f, HideComplete i)] -> moving (w_page w) (_element f) ->
  let w2 := complete (length q) w in
  hidden (w_page w2) (_element f) /\ w_insts w2 !! i = Some (set_transitioning false f) /\ w_queue w2 = q /\
  w_log w2 = w_log w ++ [(_element f, EVENT_HIDDEN)].
Proof.
  intros Hi Hq Hm. unfold complete. rewrite Hq, lookup_app_r, Nat.sub_diag by done. cbn [lookup list_lookup].
  unfold runCallback. cbn [w_insts set_queue]. rewrite Hi. cbn [triggers fst]. split; [|split; [|split]].
  - cbn [w_page set_page set_inst set_queue].
    apply (phase_swap _ _ ["collapsing"] ["collapse"] false true false Hm).
  - cbn. by rewrite lookup_insert_eq.
  - cbn. by rewrite delete_middle, app_nil_r.
  - reflexivity.
Qed.

Lemma moving_ignores i f w :
  w_insts w !! i = Some f -> _isTransitioning f = true -> show i w = w /\ hide i w = w.
Proof. intros Hi Ht. unfold show, hide. by rewrite Hi, Ht. Qed.

(** ** Accordions *)

(** Instances and store agree, and a moving panel has lost its class "show". *)
Record accInv w : Prop := {
  ai_data x j : Data.get (w_data w) x DATA_KEY = Some j -> exists f, w_insts w !! j = Some f /\ _element f = x;
  ai_moving j f : w_insts w !! j = Some f -> _isTransitioning f = true -> hasClass (w_page w) (_element f) "show" = false;
  ai_fresh j f : w_insts w !! j = Some f -> j < w_next w;
  ai_store : exists a, Data.represents (w_data w) a
}.

(** [w'] is a later world: no panel has become shown, no instance has changed its element. *)
Record later w w' : Prop := {
  lt_show x : hasClass (w_page w') x "show" = true -> hasClass (w_page w) x "show" = true;
  lt_inst j f : w_insts w !! j = Some f -> exists f', w_insts w' !! j = Some f' /\ _element f' = _element f
}.

Lemma later_refl w : later w w.
Proof. split; [done|]. eauto. Qed.

Lemma later_trans w1 w2 w3 : later w1 w2 -> later w2 w3 -> later w1 w3.
Proof.
  intros [S1 I1] [S2 I2]. split; [auto|]. intros j f Hj. destruct (I1 j f Hj) as (f1 & H1 & E1).
  destruct (I2 j f1 H1) as (f2 & H2 & E2). exists f2. split; [done|congruence].
Qed.

Lemma hideTriggers_show ts d x :
  hasClass (fold_left (fun d trigger =>
           match getElementFromSelector root d trigger with
           | Some element => if negb (_isShown d element) then _addAriaAndCollapsedClass [trigger] false d else d
           | None => d
           end) ts d) x "show" = hasClass d x "show".
Proof.
  revert d. induction ts as [|t ts IH]; intros d; cbn [fold_left]; [done|]. rewrite IH.
  destruct (getElementFromSelector root d t); [|done]. destruct (negb _); [by apply aria_class|done].
Qed.

(** The class "show" after [hide] has done its work. *)
Lemma hide_show i f w x :
  w_insts w !! i = Some f -> _isTransitioning f = false -> hasClass (w_page w) (_element f) "show" = true ->
  prevents (w_log w) (_element f) EVENT_HIDE = false ->
  hasClass (w_page (hide i w)) x "show" = hasClass (w_page w) x "show" && negb (bool_decide (x = _element f)) /\
  w_insts (hide i w) = <[i := set_transitioning true f]> (w_insts w) /\ w_data (hide i w) = w_data w /\
  w_next (hide i w) = w_next w.
Proof.
  intros Hi Ht Hs Hp. unfold hide. change (hasClass (w_page w) (_element f) "show") with
    (_isShown (w_page w) (_element f)) in Hs. rewrite Hi, Ht, Hs. cbn [orb negb triggers]. rewrite Hp.
  split; [|done]. cbn [w_page set_page set_queue set_inst].
  rewrite hasClass_setStyle, hideTriggers_show, hasClass_remove, hasClass_add, hasClass_setStyle.
  change (in_strs "show" ["collapse"; "show"]) with true. change (in_strs "show" ["collapsing"]) with false.
  by rewrite !andb_false_r, orb_false_r, andb_true_r.
Qed.

Hypothesis permissive : forall log e name, prevents log e name = false.

Lemma hide_step i f w :
  accInv w -> w_insts w !! i = Some f ->
  accInv (hide i w) /\ later w (hide i w) /\ hasClass (w_page (hide i w)) (_element f) "show" = false.
Proof.
  intros A Hi.
  assert (Hstay : hide i w = w -> hasClass (w_page w) (_element f) "show" = false ->
    accInv (hide i w) /\ later w (hide i w) /\ hasClass (w_page (hide i w)) (_element f) "show" = false).
  { intros -> Hs. split; [done|]. split; [apply later_refl|done]. }
  destruct (_isTransitioning f) eqn:Ht.
  { apply Hstay; [|by eapply ai_moving]. unfold hide. by rewrite Hi, Ht. }
  destruct (hasClass (w_page w) (_element f) "show") eqn:Hs.
  2:{ apply Hstay; [|done]. unfold hide. rewrite Hi, Ht. unfold _isShown. by rewrite Hs. }
  clear Hstay. pose proof (fun x => hide_show i f w x Hi Ht Hs (permissive _ _ _)) as Hh.
  destruct (Hh 0) as (_ & Hinst & Hdata & Hnext).
  assert (Hcl : forall x, hasClass (w_page (hide i w)) x "show" = hasClass (w_page w) x "show" && negb (bool_decide (x = _element f))).
  { intros x. apply Hh. }
  destruct A as [AD AM AF AS]. split; [|split].
  - split; rewrite ?Hdata, ?Hnext, ?Hinst; [| | |done].
    + intros x j Hj. destruct (AD x j Hj) as (g & Hg & Hx). destruct (decide (j = i)) as [->|Hne].
      * rewrite lookup_insert_eq. eexists. split; [done|]. rewrite Hi in Hg. by injection Hg as <-.
      * rewrite lookup_insert_ne by done. by exists g.
    + intros j g. rewrite lookup_insert_Some, Hcl. intros [[<- <-]|[Hne Hg]] Htr.
      * cbn. rewrite bool_decide_true by done. apply andb_false_r.
      * by rewrite (AM j g Hg Htr).
    + intros j g. rewrite lookup_insert_Some. intros [[<- <-]|[Hne Hg]]; by eapply AF.
  - split.
    + intros x. rewrite Hcl. by intros [? _]%andb_true_iff.
    + intros j g Hg. rewrite Hinst. destruct (decide (j = i)) as [->|Hne].
      * rewrite lookup_insert_eq. eexists. split; [done|]. rewrite Hi in Hg. by injection Hg as <-.
      * rewrite lookup_insert_ne by done. by exists g.
  - rewrite Hcl, bool_decide_true by done. apply andb_false_r.
Qed.

Lemma hide_all js xs w :
  accInv w -> Forall2 (fun j x => exists f, w_insts w !! j = Some f /\ _element f = x) js xs ->
  let w' := fold_left (fun w j => hide j w) js w in
  accInv w' /\ later w w' /\ forall x, In x xs -> hasClass (w_page w') x "show" = false.
Proof.
  cbv zeta. intros A H. revert w A H. revert xs. induction js as [|j js IH]; intros xs w A H.
  - inversion H. subst. cbn. split; [done|]. split; [apply later_refl|]. by intros x [].
  - inversion H as [|? x ? xs' (f & Hj & Hx) Hrest]. subst. cbn [fold_left].
    destruct (hide_step j f w A Hj) as (A1 & L1 & S1).
    destruct (IH xs' (hide j w) A1) as (A2 & L2 & S2).
    { eapply Forall2_impl; [exact Hrest|]. cbn. intros k y (g & Hk & Hy).
      destruct (lt_inst _ _ L1 k g Hk) as (g' & Hg' & Eg). exists g'. split; [done|congruence]. }
    split; [done|]. split; [by eapply later_trans|]. intros y [<-|Hin]; [|by apply S2].
    destruct (hasClass (w_page (fold_left _ js _)) (_element f) "show") eqn:E; [|done].
    apply (lt_show _ _ L2) in E. congruence.
Qed.

Lemma initializeChildren_show parent d x : hasClass (_initializeChildren parent d) x "show" = hasClass d x "show".
Proof.
  unfold _initializeChildren. destruct parent as [p|]; [|done].
  generalize (_getFirstLevelChildren d p SELECTOR_DATA_TOGGLE). intros l. revert d.
  induction l as [|e l IH]; intros d; cbn [fold_left]; [done|]. rewrite IH.
  destruct (getElementFromSelector root d e); [by apply aria_class|done].
Qed.

Lemma data_set_get (m : Data.elementMap nat) a e k i y j :
  Data.represents m a -> Data.get (fst (Data.set m e k i)) y k = Some j -> y = e /\ j = i \/ Data.get m y k = Some j.
Proof.
  intros Hr. destruct (Data.run_refines m a (Data.Set_ e k i) Hr) as [Hr' _]. cbn in Hr'.
  destruct (Data.set m e k i) as [m' err]. destruct (Data.slot_set a e k i) as [a' err'] eqn:Ea. cbn in Hr' |- *.
  destruct (Data.run_refines m' a' (Data.Get y k) Hr') as [_ Hg]. cbn in Hg. injection Hg as ->.
  destruct (Data.run_refines m a (Data.Get y k) Hr) as [_ Hg]. cbn in Hg. injection Hg as ->.
  unfold Data.slot_set in Ea. unfold Data.slot_get.
  assert (Hcase : a' = a \/ a' = <[e := (k, i)]> a).
  { destruct (a !! e) as [[k' i']|]; [destruct (str_eqb k' k)|]; injection Ea as <- _; auto. }
  destruct Hcase as [->| ->]; [by right|]. destruct (decide (y = e)) as [->|Hne].
  - rewrite lookup_insert_eq, String.eqb_refl. intros [= <-]. by left.
  - rewrite lookup_insert_ne by done. by right.
Qed.

Lemma getOrCreate_step x w :
  accInv w ->
  let '(j, w') := getOrCreateInstance x w in
  accInv w' /\ later w w' /\ (exists f, w_insts w' !! j = Some f /\ _element f = x) /\ w_log w' = w_log w /\
  forall k g, w_insts w !! k = Some g -> w_insts w' !! k = Some g.
Proof.
  intros A. unfold getOrCreateInstance. destruct (getInstance DATA_KEY x w) as [j|] eqn:E.
  { split; [done|]. split; [apply later_refl|]. split; [by apply (ai_data _ A)|]. done. }
  unfold create, construct. cbn [w_page]. set (d' := match parentOf _ x with None => _ | Some _ => _ end).
  assert (Hshow : forall y, hasClass d' y "show" = hasClass (w_page w) y "show").
  { intros y. unfold d'. destruct (parentOf (w_page w) x).
    - apply initializeChildren_show.
    - rewrite aria_class by done. apply initializeChildren_show. }
  clearbody d'. destruct A as [AD AM AF [a AS]].
  assert (Hnew : forall k g, w_insts w !! k = Some g -> <[w_next w := Fields x (parentOf (w_page w) x) false false
      (triggersOf (w_page w) x)]> (w_insts w) !! k = Some g).
  { intros k g Hk. rewrite lookup_insert_ne; [done|]. apply AF in Hk. lia. }
  split; [|split; [|split; [|split]]].
  - split; cbn [w_data w_insts w_page w_next set_page].
    + intros y j Hj. destruct (data_set_get _ a _ _ _ _ _ AS Hj) as [[-> ->]|Hold].
      * rewrite lookup_insert_eq. by eexists.
      * destruct (AD y j Hold) as (g & Hg & Hy). exists g. split; [by apply Hnew|done].
    + intros j g. rewrite lookup_insert_Some, Hshow. intros [[<- <-]|[_ Hg]] Ht; [done|]. by eapply AM.
    + intros j g. rewrite lookup_insert_Some. intros [[<- <-]|[_ Hg]]; [lia|]. apply AF in Hg. lia.
    + exists (fst (Data.slot_set a x DATA_KEY (w_next w))).
      destruct (Data.run_refines (w_data w) a (Data.Set_ x DATA_KEY (w_next w)) AS) as [Hr _]. cbn in Hr.
      by destruct (Data.set _ _ _ _), (Data.slot_set _ _ _ _).
  - split; cbn [w_page w_insts set_page].
    + intros y. by rewrite Hshow.
    + intros j g Hg. exists g. split; [by apply Hnew|done].
  - cbn [w_insts set_page]. rewrite lookup_insert_eq. by eexists.
  - done.
  - exact Hnew.
Qed.

Lemma getOrCreate_all xs js0 w :
  accInv w ->
  let '(js, w') := fold_left (fun '(found, w) x => let '(j, w) := getOrCreateInstance x w in (found ++ [j], w)) xs (js0, w) in
  accInv w' /\ later w w' /\ w_log w' = w_log w /\ (forall k g, w_insts w !! k = Some g -> w_insts w' !! k = Some g) /\
  exists new, js = js0 ++ new /\ Forall2 (fun j x => exists f, w_insts w' !! j = Some f /\ _element f = x) new xs.
Proof.
  revert js0 w. induction xs as [|x xs IH]; intros js0 w A; cbn [fold_left].
  { split; [done|]. split; [apply later_refl|]. split; [done|]. split; [done|]. exists []. by rewrite app_nil_r. }
  pose proof (getOrCreate_step x w A) as Hs. destruct (getOrCreateInstance x w) as [j w1].
  destruct Hs as (A1 & L1 & (f & Hj & Hx) & Hlog & Hkeep). specialize (IH (js0 ++ [j]) w1 A1).
  destruct (fold_left _ xs (js0 ++ [j], w1)) as [js w2]. destruct IH as (A2 & L2 & Hlog2 & Hkeep2 & new & -> & H2).
  split; [done|]. split; [by eapply later_trans|]. split; [congruence|]. split; [auto|].
  exists (j :: new). rewrite <- app_assoc. split; [done|]. constructor; [|done]. exists f. split; [by apply Hkeep2|done].
Qed.

(** Showing a panel of an accordion. *)
Lemma show_closes_others i f p w :
  accInv w -> w_insts w !! i = Some f -> c_parent f = Some p -> _isTransitioning f = false ->
  hasClass (w_page w) (_element f) "show" = false ->
  transitioning i (show i w) = true ->
  forall x, In x (_getFirstLevelChildren (w_page w) p SELECTOR_ACTIVES) -> hasClass (w_page (show i w)) x "show" = false.
Proof.
  intros A Hi Hpar Ht Hs. unfold show. pose proof Hs as Hs'.
  change (hasClass (w_page w) (_element f) "show") with (_isShown (w_page w) (_element f)) in Hs'.
  rewrite Hi, Ht, Hs', Hpar. cbn [orb].
  set (actives := List.filter _ _). pose proof (getOrCreate_all actives [] w A) as Hg.
  destruct (fold_left _ actives ([], w)) as [js w1]. destruct Hg as (A1 & L1 & Hlog & Hkeep & new & -> & H2).
  cbn [app]. apply Hkeep in Hi as Hi1.
  destruct (match new with j :: _ => transitioning j w1 | [] => false end).
  { unfold transitioning. rewrite Hi1, Ht. done. }
  cbn [triggers]. rewrite permissive. intros _ x Hin.
  set (w2 := World _ _ _ _ _ _ _).
  destruct (hide_all new actives w2) as (A3 & L3 & S3).
  { destruct A1. by split. }
  { done. }
  set (w3 := fold_left _ new w2) in *. cbn [w_page set_page set_queue set_inst].
  rewrite hasClass_setStyle, aria_class, hasClass_setStyle, hasClass_add, hasClass_remove by done.
  change (in_strs "show" ["collapsing"]) with false. rewrite !andb_false_r, orb_false_r.
  destruct (decide (x = _element f)) as [->|Hne].
  - destruct (hasClass (w_page w3) (_element f) "show") eqn:E3; [|done].
    apply (lt_show _ _ L3) in E3. apply (lt_show _ _ L1) in E3. congruence.
  - rewrite S3; [done|]. unfold actives. apply filter_In. split; [done|]. by apply negb_true_iff, Nat.eqb_neq.
Qed.
End collapse.
End Collapse.

(** * The theorems of this component *)

(** C30: a hidden panel that is shown and hidden again goes through its phases in order, with
    the four events in order: it moves, is shown with its triggers expanded, moves, and is
    hidden again; while it moves, [show] and [hide] do nothing. *)
Theorem collapse_cycle `{B : Browser} (prevents : list (nat * string) -> nat -> string -> bool) (root : nat)
    (scrollSize rectSize : gmap nat node -> nat -> string -> string) (i : nat) (f : Collapse.fields)
    (w : Collapse.state) :
  (forall log e name, prevents log e name = false) ->
  w_insts w !! i = Some f -> Collapse.c_parent f = None -> Collapse._isTransitioning f = false ->
  Collapse.hidden (w_page w) (Collapse._element f) ->
  let e := Collapse._element f in
  let k := length (w_queue w) in
  let show := Collapse.show prevents root scrollSize rectSize i in
  let hide := Collapse.hide prevents root rectSize i in
  let w1 := show w in
  let w2 := Collapse.complete prevents k w1 in
  let w3 := hide w2 in
  let w4 := Collapse.complete prevents k w3 in
  (Collapse.moving (w_page w1) e /\ show w1 = w1 /\ hide w1 = w1) /\
  (Collapse.shown (w_page w2) e /\ show w2 = w2 /\
     forall t, In t (Collapse._triggerArray f) -> is_Some (w_page w !! t) ->
       getAttribute (w_page w2) t "aria-expanded" = Some "true") /\
  (Collapse.moving (w_page w3) e /\ show w3 = w3 /\ hide w3 = w3) /\
  (Collapse.hidden (w_page w4) e /\ hide w4 = w4) /\
  w_queue w4 = w_queue w /\
  w_log w4 = w_log w ++ [(e, Collapse.EVENT_SHOW); (e, Collapse.EVENT_SHOWN); (e, Collapse.EVENT_HIDE); (e, Collapse.EVENT_HIDDEN)].
Proof.
  intros Hper Hi Hpar Ht Hh. cbv zeta.
  destruct (Collapse.show_starts prevents root scrollSize rectSize i f w Hi Hpar Ht Hh (Hper _ _ _))
    as (dim & (M1 & I1 & Q1 & L1) & Ar).
  set (w1 := Collapse.show prevents root scrollSize rectSize i w) in *.
  destruct (Collapse.moving_ignores prevents root scrollSize rectSize i _ w1 I1 eq_refl) as [Es1 Eh1].
  destruct (Collapse.show_completes prevents i (Collapse.set_transitioning true f) dim w1 (w_queue w) I1 Q1 M1)
    as (S2 & I2 & Q2 & L2 & Ar2).
  set (w2 := Collapse.complete prevents (length (w_queue w)) w1) in *.
  cbn [Collapse._element Collapse.set_transitioning] in S2, I2, L2.
  destruct (Collapse.hide_starts prevents root rectSize i _ w2 I2 eq_refl S2 (Hper _ _ _)) as (M3 & I3 & Q3 & L3).
  set (w3 := Collapse.hide prevents root rectSize i w2) in *.
  destruct (Collapse.moving_ignores prevents root scrollSize rectSize i _ w3 I3 eq_refl) as [Es3 Eh3].
  rewrite Q2 in Q3. destruct (Collapse.hide_completes prevents i _ w3 (w_queue w) I3 Q3 M3) as (H4 & I4 & Q4 & L4).
  set (w4 := Collapse.complete prevents (length (w_queue w)) w3) in *.
  cbn [Collapse._element Collapse.set_transitioning] in H4, I4, L4, L3, M3.
  split; [done|]. split; [|split; [done|split; [|split; [done|]]]].
  - split; [done|]. split.
    + unfold Collapse.show. rewrite I2. cbn [Collapse._isTransitioning Collapse._element Collapse.set_transitioning orb].
      unfold Collapse._isShown. by destruct S2 as (_ & _ & _ & ->).
    + intros t Hin Hs. rewrite Ar2. by apply Ar.
  - split; [done|]. unfold Collapse.hide. rewrite I4. cbn [Collapse._isTransitioning Collapse._element Collapse.set_transitioning orb].
    unfold Collapse._isShown. by destruct H4 as (_ & _ & _ & ->).
  - rewrite L4, L3, L2, L1. by rewrite <- !app_assoc.
Qed.

(** An accordion with two panels, the first of them shown. *)
Definition accordionBrowser : Browser :=
  Build_Browser (fun d e sel => str_eqb sel Collapse.SELECTOR_ACTIVES &&
      hasClass d e "collapse" && (hasClass d e "show" || hasClass d e "collapsing"))
    (fun _ _ => 1) (fun _ _ => "visible") None.

Definition accordionPage : gmap nat node :=
  <[0 := Node "HTML" [] [] [] None [1] None]> (<[1 := Node "DIV" ["accordion"] [] [] (Some 0) [2; 3] None]>
  (<[2 := Node "DIV" ["collapse"; "show"] [] [] (Some 1) [] None]>
     {[3 := Node "DIV" ["collapse"] [] [] (Some 1) [] None]})).

Definition accordion : Collapse.state :=
  World accordionPage ∅ evStart
    {[0 := Collapse.Fields 3 (Some 1) false false []; 1 := Collapse.Fields 3 None false false [3]]} 2 [] [].

Lemma accordion_inv : Collapse.accInv accordion.
Proof.
  split; cbn [accordion w_data w_insts w_page w_next].
  - intros x j. unfold Data.get. by rewrite lookup_empty.
  - intros j f Hj. destruct (decide (j = 0)) as [->|H0]; [injection Hj as <-; done|].
    destruct (decide (j = 1)) as [->|H1]; [injection Hj as <-; done|].
    rewrite lookup_insert_ne, lookup_singleton_ne in Hj by done. done.
  - intros j f Hj. destruct (decide (j = 0)) as [->|H0]; [lia|]. destruct (decide (j = 1)) as [->|H1]; [lia|].
    rewrite lookup_insert_ne, lookup_singleton_ne in Hj by done. done.
  - exists ∅. intros x. by rewrite !lookup_empty.
Qed.

Lemma collapse_cycle_witness :
  w_log (Collapse.complete (fun _ _ _ => false) 0 (@Collapse.hide accordionBrowser (fun _ _ _ => false) 0 (fun _ _ _ => "9px") 1
    (Collapse.complete (fun _ _ _ => false) 0
       (@Collapse.show accordionBrowser (fun _ _ _ => false) 0 (fun _ _ _ => "9px") (fun _ _ _ => "9px") 1 accordion)))) =
  [(3, "show.bs.collapse"); (3, "shown.bs.collapse"); (3, "hide.bs.collapse"); (3, "hidden.bs.collapse")].
Proof.
  destruct (@collapse_cycle accordionBrowser (fun _ _ _ => false) 0 (fun _ _ _ => "9px") (fun _ _ _ => "9px") 1
    (Collapse.Fields 3 None false false [3]) accordion) as (_ & _ & _ & _ & _ & H).
  - reflexivity.
  - reflexivity.
  - reflexivity.
  - reflexivity.
  - repeat split. eexists. reflexivity.
  - exact H.
Defined.


