(* ===== verification/BsCarousel.v ===== *)
(** Bootstrap's [Swipe] and [Carousel]: recognising a swipe, and sliding from one item to
    another with a transition, a timer, indicators, keys and touch. *)
From Stdlib Require Import Ascii QArith Qabs Lqa Lia ZArith.
From stdpp Require Import pretty.
From S2P Require Import Prelude BsCore BsDom.

Local Open Scope nat_scope.

(** ** Swipe *)

Module Swipe.

Definition SWIPE_THRESHOLD : Q := 40 # 1.

Record state := State { _deltaX : Q; _supportPointerEvents : bool }.

(** A pointer or touch event. *)
Record event := Event { pointerType : string; clientX : Q; touches : list Q }.

Inductive action := LeftCallback | RightCallback | EndCallback.

Definition set_delta (x : Q) (s : state) : state := State x (_supportPointerEvents s).

Definition _eventIsPointerPenTouch (s : state) (ev : event) : bool :=
  _supportPointerEvents s && (str_eqb (pointerType ev) "pen" || str_eqb (pointerType ev) "touch").

Definition _start (ev : event) (s : state) : res state :=
  if negb (_supportPointerEvents s) then
    x ← need_obj (hd_error (touches ev)); Ok (set_delta x s)
  else if _eventIsPointerPenTouch s ev then Ok (set_delta (clientX ev) s)
  else Ok s.

Definition _move (ev : event) (s : state) : res state :=
  if (1 <? length (touches ev)) then Ok (set_delta 0 s)
  else x ← need_obj (hd_error (touches ev)); Ok (set_delta (x - _deltaX s) s).

Definition _handleSwipe (s : state) : state * list action :=
  if Qle_bool (Qabs (_deltaX s)) SWIPE_THRESHOLD then (s, [])
  else
    let direction := (Qabs (_deltaX s) / _deltaX s)%Q in
    (set_delta 0 s,
     if Qeq_bool direction 0 then [] else if Qlt_bool 0 direction then [RightCallback] else [LeftCallback]).

Definition _end (ev : event) (s : state) : state * list action :=
  let s := if _eventIsPointerPenTouch s ev then set_delta (clientX ev - _deltaX s) s else s in
  let '(s, acts) := _handleSwipe s in
  (s, acts ++ [EndCallback]).

Lemma handleSwipe_spec s :
  snd (_handleSwipe s) =
    if Qlt_bool SWIPE_THRESHOLD (_deltaX s) then [RightCallback]
    else if Qlt_bool (_deltaX s) (- SWIPE_THRESHOLD) then [LeftCallback] else [].
Proof.
  unfold _handleSwipe, SWIPE_THRESHOLD. set (x := _deltaX s).
  destruct (Qle_bool (Qabs x) (40 # 1)) eqn:E; cbn [snd].
  - apply Qle_bool_iff, Qabs_Qle_condition in E as [E1 E2].
    destruct (Qlt_bool (40 # 1) x) eqn:E3; [apply Qlt_bool_iff in E3; lra|].
    destruct (Qlt_bool x (- (40 # 1))) eqn:E4; [apply Qlt_bool_iff in E4; lra|done].
  - assert (Hx : (40 # 1 < Qabs x)%Q).
    { apply Qnot_le_lt. intros H. apply Qle_bool_iff in H. congruence. }
    destruct (Qlt_le_dec 0 x) as [Hpos|Hneg].
    + assert (Ha : (Qabs x == x)%Q) by (apply Qabs_pos; lra). rewrite Ha in Hx.
      assert (Hd : (Qabs x / x == 1)%Q) by (rewrite Ha; field; lra).
      replace (Qeq_bool (Qabs x / x) 0) with false.
      2:{ symmetry. apply not_true_is_false. intros H. apply Qeq_bool_iff in H. rewrite Hd in H. lra. }
      replace (Qlt_bool 0 (Qabs x / x)) with true by (symmetry; apply Qlt_bool_iff; rewrite Hd; lra).
      by replace (Qlt_bool (40 # 1) x) with true by (symmetry; by apply Qlt_bool_iff).
    + assert (Ha : (Qabs x == - x)%Q) by (apply Qabs_neg; lra). rewrite Ha in Hx.
      assert (Hd : (Qabs x / x == -1)%Q) by (rewrite Ha; field; lra).
      replace (Qeq_bool (Qabs x / x) 0) with false.
      2:{ symmetry. apply not_true_is_false. intros H. apply Qeq_bool_iff in H. rewrite Hd in H. lra. }
      replace (Qlt_bool 0 (Qabs x / x)) with false.
      2:{ symmetry. apply not_true_is_false. intros H. apply Qlt_bool_iff in H. rewrite Hd in H. lra. }
      destruct (Qlt_bool (40 # 1) x) eqn:E3; [apply Qlt_bool_iff in E3; lra|].
      by replace (Qlt_bool x (- (40 # 1))) with true by (symmetry; apply Qlt_bool_iff; lra).
Qed.
End Swipe.

(** A finger or pen put down at [x0] and lifted at [x1] is a swipe to the right when it
    has moved more than forty pixels that way, to the left when the other way, and
    nothing otherwise; the end is reported in every case. *)
Theorem swipe_direction (x0 x1 : Q) (pointer : string) (s : Swipe.state) :
  Swipe._supportPointerEvents s = true -> pointer = "pen" \/ pointer = "touch" ->
  exists s1, Swipe._start (Swipe.Event pointer x0 []) s = Ok s1 /\
    snd (Swipe._end (Swipe.Event pointer x1 []) s1) =
      (if Qlt_bool Swipe.SWIPE_THRESHOLD (x1 - x0) then [Swipe.RightCallback]
       else if Qlt_bool (x1 - x0) (- Swipe.SWIPE_THRESHOLD) then [Swipe.LeftCallback] else []) ++ [Swipe.EndCallback].
Proof.
  intros Hs Hp. unfold Swipe._start, Swipe._end, Swipe._eventIsPointerPenTouch. rewrite Hs. cbn [negb Swipe.pointerType andb].
  assert (Ht : str_eqb pointer "pen" || str_eqb pointer "touch" = true) by (by destruct Hp as [->| ->]).
  rewrite Ht. eexists. split; [reflexivity|]. cbn [Swipe._supportPointerEvents Swipe.set_delta]. rewrite Hs. cbn [andb].
  match goal with |- context [Swipe._handleSwipe ?x] => pose proof (Swipe.handleSwipe_spec x) as H end.
  destruct (Swipe._handleSwipe _) as [s2 acts]. cbn [snd] in *. by rewrite H.
Qed.

Lemma swipe_direction_witness :
  exists s1, Swipe._start (Swipe.Event "touch" (200 # 1) []) (Swipe.State 0 true) = Ok s1 /\
    snd (Swipe._end (Swipe.Event "touch" (50 # 1) []) s1) = [Swipe.LeftCallback; Swipe.EndCallback].
Proof.
  destruct (swipe_direction (200 # 1) (50 # 1) "touch" (Swipe.State 0 true)) as (s1 & H1 & H2).
  - reflexivity.
  - right. reflexivity.
  - exists s1. split; [exact H1|exact H2].
Defined.

(** Without pointer events the distance is wrong after a second [touchmove]: every
    move subtracts the last distance and not the starting point, so a finger that went
    ten pixels to the left is taken for a swipe to the right. *)
Theorem touch_moves_forget_start :
  exists s1 s2 s3,
    Swipe._start (Swipe.Event "" 0 [100 # 1]%Q) (Swipe.State 0 false) = Ok s1 /\
    Swipe._move (Swipe.Event "" 0 [110 # 1]%Q) s1 = Ok s2 /\ Swipe._move (Swipe.Event "" 0 [90 # 1]%Q) s2 = Ok s3 /\
    snd (Swipe._end (Swipe.Event "" 0 []) s3) = [Swipe.RightCallback; Swipe.EndCallback].
Proof. eexists _, _, _. repeat split; reflexivity. Qed.

(** ** Carousel *)

Module Carousel.

Definition SELECTOR_ACTIVE : string := ".active".
Definition SELECTOR_ITEM : string := ".carousel-item".
Definition SELECTOR_ACTIVE_ITEM : string := ".active.carousel-item".
Definition EVENT_SLIDE : string := "slide.bs.carousel".
Definition EVENT_SLID : string := "slid.bs.carousel".

Inductive order := ORDER_NEXT | ORDER_PREV.
Inductive direction := DIRECTION_LEFT | DIRECTION_RIGHT.
#[export] Instance order_eq_dec : EqDecision order.
Proof. solve_decision. Defined.

Definition _directionToOrder (rtl : bool) (d : direction) : order :=
  if rtl then match d with DIRECTION_LEFT => ORDER_PREV | DIRECTION_RIGHT => ORDER_NEXT end
  else match d with DIRECTION_LEFT => ORDER_NEXT | DIRECTION_RIGHT => ORDER_PREV end.
Definition _orderToDirection (rtl : bool) (o : order) : direction :=
  if rtl then match o with ORDER_PREV => DIRECTION_LEFT | ORDER_NEXT => DIRECTION_RIGHT end
  else match o with ORDER_PREV => DIRECTION_RIGHT | ORDER_NEXT => DIRECTION_LEFT end.

Definition KEY_TO_DIRECTION : obj direction := [("ArrowLeft", DIRECTION_RIGHT); ("ArrowRight", DIRECTION_LEFT)].

(** The configuration; [ride] is truthy or not. *)
Record config := Config {
  c_interval : Z; c_defaultInterval : Z; c_keyboard : bool; c_pauseOnHover : bool; c_ride : bool; c_wrap : bool
}.

(** What is registered with [EventHandler.one] for the next [slid] event. *)
Inductive onSlid := OnceCycle | OnceTo (index : Z).

(** [completeCallBack] of a slide, with what it closes over. *)
Record slideCallback := SlideCallback {
  s_active : nat; s_next : nat; s_directional : string; s_order : string; s_to : order
}.

Record carousel := Carousel_ {
  car_page : gmap nat node;
  car_config : config;
  _interval : option Z;                 (** the running timer, by its period *)
  _activeElement : option nat;
  _isSliding : bool;
  touchTimeout : bool;
  car_uid : nat;                        (** the uid of the next one-off handler *)
  car_once : list (nat * onSlid);       (** the one-off handlers of [slid], in order *)
  car_queue : list slideCallback;       (** callbacks waiting for a transition *)
  car_log : list (string * direction)
}.

Definition set_page (d : gmap nat node) (c : carousel) : carousel :=
  Carousel_ d (car_config c) (_interval c) (_activeElement c) (_isSliding c) (touchTimeout c) (car_uid c) (car_once c) (car_queue c) (car_log c).
Definition set_interval (t : option Z) (c : carousel) : carousel :=
  Carousel_ (car_page c) (car_config c) t (_activeElement c) (_isSliding c) (touchTimeout c) (car_uid c) (car_once c) (car_queue c) (car_log c).
Definition set_config (g : config) (c : carousel) : carousel :=
  Carousel_ (car_page c) g (_interval c) (_activeElement c) (_isSliding c) (touchTimeout c) (car_uid c) (car_once c) (car_queue c) (car_log c).
Definition set_sliding (b : bool) (c : carousel) : carousel :=
  Carousel_ (car_page c) (car_config c) (_interval c) (_activeElement c) b (touchTimeout c) (car_uid c) (car_once c) (car_queue c) (car_log c).
Definition set_active (a : option nat) (c : carousel) : carousel :=
  Carousel_ (car_page c) (car_config c) (_interval c) a (_isSliding c) (touchTimeout c) (car_uid c) (car_once c) (car_queue c) (car_log c).
Definition set_touch (b : bool) (c : carousel) : carousel :=
  Carousel_ (car_page c) (car_config c) (_interval c) (_activeElement c) (_isSliding c) b (car_uid c) (car_once c) (car_queue c) (car_log c).
Definition set_once (l : list (nat * onSlid)) (c : carousel) : carousel :=
  Carousel_ (car_page c) (car_config c) (_interval c) (_activeElement c) (_isSliding c) (touchTimeout c) (car_uid c) l (car_queue c) (car_log c).
(** [EventHandler.one(this._element, EVENT_SLID, ...)] *)
Definition once (h : onSlid) (c : carousel) : carousel :=
  Carousel_ (car_page c) (car_config c) (_interval c) (_activeElement c) (_isSliding c) (touchTimeout c) (S (car_uid c))
    (car_once c ++ [(car_uid c, h)]) (car_queue c) (car_log c).
Definition handlerOf (uid : nat) (c : carousel) : option onSlid :=
  option_map snd (List.find (fun h => uid =? h.1) (car_once c)).
(** [EventHandler.off] of that handler *)
Definition offOnce (uid : nat) (c : carousel) : carousel :=
  set_once (List.filter (fun h => negb (uid =? h.1)) (car_once c)) c.
Definition set_cqueue (q : list slideCallback) (c : carousel) : carousel :=
  Carousel_ (car_page c) (car_config c) (_interval c) (_activeElement c) (_isSliding c) (touchTimeout c) (car_uid c) (car_once c) q (car_log c).
Definition log_event (name : string) (d : direction) (c : carousel) : carousel :=
  Carousel_ (car_page c) (car_config c) (_interval c) (_activeElement c) (_isSliding c) (touchTimeout c) (car_uid c) (car_once c) (car_queue c)
    (car_log c ++ [(name, d)]).

(** What remains to be done, innermost call first. *)
Inductive action :=
  | Slide (o : order) (element : option nat)
  | To (index : Z)
  | Cycle
  | Complete (cb : slideCallback)
  | DispatchSlid (uids : list nat).     (** the handlers of [slid] there were at its dispatch *)

Section carousel.
Context `{B : Browser}.
Variable element : nat.               (** [this._element] *)
Variable indicators : option nat.     (** [this._indicatorsElement] *)
Variable rtl : bool.
Variable prevents : list (string * direction) -> bool.     (** whether a listener prevents the next [slide] *)
Implicit Types (c : carousel) (d : gmap nat node).

Definition _getActive c : option nat := findOne (car_page c) SELECTOR_ACTIVE_ITEM element.
Definition _getItems c : list nat := find (car_page c) SELECTOR_ITEM element.
Definition _getItemIndex c (e : option nat) : Z :=
  match e with
  | Some e => match indexOf e (_getItems c) with Some i => Z.of_nat i | None => (-1)%Z end
  | None => (-1)%Z
  end.
Definition _isAnimated c : bool := hasClass (car_page c) element "slide".

Definition _clearInterval c : carousel := set_interval None c.

(** A [transitionend] on the carousel itself reaches no handler: those of a slide listen
    on its items. *)
Definition pause c : carousel := _clearInterval c.

Definition _updateInterval c : carousel :=
  match (match _activeElement c with Some a => Some a | None => _getActive c end) with
  | None => c
  | Some e =>
      let g := car_config c in
      let elementInterval := match getAttribute (car_page c) e "data-bs-interval" with
                             | Some s => parseInt s
                             | None => None
                             end in
      let interval := match elementInterval with
                      | Some n => if (n =? 0)%Z then c_defaultInterval g else n
                      | None => c_defaultInterval g
                      end in
      set_config (Config interval (c_defaultInterval g) (c_keyboard g) (c_pauseOnHover g) (c_ride g) (c_wrap g)) c
  end.

Definition cycle c : carousel :=
  let c := _updateInterval (_clearInterval c) in
  set_interval (Some (c_interval (car_config c))) c.

Definition _maybeEnableCycle c : carousel :=
  if negb (c_ride (car_config c)) then c
  else if _isSliding c then once OnceCycle c
  else cycle c.

(** Throws when the indicators have no active one. *)
Definition _setActiveIndicatorElement (index : Z) d : gmap nat node * option exn :=
  match indicators with
  | None => (d, None)
  | Some ind =>
      match findOne d SELECTOR_ACTIVE ind with
      | None => (d, Some (TypeError "classList"))
      | Some activeIndicator =>
          let d := removeAttribute activeIndicator "aria-current" (classList_remove activeIndicator ["active"] d) in
          let sel := "[data-bs-slide-to=" +:+ quoted (pretty index) +:+ "]" in
          (match findOne d sel ind with
           | Some n => setAttribute n "aria-current" "true" (classList_add n ["active"] d)
           | None => d
           end, None)
      end
  end.

(** [_slide]; the actions are the calls it makes at its end. *)
Definition _slide (o : order) (e : option nat) c : carousel * list action * option exn :=
  if _isSliding c then (c, [], None)
  else
    let activeElement := _getActive c in
    let isNext := bool_decide (o = ORDER_NEXT) in
    let nextElement := match e with
                       | Some e => Some e
                       | None => getNextActiveElement (_getItems c) activeElement isNext (c_wrap (car_config c))
                       end in
    if bool_decide (nextElement = activeElement) && bool_decide (is_Some activeElement) then (c, [], None)
    else
      let nextElementIndex := _getItemIndex c nextElement in
      let prevented := prevents (car_log c) in
      let c := log_event EVENT_SLIDE (_orderToDirection rtl o) c in
      if prevented then (c, [], None)
      else
        match activeElement, nextElement with
        | Some a, Some n =>
            let isCycling := bool_decide (is_Some (_interval c)) in
            let c := set_sliding true (pause c) in
            match _setActiveIndicatorElement nextElementIndex (car_page c) with
            | (d, Some x) => (set_page d c, [], Some x)
            | (d, None) =>
                let c := set_active (Some n) (set_page d c) in
                let directionalClassName := if isNext then "carousel-item-start" else "carousel-item-end" in
                let orderClassName := if isNext then "carousel-item-next" else "carousel-item-prev" in
                let d := classList_add n [orderClassName] (car_page c) in
                let d := classList_add a [directionalClassName] d in
                let d := classList_add n [directionalClassName] d in
                let c := set_page d c in
                let cb := SlideCallback a n directionalClassName orderClassName o in
                let after := if isCycling then [Cycle] else [] in
                if _isAnimated c then (set_cqueue (car_queue c ++ [cb]) c, after, None)
                else (c, Complete cb :: after, None)
            end
        | _, _ => (c, [], None)
        end.

Definition completeCallBack (cb : slideCallback) c : carousel :=
  let d := classList_remove (s_next cb) [s_directional cb; s_order cb] (car_page c) in
  let d := classList_add (s_next cb) ["active"] d in
  let d := classList_remove (s_active cb) ["active"; s_order cb; s_directional cb] d in
  log_event EVENT_SLID (_orderToDirection rtl (s_to cb)) (set_sliding false (set_page d c)).

Definition to (index : Z) c : carousel * list action :=
  let items := _getItems c in
  if (Z.of_nat (length items) - 1 <? index)%Z || (index <? 0)%Z then (c, [])
  else if _isSliding c then (once (OnceTo index) c, [])
  else
    let activeIndex := _getItemIndex c (_getActive c) in
    if (activeIndex =? index)%Z then (c, [])
    else (c, [Slide (if (activeIndex <? index)%Z then ORDER_NEXT else ORDER_PREV) (items !! Z.to_nat index)]).

Definition runAction (a : action) c : carousel * list action * option exn :=
  match a with
  | Slide o e => _slide o e c
  | To index => let '(c, acts) := to index c in (c, acts, None)
  | Cycle => (cycle c, [], None)
  | Complete cb => let c := completeCallBack cb c in (c, [DispatchSlid (map fst (car_once c))], None)
  | DispatchSlid [] => (c, [], None)
  | DispatchSlid (uid :: uids) =>
      match handlerOf uid c with
      | None => (c, [DispatchSlid uids], None)
      | Some OnceCycle => (offOnce uid c, [Cycle; DispatchSlid uids], None)
      | Some (OnceTo index) => (offOnce uid c, [To index; DispatchSlid uids], None)
      end
  end.

Fixpoint exec (fuel : nat) (acts : list action) c : carousel * option exn :=
  match acts with
  | [] => (c, None)
  | a :: acts =>
      match fuel with
      | O => (c, Some OutOfFuel)
      | S fuel =>
          match runAction a c with
          | (c, _, Some x) => (c, Some x)
          | (c, more, None) => exec fuel (more ++ acts) c
          end
      end
  end.

(** Without a transition every one-off handler may start a dispatch of those that are left. *)
Definition fuelFor c : nat := 8 * ((2 + length (car_once c)) * (2 + length (car_once c))).

Definition perform (a : action) c : carousel * option exn := exec (fuelFor c) [a] c.

Definition next c := perform (Slide ORDER_NEXT None) c.
Definition prev c := perform (Slide ORDER_PREV None) c.
Definition nextWhenVisible (documentHidden : bool) c : carousel * option exn :=
  if negb documentHidden && isVisible (car_page c) (Some element) then next c else (c, None).

(** The [k]-th waiting callback runs. *)
Definition transitionDone (k : nat) c : carousel * option exn :=
  match car_queue c !! k with
  | Some cb => perform (Complete cb) (set_cqueue (delete k (car_queue c)) c)
  | None => (c, None)
  end.

Definition _keydown (targetTag key : string) c : carousel * option exn :=
  if str_includes (toLowerCase targetTag) "input" || str_includes (toLowerCase targetTag) "textarea" then (c, None)
  else match oget key KEY_TO_DIRECTION with
       | Some d => perform (Slide (_directionToOrder rtl d) None) c
       | None => (c, None)
       end.

(** [endCallBack] of the touch listeners, and the timer it sets. *)
Definition endCallBack c : carousel :=
  if negb (c_pauseOnHover (car_config c)) then c else set_touch true (pause c).
Definition touchTimerFires c : carousel := _maybeEnableCycle (set_touch false c).

(** The callbacks a swipe is given. *)
Definition swipeAction (a : Swipe.action) c : carousel * option exn :=
  match a with
  | Swipe.LeftCallback => perform (Slide (_directionToOrder rtl DIRECTION_LEFT) None) c
  | Swipe.RightCallback => perform (Slide (_directionToOrder rtl DIRECTION_RIGHT) None) c
  | Swipe.EndCallback => (endCallBack c, None)
  end.

(** The click handler of the data API: a slide number (the attribute as the number that the
    comparisons of [to] convert it to), or "next" or another word. *)
Definition clickSlide (slideIndex : option Z) (slide : string) c : carousel * option exn :=
  let '(c, x) := match slideIndex with
                 | Some index => perform (To index) c
                 | None => if str_eqb slide "next" then next c else prev c
                 end in
  match x with Some _ => (c, x) | None => (_maybeEnableCycle c, None) end.
End carousel.

(** ** One active item, and its indicator *)

Section sliding.
Context `{B : Browser}.
Variable element : nat.
Variable indicators : option nat.
Variable rtl : bool.
Variable prevents : list (string * direction) -> bool.
Implicit Types (c : carousel) (d : gmap nat node).

Definition slideTo (i : Z) : string := "[data-bs-slide-to=" +:+ quoted (pretty i) +:+ "]".

(** How the browser matches the selectors of the carousel. *)
Record cssRules : Prop := {
  css_item d x : matches d x SELECTOR_ITEM = hasClass d x "carousel-item";
  css_active d x : matches d x SELECTOR_ACTIVE = hasClass d x "active";
  css_active_item d x : matches d x SELECTOR_ACTIVE_ITEM = hasClass d x "active" && hasClass d x "carousel-item";
  css_slideTo d x i : matches d x (slideTo i) = bool_decide (getAttribute d x "data-bs-slide-to" = Some (pretty i))
}.
Hypothesis Hcss : cssRules.

Definition items d : list nat := find d SELECTOR_ITEM element.
Definition isItem d x : bool := hasClass d x "carousel-item".

(** [d'] differs from [d] only in the presentation of the carousel; with [it] the items
    that are active are the same ones, and otherwise the elements that are not items. *)
Record same (it : bool) d d' : Prop := {
  same_tree : sameTree d d';
  same_item x : isItem d' x = isItem d x;
  same_slide x : hasClass d' x "slide" = hasClass d x "slide";
  same_to x : getAttribute d' x "data-bs-slide-to" = getAttribute d x "data-bs-slide-to";
  same_active x : isItem d x = it -> hasClass d' x "active" = hasClass d x "active"
}.

#[local] Instance same_preorder it : PreOrder (same it).
Proof.
  split; [by split|]. intros a b c [T1 I1 S1 O1 A1] [T2 I2 S2 O2 A2]. split; intros.
  - by transitivity b.
  - by rewrite I2.
  - by rewrite S2.
  - by rewrite O2.
  - rewrite A2, A1; [done|done|by rewrite I1].
Qed.

(** The class is not one of those that matter, or it is on the other side. *)
Definition apart (it : bool) d x (cs : list string) : Prop :=
  in_strs "carousel-item" cs = false /\ in_strs "slide" cs = false /\
  (in_strs "active" cs = false \/ isItem d x = negb it).

Lemma same_add it d x cs : apart it d x cs -> same it d (classList_add x cs d).
Proof.
  intros (H1 & H2 & H3). split; unfold isItem; intros; rewrite ?hasClass_add, ?H1, ?H2, ?andb_false_r, ?orb_false_r; try done.
  - apply (proj1 (sameTree_classes x cs d)).
  - apply getAttribute_classes.
  - destruct H3 as [->|H3]; [by rewrite andb_false_r, orb_false_r|].
    rewrite bool_decide_false, orb_false_r; [done|]. intros ->. unfold isItem in H3. destruct it; cbn in *; congruence.
Qed.

Lemma same_remove it d x cs : apart it d x cs -> same it d (classList_remove x cs d).
Proof.
  intros (H1 & H2 & H3). split; unfold isItem; intros; rewrite ?hasClass_remove, ?H1, ?H2, ?andb_false_r, ?andb_true_r; try done.
  - apply (proj2 (sameTree_classes x cs d)).
  - apply getAttribute_classes.
  - destruct H3 as [->|H3]; [by rewrite andb_false_r, andb_true_r|].
    rewrite bool_decide_false, andb_true_r; [done|]. intros ->. unfold isItem in H3. destruct it; cbn in *; congruence.
Qed.

Lemma same_aria it d x v : same it d (setAttribute x "aria-current" v d) /\ same it d (removeAttribute x "aria-current" d).
Proof.
  split; (split; unfold isItem; intros; rewrite ?hasClass_setAttribute, ?hasClass_removeAttribute; try done;
    [apply (sameTree_attribute x "aria-current" v d)|]).
  - unfold setAttribute. rewrite getAttribute_alter. unfold getAttribute. destruct (d !! _) as [n|]; [|done].
    destruct (bool_decide _); [|done]. cbn. by rewrite oget_oset_ne.
  - unfold removeAttribute. rewrite getAttribute_alter. unfold getAttribute. destruct (d !! _) as [n|]; [|done].
    destruct (bool_decide _); [|done]. cbn. by rewrite oget_odelete.
Qed.

Lemma items_same it d d' : same it d d' -> items d' = items d.
Proof.
  intros [HT HI _ _ _]. unfold items. apply find_same; [done|]. intros x. rewrite !(css_item Hcss). apply HI.
Qed.

Lemma In_items d x : In x (items d) -> isItem d x = true.
Proof. unfold items, find. intros [_ H]%filter_In. by rewrite (css_item Hcss) in H. Qed.

Lemma hasClass_Some d x k : hasClass d x k = true -> is_Some (d !! x).
Proof. unfold hasClass. destruct (d !! x); [by eauto|done]. Qed.

(** One element of the list matches the selector. *)
Lemma find_single d sel root y : find d sel root = [y] ->
  findOne d sel root = Some y /\
  forall x, In x (descendants (size d) d root) -> matches d x sel = bool_decide (x = y).
Proof.
  unfold findOne. intros H. rewrite H. split; [done|]. intros x Hx.
  assert (Hiff : In x (find d sel root) <-> x = y) by (rewrite H; cbn; intuition congruence).
  unfold find in Hiff. rewrite filter_In in Hiff. destruct (matches d x sel).
  - symmetry. apply bool_decide_eq_true. by apply Hiff.
  - symmetry. apply bool_decide_eq_false. intros E. by apply Hiff in E as [_ ?].
Qed.

Lemma find_single_In d sel root y : find d sel root = [y] ->
  In y (descendants (size d) d root) /\ matches d y sel = true.
Proof.
  intros H. apply (filter_In (fun x => matches d x sel)). fold (find d sel root). rewrite H. by left.
Qed.

(** Among the indicators below [ind] there is one for every item, and the active one is
    that of item [k]. *)
Record indicatorsShow (ind k : nat) d : Prop := {
  in_apart x : In x (descendants (size d) d ind) -> isItem d x = false;
  in_each i : i < length (items d) -> exists x, find d (slideTo (Z.of_nat i)) ind = [x];
  in_one x : In x (descendants (size d) d ind) ->
    hasClass d x "active" = bool_decide (getAttribute d x "data-bs-slide-to" = Some (pretty (Z.of_nat k)))
}.
Definition indicatorsAt (k : nat) d : Prop :=
  match indicators with None => True | Some ind => indicatorsShow ind k d end.

Lemma descendants_tree d d' e : sameTree d d' -> descendants (size d') d' e = descendants (size d) d e.
Proof. intros H. by rewrite (descendants_same _ d d' e H), (proj1 H). Qed.

Lemma slideTo_same it d d' i ind : same it d d' -> find d' (slideTo i) ind = find d (slideTo i) ind.
Proof.
  intros S. apply find_same; [apply S|]. intros x. rewrite !(css_slideTo Hcss). by rewrite (same_to _ _ _ S).
Qed.

Lemma indicatorsAt_same k d d' : same false d d' -> indicatorsAt k d -> indicatorsAt k d'.
Proof.
  unfold indicatorsAt. destruct indicators as [ind|]; [|done]. intros S [A E O]. split.
  - intros x. rewrite (descendants_tree d d') by apply S. rewrite (same_item _ _ _ S). apply A.
  - intros i. rewrite (items_same _ _ _ S), (slideTo_same _ _ _ _ _ S). apply E.
  - intros x. rewrite (descendants_tree d d') by apply S. intros Hx.
    rewrite (same_active _ _ _ S) by (by apply A). rewrite (same_to _ _ _ S). by apply O.
Qed.

Lemma activeIndicator ind k d :
  indicatorsShow ind k d -> k < length (items d) ->
  exists y, findOne d SELECTOR_ACTIVE ind = Some y /\ In y (descendants (size d) d ind) /\
    forall x, In x (descendants (size d) d ind) -> hasClass d x "active" = bool_decide (x = y).
Proof.
  intros [A E O] Hk. destruct (E k Hk) as [y Hy]. exists y.
  pose proof (find_single _ _ _ _ Hy) as [Hone Hall]. pose proof (find_single_In _ _ _ _ Hy) as [Hin _].
  split; [|split; [done|]].
  - rewrite <- Hone. unfold findOne, find. f_equal. apply List.filter_ext_in. intros x Hx.
    by rewrite (css_active Hcss), O, (css_slideTo Hcss).
  - intros x Hx. by rewrite O, <- (css_slideTo Hcss), Hall.
Qed.

Lemma setActiveIndicator_ok k j d :
  indicatorsAt k d -> k < length (items d) -> j < length (items d) ->
  exists d', _setActiveIndicatorElement indicators (Z.of_nat j) d = (d', None) /\ same true d d' /\ indicatorsAt j d'.
Proof.
  unfold indicatorsAt, _setActiveIndicatorElement. destruct indicators as [ind|]; [|by exists d].
  intros Hs Hk Hj. destruct (activeIndicator ind k d Hs Hk) as (y & -> & Hy & Hact). destruct Hs as [A E O].
  set (d1 := removeAttribute y "aria-current" (classList_remove y ["active"] d)).
  assert (S1 : same true d d1).
  { transitivity (classList_remove y ["active"] d); [|apply (same_aria true _ y "")].
    apply same_remove. split; [done|split; [done|right; by apply A]]. }
  destruct (E j Hj) as [n Hn]. pose proof (find_single_In _ _ _ _ Hn) as [Hin _].
  pose proof (find_single _ _ _ _ Hn) as [_ Hto].
  fold (slideTo (Z.of_nat j)). rewrite <- (slideTo_same _ _ _ _ _ S1) in Hn. pose proof (find_single _ _ _ _ Hn) as [-> _].
  assert (Hd1 : is_Some (d1 !! n)).
  { apply find_single_In in Hn as [_ Hn]. rewrite (css_slideTo Hcss) in Hn. apply bool_decide_eq_true in Hn.
    unfold getAttribute in Hn. destruct (d1 !! n); [by eauto|done]. }
  eexists. split; [reflexivity|].
  assert (S2 : same true d1 (setAttribute n "aria-current" "true" (classList_add n ["active"] d1))).
  { transitivity (classList_add n ["active"] d1); [|apply same_aria].
    apply same_add. split; [done|split; [done|right]]. rewrite (same_item _ _ _ S1). by apply A. }
  assert (S : same true d (setAttribute n "aria-current" "true" (classList_add n ["active"] d1))) by (by transitivity d1).
  split; [done|]. split.
  - intros x. rewrite (descendants_tree d) by apply S. rewrite (same_item _ _ _ S). apply A.
  - intros i. rewrite (items_same _ _ _ S), (slideTo_same _ _ _ _ _ S). apply E.
  - intros x. rewrite (descendants_tree d) by apply S. intros Hx. rewrite (same_to _ _ _ S).
    rewrite <- (css_slideTo Hcss), Hto by done. rewrite hasClass_setAttribute, hasClass_add.
    unfold d1 at 1. rewrite hasClass_removeAttribute, hasClass_remove, Hact by done. cbn.
    rewrite (bool_decide_true (is_Some (d1 !! n))) by done. rewrite !andb_true_r. by destruct (bool_decide (x = y)).
Qed.

(** Nothing is under way; [a] is the one active item, and its indicator the active one. *)
Record atRest (a : nat) c : Prop := {
  ar_sliding : _isSliding c = false;
  ar_queue : car_queue c = [];
  ar_nodup : List.NoDup (items (car_page c));
  ar_active x : In x (items (car_page c)) -> hasClass (car_page c) x "active" = bool_decide (x = a);
  ar_index : exists k, items (car_page c) !! k = Some a /\ indicatorsAt k (car_page c)
}.

(** The slide from [a] to [n] is under way: its transition has not ended. *)
Record slidingTo (a n : nat) (o : order) c : Prop := {
  st_sliding : _isSliding c = true;
  st_queue : exists dir ord, car_queue c = [SlideCallback a n dir ord o] /\
    in_strs dir ["carousel-item-start"; "carousel-item-end"] = true /\
    in_strs ord ["carousel-item-next"; "carousel-item-prev"] = true;
  st_nodup : List.NoDup (items (car_page c));
  st_ne : a <> n;
  st_in : In a (items (car_page c));
  st_active x : In x (items (car_page c)) -> hasClass (car_page c) x "active" = bool_decide (x = a);
  st_index : exists k, items (car_page c) !! k = Some n /\ indicatorsAt k (car_page c)
}.

Lemma filter_one (l : list nat) (f : nat -> bool) a :
  List.NoDup l -> In a l -> (forall x, In x l -> f x = bool_decide (x = a)) -> List.filter f l = [a].
Proof.
  intros Hnd Hin Hf. rewrite (List.filter_ext_in f (fun x => bool_decide (x = a))) by done. clear Hf.
  induction l as [|x l IH]; [destruct Hin|]. apply List.NoDup_cons_iff in Hnd as [Hx Hnd]. cbn.
  destruct (bool_decide_reflect (x = a)) as [->|Hne]; [f_equal|destruct Hin as [->|Hin]; [done|by apply IH]].
  clear -Hx. induction l as [|y l IH]; cbn; [done|]. rewrite bool_decide_false by (intros ->; apply Hx; by left).
  apply IH. intros H. apply Hx. by right.
Qed.

Lemma getActive_one a c :
  List.NoDup (items (car_page c)) -> In a (items (car_page c)) ->
  (forall x, In x (items (car_page c)) -> hasClass (car_page c) x "active" = bool_decide (x = a)) ->
  _getActive element c = Some a.
Proof.
  intros Hnd Hin Ha. unfold _getActive, findOne, find.
  assert (E : List.filter (fun x => matches (car_page c) x SELECTOR_ACTIVE_ITEM) (descendants (size (car_page c)) (car_page c) element)
    = List.filter (fun x => hasClass (car_page c) x "active") (items (car_page c))).
  { unfold items, find. induction (descendants _ _ _) as [|x l IH]; cbn; [done|].
    rewrite (css_active_item Hcss), (css_item Hcss).
    destruct (hasClass (car_page c) x "carousel-item"); [|by rewrite andb_false_r]. rewrite andb_true_r. cbn. by rewrite IH. }
  rewrite E, (filter_one _ _ a) by done. done.
Qed.

Lemma lookup_In {A} (l : list A) k x : l !! k = Some x -> In x l.
Proof. intros H. apply list_elem_of_In. by eapply list_elem_of_lookup_2. Qed.

Lemma getItemIndex_at c k x :
  List.NoDup (items (car_page c)) -> items (car_page c) !! k = Some x -> _getItemIndex element c (Some x) = Z.of_nat k.
Proof. intros Hnd Hk. unfold _getItemIndex, _getItems. fold (items (car_page c)). by rewrite (indexOf_lookup _ k). Qed.

(** What [cycle] leaves of the configuration. *)
Definition sameMode c c' : Prop :=
  c_pauseOnHover (car_config c') = c_pauseOnHover (car_config c) /\ c_ride (car_config c') = c_ride (car_config c).

Lemma cycle_frame c : exists t g, cycle element c = set_interval (Some t) (set_config g c) /\ sameMode c (set_config g c).
Proof.
  unfold cycle, _updateInterval, _clearInterval. cbn.
  destruct (match _activeElement c with Some a => Some a | None => _ end); by eexists _, _.
Qed.

Lemma fuelFor_enough c : exists m, fuelFor c = 8 + m.
Proof. exists (fuelFor c - 8). unfold fuelFor. nia. Qed.

(** The element a slide goes to. *)
Definition target (o : order) (e : option nat) (a : nat) c : option nat :=
  match e with
  | Some x => Some x
  | None => getNextActiveElement (items (car_page c)) (Some a) (bool_decide (o = ORDER_NEXT)) (c_wrap (car_config c))
  end.

(** The classes that start the transition change neither items nor indicators. *)
Lemma same_transition it d a n dir ord :
  in_strs dir ["carousel-item-start"; "carousel-item-end"] = true ->
  in_strs ord ["carousel-item-next"; "carousel-item-prev"] = true ->
  same it d (classList_add n [dir] (classList_add a [dir] (classList_add n [ord] d))).
Proof.
  intros Hd Ho.
  assert (Hdir : forall d x, apart it d x [dir]).
  { intros. apply in_strs_In in Hd. destruct Hd as [<-|[<-|[]]]; (split; [done|split; [done|by left]]). }
  assert (Hord : forall d x, apart it d x [ord]).
  { intros. apply in_strs_In in Ho. destruct Ho as [<-|[<-|[]]]; (split; [done|split; [done|by left]]). }
  etransitivity; [by apply same_add, Hord|]. etransitivity; [by apply same_add, Hdir|]. by apply same_add, Hdir.
Qed.

Lemma slide_starts a n o e c :
  atRest a c -> hasClass (car_page c) element "slide" = true -> prevents (car_log c) = false ->
  target o e a c = Some n -> n <> a -> In n (items (car_page c)) ->
  exists c1 steps, steps <= 2 /\
    (forall fuel acts, exec element indicators rtl prevents (steps + fuel) (Slide o e :: acts) c =
       exec element indicators rtl prevents fuel acts c1) /\
    slidingTo a n o c1 /\ same true (car_page c) (car_page c1) /\ car_once c1 = car_once c /\
    car_log c1 = car_log c ++ [(EVENT_SLIDE, _orderToDirection rtl o)] /\
    bool_decide (is_Some (_interval c1)) = bool_decide (is_Some (_interval c)) /\ sameMode c c1.
Proof.
  intros [Hs Hq Hnd Hact (k & Hk & Hind)] Hanim Hprev Htgt Hne Hin.
  assert (Hget : _getActive element c = Some a) by (apply getActive_one; [done|by eapply lookup_In|done]).
  apply list_elem_of_In, list_elem_of_lookup_1 in Hin as [j Hj].
  destruct (setActiveIndicator_ok k j (car_page c) Hind) as (d' & Hset & S & Hind').
  { by eapply lookup_lt_Some. } { by eapply lookup_lt_Some. }
  enough (exists c1 after, _slide element indicators rtl prevents o e c = (c1, after, None) /\
    after = (if bool_decide (is_Some (_interval c)) then [Cycle] else []) /\ _interval c1 = None /\
    slidingTo a n o c1 /\ same true (car_page c) (car_page c1) /\ car_once c1 = car_once c /\
    car_log c1 = car_log c ++ [(EVENT_SLIDE, _orderToDirection rtl o)] /\ sameMode c c1)
    as (c1 & after & Hslide & -> & Hint & Hst & Hsame & Honce & Hlog & Hmode).
  { destruct (bool_decide_reflect (is_Some (_interval c))) as [Hi|Hi].
    - destruct (cycle_frame c1) as (t & g & Hc & Hm). exists (cycle element c1), 2. split; [lia|]. split.
      { intros. cbn [Nat.add exec runAction]. by rewrite Hslide. }
      rewrite Hc. split; [destruct Hst; by split|]. unfold sameMode in *. cbn in *. destruct Hm as [-> ->]. done.
    - exists c1, 1. split; [lia|]. split.
      { intros. cbn [Nat.add exec runAction]. by rewrite Hslide. }
      by rewrite Hint. }
  unfold _slide. rewrite Hs, Hget. cbv zeta. fold (target o e a c). unfold target in Htgt. unfold _getItems.
  fold (items (car_page c)). rewrite Htgt. rewrite bool_decide_false by congruence. cbn [andb].
  rewrite Hprev. cbn [_interval log_event set_sliding pause _clearInterval set_interval set_page car_page].
  rewrite (getItemIndex_at c j) by done. rewrite Hset.
  set (dir := if bool_decide (o = ORDER_NEXT) then "carousel-item-start" else "carousel-item-end").
  set (ord := if bool_decide (o = ORDER_NEXT) then "carousel-item-next" else "carousel-item-prev").
  assert (Hdir : in_strs dir ["carousel-item-start"; "carousel-item-end"] = true) by (unfold dir; by destruct (bool_decide _)).
  assert (Hord : in_strs ord ["carousel-item-next"; "carousel-item-prev"] = true) by (unfold ord; by destruct (bool_decide _)).
  cbn [set_active set_page car_page]. set (d2 := classList_add n [dir] _).
  assert (S2 : forall it, same it d' d2) by (intros it; by apply same_transition).
  assert (S12 : same true (car_page c) d2) by (transitivity d'; [done|apply S2]).
  unfold _isAnimated. cbn [car_page]. rewrite (same_slide _ _ _ S12), Hanim.
  match goal with |- context [set_cqueue ?q ?c0] => set (c2 := set_cqueue q c0) end.
  assert (Hst : slidingTo a n o c2).
  { split; cbn; rewrite ?(items_same _ _ _ S12); try done.
    - exists dir, ord. by rewrite Hq.
    - by eapply lookup_In.
    - intros x Hx. rewrite (same_active _ _ _ S12) by (by apply In_items). by apply Hact.
    - exists j. split; [done|]. by apply (indicatorsAt_same _ d'). }
  exists c2. eexists. split; [reflexivity|]. done.
Qed.

Lemma transition_classes dir ord :
  in_strs dir ["carousel-item-start"; "carousel-item-end"] = true ->
  in_strs ord ["carousel-item-next"; "carousel-item-prev"] = true ->
  forall k, in_strs k ["carousel-item"; "slide"; "active"] = true -> k <> dir /\ k <> ord.
Proof.
  intros Hd%in_strs_In Ho%in_strs_In k Hk%in_strs_In.
  destruct Hd as [<-|[<-|[]]], Ho as [<-|[<-|[]]], Hk as [<-|[<-|[<-|[]]]]; done.
Qed.

#[local] Ltac notIn := apply in_strs_false; cbn; intuition congruence.

Lemma completed_rest a n o dir ord c :
  slidingTo a n o c -> car_queue c = [SlideCallback a n dir ord o] ->
  let c1 := completeCallBack rtl (SlideCallback a n dir ord o) (set_cqueue [] c) in
  atRest n c1 /\ same false (car_page c) (car_page c1) /\
  hasClass (car_page c1) n dir = false /\ hasClass (car_page c1) n ord = false.
Proof.
  intros [Hs (dir' & ord' & Hq & Hd & Ho) Hnd Hne Hin Hact (k & Hk & Hind)] Hq' c1. rewrite Hq in Hq'. injection Hq' as -> ->.
  pose proof (transition_classes dir ord Hd Ho) as Htr.
  destruct (Htr "carousel-item" eq_refl) as [I1 I2], (Htr "slide" eq_refl) as [S1 S2], (Htr "active" eq_refl) as [A1 A2].
  apply lookup_In in Hk as Hn. set (d := car_page c). fold d in Hnd, Hin, Hact, Hk, Hind, Hn.
  apply In_items in Hn as Hni. apply In_items in Hin as Hai.
  set (d1 := classList_remove n [dir; ord] d). set (d2 := classList_add n ["active"] d1).
  assert (E1 : same false d d1).
  { apply same_remove. split; [notIn|split; [notIn|right; done]]. }
  assert (E2 : same false d d2).
  { transitivity d1; [done|]. apply same_add. split; [done|split; [done|right]]. by rewrite (same_item _ _ _ E1). }
  assert (E3 : same false d (car_page c1)).
  { transitivity d2; [done|]. apply same_remove. split; [notIn|split; [notIn|right; by rewrite (same_item _ _ _ E2)]]. }
  assert (Hd1 : is_Some (d1 !! n)).
  { apply (hasClass_Some d1 n "carousel-item"). fold (isItem d1 n). by rewrite (same_item _ _ _ E1). }
  assert (Hcl : forall x q, hasClass (car_page c1) x q =
    ((hasClass d x q && negb (bool_decide (x = n) && in_strs q [dir; ord])) || (bool_decide (x = n) && in_strs q ["active"]))
      && negb (bool_decide (x = a) && in_strs q ["active"; ord; dir])).
  { intros x q. change (car_page c1) with (classList_remove a ["active"; ord; dir] d2).
    rewrite hasClass_remove. unfold d2. rewrite hasClass_add. unfold d1 at 1. rewrite hasClass_remove.
    rewrite (bool_decide_true (is_Some _)) by done. by rewrite andb_true_r. }
  split; [|split; [done|]].
  - split; rewrite ?(items_same _ _ _ E3); [done|done|done| |].
    + intros x Hx. rewrite Hcl, Hact by done.
      replace (in_strs "active" [dir; ord]) with false by (symmetry; notIn). cbn.
      destruct (bool_decide_reflect (x = a)) as [->|]; cbn.
      * by rewrite bool_decide_false by done.
      * by destruct (bool_decide _).
    + exists k. split; [done|]. by apply (indicatorsAt_same _ d).
  - rewrite !Hcl, bool_decide_true by done. rewrite (bool_decide_false (n = a)) by done. cbn.
    rewrite !String.eqb_refl, !orb_true_r, !andb_false_r. cbn.
    destruct (String.eqb_spec dir "active"), (String.eqb_spec ord "active"); try congruence. done.
Qed.

Lemma exec_ok fuel a acts c c' more :
  runAction element indicators rtl prevents a c = (c', more, None) ->
  exec element indicators rtl prevents (S fuel) (a :: acts) c = exec element indicators rtl prevents fuel (more ++ acts) c'.
Proof. intros H. cbn [exec]. by rewrite H. Qed.

Lemma slide_performs a n o e c :
  atRest a c -> hasClass (car_page c) element "slide" = true -> prevents (car_log c) = false ->
  target o e a c = Some n -> n <> a -> In n (items (car_page c)) ->
  exists c1, perform element indicators rtl prevents (Slide o e) c = (c1, None) /\ slidingTo a n o c1 /\ car_once c1 = car_once c /\
    car_log c1 = car_log c ++ [(EVENT_SLIDE, _orderToDirection rtl o)] /\
    bool_decide (is_Some (_interval c1)) = bool_decide (is_Some (_interval c)) /\ sameMode c c1.
Proof.
  intros Hr Hanim Hprev Ht Hne Hin.
  destruct (slide_starts a n o e c Hr Hanim Hprev Ht Hne Hin) as (c1 & steps & Hsteps & Hex & Hst & _ & Hrest).
  exists c1. split; [|by split]. destruct (fuelFor_enough c) as [m Hm]. unfold perform. rewrite Hm.
  replace (8 + m) with (steps + (8 - steps + m)) by lia. rewrite Hex. by destruct (8 - steps + m).
Qed.

(** While a slide is under way another one is not started. *)
Lemma slide_ignored o e c : _isSliding c = true -> perform element indicators rtl prevents (Slide o e) c = (c, None).
Proof.
  intros Hs. destruct (fuelFor_enough c) as [m Hm]. unfold perform. rewrite Hm. cbn [exec Nat.add runAction].
  unfold _slide. by rewrite Hs.
Qed.

Lemma slide_ends a n o c :
  slidingTo a n o c -> car_once c = [] ->
  exists c2, transitionDone element indicators rtl prevents 0 c = (c2, None) /\ atRest n c2 /\
    same false (car_page c) (car_page c2) /\
    car_log c2 = car_log c ++ [(EVENT_SLID, _orderToDirection rtl o)] /\
    car_config c2 = car_config c /\ touchTimeout c2 = touchTimeout c.
Proof.
  intros Hst Ho. destruct (st_queue _ _ _ _ Hst) as (dir & ord & Hq & _). unfold transitionDone. rewrite Hq. cbn [lookup list_lookup].
  destruct (completed_rest a n o dir ord c Hst Hq) as (Hr & Hsm & _).
  cbn [delete list_delete]. destruct (fuelFor_enough (set_cqueue [] c)) as [m Hm]. unfold perform. rewrite Hm.
  cbn [exec Nat.add runAction completeCallBack car_once log_event set_sliding set_page set_cqueue]. rewrite Ho.
  eexists. split; [reflexivity|]. done.
Qed.

(** What [to] registers while a slide is under way starts the next slide when it ends. *)
Lemma deferred_to a n m o i uid c :
  slidingTo a n o c -> car_once c = [(uid, OnceTo (Z.of_nat i))] ->
  hasClass (car_page c) element "slide" = true ->
  prevents (car_log c ++ [(EVENT_SLID, _orderToDirection rtl o)]) = false ->
  items (car_page c) !! i = Some m -> m <> n ->
  exists c2 o', transitionDone element indicators rtl prevents 0 c = (c2, None) /\ slidingTo n m o' c2 /\ car_once c2 = [].
Proof.
  intros Hst Ho Hanim Hprev Hi Hne. destruct (st_queue _ _ _ _ Hst) as (dir & ord & Hq & _).
  destruct (completed_rest a n o dir ord c Hst Hq) as (Hr & Hsm & _).
  set (cc := completeCallBack rtl (SlideCallback a n dir ord o) (set_cqueue [] c)) in *.
  assert (Hoc : car_once cc = [(uid, OnceTo (Z.of_nat i))]) by done.
  set (c1 := offOnce uid cc).
  assert (Hr1 : atRest n c1) by (destruct Hr; by split).
  destruct (ar_index _ _ Hr1) as (k & Hk & _).
  assert (Hit : items (car_page c1) = items (car_page c)) by (by apply (items_same false)).
  set (o' := if (Z.of_nat k <? Z.of_nat i)%Z then ORDER_NEXT else ORDER_PREV).
  assert (Hto : to element (Z.of_nat i) c1 = (c1, [Slide o' (Some m)])).
  { unfold to, _getItems. fold (items (car_page c1)). rewrite Hit. apply lookup_lt_Some in Hi as Hlt.
    destruct (Z.ltb_spec (Z.of_nat (length (items (car_page c))) - 1) (Z.of_nat i)); [lia|].
    destruct (Z.ltb_spec (Z.of_nat i) 0); [lia|]. cbn [orb]. rewrite (ar_sliding _ _ Hr1).
    rewrite (getActive_one n) by (try apply Hr1; by eapply lookup_In).
    rewrite (getItemIndex_at c1 k) by (try apply Hr1; done).
    destruct (Z.eqb_spec (Z.of_nat k) (Z.of_nat i)) as [E|_]; [apply Nat2Z.inj in E; congruence|].
    rewrite Nat2Z.id, Hi. done. }
  destruct (slide_starts n m o' (Some m) c1 Hr1) as (c2 & steps & Hsteps & Hex & Hst2 & _ & Ho2 & _).
  { etransitivity; [apply (same_slide _ _ _ Hsm)|done]. } { done. } { done. } { done. }
  { rewrite Hit. by eapply lookup_In. }
  exists c2, o'. split; [|split; [done|]].
  - unfold transitionDone. rewrite Hq. cbn [lookup list_lookup delete list_delete].
    destruct (fuelFor_enough (set_cqueue [] c)) as [f Hf]. unfold perform. rewrite Hf.
    cbn [Nat.add]. rewrite (exec_ok _ _ _ _ cc [DispatchSlid [uid]]) by (cbn [runAction]; by fold cc; rewrite Hoc).
    cbn [app]. rewrite (exec_ok _ _ _ _ c1 [To (Z.of_nat i); DispatchSlid []]).
    2:{ cbn [runAction]. unfold handlerOf. rewrite Hoc. cbn. by rewrite Nat.eqb_refl. }
    cbn [app]. rewrite (exec_ok _ _ _ _ c1 [Slide o' (Some m)]) by (cbn [runAction]; by rewrite Hto).
    cbn [app]. replace (S (S (S (S (S f))))) with (steps + (5 - steps + f)) by lia. rewrite Hex.
    destruct (5 - steps + f) as [|[|g]] eqn:E; [lia|lia|done].
  - rewrite Ho2. unfold c1, offOnce. cbn. rewrite Ho. cbn. by rewrite Nat.eqb_refl.
Qed.
End sliding.
End Carousel.

(** C12: from rest, a slide to another item runs to its end. It is announced, other slides are
    ignored while its transition lasts, and when the transition ends the new item is the
    one active item, its indicator the one active indicator, and the end is announced;
    the timer runs afterwards exactly if it ran before. *)
Theorem carousel_slide `{B : Browser} (element : nat) (indicators : option nat) (rtl : bool)
    (prevents : list (string * Carousel.direction) -> bool) (a n : nat) (o : Carousel.order) (e : option nat)
    (c : Carousel.carousel) :
  Carousel.cssRules -> Carousel.atRest element indicators a c -> Carousel.car_once c = [] ->
  hasClass (Carousel.car_page c) element "slide" = true -> prevents (Carousel.car_log c) = false ->
  Carousel.target element o e a c = Some n -> n <> a -> In n (Carousel.items element (Carousel.car_page c)) ->
  exists c1 c2,
    Carousel.perform element indicators rtl prevents (Carousel.Slide o e) c = (c1, None) /\
    (forall o' e', Carousel.perform element indicators rtl prevents (Carousel.Slide o' e') c1 = (c1, None)) /\
    bool_decide (is_Some (Carousel._interval c1)) = bool_decide (is_Some (Carousel._interval c)) /\
    Carousel.transitionDone element indicators rtl prevents 0 c1 = (c2, None) /\
    Carousel.atRest element indicators n c2 /\
    Carousel.car_log c2 = Carousel.car_log c ++
      [(Carousel.EVENT_SLIDE, Carousel._orderToDirection rtl o); (Carousel.EVENT_SLID, Carousel._orderToDirection rtl o)].
Proof.
  intros Hcss Hr Ho Hanim Hprev Ht Hne Hin.
  destruct (Carousel.slide_performs element indicators rtl prevents Hcss a n o e c Hr Hanim Hprev Ht Hne Hin)
    as (c1 & Hperf & Hst & Ho1 & Hlog & Hint & _).
  destruct (Carousel.slide_ends element indicators rtl prevents Hcss a n o c1 Hst) as (c2 & Hdone & Hrest & _ & Hlog2 & _); [congruence|].
  exists c1, c2. split; [|split; [|split; [|split; [|split]]]]; try done.
  - intros o' e'. apply Carousel.slide_ignored, Hst.
  - rewrite Hlog2, Hlog. by rewrite <- app_assoc.
Qed.

(** A request for item [i] made while a slide is under way is kept and carried out when that
    slide has ended: the next transition leads to item [i], which is then at rest. *)
Theorem carousel_to_deferred `{B : Browser} (element : nat) (indicators : option nat) (rtl : bool)
    (prevents : list (string * Carousel.direction) -> bool) (a n m i : nat) (o : Carousel.order) (c : Carousel.carousel) :
  Carousel.cssRules -> Carousel.slidingTo element indicators a n o c -> Carousel.car_once c = [] ->
  hasClass (Carousel.car_page c) element "slide" = true ->
  prevents (Carousel.car_log c ++ [(Carousel.EVENT_SLID, Carousel._orderToDirection rtl o)]) = false ->
  Carousel.items element (Carousel.car_page c) !! i = Some m -> m <> n ->
  exists c1 c2 c3,
    Carousel.perform element indicators rtl prevents (Carousel.To (Z.of_nat i)) c = (c1, None) /\
    Carousel.transitionDone element indicators rtl prevents 0 c1 = (c2, None) /\
    Carousel.transitionDone element indicators rtl prevents 0 c2 = (c3, None) /\
    Carousel.atRest element indicators m c3.
Proof.
  intros Hcss Hst Ho Hanim Hprev Hi Hne. set (c1 := Carousel.once (Carousel.OnceTo (Z.of_nat i)) c).
  assert (Hst1 : Carousel.slidingTo element indicators a n o c1) by (destruct Hst; by split).
  assert (Hto : Carousel.to element (Z.of_nat i) c = (c1, [])).
  { unfold Carousel.to, Carousel._getItems. fold (Carousel.items element (Carousel.car_page c)). apply lookup_lt_Some in Hi as Hlt.
    destruct (Z.ltb_spec (Z.of_nat (length (Carousel.items element (Carousel.car_page c))) - 1) (Z.of_nat i)); [lia|].
    destruct (Z.ltb_spec (Z.of_nat i) 0); [lia|]. cbn [orb]. by rewrite (Carousel.st_sliding _ _ _ _ _ _ Hst). }
  assert (Hdef : Carousel.perform element indicators rtl prevents (Carousel.To (Z.of_nat i)) c = (c1, None)).
  { destruct (Carousel.fuelFor_enough c) as [f Hf]. unfold Carousel.perform. rewrite Hf. cbn [Nat.add].
    rewrite (Carousel.exec_ok _ _ _ _ _ _ _ _ c1 []) by (cbn [Carousel.runAction]; by rewrite Hto). done. }
  destruct (Carousel.deferred_to element indicators rtl prevents Hcss a n m o i (Carousel.car_uid c) c1) as (c2 & o' & H2 & Hst2 & Ho2);
    [done|cbn; by rewrite Ho|done|done|done|done|].
  destruct (Carousel.slide_ends element indicators rtl prevents Hcss n m o' c2 Hst2 Ho2) as (c3 & H3 & Hrest & _).
  by exists c1, c2, c3.
Qed.

(** When no indicator is active the slide throws after it has marked the carousel as
    sliding, and no transition is left to unmark it: every later slide is ignored. *)
Theorem carousel_stuck_without_indicator `{B : Browser} (element ind : nat) (rtl : bool)
    (prevents : list (string * Carousel.direction) -> bool) (a n : nat) (c : Carousel.carousel) :
  Carousel._isSliding c = false -> Carousel.car_queue c = [] ->
  Carousel._getActive element c = Some a -> n <> a -> prevents (Carousel.car_log c) = false ->
  findOne (Carousel.car_page c) Carousel.SELECTOR_ACTIVE ind = None ->
  exists c1, Carousel.perform element (Some ind) rtl prevents (Carousel.Slide Carousel.ORDER_NEXT (Some n)) c
      = (c1, Some (TypeError "classList")) /\ Carousel.car_queue c1 = [] /\
    (forall o e, Carousel.perform element (Some ind) rtl prevents (Carousel.Slide o e) c1 = (c1, None)).
Proof.
  intros Hs Hq Ha Hne Hprev Hnone. destruct (Carousel.fuelFor_enough c) as [m Hm]. unfold Carousel.perform at 1. rewrite Hm.
  cbn [Nat.add Carousel.exec Carousel.runAction]. unfold Carousel._slide. rewrite Hs, Ha.
  rewrite bool_decide_false by congruence. cbn [andb]. rewrite Hprev.
  unfold Carousel._setActiveIndicatorElement. cbn. rewrite Hnone.
  eexists. split; [reflexivity|]. split; [done|]. intros o e. by apply Carousel.slide_ignored.
Qed.

(** A carousel of three items with their indicators. *)
Definition carouselBrowser : Browser :=
  Build_Browser (fun d x sel =>
      if str_eqb sel Carousel.SELECTOR_ITEM then hasClass d x "carousel-item"
      else if str_eqb sel Carousel.SELECTOR_ACTIVE then hasClass d x "active"
      else if str_eqb sel Carousel.SELECTOR_ACTIVE_ITEM then hasClass d x "active" && hasClass d x "carousel-item"
      else match getAttribute d x "data-bs-slide-to" with
           | Some v => str_eqb sel ("[data-bs-slide-to=" +:+ quoted v +:+ "]")
           | None => false
           end)
    (fun _ _ => 1) (fun _ _ => "visible") None.

Definition carouselPage : gmap nat node :=
  list_to_map [
    (0, Node "DIV" ["carousel"; "slide"] [] [] None [1; 5] None);
    (1, Node "DIV" ["carousel-inner"] [] [] (Some 0) [2; 3; 4] None);
    (2, Node "DIV" ["carousel-item"; "active"] [] [] (Some 1) [] None);
    (3, Node "DIV" ["carousel-item"] [] [] (Some 1) [] None);
    (4, Node "DIV" ["carousel-item"] [] [] (Some 1) [] None);
    (5, Node "DIV" ["carousel-indicators"] [] [] (Some 0) [6; 7; 8] None);
    (6, Node "BUTTON" ["active"] [("data-bs-slide-to", "0")] [] (Some 5) [] None);
    (7, Node "BUTTON" [] [("data-bs-slide-to", "1")] [] (Some 5) [] None);
    (8, Node "BUTTON" [] [("data-bs-slide-to", "2")] [] (Some 5) [] None)].

Definition carousel0 : Carousel.carousel :=
  Carousel.Carousel_ carouselPage (Carousel.Config 5000 5000 true true true true) (Some 5000%Z) None false false 0 [] [] [].

Lemma slideTo_inj v w : ("[data-bs-slide-to=" +:+ quoted v +:+ "]") = ("[data-bs-slide-to=" +:+ quoted w +:+ "]") -> v = w.
Proof.
  unfold quoted. cbn. intros H. injection H as H. revert w H.
  induction v as [|x v IH]; intros [|y w] H; cbn in H; try done.
  - by destruct w as [|? [|? w]].
  - by destruct v as [|? [|? v]].
  - injection H as -> H. by rewrite (IH w).
Qed.

Lemma carouselRules : @Carousel.cssRules carouselBrowser.
Proof.
  split; [done|done|done|]. intros d x i. cbn [matches carouselBrowser].
  change (str_eqb (Carousel.slideTo i) Carousel.SELECTOR_ITEM) with false.
  change (str_eqb (Carousel.slideTo i) Carousel.SELECTOR_ACTIVE) with false.
  change (str_eqb (Carousel.slideTo i) Carousel.SELECTOR_ACTIVE_ITEM) with false. cbv iota.
  destruct (getAttribute d x "data-bs-slide-to") as [v|]; [|by rewrite bool_decide_false].
  destruct (bool_decide_reflect (Some v = Some (pretty i))) as [[= ->]|Hne]; [by apply String.eqb_refl|].
  apply String.eqb_neq. intros H. apply Hne. f_equal. symmetry. by apply slideTo_inj.
Qed.

Lemma carousel0_rest : @Carousel.atRest carouselBrowser 0 (Some 5) 2 carousel0.
Proof.
  split.
  - done.
  - done.
  - vm_compute. repeat constructor; cbn; intuition discriminate.
  - intros x Hx. vm_compute in Hx. by destruct Hx as [<-|[<-|[<-|[]]]].
  - exists 0. split; [done|]. split.
    + intros x Hx. vm_compute in Hx. by destruct Hx as [<-|[<-|[<-|[]]]].
    + intros i Hi. change (length (@Carousel.items carouselBrowser 0 (Carousel.car_page carousel0))) with 3 in Hi.
      destruct i as [|[|[|i]]]; [by exists 6|by exists 7|by exists 8|lia].
    + intros x Hx. vm_compute in Hx. by destruct Hx as [<-|[<-|[<-|[]]]].
Qed.

Lemma carousel_slide_witness :
  exists c1 c2,
    @Carousel.perform carouselBrowser 0 (Some 5) false (fun _ => false) (Carousel.Slide Carousel.ORDER_PREV None) carousel0 = (c1, None) /\
    @Carousel.transitionDone carouselBrowser 0 (Some 5) false (fun _ => false) 0 c1 = (c2, None) /\
    @Carousel.atRest carouselBrowser 0 (Some 5) 4 c2.
Proof.
  destruct (@carousel_slide carouselBrowser 0 (Some 5) false (fun _ => false) 2 4 Carousel.ORDER_PREV None carousel0)
    as (c1 & c2 & H1 & _ & _ & H2 & H3 & _).
  - apply carouselRules.
  - apply carousel0_rest.
  - reflexivity.
  - reflexivity.
  - reflexivity.
  - vm_compute. reflexivity.
  - discriminate.
  - vm_compute. right. right. left. reflexivity.
  - exists c1, c2. split; [exact H1|split; [exact H2|exact H3]].
Defined.

(** The same carousel while it slides from the first item to the second. *)
Definition carousel1 : Carousel.carousel :=
  fst (@Carousel.perform carouselBrowser 0 (Some 5) false (fun _ => false) (Carousel.Slide Carousel.ORDER_NEXT None) carousel0).

Lemma carousel1_sliding : @Carousel.slidingTo carouselBrowser 0 (Some 5) 2 3 Carousel.ORDER_NEXT carousel1.
Proof.
  destruct (@Carousel.slide_performs carouselBrowser 0 (Some 5) false (fun _ => false) carouselRules 2 3 Carousel.ORDER_NEXT None carousel0
    carousel0_rest) as (c1 & Hperf & Hst & _); [done|done|done|done|vm_compute; tauto|].
  unfold carousel1. by rewrite Hperf.
Qed.

Lemma carousel_to_deferred_witness :
  exists c1 c2 c3,
    @Carousel.perform carouselBrowser 0 (Some 5) false (fun _ => false) (Carousel.To 0) carousel1 = (c1, None) /\
    @Carousel.transitionDone carouselBrowser 0 (Some 5) false (fun _ => false) 0 c1 = (c2, None) /\
    @Carousel.transitionDone carouselBrowser 0 (Some 5) false (fun _ => false) 0 c2 = (c3, None) /\
    @Carousel.atRest carouselBrowser 0 (Some 5) 2 c3.
Proof.
  apply (@carousel_to_deferred carouselBrowser 0 (Some 5) false (fun _ => false) 2 3 2 0 Carousel.ORDER_NEXT carousel1).
  - apply carouselRules.
  - apply carousel1_sliding.
  - vm_compute. reflexivity.
  - vm_compute. reflexivity.
  - reflexivity.
  - vm_compute. reflexivity.
  - discriminate.
Defined.

Lemma carousel_stuck_without_indicator_witness :
  exists c1, @Carousel.perform carouselBrowser 0 (Some 5) false (fun _ => false) (Carousel.Slide Carousel.ORDER_NEXT (Some 3))
      (Carousel.set_page (classList_remove 6 ["active"] carouselPage) carousel0) = (c1, Some (TypeError "classList")) /\
    Carousel.car_queue c1 = [] /\
    (forall o e, @Carousel.perform carouselBrowser 0 (Some 5) false (fun _ => false) (Carousel.Slide o e) c1 = (c1, None)).
Proof.
  apply (@carousel_stuck_without_indicator carouselBrowser 0 5 false (fun _ => false) 2 3).
  - reflexivity.
  - reflexivity.
  - vm_compute. reflexivity.
  - discriminate.
  - reflexivity.
  - vm_compute. reflexivity.
Defined.
