(* ===== verification/BsCarouselPage.v ===== *)
(** Carousels on one page: the constructors of [Carousel] and [Swipe] with the listeners they register,
    touch, timers and disposal, and the handlers of the data API. *)
From Stdlib Require Import Ascii QArith Qround Lqa Lia ZArith.
From S2P Require Import Prelude BsCore BsDom BsConfig BsCarousel.

Local Open Scope nat_scope.

Module CarouselPage.
Import Carousel.

Definition NAME : string := "carousel".
Definition EVENT_KEY : string := ".bs.carousel".
Definition SWIPE_EVENT_KEY : string := ".bs.swipe".
Definition EVENT_KEYDOWN : string := "keydown.bs.carousel".
Definition EVENT_MOUSEENTER : string := "mouseenter.bs.carousel".
Definition EVENT_MOUSELEAVE : string := "mouseleave.bs.carousel".
Definition EVENT_TOUCHSTART : string := "touchstart.bs.swipe".
Definition EVENT_TOUCHMOVE : string := "touchmove.bs.swipe".
Definition EVENT_TOUCHEND : string := "touchend.bs.swipe".
Definition EVENT_POINTERDOWN : string := "pointerdown.bs.swipe".
Definition EVENT_POINTERUP : string := "pointerup.bs.swipe".
Definition SELECTOR_ITEM_IMG : string := ".carousel-item img".
Definition SELECTOR_INDICATORS : string := ".carousel-indicators".
Definition SELECTOR_DATA_RIDE : string := "[data-bs-ride=" +:+ quoted "carousel" +:+ "]".

Definition Default : obj value :=
  [("interval", VNum 5000); ("keyboard", VBool true); ("pause", VStr "hover"); ("ride", VBool false); ("touch", VBool true); ("wrap", VBool true)].
Definition DefaultType : obj string :=
  [("interval", "(number|boolean)"); ("keyboard", "boolean"); ("pause", "(string|boolean)"); ("ride", "(boolean|string)");
   ("touch", "boolean"); ("wrap", "boolean")].

Definition _configAfterMerge (config : obj value) : obj value :=
  oset "defaultInterval" (default VUndefined (oget "interval" config)) config.

(** A carousel with its helper for touch, the listeners on its element and the images that may not be dragged. *)
Record instance := Instance {
  i_carousel : carousel;
  i_indicators : option nat;
  i_swipe : option Swipe.state;         (** [_swipeHelper] *)
  i_listens : list string;
  i_images : list nat
}.

Definition with_carousel (c : carousel) (i : instance) : instance :=
  Instance c (i_indicators i) (i_swipe i) (i_listens i) (i_images i).
Definition with_swipe (w : Swipe.state) (i : instance) : instance :=
  Instance (i_carousel i) (i_indicators i) (Some w) (i_listens i) (i_images i).
Definition with_page (d : gmap nat node) (i : instance) : instance := with_carousel (set_page d (i_carousel i)) i.

(** An interval as timers take it. *)
Definition readInterval (v : value) : Z :=
  match v with VNum q => if Qlt_bool q 0 then Qceiling q else Qfloor q | VBool true => 1 | _ => 0 end.

Definition isString (k : string) (v : value) : bool := match v with VStr x => str_eqb x k | _ => false end.

Definition readConfig (o : obj value) : config :=
  let get k := default VUndefined (oget k o) in
  Config (readInterval (get "interval")) (readInterval (get "defaultInterval")) (value_truthy (get "keyboard"))
    (isString "hover" (get "pause")) (value_truthy (get "ride")) (value_truthy (get "wrap")).

Section carousels.
Context `{B : Browser}.
Variable parseJson : string -> option value.
Variable root : nat.
Variable rtl : bool.
Variable touchSupported : bool.         (** [Swipe.isSupported()] *)
Variable pointerEvents : bool.          (** [window.PointerEvent] *)
Variable prevents : nat -> list (string * direction) -> bool.
Implicit Types (i : instance) (e x : nat) (d : gmap nat node).

Definition listen (names : list string) i : instance :=
  Instance (i_carousel i) (i_indicators i) (i_swipe i) (i_listens i ++ names) (i_images i).

(** The constructor of [Swipe] with [_initEvents]. *)
Definition newSwipe e i : instance :=
  let i := with_swipe (Swipe.State 0 pointerEvents) i in
  if pointerEvents
  then with_page (classList_add e ["pointer-event"] (car_page (i_carousel i))) (listen [EVENT_POINTERDOWN; EVENT_POINTERUP] i)
  else listen [EVENT_TOUCHSTART; EVENT_TOUCHMOVE; EVENT_TOUCHEND] i.

Definition _addTouchEventListeners e i : instance :=
  newSwipe e (Instance (i_carousel i) (i_indicators i) (i_swipe i) (i_listens i) (find (car_page (i_carousel i)) SELECTOR_ITEM_IMG e)).

Definition _addEventListeners (touch : bool) e i : instance :=
  let g := car_config (i_carousel i) in
  let i := if c_keyboard g then listen [EVENT_KEYDOWN] i else i in
  let i := if c_pauseOnHover g then listen [EVENT_MOUSEENTER; EVENT_MOUSELEAVE] i else i in
  if touch && touchSupported then _addTouchEventListeners e i else i.

(** The constructor. *)
Definition new (o : obj value) e d : instance :=
  let get k := default VUndefined (oget k o) in
  let c := Carousel_ d (readConfig o) None None false false 0 [] [] [] in
  let i := _addEventListeners (value_truthy (get "touch")) e (Instance c (findOne d SELECTOR_INDICATORS e) None [] []) in
  if isString "carousel" (get "ride") then with_carousel (cycle e (i_carousel i)) i else i.

Definition construct e d : res instance :=
  match getConfig parseJson NAME Default DefaultType _configAfterMerge VUndefined d (Some e) with
  | Err x => Err x
  | Ok o => Ok (new o e d)
  end.

(** ** Events of one carousel *)

Definition lift (r : carousel * option exn) i : outcome instance := (with_carousel r.1 i, r.2).
Definition hears (name : string) i : bool := in_strs name (i_listens i).

(** The callbacks of a swipe in their order. *)
Definition runSwipe e (acts : list Swipe.action) i : outcome instance :=
  fold_left (fun r a => andThen r (fun i => lift (swipeAction e (i_indicators i) rtl (prevents e) a (i_carousel i)) i)) acts (i, None).

Definition swipeStart (ev : Swipe.event) i : outcome instance :=
  match i_swipe i with
  | None => (i, None)
  | Some w => match Swipe._start ev w with Ok w => (with_swipe w i, None) | Err x => (i, Some x) end
  end.
Definition swipeMove (ev : Swipe.event) i : outcome instance :=
  match i_swipe i with
  | None => (i, None)
  | Some w => match Swipe._move ev w with Ok w => (with_swipe w i, None) | Err x => (i, Some x) end
  end.
Definition swipeEnd e (ev : Swipe.event) i : outcome instance :=
  match i_swipe i with
  | None => (i, None)
  | Some w => let '(w, acts) := Swipe._end ev w in runSwipe e acts (with_swipe w i)
  end.

Inductive event :=
  | Keydown (targetTag key : string) | Mouseenter | Mouseleave
  | Pointerdown (ev : Swipe.event) | Pointerup (ev : Swipe.event)
  | Touchstart (ev : Swipe.event) | Touchmove (ev : Swipe.event) | Touchend (ev : Swipe.event)
  | IntervalFires (documentHidden : bool) | TouchTimerFires | TransitionDone (k : nat)
  | Next | Prev | Pause | Cycle_ | To_ (index : Z).

Definition handle e (o : event) i : outcome instance :=
  let c := i_carousel i in
  let ind := i_indicators i in
  let when name r := if hears name i then r else (i, None) in
  match o with
  | Keydown tag key => when EVENT_KEYDOWN (lift (_keydown e ind rtl (prevents e) tag key c) i)
  | Mouseenter => when EVENT_MOUSEENTER (lift (pause c, None) i)
  | Mouseleave => when EVENT_MOUSELEAVE (lift (_maybeEnableCycle e c, None) i)
  | Pointerdown ev => when EVENT_POINTERDOWN (swipeStart ev i)
  | Pointerup ev => when EVENT_POINTERUP (swipeEnd e ev i)
  | Touchstart ev => when EVENT_TOUCHSTART (swipeStart ev i)
  | Touchmove ev => when EVENT_TOUCHMOVE (swipeMove ev i)
  | Touchend ev => when EVENT_TOUCHEND (swipeEnd e ev i)
  | IntervalFires hidden =>
      match _interval c with Some _ => lift (nextWhenVisible e ind rtl (prevents e) hidden c) i | None => (i, None) end
  | TouchTimerFires => if touchTimeout c then lift (touchTimerFires e c, None) i else (i, None)
  | TransitionDone k => lift (transitionDone e ind rtl (prevents e) k c) i
  | Next => lift (next e ind rtl (prevents e) c) i
  | Prev => lift (prev e ind rtl (prevents e) c) i
  | Pause => lift (pause c, None) i
  | Cycle_ => lift (cycle e c, None) i
  | To_ index => lift (perform e ind rtl (prevents e) (To index) c) i
  end.

(** [dispose] of the helper and of the component. Timers and transitions go on. *)
Definition dispose i : instance :=
  let off key l := List.filter (fun name => negb (str_includes name key)) l in
  let l := match i_swipe i with Some _ => off SWIPE_EVENT_KEY (i_listens i) | None => i_listens i end in
  Instance (set_once [] (i_carousel i)) None None (off EVENT_KEY l) (i_images i).

(** What is still to come for an instance whose properties are [null]: the timer for cycling finds no visible element, the one
    of a touch reads the configuration, and the end of a slide asks for the items of nothing. *)
Definition afterDisposal (o : event) i : outcome instance :=
  let c := i_carousel i in
  match o with
  | TouchTimerFires => if touchTimeout c then (with_carousel (set_touch false c) i, Some (TypeError "ride")) else (i, None)
  | TransitionDone k =>
      match car_queue c !! k with
      | Some cb =>
          let c := set_cqueue (delete k (car_queue c)) c in
          (with_carousel (set_page (car_page (completeCallBack rtl cb c)) c) i, Some (TypeError "querySelectorAll"))
      | None => (i, None)
      end
  | _ => (i, None)
  end.

(** ** The page *)

Record pages := Pages {
  p_page : gmap nat node;
  p_carousels : gmap nat instance;
  p_gone : list instance                (** disposed of, with timers or transitions to come *)
}.
Implicit Types (s : pages).

Definition put e i s : pages := Pages (car_page (i_carousel i)) (<[e := i]> (p_carousels s)) (p_gone s).

Definition at_ e (f : instance -> outcome instance) s : outcome pages :=
  match p_carousels s !! e with
  | None => (s, None)
  | Some i => let r := f (with_page (p_page s) i) in (put e r.1 s, r.2)
  end.

Definition getOrCreateInstance e s : outcome pages :=
  match p_carousels s !! e with
  | Some _ => (s, None)
  | None => match construct e (p_page s) with Ok i => (put e i s, None) | Err x => (s, Some x) end
  end.

Definition disposeAt e s : pages :=
  match p_carousels s !! e with
  | None => s
  | Some i => Pages (p_page s) (delete e (p_carousels s)) (p_gone s ++ [dispose i])
  end.

(** A click on an element that names a slide by its number (in decimal) or direction. *)
Definition clickData x s : outcome pages :=
  match getElementFromSelector root (p_page s) x with
  | None => (s, None)
  | Some t =>
      if negb (hasClass (p_page s) t "carousel") then (s, None)
      else
        andThen (getOrCreateInstance t s) (at_ t (fun i =>
          let slideIndex := match getAttribute (p_page s) x "data-bs-slide-to" with
                            | Some v => if str_truthy v then parseInt v else None
                            | None => None
                            end in
          let slide := match getDataAttribute parseJson (p_page s) x "slide" with VStr v => v | _ => "" end in
          lift (clickSlide t (i_indicators i) rtl (prevents t) slideIndex slide (i_carousel i)) i))
  end.

(** [load]: the carousels that the markup sets in motion. *)
Definition load s : outcome pages :=
  fold_left (fun r e => andThen r (getOrCreateInstance e)) (find (p_page s) SELECTOR_DATA_RIDE root) (s, None).

Inductive op := ClickData (x : nat) | Load | At (e : nat) (o : event) | Dispose (e : nat) | Gone (k : nat) (o : event).

Definition step (o : op) s : outcome pages :=
  match o with
  | ClickData x => clickData x s
  | Load => load s
  | At e o => at_ e (handle e o) s
  | Dispose e => (disposeAt e s, None)
  | Gone k o =>
      match p_gone s !! k with
      | None => (s, None)
      | Some i =>
          let r := afterDisposal o (with_page (p_page s) i) in
          (Pages (car_page (i_carousel r.1)) (p_carousels s) (<[k := r.1]> (p_gone s)), r.2)
      end
  end.

Definition run (ops : list op) s : pages := fold_left (fun s o => fst (step o s)) ops s.
End carousels.

(** ** Touch *)

Section swiping.
Context `{B : Browser}.
Variable e : nat.
Variable rtl : bool.
Variable prevents : nat -> list (string * direction) -> bool.
Implicit Types (i : instance).

(** Pen or finger down and up again: the helper reports the direction, then the end. *)
Lemma swipe_reported pointer x0 x1 w : Swipe._supportPointerEvents w = true -> pointer = "pen" \/ pointer = "touch" ->
  exists w1 w2, Swipe._start (Swipe.Event pointer x0 []) w = Ok w1 /\
    Swipe._end (Swipe.Event pointer x1 []) w1 =
      (w2, (if Qlt_bool Swipe.SWIPE_THRESHOLD (x1 - x0) then [Swipe.RightCallback]
            else if Qlt_bool (x1 - x0) (- Swipe.SWIPE_THRESHOLD) then [Swipe.LeftCallback] else []) ++ [Swipe.EndCallback]).
Proof.
  intros Hs Hp. unfold Swipe._start, Swipe._end, Swipe._eventIsPointerPenTouch. rewrite Hs. cbn [negb Swipe.pointerType andb].
  assert (Ht : str_eqb pointer "pen" || str_eqb pointer "touch" = true) by (by destruct Hp as [->| ->]).
  rewrite Ht. set (w1 := Swipe.set_delta x0 w). exists w1, (Swipe._handleSwipe (Swipe.set_delta (x1 - x0) w1)).1.
  split; [reflexivity|]. cbn [Swipe._supportPointerEvents Swipe.set_delta w1]. rewrite Hs. cbn [andb].
  pose proof (Swipe.handleSwipe_spec (Swipe.set_delta (x1 - x0) w1)) as H. cbn [Swipe._deltaX Swipe.set_delta] in H. rewrite <- H.
  cbn [Swipe.clientX Swipe._deltaX w1 Swipe.set_delta]. by destruct (Swipe._handleSwipe _).
Qed.

(** A slide by touch, and the pause that follows. *)
Lemma swipe_slides dir a n i : cssRules -> atRest e (i_indicators i) a (i_carousel i) ->
  hasClass (car_page (i_carousel i)) e "slide" = true -> prevents e (car_log (i_carousel i)) = false ->
  target e (_directionToOrder rtl dir) None a (i_carousel i) = Some n -> n <> a -> In n (items e (car_page (i_carousel i))) ->
  c_pauseOnHover (car_config (i_carousel i)) = true ->
  exists c1, runSwipe rtl prevents e [match dir with DIRECTION_LEFT => Swipe.LeftCallback | DIRECTION_RIGHT => Swipe.RightCallback end; Swipe.EndCallback] i
      = (with_carousel c1 i, None) /\
    slidingTo e (i_indicators i) a n (_directionToOrder rtl dir) c1 /\ car_once c1 = car_once (i_carousel i) /\
    _interval c1 = None /\ touchTimeout c1 = true /\ c_ride (car_config c1) = c_ride (car_config (i_carousel i)).
Proof.
  intros Hcss Hr Hanim Hprev Ht Hne Hin Hh.
  destruct (slide_performs e (i_indicators i) rtl (prevents e) Hcss a n _ None _ Hr Hanim Hprev Ht Hne Hin)
    as (c1 & Hperf & Hst & Ho & _ & _ & [Hm1 Hm2]).
  exists (set_touch true (pause c1)). split; [|split; [destruct Hst; by split|]].
  - unfold runSwipe. cbn [fold_left andThen]. destruct dir; cbn [swipeAction]; unfold lift; rewrite Hperf; cbn; unfold endCallBack; rewrite Hm1, Hh; done.
  - cbn. by rewrite Hm2.
Qed.
End swiping.
End CarouselPage.


(** A carousel that cycles, on a device with touch and pointer events. *)
Definition touchPage : gmap nat node := setAttribute 0 "data-bs-ride" "carousel" carouselPage.
Definition touchCarousel : CarouselPage.instance :=
  match @CarouselPage.construct carouselBrowser (fun _ => None) true true 0 touchPage with
  | Ok i => i
  | Err _ => CarouselPage.Instance carousel0 None None [] []
  end.



