(* ===== verification/BsToast.v ===== *)
(** Bootstrap's [Toast]: a message that shows itself, hides itself after a delay, and waits
    while the user points at it or has the focus in it. *)
From Stdlib Require Import Lia.
From S2P Require Import Prelude BsDom.

Local Open Scope nat_scope.

Module Toast.

Definition EVENT_HIDE : string := "hide.bs.toast".
Definition EVENT_HIDDEN : string := "hidden.bs.toast".
Definition EVENT_SHOW : string := "show.bs.toast".
Definition EVENT_SHOWN : string := "shown.bs.toast".

(** The two [complete] functions. *)
Inductive callback := ShowComplete | HideComplete.
#[export] Instance callback_eq_dec : EqDecision callback.
Proof. solve_decision. Defined.

Record toast := Toast_ {
  t_page : gmap nat node;
  t_element : option nat;               (** [null] once disposed *)
  t_animation : bool;
  t_autohide : bool;
  _timeout : option nat;
  t_timers : list nat;                  (** timers that have neither fired nor been cleared *)
  t_fresh : nat;                        (** the next timer *)
  _hasMouseInteraction : bool;
  _hasKeyboardInteraction : bool;
  t_queue : list callback;              (** callbacks waiting for a transition *)
  t_log : list string                   (** events triggered, oldest first *)
}.

Definition set_page (d : gmap nat node) (t : toast) : toast :=
  Toast_ d (t_element t) (t_animation t) (t_autohide t) (_timeout t) (t_timers t) (t_fresh t) (_hasMouseInteraction t)
    (_hasKeyboardInteraction t) (t_queue t) (t_log t).
Definition set_timers (timeout : option nat) (timers : list nat) (fresh : nat) (t : toast) : toast :=
  Toast_ (t_page t) (t_element t) (t_animation t) (t_autohide t) timeout timers fresh (_hasMouseInteraction t)
    (_hasKeyboardInteraction t) (t_queue t) (t_log t).
Definition set_mouse (b : bool) (t : toast) : toast :=
  Toast_ (t_page t) (t_element t) (t_animation t) (t_autohide t) (_timeout t) (t_timers t) (t_fresh t) b
    (_hasKeyboardInteraction t) (t_queue t) (t_log t).
Definition set_keyboard (b : bool) (t : toast) : toast :=
  Toast_ (t_page t) (t_element t) (t_animation t) (t_autohide t) (_timeout t) (t_timers t) (t_fresh t)
    (_hasMouseInteraction t) b (t_queue t) (t_log t).
Definition set_queue (q : list callback) (t : toast) : toast :=
  Toast_ (t_page t) (t_element t) (t_animation t) (t_autohide t) (_timeout t) (t_timers t) (t_fresh t)
    (_hasMouseInteraction t) (_hasKeyboardInteraction t) q (t_log t).
Definition log_event (name : string) (t : toast) : toast :=
  Toast_ (t_page t) (t_element t) (t_animation t) (t_autohide t) (_timeout t) (t_timers t) (t_fresh t)
    (_hasMouseInteraction t) (_hasKeyboardInteraction t) (t_queue t) (t_log t ++ [name]).
Definition forget_element (t : toast) : toast :=
  Toast_ (t_page t) None (t_animation t) (t_autohide t) (_timeout t) (t_timers t) (t_fresh t)
    (_hasMouseInteraction t) (_hasKeyboardInteraction t) (t_queue t) (t_log t).

Section toast.
Variable prevents : list string -> string -> bool.     (** whether a listener prevents the event *)
Implicit Types (t : toast).

(** [clearTimeout] of a timer that has fired does nothing. *)
Definition _clearTimeout t : toast :=
  set_timers None (match _timeout t with
                   | Some i => List.filter (fun j => negb (i =? j)) (t_timers t)
                   | None => t_timers t
                   end) (t_fresh t) t.

Definition _maybeScheduleHide t : toast :=
  if negb (t_autohide t) then t
  else if _hasMouseInteraction t || _hasKeyboardInteraction t then t
  else set_timers (Some (t_fresh t)) (t_timers t ++ [t_fresh t]) (S (t_fresh t)) t.

Definition isShown t : res bool :=
  e ← need_obj (t_element t); Ok (hasClass (t_page t) e "show").

Definition complete (cb : callback) t : res toast :=
  e ← need_obj (t_element t);
  match cb with
  | ShowComplete =>
      let t := set_page (classList_remove e ["showing"] (t_page t)) t in
      Ok (_maybeScheduleHide (log_event EVENT_SHOWN t))
  | HideComplete =>
      let d := classList_remove e ["showing"; "show"] (classList_add e ["hide"] (t_page t)) in
      Ok (log_event EVENT_HIDDEN (set_page d t))
  end.

Definition _queueCallback (cb : callback) t : res toast :=
  if t_animation t then Ok (set_queue (t_queue t ++ [cb]) t) else complete cb t.

Definition show t : res toast :=
  e ← need_obj (t_element t);
  let prevented := prevents (t_log t) EVENT_SHOW in
  let t := log_event EVENT_SHOW t in
  if prevented then Ok t
  else
    let t := _clearTimeout t in
    let d := if t_animation t then classList_add e ["fade"] (t_page t) else t_page t in
    let d := classList_add e ["show"; "showing"] (classList_remove e ["hide"] d) in
    _queueCallback ShowComplete (set_page d t).

Definition hide t : res toast :=
  e ← need_obj (t_element t);
  shown ← isShown t;
  if negb shown then Ok t
  else
    let prevented := prevents (t_log t) EVENT_HIDE in
    let t := log_event EVENT_HIDE t in
    if prevented then Ok t
    else _queueCallback HideComplete (set_page (classList_add e ["showing"] (t_page t)) t).

Definition dispose t : res toast :=
  e ← need_obj (t_element t);
  let t := _clearTimeout t in
  shown ← isShown t;
  let t := if (shown : bool) then set_page (classList_remove e ["show"] (t_page t)) t else t in
  Ok (forget_element t).

(** [inside]: the event's [relatedTarget] is the toast or one of its descendants. *)
Definition _onInteraction (type : string) (isInteracting inside : bool) t : toast :=
  let t := if in_strs type ["mouseover"; "mouseout"] then set_mouse isInteracting t
           else if in_strs type ["focusin"; "focusout"] then set_keyboard isInteracting t
           else t in
  if isInteracting then _clearTimeout t
  else if inside then t
  else _maybeScheduleHide t.

(** ** One event at a time *)

Inductive event :=
  | Show
  | Hide
  | Dispose
  | MouseOver
  | MouseOut (inside : bool)
  | FocusIn
  | FocusOut (inside : bool)
  | TransitionDone (k : nat)            (** the [k]-th waiting callback runs *)
  | TimerFires (i : nat).

(** The listeners of [_setListeners]; disposing removes them. *)
Definition listens (type : string) (isInteracting inside : bool) t : toast :=
  match t_element t with Some _ => _onInteraction type isInteracting inside t | None => t end.

Definition step t (ev : event) : res toast :=
  match ev with
  | Show => show t
  | Hide => hide t
  | Dispose => dispose t
  | MouseOver => Ok (listens "mouseover" true false t)
  | MouseOut inside => Ok (listens "mouseout" false inside t)
  | FocusIn => Ok (listens "focusin" true false t)
  | FocusOut inside => Ok (listens "focusout" false inside t)
  | TransitionDone k =>
      match t_queue t !! k with
      | Some cb => complete cb (set_queue (delete k (t_queue t)) t)
      | None => Ok t
      end
  | TimerFires i =>
      if existsb (Nat.eqb i) (t_timers t)
      then hide (set_timers (_timeout t) (List.filter (fun j => negb (i =? j)) (t_timers t)) (t_fresh t) t)
      else Ok t
  end.

Definition run (evs : list event) t : res toast := foldM step evs t.
End toast.

(** A toast that has just been constructed. *)
Definition start (d : gmap nat node) (e : nat) (animation autohide : bool) : toast :=
  Toast_ d (Some e) animation autohide None [] 0 false false [] [].

Definition interacting (t : toast) : bool := _hasMouseInteraction t || _hasKeyboardInteraction t.

(** ** The timer waits for the user *)

Section timer.
Variable prevents : list string -> string -> bool.
Implicit Types (t : toast).

(** The pointer and the focus leave only what they have entered, and neither they leave
    nor is the toast shown again while it is fading in. *)
Definition calm t (ev : event) : Prop :=
  match ev with
  | Show => ~ In ShowComplete (t_queue t)
  | MouseOut _ => _hasMouseInteraction t = true /\ ~ In ShowComplete (t_queue t)
  | FocusOut _ => _hasKeyboardInteraction t = true /\ ~ In ShowComplete (t_queue t)
  | Dispose => False
  | _ => True
  end.

Fixpoint calmRun t (evs : list event) : Prop :=
  match evs with
  | [] => True
  | ev :: evs => calm t ev /\ forall t', step prevents t ev = Ok t' -> calmRun t' evs
  end.

Record timerInv t : Prop := {
  ti_element : is_Some (t_element t);
  ti_one : t_timers t = [] \/ exists i, t_timers t = [i] /\ _timeout t = Some i;
  ti_wait : interacting t = true -> t_timers t = [];
  ti_showing : In ShowComplete (t_queue t) -> t_timers t = [];
  ti_once : count_occ callback_eq_dec (t_queue t) ShowComplete <= 1
}.

Lemma clear_none t : timerInv t -> t_timers (_clearTimeout t) = [].
Proof.
  intros [_ [E|(i & E & Hi)] _ _ _]; cbn; rewrite E; [by destruct (_timeout t)|].
  rewrite Hi. cbn. by rewrite Nat.eqb_refl.
Qed.

(** With no timer pending, whatever [_maybeScheduleHide] does keeps the invariant. *)
Lemma schedule_inv t :
  is_Some (t_element t) -> t_timers t = [] -> ~ In ShowComplete (t_queue t) -> timerInv (_maybeScheduleHide t).
Proof.
  intros He Ht Hq. assert (H0 : count_occ callback_eq_dec (t_queue t) ShowComplete = 0) by (by apply count_occ_not_In).
  unfold _maybeScheduleHide. destruct (t_autohide t); cbn [negb]; [destruct (_ || _) eqn:E|].
  - split; [done|by left|done|done|lia].
  - split; cbn; [done|rewrite Ht; right; by eexists|unfold interacting; cbn; by rewrite E|done|lia].
  - split; [done|by left|done|done|lia].
Qed.

Lemma quiet_inv t :
  is_Some (t_element t) -> t_timers t = [] -> count_occ callback_eq_dec (t_queue t) ShowComplete <= 1 -> timerInv t.
Proof. intros. split; [done|by left|done|done|done]. Qed.

Lemma complete_inv cb t :
  is_Some (t_element t) -> (cb = ShowComplete -> t_timers t = [] /\ ~ In ShowComplete (t_queue t)) ->
  (cb = HideComplete -> timerInv t) -> exists t', complete cb t = Ok t' /\ timerInv t'.
Proof.
  intros [e He] Hs Hh. unfold complete. rewrite He. destruct cb; cbn [need_obj mbind res_bind]; (eexists; split; [reflexivity|]).
  - destruct (Hs eq_refl). apply schedule_inv; cbn; [by rewrite He|done|done].
  - destruct (Hh eq_refl) as [I1 I2 I3 I4 I5]. by split.
Qed.

Lemma hide_inv t : timerInv t -> exists t', hide prevents t = Ok t' /\ timerInv t'.
Proof.
  intros I. destruct (ti_element _ I) as [e He]. unfold hide, isShown. rewrite He. cbn [need_obj mbind res_bind].
  destruct (hasClass _ _ _); cbn [negb]; [|by eexists]. destruct (prevents _ _).
  { eexists. split; [reflexivity|]. destruct I. by split. }
  unfold _queueCallback. cbn [t_animation set_page log_event]. destruct (t_animation t).
  - eexists. split; [reflexivity|]. destruct I as [I1 I2 I3 I4 I5]. split; cbn; [done|done|done| |].
    + rewrite in_app_iff. intros [H|[H|[]]]; [by apply I4|discriminate].
    + rewrite count_occ_app. cbn. lia.
  - apply complete_inv; [cbn; by rewrite He|done|]. intros _. destruct I. by split.
Qed.

Lemma show_inv t :
  timerInv t -> ~ In ShowComplete (t_queue t) -> exists t', show prevents t = Ok t' /\ timerInv t'.
Proof.
  intros I Hq. destruct (ti_element _ I) as [e He]. unfold show. rewrite He. cbn [need_obj mbind res_bind].
  destruct (prevents _ _).
  { eexists. split; [reflexivity|]. destruct I. by split. }
  assert (Hc := clear_none t I). assert (H0 : count_occ callback_eq_dec (t_queue t) ShowComplete = 0) by (by apply count_occ_not_In).
  unfold _queueCallback. cbn [t_animation set_page _clearTimeout set_timers log_event]. destruct (t_animation t) eqn:Ha.
  - eexists. split; [reflexivity|]. apply quiet_inv; cbn; [by rewrite He|exact Hc|]. rewrite count_occ_app. cbn. lia.
  - apply complete_inv; [cbn; by rewrite He| |done]. intros _. split; [exact Hc|done].
Qed.

Lemma step_calm t ev : timerInv t -> calm t ev -> exists t', step prevents t ev = Ok t' /\ timerInv t'.
Proof.
  intros I Hc. pose proof (ti_element _ I) as [e He]. destruct ev; cbn [step calm] in *.
  - by apply show_inv.
  - by apply hide_inv.
  - done.
  - eexists. split; [reflexivity|]. unfold listens. rewrite He. cbn [_onInteraction].
    apply quiet_inv; [cbn; by rewrite He| |apply I]. apply (clear_none t I).
  - destruct Hc as [Hm Hq]. assert (Ht : t_timers t = []) by (apply I; unfold interacting; by rewrite Hm).
    eexists. split; [reflexivity|]. unfold listens. rewrite He. cbn. destruct inside.
    + apply quiet_inv; cbn; [by rewrite He|done|apply I].
    + apply schedule_inv; cbn; [by rewrite He|done|done].
  - eexists. split; [reflexivity|]. unfold listens. rewrite He. cbn [_onInteraction].
    apply quiet_inv; [cbn; by rewrite He| |apply I]. apply (clear_none t I).
  - destruct Hc as [Hm Hq]. assert (Ht : t_timers t = []) by (apply I; unfold interacting; by rewrite Hm, orb_true_r).
    eexists. split; [reflexivity|]. unfold listens. rewrite He. cbn. destruct inside.
    + apply quiet_inv; cbn; [by rewrite He|done|apply I].
    + apply schedule_inv; cbn; [by rewrite He|done|done].
  - destruct (t_queue t !! k) as [cb|] eqn:Ek; [|by eexists].
    assert (Hsplit := take_drop_middle _ _ _ Ek). destruct I as [I1 I2 I3 I4 I5].
    assert (Hin : In cb (t_queue t)) by (rewrite <- Hsplit; apply in_app_iff; right; by left).
    assert (Hcount : forall x, count_occ callback_eq_dec (delete k (t_queue t)) x + (if decide (cb = x) then 1 else 0)
      = count_occ callback_eq_dec (t_queue t) x).
    { intros x. rewrite delete_take_drop. rewrite <- Hsplit at 3. rewrite !count_occ_app. cbn.
      destruct (callback_eq_dec cb x), (decide (cb = x)); try done; lia. }
    apply complete_inv; cbn; [by rewrite He| |].
    + intros ->. split; [by apply I4|]. specialize (Hcount ShowComplete). rewrite decide_True in Hcount by done.
      apply (count_occ_not_In callback_eq_dec). lia.
    + intros ->. specialize (Hcount ShowComplete). rewrite decide_False in Hcount by done.
      split; cbn; [done|done|done| |lia]. intros H. apply I4.
      apply (count_occ_In callback_eq_dec). apply (count_occ_In callback_eq_dec) in H. lia.
  - destruct (existsb _ _) eqn:Ei; [|by eexists]. apply hide_inv.
    destruct I as [I1 [E|(j & E & Hj)] I3 I4 I5]; rewrite E in *; cbn in Ei; [done|].
    rewrite orb_false_r in Ei. apply Nat.eqb_eq in Ei as ->. cbn. rewrite Nat.eqb_refl. by apply quiet_inv.
Qed.
End timer.
End Toast.

(** However a toast is shown, hidden and pointed at, as long as the pointer and the focus do not
    leave it while it fades in, it throws nothing, at most one timer is pending, and none while
    the user interacts with it: it never hides itself under the user's hands. *)
Theorem toast_waits_for_user (prevents : list string -> string -> bool) (d : gmap nat node) (e : nat)
    (animation autohide : bool) (evs : list Toast.event) :
  Toast.calmRun prevents (Toast.start d e animation autohide) evs ->
  exists t, Toast.run prevents evs (Toast.start d e animation autohide) = Ok t /\
    length (Toast.t_timers t) <= 1 /\ (Toast.interacting t = true -> Toast.t_timers t = []).
Proof.
  assert (I0 : Toast.timerInv (Toast.start d e animation autohide)) by (apply Toast.quiet_inv; cbn; [by eexists|done|lia]).
  revert I0. unfold Toast.run. generalize (Toast.start d e animation autohide). induction evs as [|ev evs IH]; intros t I Hc.
  - exists t. split; [done|]. destruct I as [_ [->|(i & -> & _)] Hw _ _]; (split; [cbn; lia|exact Hw]).
  - destruct Hc as [Hev Hrest]. destruct (Toast.step_calm prevents t ev I Hev) as (t' & Ht & I').
    cbn [foldM]. rewrite Ht. cbn [mbind res_bind]. apply IH; [done|by apply Hrest].
Qed.

Definition toastPage : gmap nat node := {[1 := Node "DIV" ["toast"] [] [] None [] None]}.

Lemma toast_waits_for_user_witness :
  exists t, Toast.run (fun _ _ => false)
      [Toast.Show; Toast.TransitionDone 0; Toast.MouseOver; Toast.MouseOut false; Toast.FocusIn] (Toast.start toastPage 1 true true) = Ok t /\
    (Toast.interacting t = true -> Toast.t_timers t = []).
Proof.
  destruct (toast_waits_for_user (fun _ _ => false) toastPage 1 true true
    [Toast.Show; Toast.TransitionDone 0; Toast.MouseOver; Toast.MouseOut false; Toast.FocusIn]) as (t & Ht & _ & Hw).
  - split; [intros []|]. intros t1 H1. vm_compute in H1. injection H1 as <-.
    split; [exact I|]. intros t2 H2. vm_compute in H2. injection H2 as <-.
    split; [exact I|]. intros t3 H3. vm_compute in H3. injection H3 as <-.
    split; [split; [reflexivity|intros []]|]. intros t4 H4. vm_compute in H4. injection H4 as <-.
    split; [exact I|]. intros t5 _. exact I.
  - exists t. split; [exact Ht|exact Hw].
Defined.

(** When the pointer crosses the toast while it fades in, two timers are started and only the
    second is remembered: pointing at the toast again clears that one, and the other hides the
    toast under the pointer. *)
Theorem toast_hides_under_pointer :
  exists t, Toast.run (fun _ _ => false)
      [Toast.Show; Toast.MouseOver; Toast.MouseOut false; Toast.TransitionDone 0; Toast.MouseOver; Toast.TimerFires 0]
      (Toast.start toastPage 1 true true) = Ok t /\
    Toast._hasMouseInteraction t = true /\
    Toast.t_log t = [Toast.EVENT_SHOW; Toast.EVENT_SHOWN; Toast.EVENT_HIDE].
Proof. eexists. split; [vm_compute; reflexivity|]. split; reflexivity. Qed.
