(* ===== verification/BsToastPage.v ===== *)
(** Toasts on one page: they are made from a configuration and the markup, dismissed by clicks, and each waits for
    the user by itself. *)
From Stdlib Require Import Ascii QArith Lia.
From S2P Require Import Prelude BsCore BsDom BsConfig BsToast.

Local Open Scope nat_scope.

Module ToastPage.
Import Toast.

Definition NAME : string := "toast".
Definition SELECTOR_TOAST : string := ".toast".
Definition Default : obj value := [("animation", VBool true); ("autohide", VBool true); ("delay", VNum 5000)].
Definition DefaultType : obj string := [("animation", "boolean"); ("autohide", "boolean"); ("delay", "number")].

(** The page and the toasts in the store, by their elements. What is left of a toast that was disposed of is in [BsToast]. *)
Record state := State { tp_page : gmap nat node; tp_toasts : gmap nat toast }.

Section page.
Context `{B : Browser}.
Variable parseJson : string -> option value.
Variable root : nat.
Variable prevents : nat -> list string -> string -> bool.
Implicit Types (s : state) (t : toast) (e x : nat).

(** The constructor throws before the instance is stored when the configuration has a wrong type. *)
Definition construct e (config : value) s : outcome state :=
  match getConfig parseJson NAME Default DefaultType (fun o => o) config (tp_page s) (Some e) with
  | Err x => (s, Some x)
  | Ok o =>
      let get k := value_truthy (default VUndefined (oget k o)) in
      (State (tp_page s) (<[e := start (tp_page s) e (get "animation") (get "autohide")]> (tp_toasts s)), None)
  end.

Definition getOrCreateInstance e (config : value) s : outcome state :=
  match tp_toasts s !! e with Some _ => (s, None) | None => construct e config s end.

(** Something happens to the toast at [e], which works on the page that all share. *)
Definition at_ e (ev : event) s : outcome state :=
  match tp_toasts s !! e with
  | None => (s, None)
  | Some t =>
      match Toast.step (prevents e) (set_page (tp_page s) t) ev with
      | Ok t' => (State (t_page t') (match ev with Dispose => delete e (tp_toasts s) | _ => <[e := t']> (tp_toasts s) end), None)
      | Err x => (s, Some x)
      end
  end.

(** A click on an element that dismisses the toast it names or is in. Without one, an instance without an element is made
    and not stored, which cannot tell whether it is shown. *)
Definition clickDismiss x s : outcome state :=
  if isDisabled (tp_page s) (Some x) then (s, None)
  else
    match match getElementFromSelector root (tp_page s) x with Some t => Some t | None => closest (tp_page s) x SELECTOR_TOAST end with
    | None => (s, Some (TypeError "classList"))
    | Some t => andThen (getOrCreateInstance t VUndefined s) (at_ t Hide)
    end.

Inductive op := Create (e : nat) (config : value) | At (e : nat) (ev : event) | ClickDismiss (x : nat).

Definition step (o : op) s : outcome state :=
  match o with
  | Create e config => getOrCreateInstance e config s
  | At e ev => at_ e ev s
  | ClickDismiss x => clickDismiss x s
  end.

Definition run (ops : list op) s : state := fold_left (fun s o => (step o s).1) ops s.

(** ** Each for itself *)

#[local] Instance event_eq_dec : EqDecision event.
Proof. solve_decision. Defined.

(** The pointer and the focus leave only what they have entered, and no toast that fades in is left or shown again. *)
Definition calmb t (ev : event) : bool :=
  let showing := existsb (fun cb => bool_decide (cb = ShowComplete)) (t_queue t) in
  match ev with
  | Show => negb showing
  | MouseOut _ => _hasMouseInteraction t && negb showing
  | FocusOut _ => _hasKeyboardInteraction t && negb showing
  | _ => true
  end.

Definition patient s (o : op) : bool :=
  match o with
  | At e ev => match tp_toasts s !! e with Some t => calmb t ev | None => true end
  | _ => true
  end.

Fixpoint patiently (ops : list op) s : bool :=
  match ops with [] => true | o :: ops => patient s o && patiently ops (step o s).1 end.

Definition pageInv s : Prop := map_Forall (fun e t => timerInv t /\ t_element t = Some e) (tp_toasts s).

Lemma calmb_calm t ev : calmb t ev = true -> ev <> Dispose -> calm t ev.
Proof.
  assert (Q : negb (existsb (fun cb => bool_decide (cb = ShowComplete)) (t_queue t)) = true -> ~ In ShowComplete (t_queue t)).
  { rewrite negb_true_iff. intros H Hin. apply not_true_iff_false in H. apply H, existsb_exists. exists ShowComplete. by rewrite bool_decide_true. }
  destruct ev; cbn; try done; intros H _; try (apply andb_true_iff in H as [H1 H2]); auto.
Qed.

(** What a toast does happens to its own element. *)
Definition onlyOwn e (d d' : gmap nat node) : Prop := forall x k, x <> e -> hasClass d' x k = hasClass d x k.

#[local] Instance onlyOwn_preorder e : PreOrder (onlyOwn e).
Proof. split; [done|]. intros a b c H1 H2 x k Hx. by rewrite H2, H1. Qed.

Lemma own_add e cs d : onlyOwn e d (classList_add e cs d).
Proof. intros x k Hx. by rewrite hasClass_add, bool_decide_false, orb_false_r by done. Qed.
Lemma own_remove e cs d : onlyOwn e d (classList_remove e cs d).
Proof. intros x k Hx. by rewrite hasClass_remove, bool_decide_false, andb_true_r by done. Qed.

(** A result that keeps the element and touches no other. *)
Definition keeps e t (r : res toast) : Prop :=
  match r with Ok t' => onlyOwn e (t_page t) (t_page t') /\ (t_element t' = Some e \/ t_element t' = None) | Err _ => True end.

Lemma keeps_trans e t t1 r : onlyOwn e (t_page t) (t_page t1) -> keeps e t1 r -> keeps e t r.
Proof. destruct r; [|done]. intros H [H1 H2]. split; [by transitivity (t_page t1)|done]. Qed.

Lemma keeps_complete e t cb : t_element t = Some e -> keeps e t (complete cb t).
Proof.
  intros He. unfold complete. rewrite He. destruct cb; cbn.
  - unfold _maybeScheduleHide. cbn. destruct (negb _); [|destruct (_ || _)]; (split; [apply own_remove|by left]).
  - split; [|by left]. etransitivity; [|apply own_remove]. apply own_add.
Qed.

Lemma keeps_queue e t cb : t_element t = Some e -> keeps e t (_queueCallback cb t).
Proof. intros He. unfold _queueCallback. destruct (t_animation t); [split; [done|by left]|by apply keeps_complete]. Qed.

Lemma keeps_hide prv e t : t_element t = Some e -> keeps e t (hide prv t).
Proof.
  intros He. unfold hide, isShown. rewrite He. cbn. destruct (hasClass _ _ _); cbn; [|split; [done|by left]].
  destruct (prv _ _); [split; [done|by left]|].
  eapply (keeps_trans _ _ (set_page (classList_add e ["showing"] (t_page t)) (log_event EVENT_HIDE t))); [apply own_add|by apply keeps_queue].
Qed.

Lemma keeps_show prv e t : t_element t = Some e -> keeps e t (show prv t).
Proof.
  intros He. unfold show. rewrite He. cbn. destruct (prv _ _); [split; [done|by left]|]. set (d := classList_add _ _ _).
  assert (D : onlyOwn e (t_page t) d).
  { subst d. etransitivity; [|apply own_add]. etransitivity; [|apply own_remove]. destruct (t_animation t); [apply own_add|done]. }
  clearbody d. eapply (keeps_trans _ _ (set_page d (_clearTimeout (log_event EVENT_SHOW t)))); [exact D|by apply keeps_queue].
Qed.

Lemma keeps_step prv e t ev : t_element t = Some e -> keeps e t (Toast.step prv t ev).
Proof.
  intros He.
  assert (Listens : forall type b inside, keeps e t (Ok (listens type b inside t))).
  { intros type b inside. unfold listens. rewrite He. unfold _onInteraction. set (t1 := if in_strs type _ then _ else _).
    assert (H1 : t_page t1 = t_page t /\ t_element t1 = Some e) by (subst t1; destruct (in_strs _ _); [done|by destruct (in_strs _ _)]).
    destruct H1 as [E1 E2]. clearbody t1. destruct b; [|destruct inside; [|unfold _maybeScheduleHide; destruct (negb _); [|destruct (_ || _)]]];
      (split; cbn; rewrite ?E1; [done|by left]). }
  destruct ev; cbn [Toast.step]; try apply Listens.
  - by apply keeps_show.
  - by apply keeps_hide.
  - unfold dispose, isShown. rewrite He. cbn. rewrite He. cbn. destruct (hasClass _ _ _); cbn; (split; [|by right]); [apply own_remove|done].
  - destruct (t_queue t !! k); [|split; [done|by left]]. by apply (keeps_complete e (set_queue _ t)).
  - destruct (existsb _ _); [|split; [done|by left]]. by apply (keeps_hide _ e (set_timers _ _ _ t)).
Qed.

(** What an event of one toast comes to. *)
Lemma at_calm e ev s : pageInv s -> (forall t, tp_toasts s !! e = Some t -> calmb t ev = true) ->
  exists s', at_ e ev s = (s', None) /\ pageInv s' /\ onlyOwn e (tp_page s) (tp_page s') /\
    forall x, x <> e -> tp_toasts s' !! x = tp_toasts s !! x.
Proof.
  intros I Hc. unfold at_. destruct (tp_toasts s !! e) as [t|] eqn:Et; [|by exists s]. destruct (I e t Et) as [It He].
  set (t0 := set_page (tp_page s) t). assert (I0 : timerInv t0) by (destruct It; by split).
  assert (K := keeps_step (prevents e) e t0 ev He).
  assert (St : exists t', Toast.step (prevents e) t0 ev = Ok t' /\ (ev <> Dispose -> timerInv t')).
  { destruct (decide (ev = Dispose)) as [->|Hne].
    - unfold Toast.step, dispose, isShown. cbn. rewrite He. cbn. destruct (hasClass _ _ _); by eexists.
    - destruct (step_calm (prevents e) t0 ev I0) as (t' & E & I'); [|by exists t']. apply calmb_calm; [|done].
      transitivity (calmb t ev); [by destruct ev|by apply Hc]. }
  destruct St as (t' & Es & I'). rewrite Es in *. destruct K as [K1 K2].
  eexists. split; [reflexivity|]. split; [|split; [done|]].
  - destruct (decide (ev = Dispose)) as [->|Hne].
    + intros e' t''. cbn. rewrite lookup_delete_Some. intros [_ H]. by apply I.
    + specialize (I' Hne). assert (He' : t_element t' = Some e) by (destruct K2 as [|E]; [done|]; destruct (ti_element _ I') as [? X]; congruence).
      intros e' t''. cbn. destruct ev; try done; (rewrite lookup_insert_Some; intros [[<- <-]|[_ H]]; [done|by apply I]).
  - intros x Hx. cbn. destruct ev; rewrite ?lookup_insert_ne, ?lookup_delete_ne by done; done.
Qed.

Lemma create_inv e config s : pageInv s -> pageInv (getOrCreateInstance e config s).1 /\
  tp_page (getOrCreateInstance e config s).1 = tp_page s.
Proof.
  intros I. unfold getOrCreateInstance. destruct (tp_toasts s !! e); [done|]. unfold construct. destruct (getConfig _ _ _ _ _ _ _ _); [|done].
  cbn. split; [|done]. intros e' t'. cbn. rewrite lookup_insert_Some. intros [[<- <-]|[_ H]]; [|by apply I].
  split; [|done]. apply quiet_inv; cbn; [by eexists|done|lia].
Qed.

Lemma toasts_step_inv o s : pageInv s -> patient s o = true -> pageInv (step o s).1.
Proof.
  intros I P. destruct o as [e config|e ev|x]; cbn [step].
  - by apply create_inv.
  - destruct (at_calm e ev s I) as (s' & -> & I' & _); [|done]. intros t Ht. cbn in P. by rewrite Ht in P.
  - unfold clickDismiss. destruct (isDisabled _ _); [done|]. destruct (match getElementFromSelector _ _ _ with Some t => _ | None => _ end) as [t|]; [|done].
    pose proof (create_inv t VUndefined s I) as [I1 _]. destruct (getOrCreateInstance t VUndefined s) as [s1 [y|]]; cbn [andThen fst] in *; [done|].
    by destruct (at_calm t Hide s1 I1) as (s' & -> & I' & _).
Qed.

Lemma toasts_run_inv ops s : pageInv s -> patiently ops s = true -> pageInv (run ops s).
Proof.
  revert s. induction ops as [|o ops IH]; intros s I; cbn; [done|]. intros [P P']%andb_true_iff. apply IH; [by apply toasts_step_inv|done].
Qed.

(** A click on the button of a toast that is there is that toast's [hide]. *)
Lemma dismiss_hides x (t : nat) s : isDisabled (tp_page s) (Some x) = false ->
  match getElementFromSelector root (tp_page s) x with Some t => Some t | None => closest (tp_page s) x SELECTOR_TOAST end = Some t ->
  is_Some (tp_toasts s !! t) -> clickDismiss x s = at_ t Hide s.
Proof. intros Hd Ht [t0 H]. unfold clickDismiss. rewrite Hd, Ht. unfold getOrCreateInstance. by rewrite H. Qed.
End page.
End ToastPage.


(** Two toasts, the second with a button in it. *)
Definition toastsPage : gmap nat node :=
  list_to_map [(0, Node "BODY" [] [] [] None [1; 2] None); (1, Node "DIV" ["toast"] [("data-bs-delay", "200")] [] (Some 0) [] None);
    (2, Node "DIV" ["toast"] [] [] (Some 0) [3] None); (3, Node "BUTTON" [] [("data-bs-dismiss", "toast")] [] (Some 2) [] None)].

Definition toastsBrowser : Browser :=
  Build_Browser (fun d x sel => str_eqb sel ".toast" && hasClass d x "toast") (fun _ _ => 1) (fun _ _ => "visible") None.

Definition toastsOps : list ToastPage.op :=
  [ToastPage.Create 1 VUndefined; ToastPage.Create 2 VUndefined; ToastPage.At 1 Toast.Show; ToastPage.At 2 Toast.Show;
   ToastPage.At 1 (Toast.TransitionDone 0); ToastPage.At 1 Toast.MouseOver; ToastPage.At 2 (Toast.TransitionDone 0); ToastPage.ClickDismiss 3].

Definition toastsRun (ops : list ToastPage.op) : ToastPage.state :=
  @ToastPage.run toastsBrowser (fun _ => None) 0 (fun _ _ _ => false) ops (ToastPage.State toastsPage ∅).

