(* ===== verification/BsScrollBar.v ===== *)
(** Bootstrap's [ScrollBarHelper]: while a modal is open the page does not scroll, and the
    room of the scroll bar is made up for with padding; afterwards everything is put back. *)
From Stdlib Require Import Ascii QArith Lia.
From S2P Require Import Prelude BsCore BsDom BsConfig.

Local Open Scope nat_scope.

Module ScrollBar.

Definition SELECTOR_FIXED_CONTENT : string := ".fixed-top, .fixed-bottom, .is-fixed, .sticky-top".
Definition SELECTOR_STICKY_CONTENT : string := ".sticky-top".
Definition PROPERTY_PADDING : string := "padding-right".
Definition PROPERTY_MARGIN : string := "margin-right".

(** What the browser lays out. *)
Class Layout := {
  innerWidth : gmap nat node -> Z;                   (** of the window *)
  documentWidth : gmap nat node -> Z;                (** [document.documentElement.clientWidth] *)
  clientWidth : gmap nat node -> nat -> Z;
  computedStyle : gmap nat node -> nat -> string -> string
}.

Definition getStyle (d : gmap nat node) (e : nat) (p : string) : string :=
  match d !! e with Some n => default "" (oget p (n_style n)) | None => "" end.

Section scrollBar.
Context `{B : Browser} `{L : Layout}.
Variable parseJson : string -> option value.
Variable numberToString : Q -> string.               (** how a number is printed *)
Variable body : nat.                                 (** [this._element] *)
Implicit Types (d : gmap nat node) (e : nat) (p : string).

Definition getWidth d : Z := Z.abs (innerWidth d - documentWidth d).

Definition isOverflowing d : bool := (0 <? getWidth d)%Z.

Definition _saveInitialAttribute e p d : gmap nat node :=
  let actualValue := getStyle d e p in
  if str_truthy actualValue then setDataAttribute e p actualValue d else d.

Definition _disableOverFlow d : gmap nat node := setStyle body "overflow" "hidden" (_saveInitialAttribute body "overflow" d).

(** The two callbacks. A length that is not a number is no CSS value and changes nothing. *)
Definition balance (scrollbarWidth : Z) (p : string) (callback : Q -> Q) d e : gmap nat node :=
  if negb (e =? body) && (clientWidth d e + scrollbarWidth <? innerWidth d)%Z then d
  else
    let d := _saveInitialAttribute e p d in
    match parseFloat (computedStyle d e p) with
    | Some calculatedValue => setStyle e p (numberToString (callback calculatedValue) +:+ "px") d
    | None => d
    end.

Definition putBack (p : string) d e : gmap nat node :=
  match getDataAttribute parseJson d e p with
  | VNull => setStyle e p "" d
  | v =>
      let d := removeDataAttribute e p d in
      match v with
      | VStr s => setStyle e p s d
      | VNum q => setStyle e p (numberToString q) d
      | _ => d
      end
  end.

(** [_applyManipulationCallback] on the element itself or on what a selector finds. *)
Definition _setElementAttributes (elements : list nat) p (callback : Q -> Q) d : gmap nat node :=
  fold_left (balance (getWidth d) p callback) elements d.

Definition _resetElementAttributes (elements : list nat) p d : gmap nat node :=
  fold_left (putBack p) elements d.

Definition hide d : gmap nat node :=
  let width := inject_Z (getWidth d) in
  let d := _disableOverFlow d in
  let d := _setElementAttributes [body] PROPERTY_PADDING (fun v => v + width)%Q d in
  let d := _setElementAttributes (find d SELECTOR_FIXED_CONTENT body) PROPERTY_PADDING (fun v => v + width)%Q d in
  _setElementAttributes (find d SELECTOR_STICKY_CONTENT body) PROPERTY_MARGIN (fun v => v - width)%Q d.

Definition reset d : gmap nat node :=
  let d := _resetElementAttributes [body] "overflow" d in
  let d := _resetElementAttributes [body] PROPERTY_PADDING d in
  let d := _resetElementAttributes (find d SELECTOR_FIXED_CONTENT body) PROPERTY_PADDING d in
  _resetElementAttributes (find d SELECTOR_STICKY_CONTENT body) PROPERTY_MARGIN d.
End scrollBar.

(** ** Putting everything back *)

Lemma getStyle_alter d e f e' p :
  getStyle (alter f e d) e' p =
    match d !! e' with Some n => default "" (oget p (n_style (if bool_decide (e' = e) then f n else n))) | None => "" end.
Proof.
  unfold getStyle. destruct (decide (e' = e)) as [->|Hne].
  - rewrite lookup_alter_eq, bool_decide_true by done. by destruct (d !! e).
  - rewrite lookup_alter_ne, bool_decide_false by done. by destruct (d !! e').
Qed.

Lemma getStyle_setStyle d e p v e' p' :
  getStyle (setStyle e p v d) e' p' =
    if bool_decide (e' = e) && str_eqb p' p && bool_decide (is_Some (d !! e)) then v else getStyle d e' p'.
Proof.
  unfold setStyle. rewrite getStyle_alter. unfold getStyle. destruct (bool_decide_reflect (e' = e)) as [->|]; cbn; [|done].
  destruct (d !! e) as [n|]; cbn; [|by rewrite andb_false_r].
  rewrite andb_true_r.
  destruct (String.eqb_spec v "") as [->|Hv].
  - rewrite oget_odelete. by destruct (str_eqb p' p).
  - rewrite oget_oset. by destruct (str_eqb p' p).
Qed.

Lemma getStyle_attribute d e k v e' p' :
  getStyle (setAttribute e k v d) e' p' = getStyle d e' p' /\ getStyle (removeAttribute e k d) e' p' = getStyle d e' p'.
Proof.
  unfold setAttribute, removeAttribute. rewrite !getStyle_alter. unfold getStyle.
  destruct (d !! e'); [|done]. by destruct (bool_decide _).
Qed.

(** The same tree with the same classes. *)
Definition shape (d d' : gmap nat node) : Prop :=
  sameTree d d' /\ forall x k, hasClass d' x k = hasClass d x k.

#[export] Instance shape_preorder : PreOrder shape.
Proof. split; [by split|]. intros a b c [T1 C1] [T2 C2]. split; [by transitivity b|]. intros x k. by rewrite C2. Qed.

Lemma shape_Some d d' e : shape d d' -> is_Some (d' !! e) <-> is_Some (d !! e).
Proof.
  intros [[_ H] _]. specialize (H e). destruct (d' !! e), (d !! e); cbn in H; try discriminate H; split; eauto; by intros [? ?].
Qed.

Definition saved (p : string) : string := dataAttribute p.
Definition props : list string := ["overflow"; PROPERTY_PADDING; PROPERTY_MARGIN].

Lemma saved_inj p q : In p props -> In q props -> saved p = saved q -> p = q.
Proof. intros Hp Hq. cbn in Hp, Hq. by destruct Hp as [<-|[<-|[<-|[]]]], Hq as [<-|[<-|[<-|[]]]]. Qed.

(** The style and what is saved of it. *)
Definition at_ (d : gmap nat node) (o : nat * string) : string * option string :=
  (getStyle d o.1 o.2, getAttribute d o.1 (saved o.2)).

(** [d'] is [d] with the styles [ops] dealt with, each as [G] says. *)
Record does (G : nat * string -> string * option string -> string * option string -> Prop) (ops : list (nat * string))
    (d d' : gmap nat node) : Prop := {
  do_shape : shape d d';
  do_style e p : ~ In (e, p) ops -> getStyle d' e p = getStyle d e p;
  do_attr e k : (forall p, In (e, p) ops -> k <> saved p) -> getAttribute d' e k = getAttribute d e k;
  do_at o : In o ops -> G o (at_ d o) (at_ d' o)
}.

Section does.
Variable G : nat * string -> string * option string -> string * option string -> Prop.

Lemma does_nil d : does G [] d d.
Proof. split; [done|done|done|by intros ? []]. Qed.

Lemma does_other ops d d' o :
  does G ops d d' -> Forall (fun o => In o.2 props) (o :: ops) -> ~ In o ops -> at_ d' o = at_ d o.
Proof.
  destruct o as [e p]. intros [S Hs Ha _] [Hp Hps]%Forall_cons Hin. unfold at_. cbn. rewrite Hs by done. f_equal. apply Ha.
  intros q Hq E. apply saved_inj in E; [by subst|done|]. rewrite Forall_forall in Hps.
  apply (Hps (e, q)). by apply list_elem_of_In.
Qed.

Lemma does_app ops1 ops2 d d1 d2 :
  Forall (fun o => In o.2 props) (ops1 ++ ops2) -> List.NoDup (ops1 ++ ops2) ->
  does G ops1 d d1 -> does G ops2 d1 d2 -> does G (ops1 ++ ops2) d d2.
Proof.
  intros Hp Hnd D1 D2. assert (Hp' := Hp). apply Forall_app in Hp' as [Hp1 Hp2].
  assert (Hdis : forall o, In o ops1 -> In o ops2 -> False).
  { intros o H1 H2. apply NoDup_ListNoDup, NoDup_app in Hnd as (_ & Hd & _). by apply (Hd o); apply list_elem_of_In. }
  split.
  - transitivity d1; [apply D1|apply D2].
  - intros e p H. rewrite in_app_iff in H. rewrite (do_style _ _ _ _ D2), (do_style _ _ _ _ D1); tauto.
  - intros e k H. rewrite (do_attr _ _ _ _ D2), (do_attr _ _ _ _ D1); [done| |]; intros p Hin; apply H, in_app_iff; tauto.
  - intros o [Ho|Ho]%in_app_iff.
    + rewrite (does_other ops2 d1 d2 o D2); [by apply (do_at _ _ _ _ D1)| |].
      * apply Forall_cons. split; [|done]. rewrite Forall_forall in Hp1. apply Hp1. by apply list_elem_of_In.
      * intros H. by apply (Hdis o).
    + rewrite <- (does_other ops1 d d1 o D1); [by apply (do_at _ _ _ _ D2)| |].
      * apply Forall_cons. split; [|done]. rewrite Forall_forall in Hp2. apply Hp2. by apply list_elem_of_In.
      * intros H. by apply (Hdis o).
Qed.

(** A loop over elements that deals with one property of each. *)
Lemma does_fold (f : gmap nat node -> nat -> gmap nat node) (p : string) es d :
  In p props -> List.NoDup es -> (forall d e, In e es -> does G [(e, p)] d (f d e)) ->
  does G (map (fun e => (e, p)) es) d (fold_left f es d).
Proof.
  intros Hp. revert d. induction es as [|e es IH]; intros d Hnd Hf; cbn [map fold_left]; [apply does_nil|].
  apply List.NoDup_cons_iff in Hnd as [Hin Hnd].
  apply (does_app [(e, p)] _ d (f d e)).
  - apply Forall_forall. intros o Ho. apply list_elem_of_In in Ho. destruct Ho as [<-|Ho]; [done|].
    by apply in_map_iff in Ho as (x & <- & _).
  - cbn. apply List.NoDup_cons_iff. split.
    + intros H. apply in_map_iff in H as (x & [= ->] & Hx). done.
    + apply NoDup_ListNoDup, NoDup_fmap_2; [by intros ? ? [= ->]|by apply NoDup_ListNoDup].
  - apply Hf. by left.
  - apply IH; [done|]. intros. apply Hf. by right.
Qed.
End does.

Section restoring.
Context `{B : Browser} `{L : Layout}.
Variable parseJson : string -> option value.
Variable numberToString : Q -> string.
Variable body : nat.
Implicit Types (d : gmap nat node).

Definition savedValue (v : string) : option string := if str_truthy v then Some v else None.

(** The element is as wide as the window, whatever the page. *)
Definition spans (e : nat) : Prop := e = body \/ forall d, (innerWidth d <= clientWidth d e)%Z.

(** What [hide] does to a style: its value is saved. *)
Definition saves (o : nat * string) (before after : string * option string) : Prop :=
  before.2 = None -> before.1 = "" \/ spans o.1 -> after.2 = savedValue before.1.

(** The value survives being written to a data attribute and read back. *)
Definition plain (v : string) : Prop := v = "" \/ normalizeData parseJson (Some v) = VStr v.

Definition restores (o : nat * string) (before after : string * option string) : Prop :=
  forall v, plain v -> before.2 = savedValue v -> after = (v, None).

Lemma shape_setStyle e p v d : shape d (setStyle e p v d).
Proof. split; [by apply sameTree_alter|]. intros x k. by rewrite hasClass_setStyle. Qed.

Lemma shape_attribute e k v d : shape d (setAttribute e k v d) /\ shape d (removeAttribute e k d).
Proof.
  split; (split; [apply (sameTree_attribute e k v d)|]); intros x k'; by rewrite ?hasClass_setAttribute, ?hasClass_removeAttribute.
Qed.

Lemma style_attr d e p : getStyle d e p <> "" -> is_Some (d !! e).
Proof. unfold getStyle. destruct (d !! e); [by eauto|done]. Qed.

(** Only the style and what is saved of it change. *)
Definition anything (o : nat * string) (before after : string * option string) : Prop := True.

Lemma does_of G ops d d' : does anything ops d d' -> (forall o, In o ops -> G o (at_ d o) (at_ d' o)) -> does G ops d d'.
Proof. intros [S Hs Ha _] H. by split. Qed.

Lemma local_setStyle e p v d d' : does anything [(e, p)] d d' -> does anything [(e, p)] d (setStyle e p v d').
Proof.
  intros [S Hs Ha _]. split; [| | |done].
  - transitivity d'; [done|apply shape_setStyle].
  - intros e' p' H. rewrite getStyle_setStyle, Hs by done. destruct (bool_decide_reflect (e' = e)) as [->|]; [|done].
    destruct (String.eqb_spec p' p) as [->|]; [|done]. exfalso. apply H. by left.
  - intros e' k H. rewrite getAttribute_setStyle. by apply Ha.
Qed.

Lemma local_data e p v d :
  does anything [(e, p)] d (setDataAttribute e p v d) /\ does anything [(e, p)] d (removeDataAttribute e p d).
Proof.
  unfold setDataAttribute, removeDataAttribute.
  split; (split; [apply (shape_attribute e _ v d)| | |done]).
  - intros. apply getStyle_attribute.
  - intros e' k Hk. rewrite getAttribute_set. destruct (bool_decide_reflect (e' = e)) as [->|]; [|done].
    destruct (String.eqb_spec k (dataAttribute p)) as [->|]; [|done]. exfalso. by apply (Hk p (or_introl eq_refl)).
  - intros. apply (getStyle_attribute d e _ v).
  - intros e' k Hk. rewrite getAttribute_remove. destruct (bool_decide_reflect (e' = e)) as [->|]; [|done].
    destruct (String.eqb_spec k (dataAttribute p)) as [->|]; [|done]. exfalso. by apply (Hk p (or_introl eq_refl)).
Qed.

Lemma local_save e p d : does anything [(e, p)] d (_saveInitialAttribute e p d).
Proof. unfold _saveInitialAttribute. destruct (str_truthy _); [apply local_data|by split]. Qed.

Lemma save_at e p d :
  getAttribute d e (saved p) = None -> getAttribute (_saveInitialAttribute e p d) e (saved p) = savedValue (getStyle d e p).
Proof.
  intros H. unfold _saveInitialAttribute, savedValue. destruct (str_truthy (getStyle d e p)) eqn:E; [|done].
  unfold setDataAttribute. rewrite getAttribute_set. unfold saved, str_eqb. rewrite bool_decide_true, String.eqb_refl by done. cbn.
  rewrite bool_decide_true; [done|]. apply (style_attr d e p). intros H'. by rewrite H' in E.
Qed.

Lemma balance_does (w : Z) p f d e : (0 <= w)%Z -> does saves [(e, p)] d (balance numberToString body w p f d e).
Proof.
  intros Hw. unfold balance. destruct (negb (e =? body) && _) eqn:E.
  - split; [done|done|done|]. intros o [<-|[]] H1 [H2|H2].
    + cbn in *. rewrite H2. done.
    + apply andb_true_iff in E as [E1 E2]. apply negb_true_iff, Nat.eqb_neq in E1. apply Z.ltb_lt in E2.
      destruct H2 as [H2|H2]; [done|]. specialize (H2 d). cbn in H2. lia.
  - apply does_of; [destruct (parseFloat _); [apply local_setStyle|]; apply local_save|].
    intros o [<-|[]] H1 _. unfold at_ in *. cbn in *. destruct (parseFloat _); rewrite ?getAttribute_setStyle; by apply save_at.
Qed.

Lemma putBack_does p d e : does restores [(e, p)] d (putBack parseJson numberToString p d e).
Proof.
  pose proof (proj2 (local_data e p "" d)) as Hr. apply does_of.
  - unfold putBack. destruct (getDataAttribute _ _ _ _); try exact Hr; by apply local_setStyle.
  - intros o [<-|[]] v Hv Hb. unfold at_ in *. cbn in *. unfold putBack, getDataAttribute. fold (saved p). rewrite Hb.
    unfold savedValue in *. destruct (String.eqb_spec v "") as [->|Hne].
    + cbn. rewrite getStyle_setStyle, getAttribute_setStyle, Hb. unfold str_eqb. rewrite String.eqb_refl, bool_decide_true by done. cbn.
      f_equal. destruct (bool_decide_reflect (is_Some (d !! e))) as [|Hn]; [done|]. unfold getStyle. by destruct (d !! e); [destruct Hn; eauto|].
    + assert (Ht : str_truthy v = true) by (unfold str_truthy; by destruct v). rewrite Ht in *. destruct Hv as [?|Hv]; [done|].
      rewrite Hv, getStyle_setStyle, getAttribute_setStyle. unfold removeDataAttribute, saved. rewrite getAttribute_remove. unfold str_eqb.
      rewrite !String.eqb_refl, bool_decide_true by done. cbn. rewrite bool_decide_true; [done|].
      apply (shape_Some d); [apply (shape_attribute e _ "" d)|]. unfold getAttribute in Hb. destruct (d !! e); [by eauto|done].
Qed.

(** The two selectors name classes. *)
Hypothesis by_class : forall sel d d' x, In sel [SELECTOR_FIXED_CONTENT; SELECTOR_STICKY_CONTENT] ->
  (forall k, hasClass d' x k = hasClass d x k) -> matches d' x sel = matches d x sel.

Definition fixedPairs d : list (nat * string) := map (fun e => (e, PROPERTY_PADDING)) (find d SELECTOR_FIXED_CONTENT body).
Definition stickyPairs d : list (nat * string) := map (fun e => (e, PROPERTY_MARGIN)) (find d SELECTOR_STICKY_CONTENT body).

(** The styles the helper deals with. *)
Definition touched d : list (nat * string) :=
  (([(body, "overflow")] ++ [(body, PROPERTY_PADDING)]) ++ fixedPairs d) ++ stickyPairs d.

Lemma find_shape d d' sel : In sel [SELECTOR_FIXED_CONTENT; SELECTOR_STICKY_CONTENT] -> shape d d' -> find d' sel body = find d sel body.
Proof. intros Hsel [T C]. apply find_same; [done|]. intros x. by apply by_class. Qed.

Lemma touched_props d : Forall (fun o => In o.2 props) (touched d).
Proof.
  apply Forall_forall. intros o Ho. apply list_elem_of_In in Ho. unfold touched, fixedPairs, stickyPairs in Ho.
  rewrite !in_app_iff, !in_map_iff in Ho. cbn in *. destruct Ho as [[[[<-|[]]|[<-|[]]]|(x & <- & _)]|(x & <- & _)]; cbn; tauto.
Qed.

Lemma NoDup_pairs (p : string) es : List.NoDup (map (fun e : nat => (e, p)) es) -> List.NoDup es.
Proof. apply List.NoDup_map_inv. Qed.

Lemma NoDup_prefix {A} (l k : list A) : List.NoDup (l ++ k) -> List.NoDup l /\ List.NoDup k.
Proof. intros H. apply NoDup_ListNoDup, NoDup_app in H as (H1 & _ & H2). by rewrite <- !NoDup_ListNoDup. Qed.

(** The four parts one after the other. *)
Lemma does_parts G d d1 d2 d3 d4 :
  List.NoDup (touched d) ->
  does G [(body, "overflow")] d d1 -> does G [(body, PROPERTY_PADDING)] d1 d2 ->
  (List.NoDup (find d SELECTOR_FIXED_CONTENT body) -> does G (fixedPairs d) d2 d3) ->
  (List.NoDup (find d SELECTOR_STICKY_CONTENT body) -> does G (stickyPairs d) d3 d4) -> does G (touched d) d d4.
Proof.
  intros Hnd D1 D2 D3 D4. pose proof (touched_props d) as Hp. unfold touched in *.
  destruct (NoDup_prefix _ _ Hnd) as [Hnd3 Hs]. destruct (NoDup_prefix _ _ Hnd3) as [Hnd2 Hf].
  pose proof (proj1 (proj1 (Forall_app _ _ _) Hp)) as Hp3. pose proof (proj1 (proj1 (Forall_app _ _ _) Hp3)) as Hp2.
  eapply does_app; [done|done| |apply D4; by eapply NoDup_pairs].
  eapply does_app; [done|done| |apply D3; by eapply NoDup_pairs].
  by eapply does_app.
Qed.

Lemma hide_does d : List.NoDup (touched d) -> does saves (touched d) d (hide numberToString body d).
Proof.
  intros Hnd. assert (Hw : forall d, (0 <= getWidth d)%Z) by (intros; apply Z.abs_nonneg).
  assert (D1 : does saves [(body, "overflow")] d (_disableOverFlow body d)).
  { apply does_of; [apply local_setStyle, local_save|]. intros o [<-|[]] H1 _. unfold at_ in *. cbn in *.
    unfold _disableOverFlow. rewrite getAttribute_setStyle. by apply save_at. }
  unfold hide. cbv zeta. set (d1 := _disableOverFlow body d) in *. set (width := inject_Z (getWidth d)).
  assert (D2 : does saves [(body, PROPERTY_PADDING)] d1
    (_setElementAttributes numberToString body [body] PROPERTY_PADDING (fun v => v + width)%Q d1)) by (by apply balance_does).
  set (d2 := _setElementAttributes _ _ [body] _ _ d1) in *.
  assert (S2 : shape d d2) by (transitivity d1; [apply D1|apply D2]).
  rewrite (find_shape d d2) by (done || by left).
  assert (D3 : List.NoDup (find d SELECTOR_FIXED_CONTENT body) -> does saves (fixedPairs d) d2
    (_setElementAttributes numberToString body (find d SELECTOR_FIXED_CONTENT body) PROPERTY_PADDING (fun v => v + width)%Q d2)).
  { intros Hf. apply does_fold; [cbn; tauto|done|]. intros. by apply balance_does. }
  set (d3 := _setElementAttributes _ _ (find d SELECTOR_FIXED_CONTENT body) _ _ d2) in *.
  assert (S3 : shape d d3).
  { transitivity d2; [done|]. apply D3. apply (NoDup_pairs PROPERTY_PADDING). unfold touched in Hnd.
    by apply NoDup_prefix in Hnd as [[_ ?]%NoDup_prefix _]. }
  rewrite (find_shape d d3) by (done || (right; by left)).
  eapply does_parts; [done|exact D1|exact D2|exact D3|].
  intros Hs. apply does_fold; [cbn; tauto|done|]. intros. by apply balance_does.
Qed.

Lemma touched_shape d d' : shape d d' -> touched d' = touched d.
Proof. intros S. unfold touched, fixedPairs, stickyPairs. by rewrite !(find_shape d d') by (cbn; tauto || done). Qed.

Lemma reset_does d : List.NoDup (touched d) -> does restores (touched d) d (reset parseJson numberToString body d).
Proof.
  intros Hnd. unfold reset. cbv zeta.
  assert (D1 : does restores [(body, "overflow")] d (_resetElementAttributes parseJson numberToString [body] "overflow" d))
    by (apply putBack_does).
  set (d1 := _resetElementAttributes _ _ [body] "overflow" d) in *.
  assert (D2 : does restores [(body, PROPERTY_PADDING)] d1 (_resetElementAttributes parseJson numberToString [body] PROPERTY_PADDING d1))
    by (apply putBack_does).
  set (d2 := _resetElementAttributes _ _ [body] _ d1) in *.
  assert (S2 : shape d d2) by (transitivity d1; [apply D1|apply D2]).
  rewrite (find_shape d d2) by (done || by left).
  assert (D3 : List.NoDup (find d SELECTOR_FIXED_CONTENT body) -> does restores (fixedPairs d) d2
    (_resetElementAttributes parseJson numberToString (find d SELECTOR_FIXED_CONTENT body) PROPERTY_PADDING d2)).
  { intros Hf. apply does_fold; [cbn; tauto|done|]. intros. apply putBack_does. }
  set (d3 := _resetElementAttributes _ _ (find d SELECTOR_FIXED_CONTENT body) _ d2) in *.
  assert (S3 : shape d d3).
  { transitivity d2; [done|]. apply D3. apply (NoDup_pairs PROPERTY_PADDING). unfold touched in Hnd.
    by apply NoDup_prefix in Hnd as [[_ ?]%NoDup_prefix _]. }
  rewrite (find_shape d d3) by (done || (right; by left)).
  eapply does_parts; [done|exact D1|exact D2|exact D3|].
  intros Hs. apply does_fold; [cbn; tauto|done|]. intros. apply putBack_does.
Qed.

(** Nothing is saved yet, every value can be saved, and the elements that have one are wide. *)
Definition clean d : Prop :=
  List.NoDup (touched d) /\
  forall o, In o (touched d) -> getAttribute d o.1 (saved o.2) = None /\ plain (getStyle d o.1 o.2) /\
    (getStyle d o.1 o.2 = "" \/ spans o.1).

Lemma reset_hide d : clean d ->
  let d' := reset parseJson numberToString body (hide numberToString body d) in
  shape d d' /\ (forall e p, getStyle d' e p = getStyle d e p) /\ (forall e k, getAttribute d' e k = getAttribute d e k).
Proof.
  intros [Hnd Hc] d'. pose proof (hide_does d Hnd) as H. pose proof (touched_shape _ _ (do_shape _ _ _ _ H)) as Ht.
  pose proof (reset_does (hide numberToString body d)) as R. rewrite Ht in R. specialize (R Hnd). fold d' in R.
  assert (Hat : forall o, In o (touched d) -> at_ d' o = at_ d o).
  { intros o Ho. destruct (Hc o Ho) as (H1 & H2 & H3). pose proof (do_at _ _ _ _ H o Ho H1 H3) as Hs.
    rewrite (do_at _ _ _ _ R o Ho _ H2 Hs). unfold at_. by rewrite H1. }
  split; [transitivity (hide numberToString body d); [apply H|apply R]|]. split.
  - intros e p. destruct (in_dec (fun x y => decide (x = y)) (e, p) (touched d)) as [Hin|Hin].
    + specialize (Hat _ Hin). unfold at_ in Hat. by injection Hat.
    + by rewrite (do_style _ _ _ _ R), (do_style _ _ _ _ H).
  - intros e k. destruct (Exists_dec (fun o => o.1 = e /\ k = saved o.2) (touched d)) as [Hin|Hin].
    + apply Exists_exists in Hin as ([e' p] & Hin & [= ->] & ->). apply list_elem_of_In in Hin.
      specialize (Hat _ Hin). unfold at_ in Hat. by injection Hat.
    + assert (Hno : forall p, In (e, p) (touched d) -> k <> saved p).
      { intros p Hp ->. apply Hin. apply Exists_exists. exists (e, p). split; [by apply list_elem_of_In|done]. }
      by rewrite (do_attr _ _ _ _ R), (do_attr _ _ _ _ H).
Qed.
End restoring.

(** Classes and tree are never touched. *)
Section shapes.
Context `{B : Browser} `{L : Layout}.
Variable parseJson : string -> option value.
Variable numberToString : Q -> string.
Variable body : nat.

Lemma shape_save e p d : shape d (_saveInitialAttribute e p d).
Proof. apply (do_shape _ _ _ _ (local_save e p d)). Qed.

Lemma shape_fold (f : gmap nat node -> nat -> gmap nat node) es d :
  (forall d e, shape d (f d e)) -> shape d (fold_left f es d).
Proof. intros Hf. revert d. induction es as [|e es IH]; intros d; cbn [fold_left]; [done|]. by transitivity (f d e). Qed.

Lemma shape_balance w p f d e : shape d (balance numberToString body w p f d e).
Proof.
  unfold balance. destruct (_ && _); [done|]. destruct (parseFloat _); [|apply shape_save].
  transitivity (_saveInitialAttribute e p d); [apply shape_save|apply shape_setStyle].
Qed.

Lemma shape_hide d : shape d (hide numberToString body d).
Proof.
  unfold hide, _setElementAttributes. cbv zeta. etransitivity; [|apply shape_fold; intros; apply shape_balance].
  etransitivity; [|apply shape_fold; intros; apply shape_balance]. etransitivity; [|apply shape_fold; intros; apply shape_balance].
  unfold _disableOverFlow. etransitivity; [|apply shape_setStyle]. apply shape_save.
Qed.

Lemma shape_reset d : shape d (reset parseJson numberToString body d).
Proof.
  assert (Hp : forall p d e, shape d (putBack parseJson numberToString p d e)).
  { intros p d' e. apply (do_shape _ _ _ _ (putBack_does parseJson numberToString p d' e)). }
  unfold reset, _resetElementAttributes. cbv zeta. etransitivity; [|by apply shape_fold].
  etransitivity; [|by apply shape_fold]. etransitivity; [|by apply shape_fold]. by apply shape_fold.
Qed.
End shapes.
End ScrollBar.

(** C31: hiding the scroll bar and putting it back leaves the page exactly as it was, inline styles and
    attributes included, when nothing was saved before and the fixed elements that have inline
    values span the window. *)
Theorem scrollbar_roundtrip `{B : Browser} `{L : ScrollBar.Layout} (parseJson : string -> option value)
    (numberToString : Q -> string) (body : nat) (d : gmap nat node) :
  (forall sel d d' x, In sel [ScrollBar.SELECTOR_FIXED_CONTENT; ScrollBar.SELECTOR_STICKY_CONTENT] ->
    (forall k, hasClass d' x k = hasClass d x k) -> matches d' x sel = matches d x sel) ->
  ScrollBar.clean parseJson body d ->
  let d' := ScrollBar.reset parseJson numberToString body (ScrollBar.hide numberToString body d) in
  sameTree d d' /\ (forall e k, hasClass d' e k = hasClass d e k) /\
  (forall e p, ScrollBar.getStyle d' e p = ScrollBar.getStyle d e p) /\
  (forall e k, getAttribute d' e k = getAttribute d e k).
Proof.
  intros Hby Hc. destruct (ScrollBar.reset_hide parseJson numberToString body Hby d Hc) as ([T C] & Hs & Ha). done.
Qed.

(** A page with a bar at the top that spans the window and a narrow one at the bottom. *)
Definition barBrowser : Browser :=
  Build_Browser (fun d x sel =>
      if str_eqb sel ScrollBar.SELECTOR_FIXED_CONTENT then hasClass d x "fixed-top" || hasClass d x "fixed-bottom"
      else if str_eqb sel ScrollBar.SELECTOR_STICKY_CONTENT then hasClass d x "sticky-top" else false)
    (fun _ _ => 1) (fun _ _ => "visible") None.

Definition barLayout : ScrollBar.Layout :=
  ScrollBar.Build_Layout (fun _ => 1000%Z)
    (fun d => if str_eqb (ScrollBar.getStyle d 0 "overflow") "hidden" then 1000%Z else 985%Z)
    (fun _ e => if e =? 2 then 200%Z else 1000%Z)
    (fun d e p => let v := ScrollBar.getStyle d e p in if str_truthy v then v else "0px").

Definition barPage (narrow : obj string) : gmap nat node :=
  list_to_map [(0, Node "BODY" [] [] [("overflow", "auto")] None [1; 2] None);
    (1, Node "DIV" ["fixed-top"] [] [("padding-right", "5px")] (Some 0) [] None);
    (2, Node "DIV" ["fixed-bottom"] [] narrow (Some 0) [] None)].

(** The numbers of these pages are whole. *)
Definition printWhole (q : Q) : string := if Qeq_bool q 20 then "20" else "15".

Lemma bar_by_class sel d d' x : In sel [ScrollBar.SELECTOR_FIXED_CONTENT; ScrollBar.SELECTOR_STICKY_CONTENT] ->
  (forall k, hasClass d' x k = hasClass d x k) -> @matches barBrowser d' x sel = @matches barBrowser d x sel.
Proof. intros _ H. cbn. by rewrite !H. Qed.

Lemma scrollbar_roundtrip_witness :
  ScrollBar.getStyle (@ScrollBar.hide barBrowser barLayout printWhole 0 (barPage [])) 1 "padding-right" = "20px" /\
  ScrollBar.getStyle (@ScrollBar.reset barBrowser (fun _ => None) printWhole 0
    (@ScrollBar.hide barBrowser barLayout printWhole 0 (barPage []))) 1 "padding-right" = "5px".
Proof.
  split; [vm_compute; reflexivity|].
  destruct (@scrollbar_roundtrip barBrowser barLayout (fun _ => None) printWhole 0 (barPage [])) as (_ & _ & H & _).
  - intros sel d d' x Hs H. exact (bar_by_class sel d d' x Hs H).
  - split.
    + vm_compute. repeat constructor; cbn; intuition discriminate.
    + intros o Ho. vm_compute in Ho. destruct Ho as [<-|[<-|[<-|[<-|[]]]]]; (split; [vm_compute; reflexivity|]).
      * split; [right; vm_compute; reflexivity|right; left; reflexivity].
      * split; [left; vm_compute; reflexivity|left; vm_compute; reflexivity].
      * split; [right; vm_compute; reflexivity|right; right; intros d; vm_compute; discriminate].
      * split; [left; vm_compute; reflexivity|left; vm_compute; reflexivity].
  - rewrite (H 1 "padding-right"). vm_compute. reflexivity.
Defined.

(** A fixed element that does not span the window is left alone by [hide], but [reset] finds nothing
    saved for it and takes its own inline padding away; and hiding twice, as two open modals do,
    saves the balanced value over the original, which is lost. *)
Theorem scrollbar_loses_styles :
  ScrollBar.getStyle (@ScrollBar.reset barBrowser (fun _ => None) printWhole 0
    (@ScrollBar.hide barBrowser barLayout printWhole 0 (barPage [("padding-right", "8px")]))) 2 "padding-right" = "" /\
  ScrollBar.getStyle (@ScrollBar.reset barBrowser (fun _ => None) printWhole 0
    (@ScrollBar.hide barBrowser barLayout printWhole 0 (@ScrollBar.hide barBrowser barLayout printWhole 0 (barPage [])))) 0 "overflow"
    = "hidden".
Proof. split; vm_compute; reflexivity. Qed.
