(* ===== verification/BsModal.v ===== *)
(** Bootstrap's [Modal] with its helpers [Backdrop] and [FocusTrap]: opening and closing a
    dialog in steps that wait for transitions, over a page that must not scroll meanwhile. *)
From Stdlib Require Import Ascii QArith Lia.
From S2P Require Import Prelude BsCore BsDom BsConfig BsScrollBar.

Local Open Scope nat_scope.

(** [parent.append(child)] *)
Definition appendChild (parent child : nat) (d : gmap nat node) : gmap nat node :=
  alter (fun n => Node (n_tag n) (n_classes n) (n_attrs n) (n_style n) (Some parent) (n_children n) (n_disabled n)) child
    (alter (fun n => Node (n_tag n) (n_classes n) (n_attrs n) (n_style n) (n_parent n) (n_children n ++ [child]) (n_disabled n)) parent
       (removeElement child d)).

(** [node.contains(other)] *)
Definition containsNode (d : gmap nat node) (e x : nat) : bool :=
  (x =? e) || existsb (Nat.eqb x) (descendants (size d) d e).

(** ** FocusTrap *)

Module FocusTrap.

Inductive direction := TAB_NAV_FORWARD | TAB_NAV_BACKWARD.
#[export] Instance direction_eq_dec : EqDecision direction.
Proof. solve_decision. Defined.

Record state := State {
  _isActive : bool;
  _lastTabNavDirection : option direction;
  ft_focus : option nat                 (** the element with the focus *)
}.

(** The target of an event: the document or an element. *)
Inductive target := Document | Element (e : nat).

Section trap.
Context `{B : Browser}.
Variable trapElement : nat.

Definition focus (e : nat) (s : state) : state := State (_isActive s) (_lastTabNavDirection s) (Some e).

(** [autofocus] is on: [Modal] and [Offcanvas] leave the default. *)
Definition activate (s : state) : state :=
  if _isActive s then s
  else let s := focus trapElement s in State true (_lastTabNavDirection s) (ft_focus s).

Definition deactivate (s : state) : state :=
  if negb (_isActive s) then s else State false (_lastTabNavDirection s) (ft_focus s).

Definition _handleFocusin (d : gmap nat node) (t : target) (s : state) : state :=
  match t with
  | Document => s
  | Element e =>
      if containsNode d trapElement e then s
      else
        let elements := focusableChildren d trapElement in
        match elements, last elements with
        | first :: _, Some final =>
            if decide (_lastTabNavDirection s = Some TAB_NAV_BACKWARD) then focus final s else focus first s
        | _, _ => focus trapElement s
        end
  end.

Definition _handleKeydown (key : string) (shiftKey : bool) (s : state) : state :=
  if negb (str_eqb key "Tab") then s
  else State (_isActive s) (Some (if shiftKey then TAB_NAV_BACKWARD else TAB_NAV_FORWARD)) (ft_focus s).

(** The page moves the focus; the listeners are there only while the trap is active. *)
Definition focusMoves (d : gmap nat node) (e : nat) (s : state) : state :=
  let s := focus e s in if _isActive s then _handleFocusin d (Element e) s else s.
End trap.
End FocusTrap.

(** ** Backdrop *)

Module Backdrop.

Record backdrop := Backdrop_ {
  b_isVisible : bool;
  b_isAnimated : bool;
  _isAppended : bool;
  _element : bool                       (** the element has been created *)
}.

(** The class that [Modal] leaves and [Offcanvas] replaces. *)
Definition DefaultClassName : string := "modal-backdrop".

Section backdrop.
Variable className : string.
Variable body bd : nat.                 (** [rootElement], and the element of the backdrop *)
Implicit Types (b : backdrop) (d : gmap nat node).

Definition _getElement b d : backdrop * gmap nat node :=
  if _element b then (b, d)
  else (Backdrop_ (b_isVisible b) (b_isAnimated b) (_isAppended b) true,
        <[bd := Node "DIV" ([className] ++ if b_isAnimated b then ["fade"] else []) [] [] None [] None]> d).

Definition _append b d : backdrop * gmap nat node :=
  if _isAppended b then (b, d)
  else
    let '(b, d) := _getElement b d in
    (Backdrop_ (b_isVisible b) (b_isAnimated b) true (_element b), appendChild body bd d).

(** [show] and [hide] up to their callback. *)
Definition show b d : backdrop * gmap nat node :=
  let '(b, d) := _append b d in
  let '(b, d) := _getElement b d in
  (b, classList_add bd ["show"] d).

Definition hide b d : backdrop * gmap nat node :=
  let '(b, d) := _getElement b d in (b, classList_remove bd ["show"] d).

Definition dispose b d : backdrop * gmap nat node :=
  if negb (_isAppended b) then (b, d)
  else (Backdrop_ (b_isVisible b) (b_isAnimated b) false (_element b), removeElement bd d).
End backdrop.
End Backdrop.

(** ** Modal *)

Module Modal.
Import ScrollBar.

Definition EVENT_HIDE : string := "hide.bs.modal".
Definition EVENT_HIDE_PREVENTED : string := "hidePrevented.bs.modal".
Definition EVENT_HIDDEN : string := "hidden.bs.modal".
Definition EVENT_SHOW : string := "show.bs.modal".
Definition EVENT_SHOWN : string := "shown.bs.modal".

Inductive backdropOption := NoBackdrop | PlainBackdrop | StaticBackdrop.

Record config := Config { c_backdrop : backdropOption; c_focus : bool; c_keyboard : bool }.

(** The callbacks that wait for a transition. *)
Inductive callback :=
  | BackdropShown
  | TransitionComplete
  | HideModal
  | BackdropHidden
  | StaticOff (initialOverflowY : string)
  | StaticRestore (initialOverflowY : string).

Record modal := Modal_ {
  m_page : gmap nat node;
  m_config : config;
  _backdrop : Backdrop.backdrop;
  _focustrap : FocusTrap.state;
  _isShown : bool;
  _isTransitioning : bool;
  m_queue : list callback;
  m_log : list string
}.

Definition set_page (d : gmap nat node) (m : modal) : modal :=
  Modal_ d (m_config m) (_backdrop m) (_focustrap m) (_isShown m) (_isTransitioning m) (m_queue m) (m_log m).
Definition set_backdrop (bd : Backdrop.backdrop * gmap nat node) (m : modal) : modal :=
  Modal_ bd.2 (m_config m) bd.1 (_focustrap m) (_isShown m) (_isTransitioning m) (m_queue m) (m_log m).
Definition set_trap (s : FocusTrap.state) (m : modal) : modal :=
  Modal_ (m_page m) (m_config m) (_backdrop m) s (_isShown m) (_isTransitioning m) (m_queue m) (m_log m).
Definition set_phase (shown transitioning : bool) (m : modal) : modal :=
  Modal_ (m_page m) (m_config m) (_backdrop m) (_focustrap m) shown transitioning (m_queue m) (m_log m).
Definition set_queue (q : list callback) (m : modal) : modal :=
  Modal_ (m_page m) (m_config m) (_backdrop m) (_focustrap m) (_isShown m) (_isTransitioning m) q (m_log m).
Definition log_event (name : string) (m : modal) : modal :=
  Modal_ (m_page m) (m_config m) (_backdrop m) (_focustrap m) (_isShown m) (_isTransitioning m) (m_queue m) (m_log m ++ [name]).

Section modal.
Context `{B : Browser} `{L : Layout}.
Variable parseJson : string -> option value.
Variable numberToString : Q -> string.
Variable element body bd : nat.         (** the dialog, [document.body], the backdrop's element *)
Variable rtl : bool.
Variable overflows : gmap nat node -> bool.          (** [scrollHeight > clientHeight] *)
Variable prevents : list string -> string -> bool.
Implicit Types (m : modal).

Definition _isAnimated m : bool := hasClass (m_page m) element "fade".

Definition enqueue (cb : callback) m : modal := set_queue (m_queue m ++ [cb]) m.

Definition px (w : Z) : string := numberToString (inject_Z w) +:+ "px".

Definition _adjustDialog m : modal :=
  let d := m_page m in
  let isModalOverflowing := overflows d in
  let scrollbarWidth := getWidth d in
  let isBodyOverflowing := (0 <? scrollbarWidth)%Z in
  let d := if isBodyOverflowing && negb isModalOverflowing
           then setStyle element (if rtl then "padding-left" else "padding-right") (px scrollbarWidth) d else d in
  let d := if negb isBodyOverflowing && isModalOverflowing
           then setStyle element (if rtl then "padding-right" else "padding-left") (px scrollbarWidth) d else d in
  set_page d m.

Definition _resetAdjustments m : modal :=
  set_page (setStyle element "padding-right" "" (setStyle element "padding-left" "" (m_page m))) m.

Definition transitionComplete m : modal :=
  let m := if c_focus (m_config m) then set_trap (FocusTrap.activate element (_focustrap m)) m else m in
  log_event EVENT_SHOWN (set_phase (_isShown m) false m).

(** Scroll positions are not modelled. *)
Definition _showElement m : modal :=
  let d := if containsNode (m_page m) body element then m_page m else appendChild body element (m_page m) in
  let d := setStyle element "display" "block" d in
  let d := removeAttribute element "aria-hidden" d in
  let d := setAttribute element "aria-modal" "true" d in
  let d := setAttribute element "role" "dialog" d in
  let m := set_page (classList_add element ["show"] d) m in
  if _isAnimated m then enqueue TransitionComplete m else transitionComplete m.

Definition show m : modal :=
  if _isShown m || _isTransitioning m then m
  else
    let prevented := prevents (m_log m) EVENT_SHOW in
    let m := log_event EVENT_SHOW m in
    if prevented then m
    else
      let m := set_phase true true m in
      let m := set_page (ScrollBar.hide numberToString body (m_page m)) m in
      let m := set_page (classList_add body ["modal-open"] (m_page m)) m in
      let m := _adjustDialog m in
      if negb (Backdrop.b_isVisible (_backdrop m)) then _showElement m
      else
        let m := set_backdrop (Backdrop.show Backdrop.DefaultClassName body bd (_backdrop m) (m_page m)) m in
        if Backdrop.b_isAnimated (_backdrop m) then enqueue BackdropShown m else _showElement m.

(** The callback [_hideModal] hands to the backdrop. *)
Definition afterBackdrop m : modal :=
  let m := set_page (classList_remove body ["modal-open"] (m_page m)) m in
  let m := _resetAdjustments m in
  let m := set_page (ScrollBar.reset parseJson numberToString body (m_page m)) m in
  log_event EVENT_HIDDEN m.

Definition backdropHidden m : modal :=
  afterBackdrop (set_backdrop (Backdrop.dispose bd (_backdrop m) (m_page m)) m).

Definition _hideModal m : modal :=
  let d := setStyle element "display" "none" (m_page m) in
  let d := setAttribute element "aria-hidden" "true" d in
  let d := removeAttribute element "role" (removeAttribute element "aria-modal" d) in
  let m := set_phase (_isShown m) false (set_page d m) in
  if negb (Backdrop.b_isVisible (_backdrop m)) then afterBackdrop m
  else
    let m := set_backdrop (Backdrop.hide Backdrop.DefaultClassName bd (_backdrop m) (m_page m)) m in
    if Backdrop.b_isAnimated (_backdrop m) then enqueue BackdropHidden m else backdropHidden m.

Definition hide m : modal :=
  if negb (_isShown m) || _isTransitioning m then m
  else
    let prevented := prevents (m_log m) EVENT_HIDE in
    let m := log_event EVENT_HIDE m in
    if prevented then m
    else
      let m := set_trap (FocusTrap.deactivate (_focustrap m)) (set_phase false true m) in
      let m := set_page (classList_remove element ["show"] (m_page m)) m in
      if _isAnimated m then enqueue HideModal m else _hideModal m.

Definition toggle m : modal := if _isShown m then hide m else show m.

(** What the backdrop and the trap do when the instance is disposed of. *)
Definition dispose m : modal :=
  let m := set_backdrop (Backdrop.dispose bd (_backdrop m) (m_page m)) m in
  set_trap (FocusTrap.deactivate (_focustrap m)) m.

Definition handleUpdate m : modal := _adjustDialog m.

Definition _triggerBackdropTransition m : modal :=
  let prevented := prevents (m_log m) EVENT_HIDE_PREVENTED in
  let m := log_event EVENT_HIDE_PREVENTED m in
  if prevented then m
  else
    let d := m_page m in
    let isModalOverflowing := overflows d in
    let initialOverflowY := getStyle d element "overflow-y" in
    if str_eqb initialOverflowY "hidden" || hasClass d element "modal-static" then m
    else
      let d := if negb isModalOverflowing then setStyle element "overflow-y" "hidden" d else d in
      let m := set_page (classList_add element ["modal-static"] d) m in
      set_trap (FocusTrap.focus element (_focustrap m)) (enqueue (StaticOff initialOverflowY) m).

Definition runCallback (cb : callback) m : modal :=
  match cb with
  | BackdropShown => _showElement m
  | TransitionComplete => transitionComplete m
  | HideModal => _hideModal m
  | BackdropHidden => backdropHidden m
  | StaticOff y => enqueue (StaticRestore y) (set_page (classList_remove element ["modal-static"] (m_page m)) m)
  | StaticRestore y => set_page (setStyle element "overflow-y" y (m_page m)) m
  end.

(** The [k]-th waiting callback runs. *)
Definition transitionDone (k : nat) m : modal :=
  match m_queue m !! k with
  | Some cb => runCallback cb (set_queue (delete k (m_queue m)) m)
  | None => m
  end.

(** The listeners of [_addEventListeners]. *)
Definition onKeydown (key : string) m : modal :=
  if negb (str_eqb key "Escape") then m
  else if c_keyboard (m_config m) then hide m else _triggerBackdropTransition m.

Definition onResize m : modal := if _isShown m && negb (_isTransitioning m) then _adjustDialog m else m.

(** A click that began at [down] and ended at [up]. *)
Definition onClick (down up : nat) m : modal :=
  if negb (down =? element) || negb (up =? element) then m
  else match c_backdrop (m_config m) with
       | StaticBackdrop => _triggerBackdropTransition m
       | PlainBackdrop => hide m
       | NoBackdrop => m
       end.

Definition isVisibleOption (o : backdropOption) : bool := match o with NoBackdrop => false | _ => true end.

(** The constructor: [_initializeBackDrop] and [_initializeFocusTrap]. *)
Definition new (g : config) (d : gmap nat node) : modal :=
  Modal_ d g (Backdrop.Backdrop_ (isVisibleOption (c_backdrop g)) (hasClass d element "fade") false false)
    (FocusTrap.State false None None) false false [] [].
End modal.

(** ** Opening and closing *)

Lemma in_alter (f : node -> node) e (d : gmap nat node) x :
  bool_decide (is_Some (alter f e d !! x)) = bool_decide (is_Some (d !! x)).
Proof. apply bool_decide_ext, alter_is_Some. Qed.

Lemma in_removeElement d e x : bool_decide (is_Some (removeElement e d !! x)) = bool_decide (is_Some (d !! x)).
Proof. unfold removeElement. destruct (d !! e) as [n|]; [|done]. destruct (n_parent n); [|done]. by rewrite !in_alter. Qed.
Lemma in_append d p c x : bool_decide (is_Some (appendChild p c d !! x)) = bool_decide (is_Some (d !! x)).
Proof. unfold appendChild. by rewrite !in_alter, in_removeElement. Qed.

(** Changes of parents and children keep the classes. *)
Lemma class_alter f e d x k : (forall n, n_classes (f n) = n_classes n) -> hasClass (alter f e d) x k = hasClass d x k.
Proof.
  intros Hf. rewrite hasClass_alter. unfold hasClass. destruct (d !! x); [|done]. destruct (bool_decide _); by rewrite ?Hf.
Qed.
Lemma class_removeElement d e x k : hasClass (removeElement e d) x k = hasClass d x k.
Proof.
  unfold removeElement. destruct (d !! e) as [n|]; [|done]. destruct (n_parent n); [|done]. by rewrite !class_alter.
Qed.
Lemma class_append d p c x k : hasClass (appendChild p c d) x k = hasClass d x k.
Proof. unfold appendChild. by rewrite !class_alter, class_removeElement. Qed.

(** The same elements with the same classes. *)
Definition agree (d d' : gmap nat node) : Prop :=
  forall x, bool_decide (is_Some (d' !! x)) = bool_decide (is_Some (d !! x)) /\ forall k, hasClass d' x k = hasClass d x k.

#[export] Instance agree_preorder : PreOrder agree.
Proof.
  split; [by split|]. intros a b c H1 H2 x. destruct (H1 x) as [E1 C1], (H2 x) as [E2 C2]. split; [congruence|].
  intros k. by rewrite C2.
Qed.

Lemma agree_alter f e d : (forall n, n_classes (f n) = n_classes n) -> agree d (alter f e d).
Proof. intros Hf x. split; [apply in_alter|]. intros k. by apply class_alter. Qed.
Lemma agree_setStyle e k v d : agree d (setStyle e k v d).
Proof. by apply agree_alter. Qed.
Lemma agree_setAttribute e k v d : agree d (setAttribute e k v d).
Proof. by apply agree_alter. Qed.
Lemma agree_removeAttribute e k d : agree d (removeAttribute e k d).
Proof. by apply agree_alter. Qed.
Lemma agree_removeElement e d : agree d (removeElement e d).
Proof. intros x. split; [apply in_removeElement|]. intros. apply class_removeElement. Qed.
Lemma agree_append p c d : agree d (appendChild p c d).
Proof. intros x. split; [apply in_append|]. intros. apply class_append. Qed.
Lemma agree_shape d d' : shape d d' -> agree d d'.
Proof. intros S x. split; [by apply bool_decide_ext, shape_Some|apply S]. Qed.


Section cycle.
Context `{B : Browser} `{L : Layout}.
Variable parseJson : string -> option value.
Variable numberToString : Q -> string.
Variable element body bd : nat.
Variable rtl : bool.
Variable overflows : gmap nat node -> bool.
Variable prevents : list string -> string -> bool.
Hypothesis distinct : element <> body /\ element <> bd /\ body <> bd.
Hypothesis permitted : forall l name, prevents l name = false.
Implicit Types (m : modal) (d : gmap nat node).

(** What matters of the page: whether the backdrop's element exists, the dialog has its class
    "show", the page its class "modal-open" and the backdrop its class "show". *)
Record pageIs (created sh op bs : bool) d : Prop := {
  pi_elem : bool_decide (is_Some (d !! element)) = true;
  pi_body : bool_decide (is_Some (d !! body)) = true;
  pi_bd : bool_decide (is_Some (d !! bd)) = created;
  pi_fade : hasClass d element "fade" = true;
  pi_show : hasClass d element "show" = sh;
  pi_open : hasClass d body "modal-open" = op;
  pi_bshow : hasClass d bd "show" = bs
}.

Lemma pageIs_agree c sh op bs d d' : agree d d' -> pageIs c sh op bs d -> pageIs c sh op bs d'.
Proof.
  intros A [H1 H2 H3 H4 H5 H6 H7].
  split; first [by rewrite (proj1 (A _))|by rewrite (proj2 (A _) _)].
Qed.

(** A class other than "fade" of one of the three elements is added or removed. *)
Lemma pageIs_class c sh op bs d e k (on : bool) :
  k <> "fade" -> bool_decide (is_Some (d !! e)) = true -> pageIs c sh op bs d ->
  pageIs c (if decide (e = element /\ k = "show") then on else sh) (if decide (e = body /\ k = "modal-open") then on else op)
    (if decide (e = bd /\ k = "show") then on else bs) (classList_toggle e k on d).
Proof.
  intros Hf He [H1 H2 H3 H4 H5 H6 H7].
  assert (Hin : forall x, bool_decide (is_Some (classList_toggle e k on d !! x)) = bool_decide (is_Some (d !! x)))
    by (intros; destruct on; apply in_alter).
  assert (Hcl : forall x q, hasClass (classList_toggle e k on d) x q = if decide (e = x /\ k = q) then on else hasClass d x q).
  { intros x q. destruct on; cbn [classList_toggle]; rewrite ?hasClass_add, ?hasClass_remove, ?He; unfold in_strs; cbn;
      (destruct (bool_decide_reflect (x = e)) as [->|Hne]; cbn;
       [destruct (String.eqb_spec q k) as [->|Hk]; cbn; [rewrite decide_True by done|rewrite decide_False by (intros []; congruence)]
       |rewrite decide_False by (intros []; congruence)]); by rewrite ?orb_true_r, ?orb_false_r, ?andb_true_r, ?andb_false_r. }
  split; rewrite ?Hin, ?Hcl, ?H4, ?H5, ?H6, ?H7; try done. by rewrite decide_False by (intros []; congruence).
Qed.
(** Where the modal stands: page, backdrop, flags, what waits, and the focus trap. *)
Record isAt (created sh op bs appended shown transitioning : bool) (q : list callback) (active : bool) m : Prop := {
  ia_page : pageIs created sh op bs (m_page m);
  ia_backdrop : _backdrop m = Backdrop.Backdrop_ true true appended created;
  ia_shown : _isShown m = shown;
  ia_moving : _isTransitioning m = transitioning;
  ia_queue : m_queue m = q;
  ia_trap : FocusTrap._isActive (_focustrap m) = active
}.

Definition closed m : Prop := exists created, isAt created false false false false false false [] false m.
Definition opened m : Prop := isAt true true true true true true false [] (c_focus (m_config m)) m.

Lemma agree_adjust d m : agree d (m_page m) -> agree d (m_page (_adjustDialog numberToString element rtl overflows m)).
Proof.
  intros H. transitivity (m_page m); [done|]. unfold _adjustDialog. cbn [set_page m_page].
  destruct (_ && _), (_ && _); eauto using agree_setStyle; try (etransitivity; apply agree_setStyle); done.
Qed.

Lemma hasClass_insert d e n x k : hasClass (<[e := n]> d) x k = if bool_decide (x = e) then in_strs k (n_classes n) else hasClass d x k.
Proof.
  unfold hasClass. destruct (bool_decide_reflect (x = e)) as [->|Hne]; [by rewrite lookup_insert_eq|by rewrite lookup_insert_ne].
Qed.

(** The backdrop's element is there once it was asked for. *)
Lemma getElement_page created appended sh op d : pageIs created sh op false d ->
  exists d', Backdrop._getElement Backdrop.DefaultClassName bd (Backdrop.Backdrop_ true true appended created) d =
    (Backdrop.Backdrop_ true true appended true, d') /\ pageIs true sh op false d'.
Proof.
  intros Hp. unfold Backdrop._getElement. cbn [Backdrop._element]. destruct created; [by exists d|].
  eexists. split; [reflexivity|]. destruct distinct as (D1 & D2 & D3), Hp as [H1 H2 H3 H4 H5 H6 H7].
  split; rewrite ?hasClass_insert.
  - by rewrite lookup_insert_ne by done.
  - by rewrite lookup_insert_ne by done.
  - by rewrite lookup_insert_eq.
  - by rewrite bool_decide_false by done.
  - by rewrite bool_decide_false by done.
  - by rewrite bool_decide_false by done.
  - by rewrite bool_decide_true by done.
Qed.

Lemma backdrop_show created sh op d : pageIs created sh op false d ->
  exists d', Backdrop.show Backdrop.DefaultClassName body bd (Backdrop.Backdrop_ true true false created) d = (Backdrop.Backdrop_ true true true true, d') /\
    pageIs true sh op true d'.
Proof.
  intros Hp. unfold Backdrop.show, Backdrop._append. cbn [Backdrop._isAppended].
  destruct (getElement_page _ false _ _ _ Hp) as (d1 & -> & P1). cbn [Backdrop._element Backdrop.b_isVisible Backdrop.b_isAnimated].
  unfold Backdrop._getElement. cbn [Backdrop._element]. eexists. split; [reflexivity|].
  assert (P2 : pageIs true sh op false (appendChild body bd d1)) by (eapply pageIs_agree; [apply agree_append|done]).
  pose proof (pageIs_class _ _ _ _ _ bd "show" true ltac:(done) (pi_bd _ _ _ _ _ P2) P2) as P. cbn [classList_toggle] in P.
  destruct distinct as (D1 & D2 & D3).
  rewrite (decide_False (P := bd = element /\ _)), (decide_False (P := bd = body /\ _)), decide_True in P
    by first [done|intros []; congruence]. exact P.
Qed.

Lemma modal_show_starts c op m : isAt c false op false false false false [] false m ->
  let m1 := show numberToString element body bd rtl overflows prevents m in
  isAt true false true true true true true [BackdropShown] false m1 /\ m_config m1 = m_config m /\
  m_log m1 = m_log m ++ [EVENT_SHOW].
Proof.
  intros [Hp Hb Hs Hm Hq Ht]. cbv zeta. unfold show. rewrite Hs, Hm, permitted. cbn [orb].
  set (d0 := ScrollBar.hide numberToString body (m_page m)). set (d1 := classList_add body ["modal-open"] d0).
  set (m1 := _adjustDialog _ _ _ _ _).
  assert (P1 : pageIs c false true false (m_page m1)).
  { apply (pageIs_agree _ _ _ _ d1); [by apply agree_adjust|].
    assert (P0 : pageIs c false op false d0) by (eapply pageIs_agree; [apply agree_shape, shape_hide|done]).
    pose proof (pageIs_class _ _ _ _ _ body "modal-open" true ltac:(done) (pi_body _ _ _ _ _ P0) P0) as P. cbn [classList_toggle] in P.
    rewrite (decide_False (P := _ /\ "modal-open" = "show")), decide_True, (decide_False (P := body = bd /\ _)) in P
      by first [done|intros []; done]. exact P. }
  assert (E : _backdrop m1 = _backdrop m /\ _isShown m1 = true /\ _isTransitioning m1 = true /\ m_queue m1 = m_queue m /\
    _focustrap m1 = _focustrap m /\ m_config m1 = m_config m /\ m_log m1 = m_log m ++ [EVENT_SHOW]) by done.
  clearbody m1. destruct E as (Eb & Es & Em & Eq & Et & Ec & El). rewrite Eb, Hb. cbn [Backdrop.b_isVisible negb].
  destruct (backdrop_show _ _ _ _ P1) as (d2 & -> & P2). cbn [set_backdrop fst snd _backdrop Backdrop.b_isAnimated].
  split; [|by rewrite <- El]. split; cbn; [done|done|done|done|by rewrite Eq, Hq|by rewrite Et].
Qed.

#[local] Ltac agrees := repeat (first [reflexivity | eapply transitivity; [|first [apply agree_setStyle | apply agree_setAttribute
  | apply agree_removeAttribute | apply agree_removeElement | apply agree_append | apply agree_shape, shape_reset]]]).

(** The dialog's class "show" is set or removed. *)
Lemma dialog_class c sh op bs d (on : bool) : pageIs c sh op bs d -> pageIs c on op bs (classList_toggle element "show" on d).
Proof.
  intros P0. pose proof (pageIs_class _ _ _ _ _ element "show" on ltac:(done) (pi_elem _ _ _ _ _ P0) P0) as P.
  destruct distinct as (D1 & D2 & D3).
  rewrite (decide_True (P := element = element /\ _)), (decide_False (P := element = body /\ _)),
    (decide_False (P := element = bd /\ _)) in P by first [done|intros []; congruence]. exact P.
Qed.

Lemma backdrop_done op m : isAt true false op true true true true [BackdropShown] false m ->
  let m1 := transitionDone parseJson numberToString element body bd 0 m in
  isAt true true op true true true true [TransitionComplete] false m1 /\ m_config m1 = m_config m /\ m_log m1 = m_log m.
Proof.
  intros [Hp Hb Hs Hm Hq Ht]. cbv zeta. unfold transitionDone. rewrite Hq. cbn [lookup list_lookup delete list_delete runCallback].
  unfold _showElement. cbn [m_page set_queue].
  match goal with |- context [classList_add element ["show"] ?x] => set (d1 := x) end.
  assert (P1 : pageIs true true op true (classList_add element ["show"] d1)).
  { apply (dialog_class true false op true d1 true). eapply pageIs_agree; [|exact Hp]. unfold d1.
    destruct (containsNode _ _ _); agrees. }
  unfold _isAnimated. cbn [m_page set_page]. rewrite (pi_fade _ _ _ _ _ P1). split; [|done]. by split.
Qed.

Lemma dialog_done op m : isAt true true op true true true true [TransitionComplete] false m ->
  let m1 := transitionDone parseJson numberToString element body bd 0 m in
  isAt true true op true true true false [] (c_focus (m_config m)) m1 /\ m_config m1 = m_config m /\ m_log m1 = m_log m ++ [EVENT_SHOWN].
Proof.
  intros [Hp Hb Hs Hm Hq Ht]. cbv zeta. unfold transitionDone. rewrite Hq. cbn [lookup list_lookup delete list_delete runCallback].
  unfold transitionComplete. cbn [m_config set_queue].
  destruct (c_focus (m_config m)) eqn:Ef; (split; [|done]); (split; [done|done|done|done|done|]); cbn; [|done].
  unfold FocusTrap.activate. by rewrite Ht.
Qed.

Lemma modal_hide_starts op m : isAt true true op true true true false [] (c_focus (m_config m)) m ->
  let m1 := hide parseJson numberToString element body bd prevents m in
  isAt true false op true true false true [HideModal] false m1 /\ m_config m1 = m_config m /\ m_log m1 = m_log m ++ [EVENT_HIDE].
Proof.
  intros [Hp Hb Hs Hm Hq Ht]. cbv zeta. unfold hide. rewrite Hs, Hm, permitted. cbn [orb negb].
  assert (P1 : pageIs true false op true (classList_remove element ["show"] (m_page m))) by (by apply (dialog_class _ true _ _ _ false)).
  unfold _isAnimated. cbn [m_page set_page set_trap set_phase log_event]. rewrite (pi_fade _ _ _ _ _ P1).
  split; [|done]. split; cbn; [done|done|done|done|by rewrite Hq|]. unfold FocusTrap.deactivate. rewrite Ht. by destruct (c_focus _).
Qed.

Lemma dialog_hidden op m : isAt true false op true true false true [HideModal] false m ->
  let m1 := transitionDone parseJson numberToString element body bd 0 m in
  isAt true false op false true false false [BackdropHidden] false m1 /\ m_config m1 = m_config m /\ m_log m1 = m_log m.
Proof.
  intros [Hp Hb Hs Hm Hq Ht]. cbv zeta. unfold transitionDone. rewrite Hq. cbn [lookup list_lookup delete list_delete runCallback].
  unfold _hideModal. cbn [_backdrop set_queue set_page set_phase]. rewrite Hb. cbn [Backdrop.b_isVisible negb].
  unfold Backdrop.hide, Backdrop._getElement. cbn [Backdrop._element set_backdrop fst snd _backdrop Backdrop.b_isAnimated m_page].
  split; [|done]. split; cbn; [|done|done|done|done|done].
  match goal with |- context [classList_remove bd ["show"] ?x] => set (d1 := x) end.
  assert (P1 : pageIs true false op true d1) by (eapply pageIs_agree; [|exact Hp]; unfold d1; agrees).
  pose proof (pageIs_class _ _ _ _ _ bd "show" false ltac:(done) (pi_bd _ _ _ _ _ P1) P1) as P. cbn [classList_toggle] in P.
  destruct distinct as (D1 & D2 & D3).
  rewrite (decide_False (P := bd = element /\ _)), (decide_False (P := bd = body /\ _)), decide_True in P
    by first [done|intros []; congruence]. exact P.
Qed.

Lemma backdrop_hidden op m : isAt true false op false true false false [BackdropHidden] false m ->
  let m1 := transitionDone parseJson numberToString element body bd 0 m in
  isAt true false false false false false false [] false m1 /\ m_config m1 = m_config m /\ m_log m1 = m_log m ++ [EVENT_HIDDEN].
Proof.
  intros [Hp Hb Hs Hm Hq Ht]. cbv zeta. unfold transitionDone. rewrite Hq. cbn [lookup list_lookup delete list_delete runCallback].
  unfold backdropHidden, Backdrop.dispose. cbn [_backdrop set_queue]. rewrite Hb. cbn [Backdrop._isAppended negb].
  split; [|done]. split; cbn; [|done|done|done|done|done].
  match goal with |- context [classList_remove body ["modal-open"] ?x] => set (d1 := x) end.
  assert (P1 : pageIs true false op false d1) by (eapply pageIs_agree; [|exact Hp]; unfold d1; agrees).
  pose proof (pageIs_class _ _ _ _ _ body "modal-open" false ltac:(done) (pi_body _ _ _ _ _ P1) P1) as P. cbn [classList_toggle] in P.
  rewrite (decide_False (P := _ /\ "modal-open" = "show")), decide_True, (decide_False (P := body = bd /\ _)) in P
    by first [done|intros []; done].
  eapply pageIs_agree; [|exact P]. agrees.
Qed.

(** While a transition of the modal is under way neither [show] nor [hide] does anything. *)
Lemma moving_ignored m : _isTransitioning m = true ->
  show numberToString element body bd rtl overflows prevents m = m /\ hide parseJson numberToString element body bd prevents m = m.
Proof. intros H. unfold show, hide. by rewrite H, !orb_true_r. Qed.
End cycle.
End Modal.


(** A page with a dialog; its layout is that of the page with the bars. *)
Definition modalPage : gmap nat node :=
  list_to_map [(0, Node "BODY" [] [] [] None [1; 2] None); (1, Node "DIV" ["fixed-top"] [] [] (Some 0) [] None);
    (2, Node "DIV" ["modal"; "fade"] [] [] (Some 0) [] None)].

Definition modal0 : Modal.modal := Modal.new 2 (Modal.Config Modal.PlainBackdrop true true) modalPage.

Lemma modal0_closed : Modal.closed 2 0 9 modal0.
Proof. exists false. split; [|done|done|done|done|done]. by split. Qed.


(** [_hideModal] reports the modal as settled before its backdrop is gone. Shown again at that moment, the modal
    opens without a backdrop and on a page that scrolls: the callback of the earlier [hide] takes both away. *)
Theorem modal_reopened_without_backdrop :
  let show := @Modal.show barBrowser barLayout printWhole 2 0 9 false (fun _ => false) (fun _ _ => false) in
  let hide := @Modal.hide barBrowser (fun _ => None) printWhole 2 0 9 (fun _ _ => false) in
  let transitionDone := @Modal.transitionDone barBrowser (fun _ => None) printWhole 2 0 9 0 in
  let m := show (transitionDone (hide (transitionDone (transitionDone (show modal0))))) in
  let m := transitionDone (transitionDone (transitionDone m)) in
  Modal._isShown m = true /\ Modal.m_queue m = [] /\ hasClass (Modal.m_page m) 2 "show" = true /\
  Backdrop._isAppended (Modal._backdrop m) = false /\ containsNode (Modal.m_page m) 0 9 = false /\
  hasClass (Modal.m_page m) 0 "modal-open" = false.
Proof. vm_compute. repeat split. Qed.

(** While the trap is active, wherever the page moves the focus, it ends up in the trap: on an element
    inside it, or on the trap itself. *)
Theorem focus_stays_trapped `{B : Browser} (trapElement : nat) (d : gmap nat node) (e : nat) (s : FocusTrap.state) :
  FocusTrap._isActive s = true ->
  exists x, FocusTrap.ft_focus (FocusTrap.focusMoves trapElement d e s) = Some x /\ containsNode d trapElement x = true.
Proof.
  intros Ha. unfold FocusTrap.focusMoves. cbn [FocusTrap.focus FocusTrap._isActive]. rewrite Ha. cbn [FocusTrap._handleFocusin].
  assert (Hself : containsNode d trapElement trapElement = true) by (unfold containsNode; by rewrite Nat.eqb_refl).
  destruct (containsNode d trapElement e) eqn:E; [by exists e|].
  assert (Hin : forall x, In x (focusableChildren d trapElement) -> containsNode d trapElement x = true).
  { intros x Hx. unfold focusableChildren in Hx. apply filter_In in Hx as [Hx _]. unfold find in Hx. apply filter_In in Hx as [Hx _].
    unfold containsNode. apply orb_true_iff. right. apply existsb_exists. exists x. split; [done|]. apply Nat.eqb_refl. }
  destruct (focusableChildren d trapElement) as [|first l] eqn:El; [by exists trapElement|].
  destruct (last (first :: l)) as [final|] eqn:Ef; [|by exists trapElement].
  case_decide; eexists; (split; [reflexivity|]); apply Hin; [|by left].
  apply list_elem_of_In. by apply last_Some_elem_of in Ef.
Qed.

Lemma focus_stays_trapped_witness :
  exists x, FocusTrap.ft_focus (@FocusTrap.focusMoves barBrowser 2 modalPage 1 (FocusTrap.State true None None)) = Some x /\
    containsNode modalPage 2 x = true.
Proof. apply (@focus_stays_trapped barBrowser 2 modalPage 1 (FocusTrap.State true None None)). reflexivity. Defined.
