(* ===== verification/BsTree.v ===== *)
(** The tree of a page under what components do to it: a well-formed tree, and the edits that keep
    it so and that leave everything but a few elements as it was. *)
From Stdlib Require Import Ascii QArith Lia.
From stdpp Require Import relations.
From S2P Require Import Prelude BsCore BsDom BsConfig BsScrollBar BsModal.

Local Open Scope nat_scope.

(** ** Well-formed trees *)

(** Children and parents name each other, and no child occurs twice. *)
Record wfNode (d : gmap nat node) (x : nat) (n : node) : Prop := {
  wf_distinct : NoDup (n_children n);
  wf_children c : c ∈ n_children n -> d !! c ≫= n_parent = Some x;
  wf_parent p : n_parent n = Some p -> exists m, d !! p = Some m /\ x ∈ n_children m
}.

Definition wfTree (d : gmap nat node) : Prop := map_Forall (wfNode d) d.

(** The same, to be evaluated on a page. *)
Definition wfNodeb (d : gmap nat node) (x : nat) (n : node) : bool :=
  bool_decide (NoDup (n_children n)) && forallb (fun c => bool_decide (d !! c ≫= n_parent = Some x)) (n_children n) &&
  match n_parent n with
  | Some p => match d !! p with Some m => bool_decide (x ∈ n_children m) | None => false end
  | None => true
  end.
Definition wfTreeb (d : gmap nat node) : bool := bool_decide (map_Forall (fun x n => wfNodeb d x n = true) d).

Lemma wfTreeb_sound d : wfTreeb d = true -> wfTree d.
Proof.
  intros H%bool_decide_eq_true x n Hx. specialize (H x n Hx). unfold wfNodeb in H.
  apply andb_true_iff in H as [[H1%bool_decide_eq_true H2]%andb_true_iff H3]. split; [done| |].
  - intros c Hc%list_elem_of_In. rewrite forallb_forall in H2. by apply H2, bool_decide_eq_true in Hc.
  - intros p Hp. rewrite Hp in H3. destruct (d !! p) as [m|]; [|done]. exists m. by apply bool_decide_eq_true in H3.
Qed.

Definition keepsLinks (f : node -> node) : Prop := forall n, n_parent (f n) = n_parent n /\ n_children (f n) = n_children n.

(** A relation between the links of two pages is enough. *)
Lemma wf_links d d' : (forall x, (d' !! x ≫= n_parent) = (d !! x ≫= n_parent)) ->
  (forall x, option_map n_children (d' !! x) = option_map n_children (d !! x)) -> wfTree d -> wfTree d'.
Proof.
  intros P C W x n' Hx. pose proof (P x) as Px. pose proof (C x) as Cx. rewrite Hx in Px, Cx. cbn in Px, Cx.
  destruct (d !! x) as [n|] eqn:Hd; [|done]. injection Cx as Cx. cbn in Px. destruct (W x n Hd) as [W1 W2 W3]. split; rewrite ?Cx, ?Px.
  - done.
  - intros c Hc. rewrite P. by apply W2.
  - intros p Hp. destruct (W3 p Hp) as (m & Hm & Hin). pose proof (C p) as Cp. rewrite Hm in Cp.
    destruct (d' !! p) as [m'|]; [|done]. injection Cp as Cp. exists m'. by rewrite Cp.
Qed.

Lemma wf_alter f x d : keepsLinks f -> wfTree d -> wfTree (alter f x d).
Proof.
  intros F. apply wf_links; intros y; destruct (decide (x = y)) as [->|Hne]; rewrite ?lookup_alter_eq, ?lookup_alter_ne by done;
    try done; destruct (d !! y); cbn; by rewrite ?(proj1 (F _)), ?(proj2 (F _)).
Qed.

Lemma wf_insert x n d : d !! x = None -> n_parent n = None -> n_children n = [] -> wfTree d -> wfTree (<[x := n]> d).
Proof.
  intros Hx Hp Hc W y m. rewrite lookup_insert_Some. intros [[<- <-]|[Hne Hy]].
  { split; rewrite ?Hc, ?Hp; [constructor| |done]. by intros c ?%elem_of_nil. }
  destruct (W y m Hy) as [W1 W2 W3]. split; [done| |].
  - intros c Hc'. rewrite lookup_insert_ne; [by apply W2|]. intros <-. specialize (W2 _ Hc'). by rewrite Hx in W2.
  - intros p Hp'. destruct (W3 p Hp') as (q & Hq & Hin). exists q. rewrite lookup_insert_ne; [done|]. intros <-. by rewrite Hx in Hq.
Qed.

(** What [remove] does to each element. *)
Lemma removeElement_lookup x d y :
  removeElement x d !! y =
    match d !! x ≫= n_parent with
    | None => d !! y
    | Some p =>
        let cut n := if decide (y = p) then Node (n_tag n) (n_classes n) (n_attrs n) (n_style n) (n_parent n)
                       (filter (fun c => c <> x) (n_children n)) (n_disabled n) else n in
        let free n := if decide (y = x) then Node (n_tag n) (n_classes n) (n_attrs n) (n_style n) None (n_children n) (n_disabled n) else n in
        option_map (fun n => free (cut n)) (d !! y)
    end.
Proof.
  unfold removeElement. destruct (d !! x) as [n|] eqn:Hx; [|done]. cbn. destruct (n_parent n) as [p|]; [|done].
  rewrite !lookup_alter. clear Hx. repeat case_decide; subst; match goal with |- _ = option_map _ (d !! ?z) => destruct (d !! z) end; done || (cbn; congruence).
Qed.

Lemma wf_removeElement x d : wfTree d -> wfTree (removeElement x d).
Proof.
  intros W. destruct (d !! x ≫= n_parent) as [p|] eqn:Hp.
  2:{ unfold removeElement. destruct (d !! x) as [n|]; [|done]. cbn in Hp. by rewrite Hp. }
  intros y m. rewrite removeElement_lookup, Hp. destruct (d !! y) as [n|] eqn:Hy; [|done]. cbn. intros [= <-].
  destruct (W y n Hy) as [W1 W2 W3]. assert (Hch : forall c, c ∈ filter (fun c => c <> x) (n_children n) -> c <> x /\ c ∈ n_children n).
  { intros c. rewrite list_elem_of_filter. tauto. }
  assert (Par : forall c, c <> x -> (removeElement x d !! c ≫= n_parent) = (d !! c ≫= n_parent)).
  { intros c Hc. rewrite removeElement_lookup, Hp. destruct (d !! c) as [k|]; [|done]. cbn.
    rewrite decide_False by done. by destruct (decide (c = p)). }
  assert (Chi : forall q k, d !! q = Some k -> forall c, c <> x -> c ∈ n_children k -> exists k', removeElement x d !! q = Some k' /\ c ∈ n_children k').
  { intros q k Hq c Hc Hin. rewrite removeElement_lookup, Hp, Hq. cbn. eexists. split; [reflexivity|].
    destruct (decide (q = x)), (decide (q = p)); cbn; rewrite ?list_elem_of_filter; done. }
  split.
  - destruct (decide (y = x)), (decide (y = p)); cbn; try done; by apply NoDup_filter.
  - intros c Hc. assert (Hc' : c <> x /\ c ∈ n_children n).
    { assert (Out : y <> p -> c ∈ n_children n -> c <> x /\ c ∈ n_children n).
      { intros Hyp Hin. split; [|done]. intros ->. specialize (W2 x Hin). congruence. }
      revert Hc. destruct (decide (y = p)), (decide (y = x)); cbn; auto. }
    destruct Hc' as [Hne Hin]. rewrite Par by done. by apply W2.
  - intros q Hq. assert (Hq' : n_parent n = Some q) by (revert Hq; by destruct (decide (y = x)), (decide (y = p))).
    destruct (decide (y = x)) as [->|Hyx]; [discriminate Hq|].
    destruct (W3 q Hq') as (k & Hk & Hin). by apply (Chi q k Hk y).
Qed.

Lemma removeElement_free x d : wfTree d -> (removeElement x d !! x ≫= n_parent) = None /\
  forall q k, removeElement x d !! q = Some k -> x ∉ n_children k.
Proof.
  intros W. assert (W' := wf_removeElement x d W). assert (F : (removeElement x d !! x ≫= n_parent) = None).
  { rewrite removeElement_lookup. destruct (d !! x ≫= n_parent) as [p|] eqn:Hp; [|done].
    destruct (d !! x); [|done]. cbn. by rewrite decide_True. }
  split; [done|]. intros q k Hq Hin. pose proof (wf_children _ _ _ (W' q k Hq) x Hin). congruence.
Qed.

Lemma wf_append p x d : x <> p -> is_Some (d !! p) -> is_Some (d !! x) -> wfTree d -> wfTree (appendChild p x d).
Proof.
  intros Hne Hp Hx W. unfold appendChild. set (d1 := removeElement x d).
  assert (W1 : wfTree d1) by (by apply wf_removeElement). destruct (removeElement_free x d W) as [F1 F2]. fold d1 in F1, F2.
  assert (S : forall y, is_Some (d !! y) -> is_Some (d1 !! y)).
  { intros y Hy. subst d1. rewrite removeElement_lookup. destruct (d !! x ≫= n_parent); [|exact Hy]. destruct (d !! y); [by eexists|destruct Hy; discriminate]. }
  destruct (S _ Hp) as [np Hnp], (S _ Hx) as [nx Hnx]. clearbody d1. clear S Hp Hx W d.
  set (gx := fun n : node => _) at 1. set (gp := fun n : node => _).
  assert (L : forall y, alter gx x (alter gp p d1) !! y = if decide (y = x) then Some (gx nx) else if decide (y = p) then Some (gp np) else d1 !! y).
  { intros y. destruct (decide (y = x)) as [->|Hyx].
    - by rewrite lookup_alter_eq, lookup_alter_ne, Hnx by done.
    - rewrite lookup_alter_ne by done. destruct (decide (y = p)) as [->|Hyp]; [by rewrite lookup_alter_eq, Hnp|by rewrite lookup_alter_ne]. }
  assert (Np : forall y k, d1 !! y = Some k -> n_parent k = Some x -> exists k', alter gx x (alter gp p d1) !! x = Some k' /\ y ∈ n_children k').
  { intros y k Hy Hk. destruct (wf_parent _ _ _ (W1 y k Hy) x Hk) as (k' & Hk' & Hin). rewrite L, decide_True by done.
    eexists. split; [reflexivity|]. cbn. congruence. }
  intros y m. rewrite L. destruct (decide (y = x)) as [->|Hyx]; [|destruct (decide (y = p)) as [->|Hyp]]; [intros [= <-]..|intros Hy].
  - destruct (W1 x nx Hnx) as [A1 A2 A3]. split; cbn; [done| |].
    + intros c Hc. rewrite L. destruct (decide (c = x)) as [->|]; [by destruct (F2 x nx Hnx)|]. specialize (A2 c Hc).
      destruct (decide (c = p)) as [->|]; [|done]. by rewrite Hnp in A2.
    + intros q [= <-]. rewrite L, decide_False, decide_True by done. eexists. split; [reflexivity|]. cbn. apply elem_of_app. right. by left.
  - destruct (W1 p np Hnp) as [A1 A2 A3]. split; cbn.
    + apply NoDup_app. split; [done|]. split; [|apply NoDup_singleton]. intros c Hc ->%list_elem_of_singleton. by destruct (F2 p np Hnp).
    + intros c. rewrite elem_of_app, list_elem_of_singleton, L. intros [Hc| ->]; [|by rewrite decide_True].
      assert (c <> x) by (intros ->; by destruct (F2 p np Hnp)). specialize (A2 c Hc). rewrite decide_False by done.
      destruct (decide (c = p)) as [->|]; [|done]. by rewrite Hnp in A2.
    + intros q Hq. destruct (A3 q Hq) as (k & Hk & Hin). rewrite L. destruct (decide (q = x)) as [->|].
      * eexists. split; [reflexivity|]. cbn. congruence.
      * destruct (decide (q = p)) as [->|]; [|by exists k]. eexists. split; [reflexivity|]. cbn. apply elem_of_app. left. congruence.
  - destruct (W1 y m Hy) as [A1 A2 A3]. split; [done| |].
    + intros c Hc. assert (c <> x) by (intros ->; by destruct (F2 y m Hy)). specialize (A2 c Hc). rewrite L, decide_False by done.
      destruct (decide (c = p)) as [->|]; [|done]. by rewrite Hnp in A2.
    + intros q Hq. destruct (A3 q Hq) as (k & Hk & Hin). rewrite L. destruct (decide (q = x)) as [->|].
      * eexists. split; [reflexivity|]. cbn. congruence.
      * destruct (decide (q = p)) as [->|]; [|by exists k]. eexists. split; [reflexivity|]. cbn. apply elem_of_app. left. congruence.
Qed.

(** Walks down and up a well-formed tree stay on the page. *)
Lemma descendants_on_page fuel d x c : wfTree d -> c ∈ descendants fuel d x -> is_Some (d !! c).
Proof.
  intros W. revert x. induction fuel as [|fuel IH]; intros x; cbn; [by intros ?%elem_of_nil|].
  destruct (d !! x) as [n|] eqn:Hx; [|by intros ?%elem_of_nil]. rewrite list_elem_of_In, in_flat_map.
  intros (y & Hy & [<-|Hc]); [|by apply (IH y), list_elem_of_In]. apply list_elem_of_In in Hy.
  pose proof (wf_children _ _ _ (W x n Hx) y Hy) as P. destruct (d !! y); [done|discriminate P].
Qed.

Lemma findOne_on_page `{B : Browser} d sel root x : wfTree d -> findOne d sel root = Some x -> is_Some (d !! x).
Proof.
  intros W. unfold findOne, find. destruct (List.filter _ _) as [|y l] eqn:F; [done|]. cbn. intros [= ->].
  assert (Hin : In x (x :: l)) by (by left). rewrite <- F in Hin. apply filter_In in Hin as [Hin _].
  by apply (descendants_on_page (size d) d root), list_elem_of_In.
Qed.

Lemma ancestors_on_page fuel d x a : wfTree d -> is_Some (d !! x) -> a ∈ ancestors fuel d x -> is_Some (d !! a).
Proof.
  intros W. revert x. induction fuel as [|fuel IH]; intros x Hx; cbn; [by intros ?%elem_of_nil|].
  rewrite elem_of_cons. intros [->|Ha]; [done|]. destruct (d !! x) as [n|] eqn:E; [|by apply elem_of_nil in Ha].
  destruct (n_parent n) as [p|] eqn:Ep; [|by apply elem_of_nil in Ha].
  destruct (wf_parent _ _ _ (W x n E) p Ep) as (m & Hm & _). apply (IH p); [by rewrite Hm|done].
Qed.

Lemma closest_on_page `{B : Browser} d x sel a : wfTree d -> is_Some (d !! x) -> closest d x sel = Some a ->
  is_Some (d !! a) /\ matches d a sel = true.
Proof.
  intros W Hx H. unfold closest in H. apply find_some in H as [Hin Hm]. split; [|done].
  by apply (ancestors_on_page (size d) d x), list_elem_of_In.
Qed.

(** ** Edits *)

(** What a component does to the page, one change at a time: styles and attributes of any element, classes of
    its own elements [own], which it moves about, and the one element [fresh] that it creates. *)
Inductive edit (own : list nat) (fresh : option nat) : relation (gmap nat node) :=
  | edit_plain f x d :
      keepsLinks f -> (forall n, n_classes (f n) = n_classes n) -> edit own fresh d (alter f x d)
  | edit_class f x d : x ∈ own -> keepsLinks f -> edit own fresh d (alter f x d)
  | edit_append p x d :
      x ∈ own -> x <> p -> is_Some (d !! p) -> is_Some (d !! x) -> edit own fresh d (appendChild p x d)
  | edit_remove x d : x ∈ own -> edit own fresh d (removeElement x d)
  | edit_create x n d :
      fresh = Some x -> x ∈ own -> d !! x = None -> n_parent n = None -> n_children n = [] -> edit own fresh d (<[x := n]> d).

Definition edited (own : list nat) (fresh : option nat) : relation (gmap nat node) := rtc (edit own fresh).

#[export] Instance edited_preorder own fresh : PreOrder (edited own fresh).
Proof. unfold edited. apply _. Qed.

Lemma edited_once own fresh d d' : edit own fresh d d' -> edited own fresh d d'.
Proof. apply rtc_once. Qed.

Lemma edited_create own x d d' : edited own None d d' -> edited own (Some x) d d'.
Proof.
  induction 1 as [|d d1 d' E _ IH]; [done|]. etransitivity; [|exact IH]. apply edited_once.
  destruct E; [by apply edit_plain|by apply edit_class|by apply edit_append|by apply edit_remove|done].
Qed.

Section edited.
Variable own : list nat.
Variable fresh : option nat.
Implicit Types (d : gmap nat node) (x : nat).

Lemma edited_wf d d' : edited own fresh d d' -> wfTree d -> wfTree d'.
Proof.
  induction 1 as [|d d1 d' E _ IH]; [done|]. intros W. apply IH.
  destruct E; [by apply wf_alter..|by apply wf_append|by apply wf_removeElement|by apply wf_insert].
Qed.

Lemma edit_domain d d' x : edit own fresh d d' -> (is_Some (d !! x) -> is_Some (d' !! x)) /\
  (fresh <> Some x -> is_Some (d' !! x) -> is_Some (d !! x)).
Proof.
  assert (A : forall f y d, is_Some (alter f y d !! x) <-> is_Some (d !! x)) by (intros; apply alter_is_Some).
  assert (R : forall y d, is_Some (removeElement y d !! x) <-> is_Some (d !! x)).
  { intros y d0. unfold removeElement. destruct (d0 !! y) as [n|]; [|done]. destruct (n_parent n); [|done]. by rewrite !A. }
  intros E. destruct E as [f y d|f y d|p y d|y d|y n d -> Hin Hy]; [rewrite A; tauto..| | |].
  - unfold appendChild. rewrite !A, R. tauto.
  - rewrite R. tauto.
  - rewrite lookup_insert_is_Some. split; [intros Hs; destruct (decide (y = x)); tauto|]. intros Fr [->|[_ ?]]; [congruence|done].
Qed.

Lemma edited_domain d d' x : edited own fresh d d' -> (is_Some (d !! x) -> is_Some (d' !! x)) /\
  (fresh <> Some x -> is_Some (d' !! x) -> is_Some (d !! x)).
Proof.
  induction 1 as [|d d1 d' E _ [IH1 IH2]]; [done|]. destruct (edit_domain d d1 x E) as [H1 H2]. auto.
Qed.

Lemma edited_class d d' x k : edited own fresh d d' -> x ∉ own -> hasClass d' x k = hasClass d x k.
Proof.
  intros E Hx. induction E as [|d d1 d' E _ IH]; [done|]. rewrite IH.
  destruct E as [f y d K C|f y d Hy K|p y d Hy Hne|y d Hy|y n d F Hy].
  - by apply Modal.class_alter.
  - unfold hasClass. rewrite lookup_alter_ne; [done|]. by intros ->.
  - apply Modal.class_append.
  - apply Modal.class_removeElement.
  - unfold hasClass. rewrite lookup_insert_ne; [done|]. by intros ->.
Qed.

Lemma edited_setStyle x k v d : edited own fresh d (setStyle x k v d).
Proof. apply edited_once. by apply edit_plain. Qed.
Lemma edited_setAttribute x k v d : edited own fresh d (setAttribute x k v d).
Proof. apply edited_once. by apply edit_plain. Qed.
Lemma edited_removeAttribute x k d : edited own fresh d (removeAttribute x k d).
Proof. apply edited_once. by apply edit_plain. Qed.
Lemma edited_add x cs d : x ∈ own -> edited own fresh d (classList_add x cs d).
Proof.
  intros Hx. apply edited_once, edit_class; [done|]. induction cs as [|c cs IH]; intros n; cbn [fold_left]; [done|].
  destruct (IH (addClass c n)) as [-> ->]. unfold addClass. by destruct (in_strs _ _).
Qed.
Lemma edited_removeClass x cs d : x ∈ own -> edited own fresh d (classList_remove x cs d).
Proof.
  intros Hx. apply edited_once, edit_class; [done|]. induction cs as [|c cs IH]; intros n; cbn [fold_left]; [done|].
  by destruct (IH (removeClass c n)) as [-> ->].
Qed.
Lemma edited_fold {A} (f : gmap nat node -> A -> gmap nat node) (l : list A) d :
  (forall d a, edited own fresh d (f d a)) -> edited own fresh d (fold_left f l d).
Proof. intros Hf. revert d. induction l as [|a l IH]; intros d; cbn [fold_left]; [done|]. etransitivity; [apply Hf|apply IH]. Qed.

(** *** The helpers *)

Lemma edited_scrollBar `{B : Browser} `{L : ScrollBar.Layout} parseJson numberToString body d :
  edited own fresh d (ScrollBar.hide numberToString body d) /\ edited own fresh d (ScrollBar.reset parseJson numberToString body d).
Proof.
  assert (Hs : forall e p d, edited own fresh d (ScrollBar._saveInitialAttribute e p d)).
  { intros e p d'. unfold ScrollBar._saveInitialAttribute. destruct (str_truthy _); [apply edited_setAttribute|done]. }
  assert (Hb : forall w p f d e, edited own fresh d (ScrollBar.balance numberToString body w p f d e)).
  { intros w p f d' e. unfold ScrollBar.balance. destruct (_ && _); [done|]. destruct (parseFloat _); [|apply Hs].
    etransitivity; [apply Hs|apply edited_setStyle]. }
  assert (Hp : forall p d e, edited own fresh d (ScrollBar.putBack parseJson numberToString p d e)).
  { intros p d' e. unfold ScrollBar.putBack. assert (R : edited own fresh d' (removeDataAttribute e p d')) by apply edited_removeAttribute.
    destruct (getDataAttribute _ _ _ _); try exact R; try apply edited_setStyle; (etransitivity; [exact R|apply edited_setStyle]). }
  unfold ScrollBar.hide, ScrollBar.reset, ScrollBar._setElementAttributes, ScrollBar._resetElementAttributes, ScrollBar._disableOverFlow.
  cbv zeta. split.
  - repeat (etransitivity; [|by apply edited_fold]). etransitivity; [apply Hs|apply edited_setStyle].
  - repeat (etransitivity; [|by apply edited_fold]). done.
Qed.

Lemma edited_barHide `{B : Browser} `{L : ScrollBar.Layout} numberToString body d :
  edited own fresh d (ScrollBar.hide numberToString body d).
Proof. apply (edited_scrollBar (fun _ => None)). Qed.
Lemma edited_barReset `{B : Browser} parseJson numberToString body d :
  edited own fresh d (ScrollBar.reset parseJson numberToString body d).
Proof.
  apply (edited_scrollBar (L := ScrollBar.Build_Layout (fun _ => 0%Z) (fun _ => 0%Z) (fun _ _ => 0%Z) (fun _ _ _ => ""))).
Qed.

(** The element of a backdrop is on the page from when it is created. *)
Definition backdropReady (bd : nat) (b : Backdrop.backdrop) d : Prop := is_Some (d !! bd) <-> Backdrop._element b = true.

Lemma edited_backdrop className parent bd b d :
  fresh = Some bd -> bd ∈ own -> bd <> parent -> is_Some (d !! parent) -> backdropReady bd b d ->
  (let r := Backdrop.show className parent bd b d in edited own fresh d r.2 /\ backdropReady bd r.1 r.2) /\
  (let r := Backdrop.hide className bd b d in edited own fresh d r.2 /\ backdropReady bd r.1 r.2) /\
  (let r := Backdrop.dispose bd b d in edited own fresh d r.2 /\ backdropReady bd r.1 r.2).
Proof.
  intros F Hin Hne Hp R.
  assert (G : forall b d, backdropReady bd b d -> let r := Backdrop._getElement className bd b d in
    edited own fresh d r.2 /\ Backdrop._element r.1 = true /\ is_Some (r.2 !! bd)).
  { intros b' d' R'. unfold Backdrop._getElement. destruct (Backdrop._element b') eqn:E; cbn; [split_and!; [done|done|by apply R']|].
    split_and!; [|done|by rewrite lookup_insert_eq]. apply edited_once, edit_create; try done.
    apply eq_None_not_Some. intros Hs%R'. congruence. }
  assert (Keep : forall b d d', edited own fresh d d' -> is_Some (d !! bd) -> Backdrop._element b = true -> backdropReady bd b d').
  { intros b' d1 d2 E H1 H2. split; [done|]. intros _. by apply (edited_domain _ _ _ E). }
  split_and!; cbv zeta.
  - unfold Backdrop.show, Backdrop._append. destruct (Backdrop._isAppended b).
    + destruct (G b d R) as (G1 & G2 & G3). destruct (Backdrop._getElement className bd b d) as [b1 d1]. cbn in *.
      assert (E : edited own fresh d1 (classList_add bd ["show"] d1)) by (by apply edited_add).
      split; [by transitivity d1|by apply (Keep _ d1)].
    + destruct (G b d R) as (G1 & G2 & G3). destruct (Backdrop._getElement className bd b d) as [b1 d1]. cbn in *.
      unfold Backdrop._getElement. cbn. rewrite G2. cbn.
      assert (E : edited own fresh d1 (classList_add bd ["show"] (appendChild parent bd d1))).
      { etransitivity; [|by apply edited_add]. apply edited_once, edit_append; try done. by apply (edited_domain _ _ _ G1). }
      split; [by transitivity d1|by apply (Keep _ d1)].
  - unfold Backdrop.hide. destruct (G b d R) as (G1 & G2 & G3). destruct (Backdrop._getElement className bd b d) as [b1 d1]. cbn in *.
    assert (E : edited own fresh d1 (classList_remove bd ["show"] d1)) by (by apply edited_removeClass).
    split; [by transitivity d1|by apply (Keep _ d1)].
  - unfold Backdrop.dispose. destruct (negb _); [done|]. cbn. assert (E : edited own fresh d (removeElement bd d)).
    { by apply edited_once, edit_remove. }
    split; [done|]. unfold backdropReady in *. cbn. rewrite <- R. unfold removeElement. destruct (d !! bd) as [n|] eqn:Hn; [|by rewrite Hn].
    destruct (n_parent n); [|by rewrite Hn]. rewrite !alter_is_Some. by rewrite Hn.
Qed.
End edited.

(** A change made of such edits, to be shown for the elements in [own]. *)
Ltac edits own := repeat (first [reflexivity | etransitivity; [|first [apply edited_setStyle | apply edited_setAttribute
  | apply edited_removeAttribute | apply edited_add; unfold own; set_solver | apply edited_removeClass; unfold own; set_solver
  | apply edited_barHide | apply edited_barReset]]]).
