(* ===== verification/BsStage.v ===== *)
(** Several instances of a component that opens over the page: they share the page, the focus, the trap
    that listens on the document, and the listeners of the data API that give the focus back. *)
From Stdlib Require Import Ascii QArith Lia.
From S2P Require Import Prelude BsCore BsDom BsConfig BsModal BsTree.

Local Open Scope nat_scope.

(** What a component promises: its instances work on a page and a focus that can be exchanged, and they log their events. *)
Class Overlay (I : Type) := {
  pageOf : I -> gmap nat node;
  trapOf : I -> FocusTrap.state;
  logOf : I -> list string;
  enter : gmap nat node -> option nat -> I -> I;      (** the same instance on that page with that focus *)
  showEvent : string;
  hiddenEvent : string
}.

Class LawfulOverlay (I : Type) `{Overlay I} := {
  page_enter d f (i : I) : pageOf (enter d f i) = d;
  focus_enter d f (i : I) : FocusTrap.ft_focus (trapOf (enter d f i)) = f;
  active_enter d f (i : I) : FocusTrap._isActive (trapOf (enter d f i)) = FocusTrap._isActive (trapOf i);
  log_enter d f (i : I) : logOf (enter d f i) = logOf i;
  events_differ : str_eqb hiddenEvent showEvent = false
}.

(** A listener that will give the focus back to [trigger]: it waits for [show] first, or for [hidden] already. *)
Inductive restorer := AwaitShow (target trigger : nat) | AwaitHidden (target trigger : nat).

#[export] Instance restorer_eq_dec : EqDecision restorer.
Proof. solve_decision. Defined.

Record stage (I : Type) := Stage {
  st_page : gmap nat node;
  st_focus : option nat;
  st_trap : option nat;                  (** the instance whose trap listens on the document *)
  st_instances : gmap nat I;
  st_restore : list restorer;
  st_resize : list nat                   (** the instances whose listener for [resize] is on the window *)
}.
Arguments Stage {I}.
Arguments st_page {I}.
Arguments st_focus {I}.
Arguments st_trap {I}.
Arguments st_instances {I}.
Arguments st_restore {I}.
Arguments st_resize {I}.

(** A page without instances. *)
Definition emptyStage {I} (d : gmap nat node) : stage I := Stage d None None ∅ [] [].

Section stage.
Context `{B : Browser} {I : Type} `{O : Overlay I}.
Variable prevents : nat -> list string -> string -> bool.
Implicit Types (s : stage I) (e x : nat) (i : I).

Definition set_focus (f : option nat) s : stage I :=
  Stage (st_page s) f (st_trap s) (st_instances s) (st_restore s) (st_resize s).
Definition set_trap (t : option nat) s : stage I :=
  Stage (st_page s) (st_focus s) t (st_instances s) (st_restore s) (st_resize s).
Definition set_instances (m : gmap nat I) s : stage I :=
  Stage (st_page s) (st_focus s) (st_trap s) m (st_restore s) (st_resize s).
Definition set_restore (l : list restorer) s : stage I :=
  Stage (st_page s) (st_focus s) (st_trap s) (st_instances s) l (st_resize s).
Definition set_resize (l : list nat) s : stage I :=
  Stage (st_page s) (st_focus s) (st_trap s) (st_instances s) (st_restore s) l.

(** [element.focus()], and what the trap that listens makes of it. *)
Definition moveFocus x s : stage I :=
  match t ← st_trap s; (fun i => (t, i)) <$> st_instances s !! t with
  | Some (t, i) =>
      set_focus (FocusTrap.ft_focus (FocusTrap._handleFocusin t (st_page s) (FocusTrap.Element x) (FocusTrap.focus x (trapOf i)))) s
  | None => set_focus (Some x) s
  end.

(** The listeners of the event [name] of the instance at [e]. *)
Definition fire e (prevented : bool) (name : string) s : stage I :=
  if str_eqb name showEvent then
    set_restore (flat_map (fun r => match r with
      | AwaitShow t trigger => if t =? e then if prevented then [] else [AwaitHidden t trigger] else [r]
      | _ => [r]
      end) (st_restore s)) s
  else if str_eqb name hiddenEvent then
    let mine r := match r with AwaitHidden t _ => t =? e | _ => false end in
    fold_left (fun s r => match r with
      | AwaitHidden _ trigger => if isVisible (st_page s) (Some trigger) then moveFocus trigger s else s
      | _ => s
      end) (List.filter mine (st_restore s)) (set_restore (List.filter (fun r => negb (mine r)) (st_restore s)) s)
  else s.

(** The events that follow [log], in order. *)
Fixpoint fireAll e (log names : list string) s : stage I :=
  match names with
  | [] => s
  | name :: names => fireAll e (log ++ [name]) names (fire e (prevents e log name) name s)
  end.

(** The instance at [e] has become [i]. *)
Definition settle e i0 i s : stage I :=
  let s := Stage (pageOf i) (st_focus s) (st_trap s) (<[e := i]> (st_instances s)) (st_restore s) (st_resize s) in
  let focus := FocusTrap.ft_focus (trapOf i) in
  let s := if decide (focus = st_focus s) then s
           else match focus with Some x => moveFocus x s | None => set_focus None s end in
  let active0 := FocusTrap._isActive (trapOf i0) in
  let s := if FocusTrap._isActive (trapOf i) then (if active0 then s else set_trap (Some e) s)
           else if active0 then set_trap None s else s in
  fireAll e (logOf i0) (drop (length (logOf i0)) (logOf i)) s.

(** A method of the instance at [e]. *)
Definition on e (f : I -> I) s : stage I :=
  match st_instances s !! e with
  | None => s
  | Some i => settle e i (f (enter (st_page s) (st_focus s) i)) s
  end.

(** *** What the machinery keeps *)

Definition sameStage s s' : Prop := st_page s' = st_page s /\ st_instances s' = st_instances s /\ st_resize s' = st_resize s.

#[export] Instance sameStage_preorder : PreOrder sameStage.
Proof. split; [done|]. intros a b c (H1 & H2 & H3) (K1 & K2 & K3). repeat split; congruence. Qed.

Lemma moveFocus_same x s : sameStage s (moveFocus x s).
Proof. unfold moveFocus. by destruct (_ ≫= _) as [[t i]|]. Qed.

Lemma fire_same e p name s : sameStage s (fire e p name s).
Proof.
  unfold fire. destruct (str_eqb _ _); [done|]. destruct (str_eqb _ _); [|done].
  match goal with |- sameStage s (fold_left _ ?l ?s0) => assert (H : sameStage s s0) by done; revert H; generalize s0, l end.
  intros s0 l. revert s0. induction l as [|r l IH]; intros s0 H; cbn [fold_left]; [done|]. apply IH. transitivity s0; [done|].
  destruct r as [|t trigger]; [done|]. destruct (isVisible _ _); [apply moveFocus_same|done].
Qed.

Lemma fireAll_same e log names s : sameStage s (fireAll e log names s).
Proof.
  revert log s. induction names as [|name names IH]; intros log s; cbn [fireAll]; [done|].
  etransitivity; [|apply IH]. apply fire_same.
Qed.

Lemma settle_same e i0 i s :
  st_page (settle e i0 i s) = pageOf i /\ st_instances (settle e i0 i s) = <[e := i]> (st_instances s) /\
  st_resize (settle e i0 i s) = st_resize s.
Proof.
  unfold settle. match goal with |- context [fireAll e _ _ ?x] => destruct (fireAll_same e (logOf i0) (drop (length (logOf i0)) (logOf i)) x) as (-> & -> & ->) end.
  match goal with |- context [if decide ?P then ?a else ?b] =>
    assert (H : sameStage a (if decide P then a else b)) by
      (destruct (decide P); [done|]; destruct (FocusTrap.ft_focus (trapOf i)); [apply moveFocus_same|done]);
    destruct H as (H1 & H2 & H3); set (s1 := if decide P then a else b) in * end.
  destruct (FocusTrap._isActive (trapOf i)), (FocusTrap._isActive (trapOf i0)); by rewrite ?H1, ?H2, ?H3.
Qed.

(** An invariant of the page and of each instance on it. *)
Section invariant.
Variable P : gmap nat node -> Prop.
Variable Q : nat -> gmap nat node -> I -> Prop.

Definition stageInv s : Prop := P (st_page s) /\ forall e i, st_instances s !! e = Some i -> Q e (st_page s) i.

(** A method keeps it when it does so for its own instance and does not disturb the others. *)
Lemma on_inv e f s : stageInv s ->
  (forall i, st_instances s !! e = Some i -> Q e (st_page s) i ->
    let i' := f (enter (st_page s) (st_focus s) i) in
    P (pageOf i') /\ Q e (pageOf i') i' /\
    forall e' j, e' <> e -> st_instances s !! e' = Some j -> Q e' (st_page s) j -> Q e' (pageOf i') j) ->
  stageInv (on e f s).
Proof.
  intros [HP HQ] R. unfold on. destruct (st_instances s !! e) as [i|] eqn:Hi; [|done].
  destruct (R i eq_refl (HQ _ _ Hi)) as (R1 & R2 & R3).
  destruct (settle_same e i (f (enter (st_page s) (st_focus s) i)) s) as (E1 & E2 & _). split; rewrite ?E1, ?E2; [done|].
  intros e' j. rewrite lookup_insert_Some. intros [[<- <-]|[Hne Hj]]; [done|]. by apply R3; [| |apply HQ].
Qed.
End invariant.
End stage.

(** ** The tree of the page *)

(** What an instance has on the page: its backdrop, and the element that this creates. *)
Class Resident (I : Type) `{Overlay I} := {
  bdOf : I -> nat;
  backdropOf : I -> Backdrop.backdrop;
  bd_enter d f (i : I) : bdOf (enter d f i) = bdOf i;
  backdrop_enter d f (i : I) : backdropOf (enter d f i) = backdropOf i
}.

(** An element that is not on the page and that no backdrop has claimed. *)
Definition unclaimed {I : Type} `{Resident I} (s : stage I) : nat :=
  fresh (dom (st_page s) ∪ list_to_set (map (fun i => bdOf i.2) (map_to_list (st_instances s)))).

Section residents.
Context `{B : Browser} {I : Type} `{O : Overlay I} `{R : !Resident I} `{LO : !LawfulOverlay I}.
Variable prevents : nat -> list string -> string -> bool.
Variable anchors : nat -> I -> list nat.        (** what the instance at this element needs on the page *)
Variable fits : nat -> Prop.                   (** which elements instances may have *)
Hypothesis anchors_enter : forall e d f i, anchors e (enter d f i) = anchors e i.
Implicit Types (s : stage I) (e x : nat) (i : I) (d : gmap nat node).

(** The anchors are on the page, and the backdrop's element is there from when it is created. *)
Record placed e d i : Prop := {
  pl_fits : fits e;
  pl_apart : bdOf i ∉ anchors e i;
  pl_anchors x : x ∈ anchors e i -> is_Some (d !! x);
  pl_backdrop : backdropReady (bdOf i) (backdropOf i) d
}.

Lemma placed_edited own e d d' i : edited own None d d' -> placed e d i -> placed e d' i.
Proof.
  intros E [H0 H1 H2 H3]. pose proof (fun x => edited_domain _ _ _ _ x E) as D. split; [done|done|intros x Hx; by apply D, H2|].
  unfold backdropReady in *. rewrite <- H3. split; apply (D (bdOf i)). done.
Qed.

(** What a method makes of its instance. *)
Definition evolves e i i' : Prop :=
  placed e (pageOf i) i ->
  edited (bdOf i :: anchors e i) (Some (bdOf i)) (pageOf i) (pageOf i') /\ placed e (pageOf i') i' /\
  bdOf i' = bdOf i /\ anchors e i' = anchors e i.

#[export] Instance evolves_preorder e : PreOrder (evolves e).
Proof.
  split; [by intros i H|]. intros a b c H1 H2 P. destruct (H1 P) as (E1 & P1 & B1 & A1), (H2 P1) as (E2 & P2 & B2 & A2).
  rewrite B1, A1 in E2. split; [by transitivity (pageOf b)|]. split; [done|]. split; congruence.
Qed.

Lemma evolves_edit e i i' : bdOf i' = bdOf i -> backdropOf i' = backdropOf i -> anchors e i' = anchors e i ->
  (placed e (pageOf i) i -> edited (bdOf i :: anchors e i) None (pageOf i) (pageOf i')) -> evolves e i i'.
Proof.
  intros Hb Hd Ha E P. specialize (E P). split; [by apply edited_create|]. split; [|done].
  pose proof (placed_edited _ e _ (pageOf i') i E P) as P'. destruct P' as [P0 P1 P2 P3]. split; by rewrite ?Hb, ?Ha, ?Hd.
Qed.

Lemma evolves_frame e i i' : bdOf i' = bdOf i -> backdropOf i' = backdropOf i -> anchors e i' = anchors e i ->
  pageOf i' = pageOf i -> evolves e i i'.
Proof. intros H1 H2 H3 H4. apply evolves_edit; [done..|]. by rewrite H4. Qed.

(** The backdrop is shown under an anchor, hidden or disposed of. *)
Lemma evolves_backdrop className parent e i i' : parent ∈ anchors e i -> bdOf i' = bdOf i -> anchors e i' = anchors e i ->
  In (backdropOf i', pageOf i')
    [Backdrop.show className parent (bdOf i) (backdropOf i) (pageOf i); Backdrop.hide className (bdOf i) (backdropOf i) (pageOf i);
     Backdrop.dispose (bdOf i) (backdropOf i) (pageOf i)] -> evolves e i i'.
Proof.
  intros Hp Hb Ha Hin P. pose proof P as [P0 P1 P2 P3].
  assert (E : edited (bdOf i :: anchors e i) (Some (bdOf i)) (pageOf i) (pageOf i') /\ backdropReady (bdOf i) (backdropOf i') (pageOf i')).
  { destruct (edited_backdrop (bdOf i :: anchors e i) (Some (bdOf i)) className parent (bdOf i) (backdropOf i) (pageOf i)) as (H1 & H2 & H3);
      [done|apply elem_of_cons; by left|by intros <-|by apply P2|done|].
    by destruct Hin as [Hr|[Hr|[Hr|[]]]]; [rewrite Hr in H1|rewrite Hr in H2|rewrite Hr in H3]. }
  destruct E as [E1 E2]. split; [done|]. split; [|done]. split; rewrite ?Hb, ?Ha; [done|done| |done].
  intros x Hx. by apply (edited_domain _ _ _ _ x E1), P2.
Qed.

Lemma placed_enter e i d f : placed e d i -> placed e (pageOf (enter d f i)) (enter d f i).
Proof. intros [H0 H1 H2 H3]. split; rewrite ?bd_enter, ?anchors_enter, ?backdrop_enter, ?page_enter; done. Qed.

Variable d0 : gmap nat node.

(** The tree is well-formed, and nothing that was on the page at first has been lost. *)
Definition pageOk d : Prop := wfTree d /\ forall x, is_Some (d0 !! x) -> is_Some (d !! x).

(** Each instance is on the page, and no two backdrops have the same element. *)
Record residents s : Prop := {
  v_stage : stageInv pageOk placed s;
  v_apart e i e' i' : st_instances s !! e = Some i -> st_instances s !! e' = Some i' -> bdOf i = bdOf i' -> e = e'
}.

Lemma residents_on e f s : (forall i, evolves e i (f i)) -> residents s -> residents (on prevents e f s).
Proof.
  intros F [H1 H2].
  assert (G : forall i, placed e (st_page s) i -> let i0 := enter (st_page s) (st_focus s) i in
    edited (bdOf i :: anchors e i) (Some (bdOf i)) (st_page s) (pageOf (f i0)) /\ placed e (pageOf (f i0)) (f i0) /\ bdOf (f i0) = bdOf i).
  { intros i Hp i0. destruct (F i0 (placed_enter e i _ _ Hp)) as (E & P & Hb & _). unfold i0 in E at 1 2 3 4.
    rewrite bd_enter, anchors_enter, page_enter in E. split; [done|]. split; [done|]. rewrite Hb. apply bd_enter. }
  split.
  - apply on_inv; [done|]. intros i Hi Hp. cbn. destruct (G i Hp) as (E & P & _). split; [|split; [done|]].
    { split; [eapply edited_wf; [exact E|]; apply H1|]. intros x Hx. by apply (edited_domain _ _ _ _ x E), H1. }
    intros e' j Hne Hj [R0 R1 R2 R3]. pose proof (fun x => edited_domain _ _ _ _ x E) as D.
    split; [done|done|intros x Hx; by apply (D x), R2|]. unfold backdropReady in *. rewrite <- R3.
    split; [apply (D (bdOf j))|by apply (D (bdOf j))]. intros [= Hbd]. by destruct Hne; symmetry; apply (H2 e i e' j).
  - unfold on. destruct (st_instances s !! e) as [i0|] eqn:Hi0; [|done].
    match goal with |- context [settle _ e i0 ?i' s] => destruct (settle_same prevents e i0 i' s) as (_ & -> & _) end.
    destruct (G i0 (proj2 H1 e i0 Hi0)) as (_ & _ & Eb).
    intros e1 i1 e2 i2. rewrite !lookup_insert_Some. intros [[<- <-]|[N1 L1]] [[<- <-]|[N2 L2]]; rewrite ?Eb; intros Hbd; try done.
    + by apply (H2 e i0 e2 i2).
    + by apply (H2 e1 i1 e i0).
    + by apply (H2 e1 i1 e2 i2).
Qed.

(** A method leaves the page's elements where they are. *)
Lemma residents_keep e f s x : (forall i, evolves e i (f i)) -> residents s -> is_Some (st_page s !! x) ->
  is_Some (st_page (on prevents e f s) !! x).
Proof.
  intros F V Hx. unfold on. destruct (st_instances s !! e) as [i|] eqn:Hi; [|done].
  match goal with |- context [settle _ e i ?i' s] => destruct (settle_same prevents e i i' s) as (-> & _ & _) end.
  set (i0 := enter (st_page s) (st_focus s) i). destruct (F i0) as [E _].
  - apply placed_enter. by apply (v_stage _ V).
  - apply (edited_domain _ _ _ _ x E). unfold i0. by rewrite page_enter.
Qed.

Lemma residents_frame s s' : st_page s' = st_page s -> st_instances s' = st_instances s -> residents s -> residents s'.
Proof. intros E1 E2 [[H1 H2] H3]. split; [split|]; rewrite ?E1, ?E2; done. Qed.

Lemma residents_delete e s : residents s -> residents (set_instances (delete e (st_instances s)) s).
Proof.
  intros [[H1 H2] H3]. split; [split|]; cbn; [done| |].
  - intros e1 i1. rewrite lookup_delete_Some. intros [_ ?]. by apply H2.
  - intros e1 i1 e2 i2. rewrite !lookup_delete_Some. intros [_ ?] [_ ?]. by apply H3.
Qed.

Lemma unclaimed_fresh s : st_page s !! unclaimed s = None /\ forall e i, st_instances s !! e = Some i -> bdOf i <> unclaimed s.
Proof.
  unfold unclaimed. set (X := dom (st_page s) ∪ _). pose proof (is_fresh X) as H. set (u := fresh X) in *. clearbody u. subst X.
  apply not_elem_of_union in H as [H1 H2]. split; [by apply not_elem_of_dom|]. intros e i Hi Hu. apply H2.
  apply elem_of_list_to_set, list_elem_of_fmap. exists (e, i). split; [done|]. by apply elem_of_map_to_list.
Qed.

(** A new instance, whose backdrop's element is yet to be created. *)
Lemma residents_insert e i s : fits e -> (forall x, x ∈ anchors e i -> is_Some (st_page s !! x)) ->
  bdOf i = unclaimed s -> Backdrop._element (backdropOf i) = false -> residents s ->
  residents (set_instances (<[e := i]> (st_instances s)) s).
Proof.
  intros Hn Ha Hb He [[H1 H2] H3]. destruct (unclaimed_fresh s) as [U1 U2]. split; [split|]; cbn; [done| |].
  - intros e' j. rewrite lookup_insert_Some. intros [[<- <-]|[N Hl]]; [|by apply H2]. split; [done| |done|].
    + intros Hin%Ha. rewrite Hb, U1 in Hin. by destruct Hin.
    + unfold backdropReady. rewrite Hb, He, U1. split; [by intros [? ?]|done].
  - intros e1 i1 e2 i2. rewrite !lookup_insert_Some. intros [[<- <-]|[N1 L1]] [[<- <-]|[N2 L2]]; rewrite ?Hb; intros Hbd; try done.
    + by destruct (U2 _ _ L2).
    + by destruct (U2 _ _ L1).
    + by apply (H3 e1 i1 e2 i2).
Qed.

Lemma residents_andThen (r : outcome (stage I)) f : residents r.1 -> (forall s, residents s -> residents (f s).1) -> residents (andThen r f).1.
Proof. destruct r as [s [x|]]; cbn; auto. Qed.

(** A handler that goes through elements of the page. *)
Lemma residents_each (f : nat -> stage I -> outcome (stage I)) es r :
  (forall e s, residents s -> is_Some (st_page s !! e) ->
     residents (f e s).1 /\ forall x, is_Some (st_page s !! x) -> is_Some (st_page (f e s).1 !! x)) ->
  residents r.1 -> (forall x, x ∈ es -> is_Some (st_page r.1 !! x)) ->
  residents (fold_left (fun r e => andThen r (f e)) es r).1.
Proof.
  intros F. revert r. induction es as [|e es IH]; intros r V In; cbn [fold_left]; [done|].
  apply IH; destruct r as [s [y|]]; cbn [andThen fst] in *; try done.
  - apply F; [done|]. apply In. constructor.
  - intros x Hx. apply In. by constructor.
  - intros x Hx. apply F; [done|apply In; constructor|]. apply In. by constructor.
Qed.

Lemma residents_start : wfTree d0 -> residents (emptyStage d0).
Proof. intros W. by split; [split; [split|]|]. Qed.
End residents.
