(* ===== verification/BsModalPage.v ===== *)
(** Modals on one page: the handlers of the data API, which open one modal from another and give the focus
    back, and the listeners that modals share on the window. *)
From Stdlib Require Import Ascii QArith Lia.
From S2P Require Import Prelude BsCore BsDom BsConfig BsScrollBar BsModal BsTree BsStage.

Local Open Scope nat_scope.

Module ModalPage.
Import Modal.

Definition NAME : string := "modal".
Definition OPEN_SELECTOR : string := ".modal.show".
Definition SELECTOR_MODAL : string := ".modal".

Definition Default : obj value := [("backdrop", VBool true); ("focus", VBool true); ("keyboard", VBool true)].
Definition DefaultType : obj string := [("backdrop", "(boolean|string)"); ("focus", "boolean"); ("keyboard", "boolean")].

(** A modal with the element that its backdrop creates. *)
Record instance := Instance { i_bd : nat; i_modal : modal }.

Definition enterModal (d : gmap nat node) (f : option nat) (m : modal) : modal :=
  set_trap (FocusTrap.State (FocusTrap._isActive (_focustrap m)) (FocusTrap._lastTabNavDirection (_focustrap m)) f) (set_page d m).

#[global] Instance modal_overlay : Overlay instance := {
  pageOf i := m_page (i_modal i);
  trapOf i := _focustrap (i_modal i);
  logOf i := m_log (i_modal i);
  enter d f i := Instance (i_bd i) (enterModal d f (i_modal i));
  showEvent := EVENT_SHOW;
  hiddenEvent := EVENT_HIDDEN
}.

#[global] Instance modal_lawful : LawfulOverlay instance.
Proof. by split. Qed.

#[global] Instance modal_resident : Resident instance.
Proof. by refine {| bdOf := i_bd; backdropOf i := _backdrop (i_modal i) |}. Defined.

Section modals.
Context `{B : Browser} `{L : ScrollBar.Layout}.
Variable parseJson : string -> option value.
Variable numberToString : Q -> string.
Variables root body : nat.
Variable rtl : bool.
Variable overflows : nat -> gmap nat node -> bool.
Variable prevents : nat -> list string -> string -> bool.
Implicit Types (s : stage instance) (e x : nat).

(** What the fields of a configuration decide. *)
Definition readBackdrop (v : value) : backdropOption :=
  match v with
  | VStr k => if str_eqb k "static" then StaticBackdrop else if str_truthy k then PlainBackdrop else NoBackdrop
  | v => if value_truthy v then PlainBackdrop else NoBackdrop
  end.

Definition readConfig (o : obj value) : config :=
  let get k := default VUndefined (oget k o) in
  Config (readBackdrop (get "backdrop")) (value_truthy (get "focus")) (value_truthy (get "keyboard")).

(** The constructor throws before the instance is stored when the configuration has a wrong type. *)
Definition construct e s : outcome (stage instance) :=
  match getConfig parseJson NAME Default DefaultType (fun o => o) VUndefined (st_page s) (Some e) with
  | Err x => (s, Some x)
  | Ok o =>
      (set_resize (st_resize s ++ [e]) (set_instances (<[e := Instance (unclaimed s) (new e (readConfig o) (st_page s))]> (st_instances s)) s), None)
  end.

Definition getOrCreateInstance e s : outcome (stage instance) :=
  match st_instances s !! e with Some _ => (s, None) | None => construct e s end.

(** A method of the modal at [e]; it is given the element of the backdrop. *)
Definition onModal e (f : nat -> modal -> modal) s : stage instance :=
  on prevents e (fun i => Instance (i_bd i) (f (i_bd i) (i_modal i))) s.

Definition showAt e s : stage instance :=
  onModal e (fun bd => show numberToString e body bd rtl (overflows e) (prevents e)) s.
Definition hideAt e s : stage instance :=
  onModal e (fun bd => hide parseJson numberToString e body bd (prevents e)) s.
Definition toggleAt e s : stage instance :=
  onModal e (fun bd => toggle parseJson numberToString e body bd rtl (overflows e) (prevents e)) s.

(** The listeners for [resize] of all modals go with the first that is disposed of. *)
Definition disposeAt e s : stage instance :=
  match st_instances s !! e with
  | None => s
  | Some _ =>
      let s := onModal e dispose (set_resize [] s) in
      set_instances (delete e (st_instances s)) s
  end.

(** A click on an element that opens modals. Without a target the constructor reads the options of nothing. *)
Definition clickToggle trigger s : outcome (stage instance) :=
  let target := getElementFromSelector root (st_page s) trigger in
  let s := match target with Some t => set_restore (st_restore s ++ [AwaitShow t trigger]) s | None => s end in
  let closed :=
    match findOne (st_page s) OPEN_SELECTOR root with
    | None => (s, None)
    | Some a => match st_instances s !! a with Some _ => (hideAt a s, None) | None => (s, Some (TypeError "hide")) end
    end in
  andThen closed (fun s =>
    match target with
    | None => (s, Some (TypeError "backdrop"))
    | Some t => andThen (getOrCreateInstance t s) (fun s => (toggleAt t s, None))
    end).

(** A click on an element that dismisses the modal it names or is in. *)
Definition clickDismiss x s : outcome (stage instance) :=
  if isDisabled (st_page s) (Some x) then (s, None)
  else
    match match getElementFromSelector root (st_page s) x with Some t => Some t | None => closest (st_page s) x SELECTOR_MODAL end with
    | None => (s, Some (TypeError "backdrop"))
    | Some t => andThen (getOrCreateInstance t s) (fun s => (hideAt t s, None))
    end.

(** [resize] on the window, [Tab] on the document, and the page moving the focus. *)
Definition resize s : stage instance :=
  fold_left (fun s e => onModal e (fun _ => onResize numberToString e rtl (overflows e)) s) (st_resize s) s.

Definition pressTab (shiftKey : bool) s : stage instance :=
  match st_trap s with
  | None => s
  | Some e => onModal e (fun _ m => set_trap (FocusTrap._handleKeydown "Tab" shiftKey (_focustrap m)) m) s
  end.

Inductive op :=
  | ClickToggle (trigger : nat) | ClickDismiss (x : nat)
  | Show (e : nat) | Hide (e : nat) | Dispose (e : nat) | HandleUpdate (e : nat)
  | Keydown (e : nat) (key : string) | Click (e down up : nat)
  | Resize | PressTab (shiftKey : bool) | FocusMoves (x : nat)
  | TransitionDone (e k : nat).

Definition step (o : op) s : outcome (stage instance) :=
  match o with
  | ClickToggle trigger => clickToggle trigger s
  | ClickDismiss x => clickDismiss x s
  | Show e => (showAt e s, None)
  | Hide e => (hideAt e s, None)
  | Dispose e => (disposeAt e s, None)
  | HandleUpdate e => (onModal e (fun _ => handleUpdate numberToString e rtl (overflows e)) s, None)
  | Keydown e key =>
      (onModal e (fun bd => onKeydown parseJson numberToString e body bd (overflows e) (prevents e) key) s, None)
  | Click e down up =>
      (onModal e (fun bd => onClick parseJson numberToString e body bd (overflows e) (prevents e) down up) s, None)
  | Resize => (resize s, None)
  | PressTab shiftKey => (pressTab shiftKey s, None)
  | FocusMoves x => (moveFocus x s, None)
  | TransitionDone e k => (onModal e (fun bd => transitionDone parseJson numberToString e body bd k) s, None)
  end.

Definition run (ops : list op) s : stage instance := fold_left (fun s o => fst (step o s)) ops s.
End modals.

(** ** The tree of the page *)

Section tree.
Context `{B : Browser} `{L : ScrollBar.Layout}.
Variable parseJson : string -> option value.
Variable numberToString : Q -> string.
Variables root body : nat.
Variable rtl : bool.
Variable overflows : nat -> gmap nat node -> bool.
Variable prevents : nat -> list string -> string -> bool.
Implicit Types (s : stage instance) (m : modal) (e bd x : nat) (d : gmap nat node).

(** A modal needs its dialog and the body. *)
Definition anchors e (_ : instance) : list nat := [e; body].
Definition fits e : Prop := e <> body.

Definition own e bd : list nat := [bd; e; body].

(** The modal alone changes. *)
Definition advances e bd m m' : Prop := evolves anchors fits e (Instance bd m) (Instance bd m').

#[local] Instance advances_preorder e bd : PreOrder (advances e bd).
Proof. split; [intros m|intros a b c]; unfold advances; [done|intros H1 H2; by transitivity (Instance bd b)]. Qed.

Lemma modal_edit e bd m m' : _backdrop m' = _backdrop m ->
  (e <> body -> is_Some (m_page m !! e) -> is_Some (m_page m !! body) -> edited (own e bd) None (m_page m) (m_page m')) ->
  advances e bd m m'.
Proof.
  intros Hb E. apply evolves_edit; [done..|]. intros [H0 _ H2 _]. cbn.
  apply E; [done|apply H2..]; unfold anchors; rewrite !elem_of_cons; tauto.
Qed.

Lemma modal_frame e bd m m' : _backdrop m' = _backdrop m -> m_page m' = m_page m -> advances e bd m m'.
Proof. intros H1 H2. by apply evolves_frame. Qed.

Lemma modal_backdrop e bd m m' : m_page m' = m_page m -> _backdrop m' = _backdrop m ->
  advances e bd m (set_backdrop (Backdrop.show Backdrop.DefaultClassName body bd (_backdrop m) (m_page m)) m') /\
  advances e bd m (set_backdrop (Backdrop.hide Backdrop.DefaultClassName bd (_backdrop m) (m_page m)) m') /\
  advances e bd m (set_backdrop (Backdrop.dispose bd (_backdrop m) (m_page m)) m').
Proof.
  intros Hp Hb. split_and!; (apply (evolves_backdrop anchors fits Backdrop.DefaultClassName body);
    [unfold anchors; rewrite !elem_of_cons; tauto|done..|]); cbn; rewrite <- surjective_pairing; tauto.
Qed.

#[local] Ltac frame := apply modal_frame; reflexivity.

Lemma modal_advances_adjust e bd m : advances e bd m (_adjustDialog numberToString e rtl (overflows e) m).
Proof. apply modal_edit; [done|]. intros _ _ _. unfold _adjustDialog. cbn. destruct (_ && _), (_ && _); edits own. Qed.

Lemma modal_advances_showElement e bd m : advances e bd m (_showElement e body m).
Proof.
  unfold _showElement. set (d := if containsNode _ _ _ then _ else _).
  assert (E : advances e bd m (set_page d m)).
  { apply modal_edit; [done|]. intros R1 R2 R3. subst d. cbn. destruct (containsNode _ _ _); [done|].
    apply edited_once, edit_append; try done. unfold own. rewrite !elem_of_cons; tauto. }
  set (m1 := set_page (classList_add _ _ _) m). assert (E1 : advances e bd (set_page d m) m1).
  { apply modal_edit; [done|]. intros _ _ _. subst m1. cbn. edits own. }
  transitivity m1; [by transitivity (set_page d m)|]. unfold transitionComplete.
  destruct (_isAnimated e m1); [frame|]. destruct (c_focus _); frame.
Qed.

Lemma modal_advances_show e bd m : advances e bd m (show numberToString e body bd rtl (overflows e) (prevents e) m).
Proof.
  unfold show. destruct (_ || _); [done|]. destruct (prevents _ _ _); [frame|].
  set (m1 := set_phase true true (log_event EVENT_SHOW m)). transitivity m1; [frame|].
  set (m2 := _adjustDialog _ _ _ _ _). assert (E2 : advances e bd m1 m2).
  { subst m2. etransitivity; [|apply modal_advances_adjust]. apply modal_edit; [done|]. intros _ _ _. cbn. edits own. }
  transitivity m2; [done|]. destruct (negb _); [apply modal_advances_showElement|].
  set (m3 := set_backdrop _ m2). assert (E3 : advances e bd m2 m3) by (by apply modal_backdrop).
  transitivity m3; [done|]. destruct (Backdrop.b_isAnimated _); [frame|apply modal_advances_showElement].
Qed.

Lemma modal_advances_afterBackdrop e bd m : advances e bd m (afterBackdrop parseJson numberToString e body m).
Proof. apply modal_edit; [done|]. intros _ _ _. unfold afterBackdrop, _resetAdjustments. cbn. edits own. Qed.

Lemma modal_advances_backdropHidden e bd m : advances e bd m (backdropHidden parseJson numberToString e body bd m).
Proof. unfold backdropHidden. etransitivity; [|apply modal_advances_afterBackdrop]. by apply modal_backdrop. Qed.

Lemma modal_advances_hideModal e bd m : advances e bd m (_hideModal parseJson numberToString e body bd m).
Proof.
  unfold _hideModal. set (m1 := set_phase _ _ _). assert (E1 : advances e bd m m1).
  { apply modal_edit; [done|]. intros _ _ _. cbn. edits own. }
  transitivity m1; [done|]. destruct (negb _); [apply modal_advances_afterBackdrop|].
  set (m2 := set_backdrop _ m1). assert (E2 : advances e bd m1 m2) by (by apply modal_backdrop).
  transitivity m2; [done|]. destruct (Backdrop.b_isAnimated _); [frame|apply modal_advances_backdropHidden].
Qed.

Lemma modal_advances_hide e bd m : advances e bd m (hide parseJson numberToString e body bd (prevents e) m).
Proof.
  unfold hide. destruct (_ || _); [done|]. destruct (prevents _ _ _); [frame|].
  set (m1 := set_page _ _). assert (E1 : advances e bd m m1) by (apply modal_edit; [done|]; intros _ _ _; cbn; edits own).
  transitivity m1; [done|]. destruct (_isAnimated e m1); [frame|apply modal_advances_hideModal].
Qed.

Lemma modal_advances_toggle e bd m : advances e bd m (toggle parseJson numberToString e body bd rtl (overflows e) (prevents e) m).
Proof. unfold toggle. destruct (_isShown m); [apply modal_advances_hide|apply modal_advances_show]. Qed.

Lemma modal_advances_static e bd m : advances e bd m (_triggerBackdropTransition e (overflows e) (prevents e) m).
Proof.
  unfold _triggerBackdropTransition. destruct (prevents _ _ _); [frame|]. destruct (_ || _); [frame|].
  apply modal_edit; [done|]. intros _ _ _. cbn. destruct (negb _); edits own.
Qed.

Lemma modal_advances_transition e bd k m : advances e bd m (transitionDone parseJson numberToString e body bd k m).
Proof.
  unfold transitionDone. destruct (_ !! k) as [cb|]; [|done]. set (m1 := set_queue _ m). transitivity m1; [frame|].
  destruct cb; cbn [runCallback]; [apply modal_advances_showElement| |apply modal_advances_hideModal|apply modal_advances_backdropHidden| |].
  - unfold transitionComplete. destruct (c_focus _); frame.
  - apply modal_edit; [done|]. intros _ _ _. cbn. edits own.
  - apply modal_edit; [done|]. intros _ _ _. cbn. edits own.
Qed.

Lemma modal_advances_dispose e bd m : advances e bd m (dispose bd m).
Proof. exact (proj2 (proj2 (modal_backdrop e bd m (set_trap (FocusTrap.deactivate (_focustrap m)) m) eq_refl eq_refl))). Qed.

(** *** Any number of modals *)

Variable d0 : gmap nat node.
Hypothesis bodyThere : is_Some (d0 !! body).
Hypothesis noTarget : forall d x, getElementFromSelector root d x <> Some body.
Hypothesis noModal : forall d, matches d body SELECTOR_MODAL = false.

Abbreviation inv := (residents anchors fits d0).

Lemma modals_onModal e f s : (forall bd m, advances e bd m (f bd m)) -> inv s -> inv (onModal prevents e f s).
Proof. intros F. apply residents_on; [done|]. intros [bd m]. apply F. Qed.

Lemma modals_construct e s : e <> body -> is_Some (st_page s !! e) -> inv s -> inv (construct parseJson e s).1.
Proof.
  intros Hne He I. unfold construct. destruct (getConfig _ _ _ _ _ _ _ _) as [o|]; [|done]. cbn.
  eapply residents_frame; [| |apply (residents_insert anchors fits d0 e (Instance (unclaimed s) (new e (readConfig o) (st_page s))) s)]; try done.
  unfold anchors. intros x. rewrite !elem_of_cons, elem_of_nil. intros [->|[->|[]]]; [done|]. by apply (v_stage _ _ _ _ I).
Qed.

Lemma modals_getOrCreate e s : e <> body -> is_Some (st_page s !! e) -> inv s -> inv (getOrCreateInstance parseJson e s).1.
Proof. intros Hne He I. unfold getOrCreateInstance. destruct (st_instances s !! e); [done|by apply modals_construct]. Qed.

Lemma target_on_page s x t : inv s -> getElementFromSelector root (st_page s) x = Some t -> is_Some (st_page s !! t) /\ t <> body.
Proof.
  intros I H. split; [|intros ->; by apply noTarget in H]. unfold getElementFromSelector in H. destruct (getSelector _ _); [|done].
  eapply findOne_on_page; [apply I|exact H].
Qed.

Lemma modals_clickToggle x s : inv s ->
  inv (clickToggle parseJson numberToString root body rtl overflows prevents x s).1.
Proof.
  intros I. unfold clickToggle. destruct (getElementFromSelector root (st_page s) x) as [t|] eqn:Ht.
  - destruct (target_on_page s x t I Ht) as [Hin Hne]. set (s1 := set_restore _ s).
    assert (I1 : inv s1) by (by apply (residents_frame anchors fits d0 s)). change (st_page s) with (st_page s1) in Hin. clearbody s1.
    destruct (findOne _ _ _) as [a|]; [destruct (_ !! a); [|done]|]; cbn [andThen fst].
    + unfold hideAt. apply residents_andThen; [apply modals_getOrCreate; [done| |]|].
      * apply (residents_keep prevents anchors fits ltac:(done) d0); [intros [bd m]; by apply modal_advances_hide|done..].
      * apply modals_onModal; [intros; apply modal_advances_hide|done].
      * intros s' I'. apply modals_onModal; [intros; apply modal_advances_toggle|done].
    + apply residents_andThen; [by apply modals_getOrCreate|]. intros s' I'. apply modals_onModal; [intros; apply modal_advances_toggle|done].
  - destruct (findOne _ _ _) as [a|]; [destruct (_ !! a); [|done]|done]. cbn. apply modals_onModal; [intros; apply modal_advances_hide|done].
Qed.

Lemma modals_clickDismiss x s : is_Some (d0 !! x) -> inv s ->
  inv (clickDismiss parseJson numberToString root body prevents x s).1.
Proof.
  intros Hx I. unfold clickDismiss. destruct (isDisabled _ _); [done|].
  assert (Hx' : is_Some (st_page s !! x)) by (by apply I).
  assert (G : forall t, is_Some (st_page s !! t) -> t <> body ->
    inv (andThen (getOrCreateInstance parseJson t s) (fun s => (hideAt parseJson numberToString body prevents t s, None))).1).
  { intros t H1 H2. apply residents_andThen; [by apply modals_getOrCreate|]. intros s' I'. apply modals_onModal; [intros; apply modal_advances_hide|done]. }
  destruct (getElementFromSelector root (st_page s) x) as [t|] eqn:Ht.
  - destruct (target_on_page s x t I Ht). by apply G.
  - destruct (closest (st_page s) x SELECTOR_MODAL) as [t|] eqn:Hc; [|done].
    destruct (closest_on_page _ _ _ _ (proj1 (proj1 (v_stage _ _ _ _ I))) Hx' Hc) as [H1 H2]. apply G; [done|].
    intros ->. by rewrite noModal in H2.
Qed.

(** What a person clicks on is on the page. *)
Definition opOk (o : op) : Prop := match o with ClickDismiss x => is_Some (d0 !! x) | _ => True end.

Lemma modals_step o s : opOk o -> inv s -> inv (step parseJson numberToString root body rtl overflows prevents o s).1.
Proof.
  intros Ho I. destruct o as [x|x|e|e|e|e|e key|e down up| |shift|x|e k]; cbn [step fst].
  - by apply modals_clickToggle.
  - by apply modals_clickDismiss.
  - apply modals_onModal; [intros; apply modal_advances_show|done].
  - apply modals_onModal; [intros; apply modal_advances_hide|done].
  - unfold disposeAt. destruct (st_instances s !! e); [|done]. set (s1 := onModal _ _ _ _).
    assert (I1 : inv s1) by (apply modals_onModal; [intros; apply modal_advances_dispose|by apply (residents_frame anchors fits d0 s)]).
    by apply residents_delete.
  - apply modals_onModal; [|done]. intros. apply modal_advances_adjust.
  - apply modals_onModal; [|done]. intros bd m. unfold onKeydown. destruct (negb _); [done|].
    destruct (c_keyboard _); [apply modal_advances_hide|apply modal_advances_static].
  - apply modals_onModal; [|done]. intros bd m. unfold onClick. destruct (_ || _); [done|].
    destruct (c_backdrop _); [done|apply modal_advances_hide|apply modal_advances_static].
  - unfold resize. generalize (st_resize s) as l. intros l. revert s I. induction l as [|e l IH]; intros s I; cbn; [done|].
    apply IH, modals_onModal; [|done]. intros bd m. unfold onResize. destruct (_ && _); [apply modal_advances_adjust|done].
  - unfold pressTab. destruct (st_trap s); [|done]. apply modals_onModal; [|done]. intros bd m. by apply modal_frame.
  - destruct (moveFocus_same x s) as (E1 & E2 & _). by apply (residents_frame anchors fits d0 s).
  - apply modals_onModal; [|done]. intros bd m. apply modal_advances_transition.
Qed.

Lemma modals_run ops s : Forall opOk ops -> inv s -> inv (run parseJson numberToString root body rtl overflows prevents ops s).
Proof. intros F. revert s. induction F as [|o ops Ho F IH]; intros s I; cbn; [done|]. by apply IH, modals_step. Qed.

End tree.
End ModalPage.


(** A page with two dialogs, each with its opener: the second in the first dialog. *)
Definition opensDialog (sel : string) : obj string := [("data-bs-target", sel)].
Definition dialogsPage : gmap nat node :=
  list_to_map [(0, Node "BODY" [] [] [] None [1; 2; 3] None);
    (1, Node "DIV" ["modal"; "fade"] [] [] (Some 0) [4] None); (2, Node "DIV" ["modal"; "fade"] [] [] (Some 0) [] None);
    (3, Node "BUTTON" [] (opensDialog "#one") [] (Some 0) [] None); (4, Node "BUTTON" [] (opensDialog "#two") [] (Some 1) [] None)].

Definition dialogsBrowser : Browser :=
  Build_Browser (fun d x sel =>
      if x =? 0 then false
      else if str_eqb sel "#one" then x =? 1 else if str_eqb sel "#two" then x =? 2
      else if str_eqb sel ".modal" then hasClass d x "modal"
      else if str_eqb sel ".modal.show" then hasClass d x "modal" && hasClass d x "show" else false)
    (fun d x => if existsb (fun a => str_eqb (ScrollBar.getStyle d a "display") "none") (ancestors (size d) d x) then 0 else 1)
    (fun _ _ => "visible") None.

Lemma dialogs_no_body d x : @getElementFromSelector dialogsBrowser 0 d x <> Some 0.
Proof.
  unfold getElementFromSelector. destruct (getSelector d x) as [sel|]; [|done]. unfold findOne, find.
  destruct (List.filter _ _) as [|y l] eqn:F; [done|]. cbn. intros [= ->].
  assert (H : In 0 (0 :: l)) by (by left). rewrite <- F in H. by apply filter_In in H as [_ ?].
Qed.

(** The first dialog is opened, the second from it, and the first disposed of. *)
Definition dialogsOps : list ModalPage.op :=
  [ModalPage.ClickToggle 3; ModalPage.TransitionDone 1 0; ModalPage.TransitionDone 1 0; ModalPage.ClickToggle 4;
   ModalPage.TransitionDone 1 0; ModalPage.TransitionDone 2 0; ModalPage.TransitionDone 1 0; ModalPage.TransitionDone 2 0].

Definition dialogsRun (ops : list ModalPage.op) : stage ModalPage.instance :=
  @ModalPage.run dialogsBrowser barLayout (fun _ => None) printWhole 0 0 false (fun _ _ => false) (fun _ _ _ => false) ops (emptyStage dialogsPage).

