(* ===== verification/BsModalFlow.v ===== *)
(** What a person sees of modals that share a page: one that is opened and closed gives the focus back to
    its opener, and one that is opened from another takes its place. *)
From Stdlib Require Import Ascii QArith Lia.
From S2P Require Import Prelude BsCore BsDom BsConfig BsScrollBar BsModal BsTree BsStage BsModalPage.

Local Open Scope nat_scope.

Module ModalFlow.
Import Modal ModalPage.

Lemma five_apart (v w x y z : nat) : NoDup [v; w; x; y; z] <->
  v <> w /\ v <> x /\ v <> y /\ v <> z /\ w <> x /\ w <> y /\ w <> z /\ x <> y /\ x <> z /\ y <> z.
Proof. rewrite !NoDup_cons, !not_elem_of_cons. split; [tauto|]. intros. split_and!; try tauto; try apply not_elem_of_nil. constructor. Qed.

Section flow.
Context `{B : Browser} `{L : ScrollBar.Layout}.
Variable parseJson : string -> option value.
Variable numberToString : Q -> string.
Variables root body : nat.
Variable rtl : bool.
Variable overflows : nat -> gmap nat node -> bool.
Variable prevents : nat -> list string -> string -> bool.
Hypothesis permitted : forall e l name, prevents e l name = false.
Implicit Types (s : stage instance) (m : modal) (e bd x : nat) (d : gmap nat node).

Abbreviation onModal := (onModal prevents).
Abbreviation step := (step parseJson numberToString root body rtl overflows prevents).

(** Where a modal of the stage stands. *)
Record place := Place {
  p_created : bool; p_show : bool; p_bshow : bool; p_appended : bool; p_shown : bool; p_moving : bool;
  p_queue : list callback; p_active : bool
}.

Definition isPlaced e bd (p : place) (op : bool) m : Prop :=
  isAt e body bd (p_created p) (p_show p) op (p_bshow p) (p_appended p) (p_shown p) (p_moving p) (p_queue p) (p_active p) m.

Record standing e bd (g : config) (p : place) (op : bool) s (i : instance) : Prop := {
  sd_there : st_instances s !! e = Some i;
  sd_bd : i_bd i = bd;
  sd_config : m_config (i_modal i) = g;
  sd_placed : isPlaced e bd p op (enterModal (st_page s) (st_focus s) (i_modal i))
}.

Definition stands e bd g p op s : Prop := exists i, standing e bd g p op s i.

Lemma placed_refocus e bd p op f m : isPlaced e bd p op m -> isPlaced e bd p op (enterModal (m_page m) f m).
Proof. intros [H1 H2 H3 H4 H5 H6]. by split. Qed.

(** The modal whose trap listens, after a method that changed whether the trap of the modal at [e] is active. *)
Definition trapAfter e (before after : bool) (t : option nat) : option nat :=
  if after then (if before then t else Some e) else if before then None else t.

Lemma moveFocus_trap x s : st_trap (moveFocus x s) = st_trap s /\ st_restore (moveFocus x s) = st_restore s.
Proof. unfold moveFocus. by destruct (_ ≫= _) as [[t i]|]. Qed.

Lemma fire_trap e p name s : st_trap (fire e p name s) = st_trap s.
Proof.
  unfold fire. destruct (str_eqb _ _); [done|]. destruct (str_eqb _ _); [|done].
  match goal with |- context [fold_left _ ?l ?s0] => assert (H : st_trap s0 = st_trap s) by done; revert H; generalize s0, l end.
  intros s0 l. revert s0. induction l as [|r l IH]; intros s0 H; cbn [fold_left]; [done|]. apply IH.
  destruct r as [|t trigger]; [done|]. destruct (isVisible _ _); [|done]. by rewrite (proj1 (moveFocus_trap _ _)).
Qed.

Lemma fireAll_trap e log names s : st_trap (fireAll prevents e log names s) = st_trap s.
Proof.
  revert log s. induction names as [|name names IH]; intros log s; cbn [fireAll]; [done|]. by rewrite IH, fire_trap.
Qed.

Lemma settle_trap e (i0 i : instance) s :
  st_trap (settle prevents e i0 i s) =
  trapAfter e (FocusTrap._isActive (_focustrap (i_modal i0))) (FocusTrap._isActive (_focustrap (i_modal i))) (st_trap s).
Proof.
  unfold settle, trapAfter. rewrite fireAll_trap. cbn [trapOf modal_overlay].
  match goal with |- context [if decide ?P then ?a else ?b] =>
    assert (H : st_trap (if decide P then a else b) = st_trap s) by
      (destruct (decide P); [done|]; destruct (FocusTrap.ft_focus _); [by rewrite (proj1 (moveFocus_trap _ _))|done]);
    set (s1 := if decide P then a else b) in * end.
  by destruct (FocusTrap._isActive _), (FocusTrap._isActive _).
Qed.

(** A method of one modal takes it on. *)
Lemma stands_on e bd g p op p' op' (f : nat -> modal -> modal) s :
  stands e bd g p op s ->
  (forall m, m_config m = g -> isPlaced e bd p op m -> isPlaced e bd p' op' (f bd m) /\ m_config (f bd m) = m_config m) ->
  stands e bd g p' op' (onModal e f s) /\ st_trap (onModal e f s) = trapAfter e (p_active p) (p_active p') (st_trap s).
Proof.
  intros (i & [Hi Hb Hg Hp]) F. unfold ModalPage.onModal, on. rewrite Hi. cbn [enter modal_overlay]. set (m := enterModal _ _ _) in *.
  cbn [i_bd i_modal]. rewrite Hb. destruct (F m Hg Hp) as [Hp' Hg']. split.
  - set (i' := Instance bd (f bd m)). destruct (settle_same prevents e i i' s) as (E1 & E2 & _). exists i'. split.
    + rewrite E2. by rewrite lookup_insert_eq.
    + done.
    + cbn. by rewrite Hg'.
    + rewrite E1. cbn. by apply placed_refocus.
  - rewrite settle_trap. cbn [i_modal]. pose proof (ia_trap _ _ _ _ _ _ _ _ _ _ _ _ _ Hp) as T. cbn in T. rewrite T.
    by rewrite (ia_trap _ _ _ _ _ _ _ _ _ _ _ _ _ Hp').
Qed.

(** A method of another modal changes no more of this one than the class of the body. *)
Lemma stands_other e bd g p a abd ga pa op (f : nat -> modal -> modal) s :
  NoDup [e; a; body; bd; abd] ->
  stands e bd g p op s -> stands a abd ga pa op s -> (forall bd m, advances body a bd m (f bd m)) ->
  stands e bd g p (hasClass (st_page (onModal a f s)) body "modal-open") (onModal a f s).
Proof.
  intros ND (i & [Hi Hb Hg Hp]) (j & [Hj Hab _ Hpa]) F. unfold ModalPage.onModal, on. rewrite Hj. cbn [enter modal_overlay].
  set (m := enterModal _ _ (i_modal j)) in *. cbn [i_bd i_modal]. rewrite Hab.
  set (j' := Instance abd (f abd m)). destruct (settle_same prevents a j j' s) as (E1 & E2 & _).
  apply five_apart in ND as (N1 & N2 & N3 & N4 & N5 & N6 & N7 & N8 & N9 & N10).
  destruct (F abd m) as [E _].
  { destruct Hpa as [[P1 P2 P3 P4 P5 P6 P7] Hbd _ _ _ _]. apply bool_decide_eq_true in P1, P2. split.
    - unfold fits. congruence.
    - unfold anchors. cbn. rewrite !not_elem_of_cons. split_and!; [congruence..|apply not_elem_of_nil].
    - unfold anchors. intros y. rewrite !elem_of_cons, elem_of_nil. by intros [->|[->|[]]].
    - change (backdropReady abd (_backdrop m) (m_page m)). unfold backdropReady. rewrite Hbd. cbn. rewrite <- P3. by rewrite bool_decide_eq_true. }
  change (edited (own body a abd) (Some abd) (st_page s) (m_page (f abd m))) in E.
  pose proof (fun x k => edited_class _ _ _ _ x k E) as C. pose proof (fun x => edited_domain _ _ _ _ x E) as D. cbn [m_page m enterModal set_trap set_page] in C, D.
  assert (In : forall x, x <> abd -> bool_decide (is_Some (m_page (f abd m) !! x)) = bool_decide (is_Some (st_page s !! x))).
  { intros x Hx. apply bool_decide_ext. split; [|apply D]. apply D. congruence. }
  exists i. split; [rewrite E2; by rewrite lookup_insert_ne by congruence|done|done|]. rewrite E1. cbn [pageOf modal_overlay j' i_modal].
  destruct Hp as [[P1 P2 P3 P4 P5 P6 P7] H2 H3 H4 H5 H6]. split; [|done..]. cbn in *. unfold own in C.
  split; rewrite ?In, ?C by first [congruence|rewrite !not_elem_of_cons; split_and!; [congruence..|apply not_elem_of_nil]]; done.
Qed.

(** ** Another modal takes the place of one *)

(** The hidden modal and the one that opens, after so many of their transitions. *)
Definition leaving (i : nat) : place :=
  match i with
  | 0 => Place true false true true false true [HideModal] false
  | 1 => Place true false false true false false [BackdropHidden] false
  | _ => Place true false false false false false [] false
  end.
Definition coming (focus : bool) (j : nat) : place :=
  match j with
  | 0 => Place true false true true true true [BackdropShown] false
  | 1 => Place true true true true true true [TransitionComplete] false
  | _ => Place true true true true true false [] focus
  end.

(** A closed modal, whose backdrop may have its element from an earlier time. *)
Definition resting (created : bool) : place := Place created false false false false false [] false.

Section two.
Variables a abd b bbd : nat.
Variables ga gb : config.
Hypothesis distinct : NoDup [a; b; body; abd; bbd].

Lemma two_apart : NoDup [b; a; body; bbd; abd] /\ (a <> body /\ a <> abd /\ body <> abd) /\ (b <> body /\ b <> bbd /\ body <> bbd).
Proof. pose proof distinct as D. apply five_apart in D as (? & ? & ? & ? & ? & ? & ? & ? & ? & ?). rewrite five_apart. by split_and!. Qed.

Definition switching (i j : nat) s : Prop :=
  stands a abd ga (leaving i) (negb (i =? 2)) s /\ stands b bbd gb (coming (c_focus gb) j) (negb (i =? 2)) s /\
  st_trap s = (if (j =? 2) && c_focus gb then Some b else None).

Lemma stands_class e bd g p op s : stands e bd g p op s -> hasClass (st_page s) body "modal-open" = op.
Proof. intros (i & [_ _ _ [[_ _ _ _ _ H _] _ _ _ _ _]]). exact H. Qed.

Lemma switching_leaves i j s : i < 2 -> switching i j s -> switching (S i) j (step (TransitionDone a 0) s).1.
Proof.
  intros Hi (H1 & H2 & H3). cbn [ModalPage.step fst]. destruct two_apart as (ND & Da & Db).
  set (f := fun bd => transitionDone parseJson numberToString a body bd 0).
  destruct (stands_on a abd ga (leaving i) (negb (i =? 2)) (leaving (S i)) (negb (S i =? 2)) f s H1) as [H1' T].
  { intros m _ Hm. destruct i as [|[|i]]; [| |lia].
    - by destruct (dialog_hidden parseJson numberToString a body abd Da _ m Hm) as (? & ? & _).
    - by destruct (backdrop_hidden parseJson numberToString a body abd _ m Hm) as (? & ? & _). }
  split; [done|]. split.
  - rewrite <- (stands_class _ _ _ _ _ _ H1'). eapply (stands_other b bbd gb _ a abd ga); [exact ND|exact H2|exact H1|].
    intros bd m. by apply modal_advances_transition.
  - rewrite T, <- H3. by destruct i as [|[|i]].
Qed.

Lemma switching_comes i j s : j < 2 -> switching i j s -> switching i (S j) (step (TransitionDone b 0) s).1.
Proof.
  intros Hj (H1 & H2 & H3). cbn [ModalPage.step fst]. destruct two_apart as (ND & Da & Db).
  set (f := fun bd => transitionDone parseJson numberToString b body bd 0).
  destruct (stands_on b bbd gb (coming (c_focus gb) j) (negb (i =? 2)) (coming (c_focus gb) (S j)) (negb (i =? 2)) f s H2) as [H2' T].
  { intros m <- Hm. destruct j as [|[|j]]; [| |lia].
    - by destruct (backdrop_done parseJson numberToString b body bbd Db _ m Hm) as (? & ? & _).
    - by destruct (dialog_done parseJson numberToString b body bbd _ m Hm) as (? & ? & _). }
  split; [|split; [done|]].
  - rewrite <- (stands_class _ _ _ _ _ _ H2'). eapply (stands_other a abd ga _ b bbd gb); [exact distinct|exact H1|exact H2|].
    intros bd m. by apply modal_advances_transition.
  - rewrite T, H3. destruct j as [|[|j]]; [done| |lia]. cbn. by destruct (c_focus gb).
Qed.

(** In whatever order the transitions end. *)
Lemma switching_runs l i j s : switching i j s -> Forall (fun e => e = a \/ e = b) l ->
  i + count_occ Nat.eq_dec l a <= 2 -> j + count_occ Nat.eq_dec l b <= 2 ->
  switching (i + count_occ Nat.eq_dec l a) (j + count_occ Nat.eq_dec l b) (run parseJson numberToString root body rtl overflows prevents (map (fun e => TransitionDone e 0) l) s).
Proof.
  assert (Hab : a <> b) by (apply five_apart in distinct; tauto).
  revert i j s. induction l as [|e l IH]; intros i j s H F; cbn [count_occ map run fold_left].
  { by rewrite !Nat.add_0_r. }
  apply Forall_cons in F as [[->| ->] F].
  - destruct (Nat.eq_dec a a); [|done]. destruct (Nat.eq_dec a b); [done|]. intros Hi Hj.
    rewrite <- Nat.add_succ_comm. apply IH; [apply switching_leaves; [lia|done]|done|lia|lia].
  - destruct (Nat.eq_dec b b); [|done]. destruct (Nat.eq_dec b a); [congruence|]. intros Hi Hj.
    rewrite <- (Nat.add_succ_comm j). apply IH; [apply switching_comes; [lia|done]|done|lia|lia].
Qed.

(** A click in the open modal on what opens the other. *)
Lemma switching_starts c x s : stands a abd ga (coming (c_focus ga) 2) true s -> stands b bbd gb (resting c) true s ->
  st_trap s = (if c_focus ga then Some a else None) ->
  getElementFromSelector root (st_page s) x = Some b -> findOne (st_page s) OPEN_SELECTOR root = Some a ->
  let r := step (ClickToggle x) s in r.2 = None /\ switching 0 0 r.1.
Proof.
  intros HA HB HT Hx Ho. cbn [ModalPage.step]. cbv zeta. unfold clickToggle. rewrite Hx. set (s1 := set_restore _ s).
  assert (HA1 : stands a abd ga (coming (c_focus ga) 2) true s1) by (destruct HA as (i & [? ? ? ?]); by exists i).
  assert (HB1 : stands b bbd gb (resting c) true s1) by (destruct HB as (i & [? ? ? ?]); by exists i).
  change (st_trap s) with (st_trap s1) in HT. change (findOne (st_page s1) OPEN_SELECTOR root = Some a) in Ho. clearbody s1.
  rewrite Ho. destruct (HA1) as (ia & [Hia _ _ _]). rewrite Hia. cbn [andThen]. clear HA HB Hx Ho Hia ia s.
  destruct two_apart as (ND & Da & Db). unfold hideAt.
  set (f := fun bd => hide parseJson numberToString a body bd (prevents a)).
  destruct (stands_on a abd ga _ true (leaving 0) true f s1 HA1) as [HA2 T2].
  { intros m <- Hm. by destruct (modal_hide_starts parseJson numberToString a body abd (prevents a) Da (permitted a) _ m Hm) as (? & ? & _). }
  assert (HB2 := stands_other b bbd gb _ a abd ga _ _ f s1 ND HB1 HA1 ltac:(intros ? ?; by apply modal_advances_hide)).
  rewrite (stands_class _ _ _ _ _ _ HA2) in HB2. cbn [p_active leaving coming] in T2. rewrite HT in T2.
  set (s2 := onModal a _ s1) in *. clearbody s2. clear HA1 HB1 HT s1.
  unfold getOrCreateInstance. destruct (HB2) as (ib & [Hib _ _ _]). rewrite Hib. cbn [andThen fst snd]. split; [done|]. unfold toggleAt.
  set (h := fun bd => toggle parseJson numberToString b body bd rtl (overflows b) (prevents b)).
  destruct (stands_on b bbd gb _ true (coming (c_focus gb) 0) true h s2 HB2) as [HB3 T3].
  { intros m _ Hm. unfold h, toggle. rewrite (ia_shown _ _ _ _ _ _ _ _ _ _ _ _ _ Hm). cbn [p_shown resting].
    by destruct (modal_show_starts numberToString b body bbd rtl (overflows b) (prevents b) Db (permitted b) c true m Hm) as (? & ? & _). }
  assert (HA3 := stands_other a abd ga _ b bbd gb _ _ h s2 distinct HA2 HB2 ltac:(intros ? ?; by apply modal_advances_toggle)).
  rewrite (stands_class _ _ _ _ _ _ HB3) in HA3. split; [done|]. split; [done|].
  rewrite T3, T2. by destruct (c_focus ga).
Qed.
End two.
(** ** The focus goes back to the opener *)

(** What is left when the events [names] are yet to be seen. *)
Lemma stands_fires e bd g p op p' op' (f : nat -> modal -> modal) names s :
  stands e bd g p op s ->
  (forall m, m_config m = g -> isPlaced e bd p op m ->
     isPlaced e bd p' op' (f bd m) /\ m_config (f bd m) = m_config m /\ m_log (f bd m) = m_log m ++ names) ->
  stands e bd g p' op' (onModal e f s) /\ st_trap (onModal e f s) = trapAfter e (p_active p) (p_active p') (st_trap s) /\
  exists s1 log, onModal e f s = fireAll prevents e log names s1 /\ st_restore s1 = st_restore s.
Proof.
  intros H F. destruct (stands_on e bd g p op p' op' f s H) as [H1 H2].
  { intros m Hg Hm. by destruct (F m Hg Hm) as (? & ? & _). }
  split; [done|]. split; [done|]. destruct H as (i & [Hi Hb Hg Hp]).
  unfold ModalPage.onModal, on. rewrite Hi. cbn [enter modal_overlay i_bd i_modal]. rewrite Hb.
  destruct (F (enterModal (st_page s) (st_focus s) (i_modal i)) Hg Hp) as (_ & _ & Hl). unfold settle. cbn [logOf modal_overlay i_modal]. rewrite Hl. cbn [m_log enterModal set_page Modal.set_trap].
  rewrite drop_app_length. eexists _, _. split; [reflexivity|].
  match goal with |- context [if decide ?P then ?x else ?y] =>
    assert (R : st_restore (if decide P then x else y) = st_restore s) by
      (destruct (decide P); [done|]; destruct (FocusTrap.ft_focus _); [by rewrite (proj2 (moveFocus_trap _ _))|done]);
    set (s1 := if decide P then x else y) in * end.
  by destruct (FocusTrap._isActive _), (FocusTrap._isActive _).
Qed.

Section one.
Variables e bd x : nat.
Variable g : config.
Hypothesis distinct : e <> body /\ e <> bd /\ body <> bd.

(** From the click to the end of the last transition but one. *)
Lemma focus_awaits c op s :
  stands e bd g (resting c) op s -> st_restore s = [] -> st_trap s = None ->
  getElementFromSelector root (st_page s) x = Some e -> findOne (st_page s) OPEN_SELECTOR root = None ->
  let r := step (ClickToggle x) s in
  r.2 = None /\ stands e bd g (coming (c_focus g) 0) true r.1 /\ st_restore r.1 = [AwaitHidden e x] /\ st_trap r.1 = None.
Proof.
  intros H HR HT Hx Ho. cbn [ModalPage.step]. cbv zeta. unfold clickToggle. rewrite Hx. set (s1 := set_restore _ s).
  assert (H1 : stands e bd g (resting c) op s1) by (destruct H as (i & [? ? ? ?]); by exists i).
  assert (R1 : st_restore s1 = [AwaitShow e x]) by (subst s1; cbn; by rewrite HR).
  change (st_trap s) with (st_trap s1) in HT. change (findOne (st_page s1) OPEN_SELECTOR root = None) in Ho. clearbody s1.
  rewrite Ho. cbn [andThen]. unfold getOrCreateInstance. destruct (H1) as (i & [Hi _ _ _]). rewrite Hi. cbn [andThen fst snd]. split; [done|].
  unfold toggleAt. set (h := fun bd => toggle parseJson numberToString e body bd rtl (overflows e) (prevents e)).
  destruct (stands_fires e bd g _ op (coming (c_focus g) 0) true h [EVENT_SHOW] s1 H1) as (S2 & T2 & s2 & log & E2 & R2).
  { intros m _ Hm. unfold h, toggle. rewrite (ia_shown _ _ _ _ _ _ _ _ _ _ _ _ _ Hm). cbn [p_shown resting].
    exact (modal_show_starts numberToString e body bd rtl (overflows e) (prevents e) distinct (permitted e) c op m Hm). }
  split; [done|]. rewrite T2, HT. split; [|done]. rewrite E2. cbn [fireAll]. rewrite permitted.
  unfold fire. cbn [showEvent modal_overlay]. change (str_eqb EVENT_SHOW EVENT_SHOW) with true. cbn [set_restore st_restore].
  rewrite R2, R1. cbn. by rewrite Nat.eqb_refl.
Qed.

(** Steps that fire neither [show] nor [hidden]. *)
Lemma focus_awaits_on p p' op op' (f : nat -> modal -> modal) names s :
  Forall (fun n => str_eqb n EVENT_SHOW = false /\ str_eqb n EVENT_HIDDEN = false) names ->
  stands e bd g p op s ->
  (forall m, m_config m = g -> isPlaced e bd p op m ->
     isPlaced e bd p' op' (f bd m) /\ m_config (f bd m) = m_config m /\ m_log (f bd m) = m_log m ++ names) ->
  stands e bd g p' op' (onModal e f s) /\ st_trap (onModal e f s) = trapAfter e (p_active p) (p_active p') (st_trap s) /\
  st_restore (onModal e f s) = st_restore s.
Proof.
  intros N H F. destruct (stands_fires e bd g p op p' op' f names s H F) as (H1 & H2 & s1 & log & E & R).
  split; [done|]. split; [done|]. rewrite E, <- R. clear E R F H H1 H2. revert log s1. induction N as [|n names [N1 N2] N IH]; intros log s1; cbn [fireAll]; [done|].
  rewrite IH. unfold fire. cbn [showEvent hiddenEvent modal_overlay]. by rewrite N1, N2.
Qed.

Lemma focus_given_back s : stands e bd g (leaving 1) true s -> st_restore s = [AwaitHidden e x] -> st_trap s = None ->
  let s' := (step (TransitionDone e 0) s).1 in
  stands e bd g (leaving 2) false s' /\ st_restore s' = [] /\ st_trap s' = None /\
  (isVisible (st_page s') (Some x) = true -> st_focus s' = Some x).
Proof.
  intros H HR HT. cbn [ModalPage.step fst]. set (f := fun bd => transitionDone parseJson numberToString e body bd 0).
  destruct (stands_fires e bd g _ true (leaving 2) false f [EVENT_HIDDEN] s H) as (S2 & T2 & s2 & log & E2 & R2).
  { intros m _ Hm. exact (backdrop_hidden parseJson numberToString e body bd true m Hm). }
  split; [done|]. cbn [p_active leaving] in T2. unfold trapAfter in T2. rewrite HT in T2. rewrite E2 in T2. rewrite fireAll_trap in T2.
  rewrite E2. cbn [fireAll]. unfold fire. cbn [showEvent hiddenEvent modal_overlay].
  change (str_eqb EVENT_HIDDEN EVENT_SHOW) with false. change (str_eqb EVENT_HIDDEN EVENT_HIDDEN) with true. cbv match.
  rewrite R2, HR. cbn [List.filter negb]. rewrite Nat.eqb_refl. cbn [fold_left List.filter negb].
  destruct (isVisible _ _) eqn:V.
  - unfold moveFocus. cbn [st_trap set_restore]. rewrite T2. by cbn.
  - cbn. rewrite T2. split; [done|]. split; [done|]. cbn in V. by rewrite V.
Qed.
End one.
End flow.
End ModalFlow.

Import ModalFlow.


(** The second dialog has been open before; now the first one is. *)
Definition dialogsOpen : stage ModalPage.instance :=
  dialogsRun [ModalPage.ClickToggle 4; ModalPage.TransitionDone 2 0; ModalPage.TransitionDone 2 0; ModalPage.Hide 2;
    ModalPage.TransitionDone 2 0; ModalPage.TransitionDone 2 0; ModalPage.ClickToggle 3; ModalPage.TransitionDone 1 0; ModalPage.TransitionDone 1 0].

Definition dialogConfig : Modal.config := Modal.Config Modal.PlainBackdrop true true.


(** C17: A closed modal that is opened by a click on its opener, and hidden again, goes through its cycle without an
    error. While it is open its trap listens, if it is configured to. Afterwards no listener waits, no trap listens, and the focus is on the
    opener if that is visible. *)
Theorem modal_focus_returns `{B : Browser} `{L : ScrollBar.Layout} (parseJson : string -> option value)
    (numberToString : Q -> string) (root body : nat) (rtl : bool) (overflows : nat -> gmap nat node -> bool)
    (prevents : nat -> list string -> string -> bool) (e bd x : nat) (g : Modal.config) (c op : bool)
    (s : stage ModalPage.instance) :
  (forall e l name, prevents e l name = false) -> e <> body /\ e <> bd /\ body <> bd ->
  stands body e bd g (resting c) op s -> st_restore s = [] -> st_trap s = None ->
  getElementFromSelector root (st_page s) x = Some e -> findOne (st_page s) ModalPage.OPEN_SELECTOR root = None ->
  let step o s := (ModalPage.step parseJson numberToString root body rtl overflows prevents o s).1 in
  let done := ModalPage.TransitionDone e 0 in
  let s1 := step done (step done (step (ModalPage.ClickToggle x) s)) in
  let s2 := step done (step done (step (ModalPage.Hide e) s1)) in
  stands body e bd g (coming (Modal.c_focus g) 2) true s1 /\ st_trap s1 = (if Modal.c_focus g then Some e else None) /\
  stands body e bd g (resting true) false s2 /\ st_restore s2 = [] /\ st_trap s2 = None /\
  (isVisible (st_page s2) (Some x) = true -> st_focus s2 = Some x).
Proof.
  intros P D H HR HT Hx Ho step done. subst step.
  destruct (focus_awaits parseJson numberToString root body rtl overflows prevents P e bd x g D c op s H HR HT Hx Ho) as (_ & H1 & R1 & T1).
  set (t1 := (ModalPage.step _ _ _ _ _ _ _ (ModalPage.ClickToggle x) s).1) in *. clearbody t1. clear H HR HT Hx Ho c op s.
  destruct (focus_awaits_on body prevents e bd g _ (coming (Modal.c_focus g) 1) true true
    (fun bd => Modal.transitionDone parseJson numberToString e body bd 0) [] t1 ltac:(constructor) H1) as (H2 & T2 & R2).
  { intros m _ Hm. rewrite app_nil_r. exact (Modal.backdrop_done parseJson numberToString e body bd D true m Hm). }
  destruct (focus_awaits_on body prevents e bd g _ (coming (Modal.c_focus g) 2) true true
    (fun bd => Modal.transitionDone parseJson numberToString e body bd 0) [Modal.EVENT_SHOWN] _ ltac:(by repeat constructor) H2) as (H3 & T3 & R3).
  { intros m <- Hm. exact (Modal.dialog_done parseJson numberToString e body bd true m Hm). }
  rewrite T2, T1 in T3. rewrite R2, R1 in R3. cbn [p_active coming trapAfter] in T3.
  destruct (focus_awaits_on body prevents e bd g _ (leaving 0) true true
    (fun bd => Modal.hide parseJson numberToString e body bd (prevents e)) [Modal.EVENT_HIDE] _ ltac:(by repeat constructor) H3) as (H4 & T4 & R4).
  { intros m <- Hm. exact (Modal.modal_hide_starts parseJson numberToString e body bd (prevents e) D (P e) true m Hm). }
  destruct (focus_awaits_on body prevents e bd g _ (leaving 1) true true
    (fun bd => Modal.transitionDone parseJson numberToString e body bd 0) [] _ ltac:(constructor) H4) as (H5 & T5 & R5).
  { intros m _ Hm. rewrite app_nil_r. exact (Modal.dialog_hidden parseJson numberToString e body bd D true m Hm). }
  rewrite T4, T3 in T5. rewrite R4, R3 in R5. cbn [p_active coming leaving trapAfter] in T5.
  destruct (focus_given_back parseJson numberToString root body rtl overflows prevents e bd x g _ H5 R5) as (H6 & R6 & T6 & F6).
  { rewrite T5. by destruct (Modal.c_focus g). }
  split; [exact H3|]. split; [etransitivity; [exact T3|by destruct (Modal.c_focus g)]|]. exact (conj H6 (conj R6 (conj T6 F6))).
Qed.

Lemma modal_focus_returns_witness :
  let s := dialogsRun [ModalPage.ClickToggle 3; ModalPage.TransitionDone 1 0; ModalPage.TransitionDone 1 0; ModalPage.Hide 1;
    ModalPage.TransitionDone 1 0; ModalPage.TransitionDone 1 0; ModalPage.FocusMoves 2] in
  st_focus (@ModalPage.run dialogsBrowser barLayout (fun _ => None) printWhole 0 0 false (fun _ _ => false) (fun _ _ _ => false)
    [ModalPage.ClickToggle 3; ModalPage.TransitionDone 1 0; ModalPage.TransitionDone 1 0; ModalPage.Hide 1;
     ModalPage.TransitionDone 1 0; ModalPage.TransitionDone 1 0] s) = Some 3.
Proof.
  intros s.
  destruct (@modal_focus_returns dialogsBrowser barLayout (fun _ => None) printWhole 0 0 false (fun _ _ => false) (fun _ _ _ => false)
    1 5 3 dialogConfig true false s) as (_ & _ & _ & _ & _ & H).
  - intros e l name. reflexivity.
  - split; [discriminate|split; discriminate].
  - eexists. split; [vm_compute; reflexivity..|]. split; [split|..]; vm_compute; reflexivity.
  - vm_compute. reflexivity.
  - vm_compute. reflexivity.
  - vm_compute. reflexivity.
  - vm_compute. reflexivity.
  - apply H. vm_compute. reflexivity.
Defined.

(** One modal of two is disposed of: from then on no modal follows the window when it is resized. *)
Theorem dispose_stops_resizing `{B : Browser} `{L : ScrollBar.Layout} (numberToString : Q -> string) (rtl : bool)
    (overflows : nat -> gmap nat node -> bool) (prevents : nat -> list string -> string -> bool) (e : nat) (s : stage ModalPage.instance) :
  is_Some (st_instances s !! e) ->
  let s' := ModalPage.disposeAt prevents e s in ModalPage.resize numberToString rtl overflows prevents s' = s'.
Proof.
  intros [i Hi]. unfold ModalPage.disposeAt. rewrite Hi. cbv zeta. unfold ModalPage.resize. cbn [st_resize set_instances].
  match goal with |- context [ModalPage.onModal _ _ _ ?s0] => assert (H : st_resize (ModalPage.onModal prevents e Modal.dispose s0) = []) end.
  { unfold ModalPage.onModal, on. cbn [st_instances set_resize]. rewrite Hi.
    match goal with |- context [settle _ e ?i0 ?i' ?s] => destruct (settle_same prevents e i0 i' s) as (_ & _ & ->) end. done. }
  by rewrite H.
Qed.
