(* ===== verification/BsOffcanvas.v ===== *)
(** Bootstrap's [Offcanvas]: a panel that slides in over the page, with a backdrop, a trap for the focus
    and a page that does not scroll meanwhile. *)
From Stdlib Require Import Ascii QArith Lia.
From S2P Require Import Prelude BsCore BsDom BsConfig BsScrollBar BsModal.

Local Open Scope nat_scope.

Module Offcanvas.
Import ScrollBar.

Definition CLASS_NAME_BACKDROP : string := "offcanvas-backdrop".
Definition EVENT_SHOW : string := "show.bs.offcanvas".
Definition EVENT_SHOWN : string := "shown.bs.offcanvas".
Definition EVENT_HIDE : string := "hide.bs.offcanvas".
Definition EVENT_HIDE_PREVENTED : string := "hidePrevented.bs.offcanvas".
Definition EVENT_HIDDEN : string := "hidden.bs.offcanvas".

Record config := Config { c_backdrop : Modal.backdropOption; c_keyboard : bool; c_scroll : bool }.

Definition Default : config := Config Modal.PlainBackdrop true false.

(** The callbacks that wait: those of the panel, and the one that disposes of the backdrop. *)
Inductive callback := ShowComplete | HideComplete | BackdropHidden.
#[export] Instance callback_eq_dec : EqDecision callback.
Proof. solve_decision. Defined.

Record offcanvas := Offcanvas_ {
  o_page : gmap nat node;
  o_config : config;
  _backdrop : Backdrop.backdrop;
  _focustrap : FocusTrap.state;
  _isShown : bool;
  o_queue : list callback;
  o_log : list string
}.

Definition set_page (d : gmap nat node) (o : offcanvas) : offcanvas :=
  Offcanvas_ d (o_config o) (_backdrop o) (_focustrap o) (_isShown o) (o_queue o) (o_log o).
Definition set_backdrop (bd : Backdrop.backdrop * gmap nat node) (o : offcanvas) : offcanvas :=
  Offcanvas_ bd.2 (o_config o) bd.1 (_focustrap o) (_isShown o) (o_queue o) (o_log o).
Definition set_trap (s : FocusTrap.state) (o : offcanvas) : offcanvas :=
  Offcanvas_ (o_page o) (o_config o) (_backdrop o) s (_isShown o) (o_queue o) (o_log o).
Definition set_shown (b : bool) (o : offcanvas) : offcanvas :=
  Offcanvas_ (o_page o) (o_config o) (_backdrop o) (_focustrap o) b (o_queue o) (o_log o).
Definition set_queue (q : list callback) (o : offcanvas) : offcanvas :=
  Offcanvas_ (o_page o) (o_config o) (_backdrop o) (_focustrap o) (_isShown o) q (o_log o).
Definition log_event (name : string) (o : offcanvas) : offcanvas :=
  Offcanvas_ (o_page o) (o_config o) (_backdrop o) (_focustrap o) (_isShown o) (o_queue o) (o_log o ++ [name]).

Section offcanvas.
Context `{B : Browser} `{L : Layout}.
Variable parseJson : string -> option value.
Variable numberToString : Q -> string.
Variable element parent body bd : nat.  (** the panel, its parent, [document.body], the backdrop's element *)
Variable prevents : list string -> string -> bool.
Implicit Types (o : offcanvas).

Definition enqueue (cb : callback) o : offcanvas := set_queue (o_queue o ++ [cb]) o.

(** [element.blur()] *)
Definition blur o : offcanvas :=
  let f := _focustrap o in
  if decide (FocusTrap.ft_focus f = Some element)
  then set_trap (FocusTrap.State (FocusTrap._isActive f) (FocusTrap._lastTabNavDirection f) None) o else o.

(** [_backdrop.show()] and [_backdrop.hide()], whose callback is empty: without a backdrop there is
    nothing to do, otherwise hiding waits for the fade to dispose of the element. *)
Definition showBackdrop o : offcanvas :=
  if negb (Backdrop.b_isVisible (_backdrop o)) then o
  else set_backdrop (Backdrop.show CLASS_NAME_BACKDROP parent bd (_backdrop o) (o_page o)) o.

Definition hideBackdrop o : offcanvas :=
  if negb (Backdrop.b_isVisible (_backdrop o)) then o
  else enqueue BackdropHidden (set_backdrop (Backdrop.hide CLASS_NAME_BACKDROP bd (_backdrop o) (o_page o)) o).

Definition show o : offcanvas :=
  if _isShown o then o
  else
    let prevented := prevents (o_log o) EVENT_SHOW in
    let o := log_event EVENT_SHOW o in
    if prevented then o
    else
      let o := showBackdrop (set_shown true o) in
      let o := if negb (c_scroll (o_config o)) then set_page (ScrollBar.hide numberToString body (o_page o)) o else o in
      let d := setAttribute element "aria-modal" "true" (o_page o) in
      let d := setAttribute element "role" "dialog" d in
      enqueue ShowComplete (set_page (classList_add element ["showing"] d) o).

Definition showCompleteCallBack o : offcanvas :=
  let g := o_config o in
  let o := if negb (c_scroll g) || Modal.isVisibleOption (c_backdrop g)
           then set_trap (FocusTrap.activate element (_focustrap o)) o else o in
  let d := classList_remove element ["showing"] (classList_add element ["show"] (o_page o)) in
  log_event EVENT_SHOWN (set_page d o).

Definition hide o : offcanvas :=
  if negb (_isShown o) then o
  else
    let prevented := prevents (o_log o) EVENT_HIDE in
    let o := log_event EVENT_HIDE o in
    if prevented then o
    else
      let o := blur (set_trap (FocusTrap.deactivate (_focustrap o)) o) in
      let o := set_page (classList_add element ["hiding"] (o_page o)) (set_shown false o) in
      enqueue HideComplete (hideBackdrop o).

Definition hideCompleteCallback o : offcanvas :=
  let d := classList_remove element ["show"; "hiding"] (o_page o) in
  let d := removeAttribute element "role" (removeAttribute element "aria-modal" d) in
  let d := if negb (c_scroll (o_config o)) then ScrollBar.reset parseJson numberToString body d else d in
  log_event EVENT_HIDDEN (set_page d o).

Definition toggle o : offcanvas := if _isShown o then hide o else show o.

(** What the backdrop and the trap do when the instance is disposed of. *)
Definition dispose o : offcanvas :=
  let o := set_backdrop (Backdrop.dispose bd (_backdrop o) (o_page o)) o in
  set_trap (FocusTrap.deactivate (_focustrap o)) o.

(** [clickCallback] of the backdrop. *)
Definition clickBackdrop o : offcanvas :=
  match c_backdrop (o_config o) with
  | Modal.StaticBackdrop => log_event EVENT_HIDE_PREVENTED o
  | Modal.PlainBackdrop => hide o
  | Modal.NoBackdrop => o
  end.

(** The listener of [_addEventListeners]. *)
Definition onKeydown (key : string) o : offcanvas :=
  if negb (str_eqb key "Escape") then o
  else if c_keyboard (o_config o) then hide o else log_event EVENT_HIDE_PREVENTED o.

(** The constructor: [_initializeBackDrop] and [_initializeFocusTrap]. *)
Definition new (g : config) (d : gmap nat node) : offcanvas :=
  Offcanvas_ d g (Backdrop.Backdrop_ (Modal.isVisibleOption (c_backdrop g)) true false false) (FocusTrap.State false None None) false [] [].

Definition runCallback (cb : callback) o : offcanvas :=
  match cb with
  | ShowComplete => showCompleteCallBack o
  | HideComplete => hideCompleteCallback o
  | BackdropHidden => set_backdrop (Backdrop.dispose bd (_backdrop o) (o_page o)) o
  end.

(** The [k]-th waiting callback runs. *)
Definition transitionDone (k : nat) o : offcanvas :=
  match o_queue o !! k with
  | Some cb => runCallback cb (set_queue (delete k (o_queue o)) o)
  | None => o
  end.
End offcanvas.

(** ** Opening and closing *)

Section cycle.
Context `{B : Browser} `{L : Layout}.
Variable parseJson : string -> option value.
Variable numberToString : Q -> string.
Variable element parent body bd : nat.
Variable prevents : list string -> string -> bool.
Hypothesis distinct : element <> bd.
Hypothesis permitted : forall l name, prevents l name = false.
Implicit Types (o : offcanvas) (d : gmap nat node).

(** Outside the backdrop, elements keep their classes and the attributes that hold no saved data. *)
Definition calm d d' : Prop := forall x, x <> bd ->
  (is_Some (d' !! x) <-> is_Some (d !! x)) /\ (forall k, hasClass d' x k = hasClass d x k) /\
  (forall k, startsWith k "data-bs-" = false -> getAttribute d' x k = getAttribute d x k).

#[local] Instance calm_preorder : PreOrder calm.
Proof.
  split; [done|]. intros a b c H1 H2 x Hx. destruct (H1 x Hx) as (S1 & C1 & A1), (H2 x Hx) as (S2 & C2 & A2).
  split_and!; [tauto|intros k; by rewrite C2|intros k Hk; by rewrite A2, A1].
Qed.

Lemma calm_alter f e d : (forall n, n_classes (f n) = n_classes n) -> (forall n, n_attrs (f n) = n_attrs n) -> calm d (alter f e d).
Proof.
  intros Hc Ha x _. split_and!; [apply alter_is_Some|intros k; by apply Modal.class_alter|].
  intros k _. rewrite getAttribute_alter. unfold getAttribute. destruct (d !! x); [|done]. destruct (bool_decide _); by rewrite ?Ha.
Qed.

Lemma calm_bd f d : calm d (alter f bd d).
Proof.
  intros x Hx. split_and!; [apply alter_is_Some|..]; intros k; unfold hasClass, getAttribute; by rewrite lookup_alter_ne.
Qed.

Lemma calm_append p d : calm d (appendChild p bd d).
Proof.
  unfold appendChild, removeElement. etransitivity; [|apply calm_bd]. etransitivity; [|by apply calm_alter].
  destruct (d !! bd) as [n|]; [|done]. destruct (n_parent n); [|done]. etransitivity; [|apply calm_bd]. by apply calm_alter.
Qed.

Lemma calm_removeElement d : calm d (removeElement bd d).
Proof.
  unfold removeElement. destruct (d !! bd) as [n|]; [|done]. destruct (n_parent n); [|done].
  etransitivity; [|apply calm_bd]. by apply calm_alter.
Qed.

Lemma calm_getElement b d : calm d (Backdrop._getElement CLASS_NAME_BACKDROP bd b d).2 /\
  Backdrop._isAppended (Backdrop._getElement CLASS_NAME_BACKDROP bd b d).1 = Backdrop._isAppended b /\
  Backdrop.b_isVisible (Backdrop._getElement CLASS_NAME_BACKDROP bd b d).1 = Backdrop.b_isVisible b.
Proof.
  unfold Backdrop._getElement. destruct (Backdrop._element b); [done|]. split; [|done]. intros x Hx. cbn.
  unfold hasClass, getAttribute. by rewrite !lookup_insert_ne by done.
Qed.

Lemma calm_backdrop b d :
  calm d (Backdrop.show CLASS_NAME_BACKDROP parent bd b d).2 /\ calm d (Backdrop.hide CLASS_NAME_BACKDROP bd b d).2 /\
  calm d (Backdrop.dispose bd b d).2 /\
  Backdrop._isAppended (Backdrop.show CLASS_NAME_BACKDROP parent bd b d).1 = true /\
  Backdrop._isAppended (Backdrop.hide CLASS_NAME_BACKDROP bd b d).1 = Backdrop._isAppended b /\
  Backdrop._isAppended (Backdrop.dispose bd b d).1 = false /\
  Backdrop.b_isVisible (Backdrop.show CLASS_NAME_BACKDROP parent bd b d).1 = Backdrop.b_isVisible b /\
  Backdrop.b_isVisible (Backdrop.hide CLASS_NAME_BACKDROP bd b d).1 = Backdrop.b_isVisible b /\
  Backdrop.b_isVisible (Backdrop.dispose bd b d).1 = Backdrop.b_isVisible b.
Proof.
  assert (A : exists b' d', Backdrop._append CLASS_NAME_BACKDROP parent bd b d = (b', d') /\ calm d d' /\
    Backdrop._isAppended b' = true /\ Backdrop.b_isVisible b' = Backdrop.b_isVisible b).
  { unfold Backdrop._append. destruct (Backdrop._isAppended b) eqn:E; [by exists b, d|].
    destruct (calm_getElement b d) as (H1 & _ & H3). destruct (Backdrop._getElement _ bd b d) as [b1 d1]. cbn in *.
    eexists _, _. split; [reflexivity|]. split; [|done]. etransitivity; [exact H1|apply calm_append]. }
  destruct A as (b' & d' & E & H1 & H2 & H3). unfold Backdrop.show. rewrite E.
  destruct (calm_getElement b' d') as (K1 & K2 & K3). destruct (Backdrop._getElement _ bd b' d') as [b2 d2]. cbn in *.
  unfold Backdrop.hide. destruct (calm_getElement b d) as (G1 & G2 & G3). destruct (Backdrop._getElement _ bd b d) as [b3 d3]. cbn in *.
  unfold Backdrop.dispose. split_and!.
  - etransitivity; [exact H1|]. etransitivity; [exact K1|apply calm_bd].
  - etransitivity; [exact G1|apply calm_bd].
  - destruct (negb _); cbn; [done|apply calm_removeElement].
  - congruence.
  - done.
  - by destruct (Backdrop._isAppended b) eqn:Eb; cbn.
  - congruence.
  - done.
  - by destruct (negb _).
Qed.

Lemma calm_data e p v d : calm d (setDataAttribute e p v d) /\ calm d (removeDataAttribute e p d).
Proof.
  assert (N : forall k, startsWith k "data-bs-" = false -> str_eqb k (dataAttribute p) = false).
  { intros k Hk. apply String.eqb_neq. intros ->. unfold dataAttribute in Hk. destruct (normalizeDataKey p); discriminate Hk. }
  split; intros x _; (split_and!; [apply alter_is_Some|intros k; apply hasClass_setAttribute || apply hasClass_removeAttribute|]); intros k Hk.
  - unfold setDataAttribute. by rewrite getAttribute_set, N, andb_false_r.
  - unfold removeDataAttribute. by rewrite getAttribute_remove, N, andb_false_r.
Qed.

Lemma calm_setStyle e p v d : calm d (setStyle e p v d).
Proof. by apply calm_alter. Qed.

Lemma calm_save e p d : calm d (_saveInitialAttribute e p d).
Proof. unfold _saveInitialAttribute. destruct (str_truthy _); [apply calm_data|done]. Qed.

Lemma calm_fold (f : gmap nat node -> nat -> gmap nat node) es d : (forall d e, calm d (f d e)) -> calm d (fold_left f es d).
Proof. intros Hf. revert d. induction es as [|e es IH]; intros d; cbn [fold_left]; [done|]. etransitivity; [apply Hf|apply IH]. Qed.

Lemma calm_scrollBar d : calm d (ScrollBar.hide numberToString body d) /\ calm d (ScrollBar.reset parseJson numberToString body d).
Proof.
  assert (Hb : forall w p f d e, calm d (balance numberToString body w p f d e)).
  { intros w p f d' e. unfold balance. destruct (_ && _); [done|]. destruct (parseFloat _); [|apply calm_save].
    etransitivity; [apply calm_save|apply calm_setStyle]. }
  assert (Hp : forall p d e, calm d (putBack parseJson numberToString p d e)).
  { intros p d' e. unfold putBack. pose proof (proj2 (calm_data e p "" d')) as R.
    destruct (getDataAttribute _ _ _ _); try exact R; try apply calm_setStyle; (etransitivity; [exact R|apply calm_setStyle]). }
  unfold ScrollBar.hide, ScrollBar.reset, _setElementAttributes, _resetElementAttributes, _disableOverFlow. cbv zeta. split.
  - repeat (etransitivity; [|by apply calm_fold]). etransitivity; [apply calm_save|apply calm_setStyle].
  - repeat (etransitivity; [|by apply calm_fold]). done.
Qed.

(** The panel: its three classes and two attributes. *)
Record panelIs (sh showing hiding : bool) (modal role : option string) d : Prop := {
  p_in : is_Some (d !! element);
  p_show : hasClass d element "show" = sh;
  p_showing : hasClass d element "showing" = showing;
  p_hiding : hasClass d element "hiding" = hiding;
  p_modal : getAttribute d element "aria-modal" = modal;
  p_role : getAttribute d element "role" = role
}.

Lemma panelIs_calm sh sg hg m r d d' : calm d d' -> panelIs sh sg hg m r d -> panelIs sh sg hg m r d'.
Proof.
  intros C [H1 H2 H3 H4 H5 H6]. destruct (C element distinct) as (S & Cl & A).
  split; rewrite ?Cl, ?A; try done. by apply S.
Qed.

Definition vis o : bool := Modal.isVisibleOption (c_backdrop (o_config o)).
Definition trapped o : bool := negb (c_scroll (o_config o)) || vis o.

(** Where the panel stands: its element, the instance's fields, and what waits. *)
Record isAt (sh showing hiding : bool) (modal role : option string) (shown appended active : bool) (q : list callback) o : Prop := {
  ia_panel : panelIs sh showing hiding modal role (o_page o);
  ia_shown : _isShown o = shown;
  ia_appended : Backdrop._isAppended (_backdrop o) = appended;
  ia_active : FocusTrap._isActive (_focustrap o) = active;
  ia_queue : o_queue o = q;
  ia_visible : Backdrop.b_isVisible (_backdrop o) = vis o
}.

Definition closed o : Prop := isAt false false false None None false false false [] o.
Definition opening o : Prop := isAt false true false (Some "true") (Some "dialog") true (vis o) false [ShowComplete] o.
Definition opened o : Prop := isAt true false false (Some "true") (Some "dialog") true (vis o) (trapped o) [] o.
Definition closing o : Prop :=
  isAt true false true (Some "true") (Some "dialog") false (vis o) false ((if vis o then [BackdropHidden] else []) ++ [HideComplete]) o.

(** Classes of the panel are set and removed, attributes set and removed. *)
Lemma panel_class_add sh sg hg m r d k : panelIs sh sg hg m r d ->
  panelIs (sh || str_eqb "show" k) (sg || str_eqb "showing" k) (hg || str_eqb "hiding" k) m r (classList_add element [k] d).
Proof.
  intros [H1 H2 H3 H4 H5 H6]. split; rewrite ?hasClass_add, ?(bool_decide_true (is_Some _)), ?bool_decide_true by done;
    rewrite ?H2, ?H3, ?H4; unfold in_strs; cbn [existsb andb]; rewrite ?orb_false_r; try done.
  - by apply alter_is_Some.
  - rewrite (proj1 (getAttribute_classes _ _ _ _ _)). done.
  - rewrite (proj1 (getAttribute_classes _ _ _ _ _)). done.
Qed.

Lemma panel_class_remove sh sg hg m r d ks : panelIs sh sg hg m r d ->
  panelIs (sh && negb (in_strs "show" ks)) (sg && negb (in_strs "showing" ks)) (hg && negb (in_strs "hiding" ks)) m r (classList_remove element ks d).
Proof.
  intros [H1 H2 H3 H4 H5 H6]. split; rewrite ?hasClass_remove, ?bool_decide_true by done; rewrite ?H2, ?H3, ?H4; try done.
  - by apply alter_is_Some.
  - rewrite (proj2 (getAttribute_classes _ _ _ _ _)). done.
  - rewrite (proj2 (getAttribute_classes _ _ _ _ _)). done.
Qed.

Lemma panel_dialog sh sg hg m r d : panelIs sh sg hg m r d ->
  panelIs sh sg hg (Some "true") (Some "dialog") (setAttribute element "role" "dialog" (setAttribute element "aria-modal" "true" d)) /\
  panelIs sh sg hg None None (removeAttribute element "role" (removeAttribute element "aria-modal" d)).
Proof.
  intros [H1 H2 H3 H4 H5 H6]. split; split; rewrite ?hasClass_setAttribute, ?hasClass_removeAttribute; try done;
    rewrite ?getAttribute_set, ?getAttribute_remove; rewrite ?(bool_decide_true (element = element)) by done; cbn; try done.
  - by apply alter_is_Some, alter_is_Some.
  - by rewrite (bool_decide_true (is_Some _)).
  - by rewrite (bool_decide_true (is_Some _)) by (by apply alter_is_Some).
  - by apply alter_is_Some, alter_is_Some.
Qed.

Lemma canvas_show_starts o : closed o ->
  let o1 := show numberToString element parent body bd prevents o in
  opening o1 /\ o_config o1 = o_config o /\ o_log o1 = o_log o ++ [EVENT_SHOW].
Proof.
  intros [Hp Hs Ha Ht Hq Hv]. unfold show. rewrite Hs, permitted. cbv zeta.
  set (o1 := showBackdrop parent bd _).
  assert (E : calm (o_page o) (o_page o1) /\ _isShown o1 = true /\ Backdrop._isAppended (_backdrop o1) = vis o /\
    _focustrap o1 = _focustrap o /\ o_queue o1 = [] /\ Backdrop.b_isVisible (_backdrop o1) = vis o /\ o_config o1 = o_config o /\
    o_log o1 = o_log o ++ [EVENT_SHOW]).
  { subst o1. unfold showBackdrop. cbn [_backdrop set_shown log_event o_page]. rewrite Hv.
    destruct (vis o) eqn:Ev; cbn; [|by rewrite Ha, Hv].
    destruct (calm_backdrop (_backdrop o) (o_page o)) as (C1 & _ & _ & A1 & _ & _ & V1 & _). rewrite A1, V1. done. }
  clearbody o1. destruct E as (C & E1 & E2 & E3 & E4 & E5 & E6 & E7).
  set (d2 := o_page (if negb (c_scroll (o_config o1)) then _ else o1)).
  assert (P2 : panelIs false false false None None d2).
  { eapply panelIs_calm; [|exact Hp]. etransitivity; [exact C|]. subst d2. destruct (c_scroll _); cbn; [done|apply calm_scrollBar]. }
  destruct (panel_dialog _ _ _ _ _ _ P2) as [P3 _]. apply (panel_class_add _ _ _ _ _ _ "showing") in P3. cbn in P3.
  split; [|split; destruct (c_scroll _); cbn; congruence].
  split; [|destruct (c_scroll _); cbn..]; try (unfold vis in *; cbn; rewrite ?E6; congruence); by rewrite E4.
Qed.

Lemma show_ends o : opening o ->
  let o1 := transitionDone parseJson numberToString element body bd 0 o in
  opened o1 /\ o_config o1 = o_config o /\ o_log o1 = o_log o ++ [EVENT_SHOWN].
Proof.
  intros [Hp Hs Ha Ht Hq Hv]. unfold transitionDone. rewrite Hq. cbn [lookup list_lookup delete list_delete runCallback].
  unfold showCompleteCallBack. cbn [o_config set_queue]. fold (vis o). fold (trapped o).
  set (o1 := if trapped o then _ else _).
  assert (E : o_page o1 = o_page o /\ _isShown o1 = true /\ _backdrop o1 = _backdrop o /\
    FocusTrap._isActive (_focustrap o1) = trapped o /\ o_queue o1 = [] /\ o_config o1 = o_config o /\ o_log o1 = o_log o).
  { subst o1. destruct (trapped o) eqn:Et; cbn; [|done]. unfold FocusTrap.activate. by rewrite Ht. }
  clearbody o1. destruct E as (E1 & E2 & E3 & E4 & E5 & E6 & E7). rewrite E1.
  apply (panel_class_add _ _ _ _ _ _ "show") in Hp. cbn in Hp. apply (panel_class_remove _ _ _ _ _ _ ["showing"]) in Hp. cbn in Hp.
  split; [|split; cbn; congruence]. unfold opened. unfold trapped, vis in *.
  split; cbn; rewrite ?E3, ?E6; try done. unfold vis. cbn. by rewrite E6.
Qed.

Lemma canvas_hide_starts o : opened o ->
  let o1 := hide element bd prevents o in
  closing o1 /\ o_config o1 = o_config o /\ o_log o1 = o_log o ++ [EVENT_HIDE].
Proof.
  intros [Hp Hs Ha Ht Hq Hv]. unfold hide. rewrite Hs, permitted. cbn [negb]. cbv zeta.
  set (o1 := blur element _).
  assert (E : o_page o1 = o_page o /\ _backdrop o1 = _backdrop o /\ FocusTrap._isActive (_focustrap o1) = false /\
    o_queue o1 = [] /\ o_config o1 = o_config o /\ o_log o1 = o_log o ++ [EVENT_HIDE]).
  { subst o1. assert (N : FocusTrap._isActive (FocusTrap.deactivate (_focustrap o)) = false)
      by (unfold FocusTrap.deactivate; destruct (FocusTrap._isActive (_focustrap o)) eqn:E; cbn; done).
    unfold blur. cbn. case_decide; cbn; rewrite ?Hq; done. }
  clearbody o1. destruct E as (E1 & E2 & E3 & E4 & E5 & E6). rewrite E1.
  apply (panel_class_add _ _ _ _ _ _ "hiding") in Hp. cbn in Hp. unfold hideBackdrop. cbn [_backdrop set_page set_shown o_page].
  rewrite E2, Hv. destruct (calm_backdrop (_backdrop o) (classList_add element ["hiding"] (o_page o))) as (_ & C2 & _ & _ & A2 & _ & _ & V2 & _).
  assert (V : vis o = Modal.isVisibleOption (c_backdrop (o_config o))) by done.
  destruct (vis o) eqn:Ev; cbn; (split; [|split; cbn; congruence]); unfold closing; unfold vis in *; split; cbn;
    rewrite ?E2, ?E4, ?E5, <- ?V, ?A2, ?V2, ?Ha, ?Hv, <- ?V; try done.
  - by eapply panelIs_calm.
  - unfold vis. cbn. by rewrite E5.
  - unfold vis. cbn. by rewrite E5.
Qed.

(** The two callbacks, in whichever order they come. *)
Lemma hide_ends o k : closing o -> k <= 1 ->
  let o1 := transitionDone parseJson numberToString element body bd k o in
  let o2 := if vis o then transitionDone parseJson numberToString element body bd 0 o1
            else transitionDone parseJson numberToString element body bd 0 o in
  closed o2 /\ o_config o2 = o_config o /\ o_log o2 = o_log o ++ [EVENT_HIDDEN].
Proof.
  intros [Hp Hs Ha Ht Hq Hv] Hk. cbv zeta.
  assert (Hc : forall d, panelIs true false true (Some "true") (Some "dialog") d ->
    let d' := removeAttribute element "role" (removeAttribute element "aria-modal" (classList_remove element ["show"; "hiding"] d)) in
    panelIs false false false None None (if negb (c_scroll (o_config o)) then ScrollBar.reset parseJson numberToString body d' else d')).
  { intros d P. apply (panel_class_remove _ _ _ _ _ _ ["show"; "hiding"]) in P. cbn in P.
    apply (panel_dialog _ _ _ _ _ _) in P as [_ P]. destruct (negb _); [|done]. eapply panelIs_calm; [apply calm_scrollBar|done]. }
  assert (V : vis o = Modal.isVisibleOption (c_backdrop (o_config o))) by done.
  destruct (vis o) eqn:Ev; cbn [app] in Hq.
  - destruct k as [|[|k]]; [..|lia]; unfold transitionDone; rewrite Hq; cbn [lookup list_lookup delete list_delete runCallback].
    + destruct (calm_backdrop (_backdrop o) (o_page o)) as (_ & _ & C3 & _ & _ & A3 & _ & _ & V3).
      cbn. split; [|done]. split; cbn; rewrite ?Ht, ?A3, ?V3; try done; [|unfold vis in *; cbn; congruence].
      apply Hc. by eapply panelIs_calm.
    + cbn. split; [|done]. pose proof (Hc _ Hp) as P. cbv zeta in P.
      match goal with |- context [Backdrop.dispose bd (_backdrop o) ?d] =>
        destruct (calm_backdrop (_backdrop o) d) as (_ & _ & C3 & _ & _ & A3 & _ & _ & V3) end.
      split; cbn; rewrite ?Ht, ?A3, ?V3; try done; [|unfold vis in *; cbn; congruence]. by eapply panelIs_calm.
  - unfold transitionDone. rewrite Hq. cbn. split; [|done]. split; cbn; rewrite ?Ht, ?Ha, ?Hv; try done. by apply Hc.
Qed.
End cycle.
End Offcanvas.


(** A page with a panel that has slid out. *)
Definition canvasPage : gmap nat node :=
  list_to_map [(0, Node "BODY" [] [] [] None [1; 2] None); (1, Node "DIV" ["fixed-top"] [] [] (Some 0) [] None);
    (2, Node "DIV" ["offcanvas"] [] [] (Some 0) [] None)].
Definition canvas0 : Offcanvas.offcanvas := Offcanvas.new Offcanvas.Default canvasPage.


(** A panel that is shown again while it slides out is accepted as shown, but the callbacks of the
    earlier [hide] still come: the panel ends up open without its backdrop and without the
    attributes of a dialog. *)
Theorem offcanvas_reopened_without_backdrop :
  let show := @Offcanvas.show barBrowser barLayout printWhole 2 0 0 9 (fun _ _ => false) in
  let hide := Offcanvas.hide 2 9 (fun _ _ => false) in
  let transitionDone := @Offcanvas.transitionDone barBrowser (fun _ => None) printWhole 2 0 9 0 in
  let o := transitionDone (transitionDone (transitionDone (show (hide (transitionDone (show canvas0)))))) in
  Offcanvas._isShown o = true /\ Offcanvas.o_queue o = [] /\ hasClass (Offcanvas.o_page o) 2 "show" = true /\
  Backdrop._isAppended (Offcanvas._backdrop o) = false /\ containsNode (Offcanvas.o_page o) 0 9 = false /\
  getAttribute (Offcanvas.o_page o) 2 "aria-modal" = None /\ getAttribute (Offcanvas.o_page o) 2 "role" = None.
Proof. vm_compute. repeat split. Qed.
