(* ===== verification/BsOffcanvasPage.v ===== *)
(** Off-canvas panels on one page: the handlers of the data API, which open, close and load panels and
    close those that the layout has put back into the page. *)
From Stdlib Require Import Ascii QArith Lia.
From S2P Require Import Prelude BsCore BsDom BsConfig BsScrollBar BsModal BsTree BsStage BsModalPage BsOffcanvas.

Local Open Scope nat_scope.

Module OffcanvasPage.
Import Offcanvas.

Definition NAME : string := "offcanvas".
Definition OPEN_SELECTOR : string := ".offcanvas.show".
Definition SELECTOR_OFFCANVAS : string := ".offcanvas".
Definition SELECTOR_RESPONSIVE : string := "[aria-modal][class*=show][class*=offcanvas-]".

Definition Default : obj value := [("backdrop", VBool true); ("keyboard", VBool true); ("scroll", VBool false)].
Definition DefaultType : obj string := [("backdrop", "(boolean|string)"); ("keyboard", "boolean"); ("scroll", "boolean")].

(** A panel with the parent that it had when it was constructed and the element that its backdrop creates. *)
Record instance := Instance { i_bd : nat; i_parent : nat; i_panel : offcanvas }.

Definition enterPanel (d : gmap nat node) (f : option nat) (o : offcanvas) : offcanvas :=
  set_trap (FocusTrap.State (FocusTrap._isActive (_focustrap o)) (FocusTrap._lastTabNavDirection (_focustrap o)) f) (set_page d o).

#[global] Instance panel_overlay : Overlay instance := {
  pageOf i := o_page (i_panel i);
  trapOf i := _focustrap (i_panel i);
  logOf i := o_log (i_panel i);
  enter d f i := Instance (i_bd i) (i_parent i) (enterPanel d f (i_panel i));
  showEvent := EVENT_SHOW;
  hiddenEvent := EVENT_HIDDEN
}.

#[global] Instance panel_lawful : LawfulOverlay instance.
Proof. by split. Qed.

#[global] Instance panel_resident : Resident instance.
Proof. by refine {| bdOf := i_bd; backdropOf i := _backdrop (i_panel i) |}. Defined.

Section panels.
Context `{B : Browser} `{L : ScrollBar.Layout}.
Variable parseJson : string -> option value.
Variable numberToString : Q -> string.
Variables root body : nat.
Variable positionOf : gmap nat node -> nat -> string.        (** the computed [position] *)
Variable prevents : nat -> list string -> string -> bool.
Implicit Types (s : stage instance) (e x : nat).

Definition readConfig (o : obj value) : config :=
  let get k := default VUndefined (oget k o) in
  Config (ModalPage.readBackdrop (get "backdrop")) (value_truthy (get "keyboard")) (value_truthy (get "scroll")).

(** A panel without a parent has no place for its backdrop, whose own configuration is then refused. What is left of such
    an instance is not modelled. *)
Definition construct e s : outcome (stage instance) :=
  match getConfig parseJson NAME Default DefaultType (fun o => o) VUndefined (st_page s) (Some e) with
  | Err x => (s, Some x)
  | Ok o =>
      match st_page s !! e ≫= n_parent with
      | None => (s, match typeCheckConfig "backdrop" [("rootElement", VNull)] [("rootElement", "(element|string)")] with Err x => Some x | Ok _ => None end)
      | Some p => (set_instances (<[e := Instance (unclaimed s) p (new (readConfig o) (st_page s))]> (st_instances s)) s, None)
      end
  end.

Definition getOrCreateInstance e s : outcome (stage instance) :=
  match st_instances s !! e with Some _ => (s, None) | None => construct e s end.

(** A method of the panel at [e]; it is given its parent and the element of its backdrop. *)
Definition onPanel e (f : nat -> nat -> offcanvas -> offcanvas) s : stage instance :=
  on prevents e (fun i => Instance (i_bd i) (i_parent i) (f (i_parent i) (i_bd i) (i_panel i))) s.

Definition showAt e s : stage instance := onPanel e (fun p bd => show numberToString e p body bd (prevents e)) s.
Definition hideAt e s : stage instance := onPanel e (fun _ bd => hide e bd (prevents e)) s.
Definition toggleAt e s : stage instance := onPanel e (fun p bd => toggle numberToString e p body bd (prevents e)) s.

Definition disposeAt e s : stage instance :=
  match st_instances s !! e with
  | None => s
  | Some _ => let s := onPanel e (fun _ => dispose) s in set_instances (delete e (st_instances s)) s
  end.

(** A click on an element that opens and closes panels. *)
Definition clickToggle trigger s : outcome (stage instance) :=
  let target := getElementFromSelector root (st_page s) trigger in
  if isDisabled (st_page s) (Some trigger) then (s, None)
  else
    let s := match target with Some t => set_restore (st_restore s ++ [AwaitHidden t trigger]) s | None => s end in
    let closed :=
      match findOne (st_page s) OPEN_SELECTOR root with
      | None => (s, None)
      | Some a =>
          if decide (Some a <> target)
          then match st_instances s !! a with Some _ => (hideAt a s, None) | None => (s, Some (TypeError "hide")) end
          else (s, None)
      end in
    andThen closed (fun s =>
      match target with
      | None => (s, Some (TypeError "backdrop"))
      | Some t => andThen (getOrCreateInstance t s) (fun s => (toggleAt t s, None))
      end).

(** A click on an element that dismisses the panel it names or is in. *)
Definition clickDismiss x s : outcome (stage instance) :=
  if isDisabled (st_page s) (Some x) then (s, None)
  else
    match match getElementFromSelector root (st_page s) x with Some t => Some t | None => closest (st_page s) x SELECTOR_OFFCANVAS end with
    | None => (s, Some (TypeError "backdrop"))
    | Some t => andThen (getOrCreateInstance t s) (fun s => (hideAt t s, None))
    end.

(** [load]: the panels that the markup marks as open are shown. *)
Definition load s : outcome (stage instance) :=
  fold_left (fun r e => andThen r (fun s => andThen (getOrCreateInstance e s) (fun s => (showAt e s, None))))
    (find (st_page s) OPEN_SELECTOR root) (s, None).

(** [resize]: the open panels that are part of the page's layout now are hidden. *)
Definition resize s : outcome (stage instance) :=
  fold_left (fun r e => andThen r (fun s =>
      if negb (str_eqb (positionOf (st_page s) e) "fixed")
      then andThen (getOrCreateInstance e s) (fun s => (hideAt e s, None)) else (s, None)))
    (find (st_page s) SELECTOR_RESPONSIVE root) (s, None).

Definition pressTab (shiftKey : bool) s : stage instance :=
  match st_trap s with
  | None => s
  | Some e => onPanel e (fun _ _ o => set_trap (FocusTrap._handleKeydown "Tab" shiftKey (_focustrap o)) o) s
  end.

Inductive op :=
  | ClickToggle (trigger : nat) | ClickDismiss (x : nat) | Load | Resize
  | Show (e : nat) | Hide (e : nat) | Dispose (e : nat)
  | Keydown (e : nat) (key : string) | ClickBackdrop (e : nat)
  | PressTab (shiftKey : bool) | FocusMoves (x : nat)
  | TransitionDone (e k : nat).

Definition step (o : op) s : outcome (stage instance) :=
  match o with
  | ClickToggle trigger => clickToggle trigger s
  | ClickDismiss x => clickDismiss x s
  | Load => load s
  | Resize => resize s
  | Show e => (showAt e s, None)
  | Hide e => (hideAt e s, None)
  | Dispose e => (disposeAt e s, None)
  | Keydown e key => (onPanel e (fun _ bd => onKeydown e bd (prevents e) key) s, None)
  | ClickBackdrop e =>
      (onPanel e (fun _ bd o => if Backdrop._isAppended (_backdrop o) then clickBackdrop e bd (prevents e) o else o) s, None)
  | PressTab shiftKey => (pressTab shiftKey s, None)
  | FocusMoves x => (moveFocus x s, None)
  | TransitionDone e k => (onPanel e (fun _ bd => transitionDone parseJson numberToString e body bd k) s, None)
  end.

Definition run (ops : list op) s : stage instance := fold_left (fun s o => fst (step o s)) ops s.
End panels.

(** ** The tree of the page *)

Section tree.
Context `{B : Browser} `{L : ScrollBar.Layout}.
Variable parseJson : string -> option value.
Variable numberToString : Q -> string.
Variables root body : nat.
Variable positionOf : gmap nat node -> nat -> string.
Variable prevents : nat -> list string -> string -> bool.
Implicit Types (s : stage instance) (o : offcanvas) (e p bd x : nat) (d : gmap nat node).

(** A panel needs its element and the parent that its backdrop goes to. *)
Definition anchors e (i : instance) : list nat := [e; i_parent i].
Definition fits (e : nat) : Prop := True.
Definition own e p bd : list nat := [bd; e; p].

Definition advances e p bd o o' : Prop := evolves anchors fits e (Instance bd p o) (Instance bd p o').

#[local] Instance panel_preorder e p bd : PreOrder (advances e p bd).
Proof. split; [intros o|intros a b c]; unfold advances; [done|intros H1 H2; by transitivity (Instance bd p b)]. Qed.

Lemma panel_edit e p bd o o' : _backdrop o' = _backdrop o -> edited (own e p bd) None (o_page o) (o_page o') -> advances e p bd o o'.
Proof. intros Hb E. by apply evolves_edit. Qed.

Lemma panel_frame e p bd o o' : _backdrop o' = _backdrop o -> o_page o' = o_page o -> advances e p bd o o'.
Proof. intros H1 H2. by apply evolves_frame. Qed.

Lemma panel_backdrop e p bd o o' : o_page o' = o_page o -> _backdrop o' = _backdrop o ->
  advances e p bd o (set_backdrop (Backdrop.show CLASS_NAME_BACKDROP p bd (_backdrop o) (o_page o)) o') /\
  advances e p bd o (set_backdrop (Backdrop.hide CLASS_NAME_BACKDROP bd (_backdrop o) (o_page o)) o') /\
  advances e p bd o (set_backdrop (Backdrop.dispose bd (_backdrop o) (o_page o)) o').
Proof.
  intros Hp Hb. split_and!; (apply (evolves_backdrop anchors fits CLASS_NAME_BACKDROP p);
    [unfold anchors; rewrite !elem_of_cons; tauto|done..|]); cbn; rewrite <- surjective_pairing; tauto.
Qed.

#[local] Ltac frame := apply panel_frame; reflexivity.
#[local] Ltac mine := unfold own; rewrite !elem_of_cons; tauto.

Lemma panel_advances_showBackdrop e p bd o : advances e p bd o (showBackdrop p bd o).
Proof. unfold showBackdrop. destruct (negb _); [done|]. by apply panel_backdrop. Qed.

Lemma panel_advances_show e p bd o : advances e p bd o (show numberToString e p body bd (prevents e) o).
Proof.
  unfold show. destruct (_isShown o); [done|]. destruct (prevents _ _ _); [frame|].
  set (o1 := set_shown true (log_event EVENT_SHOW o)). transitivity o1; [frame|].
  set (o2 := showBackdrop p bd o1). transitivity o2; [apply panel_advances_showBackdrop|].
  apply panel_edit; [by destruct (negb _)|]. cbn.
  etransitivity; [|apply edited_add; mine]. etransitivity; [|apply edited_setAttribute].
  etransitivity; [|apply edited_setAttribute]. destruct (negb _); cbn; [apply edited_barHide|done].
Qed.

Lemma panel_advances_showComplete e p bd o : advances e p bd o (showCompleteCallBack e o).
Proof.
  unfold showCompleteCallBack. apply panel_edit; [by destruct (_ || _)|]. cbn.
  etransitivity; [|apply edited_removeClass; mine]. etransitivity; [|apply edited_add; mine]. by destruct (_ || _).
Qed.

Lemma panel_advances_hide e p bd o : advances e p bd o (hide e bd (prevents e) o).
Proof.
  unfold hide. destruct (negb (_isShown o)); [done|]. destruct (prevents _ _ _); [frame|].
  set (o1 := blur e _). assert (E1 : advances e p bd o o1) by (subst o1; unfold blur; destruct (decide _); frame).
  transitivity o1; [done|]. set (o2 := set_page _ _). assert (E2 : advances e p bd o1 o2).
  { apply panel_edit; [done|]. apply edited_add. mine. }
  transitivity o2; [done|]. transitivity (hideBackdrop bd o2); [|frame]. unfold hideBackdrop. destruct (negb _); [done|].
  set (o3 := set_backdrop _ o2). assert (E3 : advances e p bd o2 o3) by (by apply panel_backdrop). transitivity o3; [done|frame].
Qed.

Lemma panel_advances_hideComplete e p bd o : advances e p bd o (hideCompleteCallback parseJson numberToString e body o).
Proof.
  unfold hideCompleteCallback. apply panel_edit; [done|]. cbn. set (d := removeAttribute _ _ _).
  assert (E : edited (own e p bd) None (o_page o) d).
  { subst d. do 2 (etransitivity; [|apply edited_removeAttribute]). apply edited_removeClass. mine. }
  destruct (negb _); [|done]. etransitivity; [exact E|apply edited_barReset].
Qed.

Lemma panel_advances_toggle e p bd o : advances e p bd o (toggle numberToString e p body bd (prevents e) o).
Proof. unfold toggle. destruct (_isShown o); [apply panel_advances_hide|apply panel_advances_show]. Qed.

Lemma panel_advances_transition e p bd k o : advances e p bd o (transitionDone parseJson numberToString e body bd k o).
Proof.
  unfold transitionDone. destruct (_ !! k) as [cb|]; [|done]. set (o1 := set_queue _ o). transitivity o1; [frame|].
  destruct cb; cbn [runCallback]; [apply panel_advances_showComplete|apply panel_advances_hideComplete|by apply panel_backdrop].
Qed.

Lemma panel_advances_dispose e p bd o : advances e p bd o (dispose bd o).
Proof. exact (proj2 (proj2 (panel_backdrop e p bd o (set_trap (FocusTrap.deactivate (_focustrap o)) o) eq_refl eq_refl))). Qed.

(** *** Any number of panels *)

Variable d0 : gmap nat node.

Abbreviation inv := (residents anchors fits d0).

Lemma panels_on e f s : (forall p bd o, advances e p bd o (f p bd o)) -> inv s -> inv (onPanel prevents e f s).
Proof. intros F. apply residents_on; [done|]. intros [bd p o]. apply F. Qed.

Lemma panels_construct e s : is_Some (st_page s !! e) -> inv s -> inv (construct parseJson e s).1.
Proof.
  intros He I. unfold construct. destruct (getConfig _ _ _ _ _ _ _ _) as [o|]; [|done].
  destruct (st_page s !! e ≫= n_parent) as [p|] eqn:Hp; [|done]. cbn. apply residents_insert; try done.
  unfold anchors. cbn. intros x. rewrite !elem_of_cons, elem_of_nil. intros [->|[->|[]]]; [done|].
  destruct (st_page s !! e) as [n|] eqn:Hn; [|done]. destruct (proj1 (proj1 (v_stage _ _ _ _ I)) e n Hn) as [_ _ W].
  destruct (W p Hp) as (m & Hm & _). by exists m.
Qed.

(** Nothing is lost from the page. *)
Definition grows s s' : Prop := forall x, is_Some (st_page s !! x) -> is_Some (st_page s' !! x).

Lemma panels_create_then e (f : nat -> nat -> offcanvas -> offcanvas) s : (forall p bd o, advances e p bd o (f p bd o)) ->
  is_Some (st_page s !! e) -> inv s ->
  let r := andThen (getOrCreateInstance parseJson e s) (fun s => (onPanel prevents e f s, None)) in inv r.1 /\ grows s r.1.
Proof.
  intros F He I. cbv zeta.
  assert (H : inv (getOrCreateInstance parseJson e s).1 /\ st_page (getOrCreateInstance parseJson e s).1 = st_page s).
  { unfold getOrCreateInstance. destruct (st_instances s !! e); [done|]. split; [by apply panels_construct|].
    unfold construct. destruct (getConfig _ _ _ _ _ _ _ _); [|done]. by destruct (_ ≫= _). }
  destruct (getOrCreateInstance parseJson e s) as [s1 [x|]]; cbn [andThen fst] in *; destruct H as [I1 E1].
  - split; [done|]. unfold grows. by rewrite E1.
  - split; [by apply panels_on|]. intros x. rewrite <- E1. apply (residents_keep prevents anchors fits ltac:(done) d0); [|done].
    intros [bd p o]. apply F.
Qed.

Lemma panel_target_on_page s x t : inv s -> getElementFromSelector root (st_page s) x = Some t -> is_Some (st_page s !! t).
Proof.
  intros I H. unfold getElementFromSelector in H. destruct (getSelector _ _); [|done]. eapply findOne_on_page; [apply I|exact H].
Qed.

Lemma panels_clickToggle x s : inv s -> inv (clickToggle parseJson numberToString root body prevents x s).1.
Proof.
  intros I. unfold clickToggle. destruct (isDisabled _ _); [done|].
  set (target := getElementFromSelector root (st_page s) x). set (s1 := match target with Some t => _ | None => _ end).
  assert (I1 : inv s1) by (subst s1; destruct target; [by apply (residents_frame anchors fits d0 s)|done]).
  assert (T1 : forall t, target = Some t -> is_Some (st_page s1 !! t)).
  { intros t Ht. pose proof (panel_target_on_page s x t I Ht). subst s1. by destruct target. }
  clearbody s1. set (closed := match findOne _ _ _ with Some a => _ | None => _ end).
  assert (H : inv closed.1 /\ grows s1 closed.1).
  { subst closed. unfold grows. destruct (findOne _ _ _) as [a|]; [|done]. case_decide; [|done]. destruct (_ !! a); [|done]. unfold hideAt. split.
    - apply panels_on; [|done]. intros. apply panel_advances_hide.
    - intros y. apply (residents_keep prevents anchors fits ltac:(done) d0); [|done]. intros [bd p o]. apply panel_advances_hide. }
  destruct H as [I2 G2]. destruct closed as [s2 [y|]]; cbn [andThen fst] in *; [done|]. destruct target as [t|]; [|done].
  apply panels_create_then; [intros; apply panel_advances_toggle|by apply G2, T1|done].
Qed.

Lemma panels_clickDismiss x s : is_Some (d0 !! x) -> inv s -> inv (clickDismiss parseJson root prevents x s).1.
Proof.
  intros Hx I. unfold clickDismiss. destruct (isDisabled _ _); [done|].
  assert (Hx' : is_Some (st_page s !! x)) by (by apply I).
  assert (G : forall t, is_Some (st_page s !! t) -> inv (andThen (getOrCreateInstance parseJson t s) (fun s => (hideAt prevents t s, None))).1).
  { intros t Ht. apply panels_create_then; [intros; apply panel_advances_hide|done..]. }
  destruct (getElementFromSelector root (st_page s) x) as [t|] eqn:Ht; [apply G; by apply (panel_target_on_page s x)|].
  destruct (closest (st_page s) x SELECTOR_OFFCANVAS) as [t|] eqn:Hc; [|done].
  apply G. by apply (closest_on_page _ _ _ _ (proj1 (proj1 (v_stage _ _ _ _ I))) Hx' Hc).
Qed.

Lemma found_on_page sel s : inv s -> forall x, x ∈ find (st_page s) sel root -> is_Some (st_page s !! x).
Proof.
  intros I x Hx%list_elem_of_In. unfold find in Hx. apply filter_In in Hx as [Hx _].
  eapply descendants_on_page; [apply I|by apply list_elem_of_In].
Qed.

(** What a person clicks on is on the page. *)
Definition opOk (o : op) : Prop := match o with ClickDismiss x => is_Some (d0 !! x) | _ => True end.

Lemma panels_step (o : op) s : opOk o -> inv s -> inv (step parseJson numberToString root body positionOf prevents o s).1.
Proof.
  intros Ho I. destruct o as [x|x| | |e|e|e|e key|e|shift|x|e k]; cbn [step fst].
  - by apply panels_clickToggle.
  - by apply panels_clickDismiss.
  - apply residents_each; [|done|by apply found_on_page]. intros e s' I' He.
    apply panels_create_then; [intros; apply panel_advances_show|done..].
  - apply residents_each; [|done|by apply found_on_page]. intros e s' I' He. destruct (negb _); [|done].
    apply panels_create_then; [intros; apply panel_advances_hide|done..].
  - apply panels_on; [intros; apply panel_advances_show|done].
  - apply panels_on; [intros; apply panel_advances_hide|done].
  - unfold disposeAt. destruct (st_instances s !! e); [|done]. apply residents_delete.
    apply panels_on; [intros; apply panel_advances_dispose|done].
  - apply panels_on; [|done]. intros p bd o. unfold onKeydown. destruct (negb _); [done|].
    destruct (c_keyboard _); [apply panel_advances_hide|by apply panel_frame].
  - apply panels_on; [|done]. intros p bd o. destruct (Backdrop._isAppended _); [|done]. unfold clickBackdrop.
    destruct (c_backdrop _); [done|apply panel_advances_hide|by apply panel_frame].
  - unfold pressTab. destruct (st_trap s); [|done]. apply panels_on; [|done]. intros p bd o. by apply panel_frame.
  - destruct (moveFocus_same x s) as (E1 & E2 & _). by apply (residents_frame anchors fits d0 s).
  - apply panels_on; [|done]. intros p bd o. apply panel_advances_transition.
Qed.

Lemma panels_run ops s : Forall opOk ops -> inv s -> inv (run parseJson numberToString root body positionOf prevents ops s).
Proof. intros F. revert s. induction F as [|o ops Ho F IH]; intros s I; cbn; [done|]. by apply IH, panels_step. Qed.
End tree.
End OffcanvasPage.

(** Whatever happens on a page without off-canvas instances at first — clicks on elements that open and dismiss
    panels, the load and the resizing of the window, method calls, keys, clicks on backdrops, focus moves and transitions, in any order
    — its tree stays well-formed and keeps all of its elements; every panel and the parent of its backdrop are on the
    page; the element of a backdrop is there exactly when that backdrop has made it, and no two panels share one. *)
Theorem panel_pages_well_formed `{B : Browser} `{L : ScrollBar.Layout} (parseJson : string -> option value)
    (numberToString : Q -> string) (root body : nat) (positionOf : gmap nat node -> nat -> string)
    (prevents : nat -> list string -> string -> bool) (d : gmap nat node) (ops : list OffcanvasPage.op) :
  wfTree d -> Forall (OffcanvasPage.opOk d) ops ->
  let s := OffcanvasPage.run parseJson numberToString root body positionOf prevents ops (emptyStage d) in
  wfTree (st_page s) /\ (forall x, is_Some (d !! x) -> is_Some (st_page s !! x)) /\
  (forall e i, st_instances s !! e = Some i -> placed OffcanvasPage.anchors OffcanvasPage.fits e (st_page s) i) /\
  (forall e i e' i', st_instances s !! e = Some i -> st_instances s !! e' = Some i' ->
     OffcanvasPage.i_bd i = OffcanvasPage.i_bd i' -> e = e').
Proof.
  intros W Hops s.
  destruct (OffcanvasPage.panels_run parseJson numberToString root body positionOf prevents d ops (emptyStage d) Hops) as [[[H1 H2] H3] H4].
  - by apply residents_start.
  - done.
Qed.

(** A page with two panels and an opener for each. *)
Definition panelsPage : gmap nat node :=
  list_to_map [(0, Node "BODY" [] [] [] None [1; 2; 3; 4] None);
    (1, Node "DIV" ["offcanvas"] [] [] (Some 0) [] None); (2, Node "DIV" ["offcanvas"] [] [] (Some 0) [] None);
    (3, Node "BUTTON" [] (opensDialog "#one") [] (Some 0) [] None); (4, Node "BUTTON" [] (opensDialog "#two") [] (Some 0) [] None)].

Definition panelsBrowser : Browser :=
  Build_Browser (fun d x sel =>
      if str_eqb sel "#one" then x =? 1 else if str_eqb sel "#two" then x =? 2
      else if str_eqb sel ".offcanvas.show" then hasClass d x "offcanvas" && hasClass d x "show"
      else if str_eqb sel OffcanvasPage.SELECTOR_RESPONSIVE then
        match getAttribute d x "aria-modal" with Some _ => hasClass d x "show" | None => false end
      else false)
    (fun _ _ => 1) (fun _ _ => "visible") None.

(** The window is wide: the first panel is part of the layout. *)
Definition panelsRun (ops : list OffcanvasPage.op) : stage OffcanvasPage.instance :=
  @OffcanvasPage.run panelsBrowser barLayout (fun _ => None) printWhole 0 0 (fun _ e => if e =? 1 then "static" else "fixed")
    (fun _ _ _ => false) ops (emptyStage panelsPage).

Definition panelsOps : list OffcanvasPage.op :=
  [OffcanvasPage.Load; OffcanvasPage.ClickToggle 3; OffcanvasPage.TransitionDone 1 0; OffcanvasPage.Resize;
   OffcanvasPage.TransitionDone 1 0; OffcanvasPage.TransitionDone 1 0; OffcanvasPage.ClickToggle 4].

Lemma panel_pages_well_formed_witness : wfTree (st_page (panelsRun panelsOps)) /\ size (st_instances (panelsRun panelsOps)) = 2.
Proof.
  split; [|vm_compute; reflexivity].
  apply (@panel_pages_well_formed panelsBrowser barLayout (fun _ => None) printWhole 0 0 (fun _ e => if e =? 1 then "static" else "fixed")
    (fun _ _ _ => false) panelsPage panelsOps).
  - apply wfTreeb_sound. vm_compute. reflexivity.
  - repeat constructor.
Defined.

(** Two openers clicked one after the other: the first panel is still sliding in, does not have the class "show" yet and is
    not found. Both panels end up open. *)
Theorem panels_open_together :
  let s := panelsRun [OffcanvasPage.ClickToggle 3; OffcanvasPage.ClickToggle 4;
    OffcanvasPage.TransitionDone 1 0; OffcanvasPage.TransitionDone 2 0] in
  map (fun e => (Offcanvas._isShown ∘ OffcanvasPage.i_panel) <$> st_instances s !! e) [1; 2] = [Some true; Some true] /\
  map (fun e => (Offcanvas.o_queue ∘ OffcanvasPage.i_panel) <$> st_instances s !! e) [1; 2] = [Some []; Some []] /\
  map (fun e => hasClass (st_page s) e "show") [1; 2] = [true; true].
Proof. vm_compute. repeat split. Qed.
