(* ===== verification/BsOffcanvasFlow.v ===== *)
(** Off-canvas panels as a person uses them: whoever waits for a panel to finish sliding before the next click finds
    at most one panel open. *)
From Stdlib Require Import Ascii QArith Lia.
From stdpp Require Import relations.
From S2P Require Import Prelude BsCore BsDom BsConfig BsScrollBar BsModal BsTree BsStage BsModalPage BsOffcanvas BsOffcanvasPage.

Local Open Scope nat_scope.

Module OffcanvasFlow.
Import Offcanvas OffcanvasPage.

(** ** Reaching an element from the root *)

Definition parentOf (d : gmap nat node) (x : nat) : option nat := d !! x ≫= n_parent.
Fixpoint up (d : gmap nat node) (k x : nat) : option nat :=
  match k with O => Some x | S k => up d k x ≫= parentOf d end.

Lemma descends d fuel root x : wfTree d -> x ∈ descendants fuel d root <-> exists k, 1 <= k <= fuel /\ up d k x = Some root.
Proof.
  intros W. revert root. induction fuel as [|fuel IH]; intros root; cbn [descendants].
  { split; [by intros ?%elem_of_nil|]. intros (k & ? & _). lia. }
  split.
  - destruct (d !! root) as [n|] eqn:Hr; [|by intros ?%elem_of_nil]. rewrite list_elem_of_In, in_flat_map.
    intros (y & Hy%list_elem_of_In & Hx). pose proof (wf_children _ _ _ (W root n Hr) y Hy) as P. destruct Hx as [->|Hx].
    + exists 1. split; [lia|]. done.
    + apply list_elem_of_In, IH in Hx as (k & Hk & E). exists (S k). split; [lia|]. cbn. by rewrite E.
  - intros (k & Hk & E). destruct k as [|k]; [lia|]. cbn in E.
    destruct (up d k x) as [y|] eqn:Ey; [|done]. cbn in E. unfold parentOf in E. destruct (d !! y) as [m|] eqn:Hy; [|done]. cbn in E.
    destruct (wf_parent _ _ _ (W y m Hy) root E) as (n & Hr & Hin). rewrite Hr, list_elem_of_In, in_flat_map.
    exists y. split; [by apply list_elem_of_In|]. destruct k as [|k]; [left; by injection Ey|].
    right. apply list_elem_of_In, IH. exists (S k). split; [lia|done].
Qed.

(** Where the elements of a page keep their parents, they are still reached. *)
Lemma descends_still d d' root x : wfTree d -> wfTree d' -> is_Some (d !! x) ->
  (forall y, is_Some (d !! y) -> is_Some (d' !! y) /\ parentOf d' y = parentOf d y) ->
  x ∈ descendants (size d) d root -> x ∈ descendants (size d') d' root.
Proof.
  intros W W' Hx K. rewrite !descends by done. intros (k & Hk & E). exists k. split.
  { split; [lia|]. apply (Nat.le_trans _ (size d)); [lia|]. rewrite <- !size_dom. apply subseteq_size. intros y. rewrite !elem_of_dom. apply K. }
  assert (U : forall k, up d' k x = up d k x /\ forall y, up d k x = Some y -> is_Some (d !! y)).
  { clear k Hk E. induction k as [|k [IH1 IH2]]; [split; [done|]; by intros y [= <-]|]. cbn.
    rewrite IH1. destruct (up d k x) as [y|] eqn:Ey; [|done]. cbn. destruct (K y (IH2 y eq_refl)) as [_ Kp]. split; [done|].
    intros p Hp. unfold parentOf in Hp. destruct (d !! y) as [m|] eqn:Hy; [|done]. destruct (wf_parent _ _ _ (W y m Hy) p Hp) as (n & -> & _). done. }
  by rewrite (proj1 (U k)).
Qed.

(** ** What a method of one panel leaves alone *)

Definition ownClasses : list string := ["show"; "showing"; "hiding"].

Record touched (e bd : nat) (d d' : gmap nat node) : Prop := {
  to_there x : x <> bd -> (is_Some (d' !! x) <-> is_Some (d !! x)) /\ parentOf d' x = parentOf d x;
  to_class x k : x <> bd -> (x = e -> k ∉ ownClasses) -> hasClass d' x k = hasClass d x k;
  to_backdrop : hasClass d bd "offcanvas" = false -> hasClass d' bd "offcanvas" = false
}.

#[export] Instance touched_preorder e bd : PreOrder (touched e bd).
Proof.
  split; [done|]. intros a b c [A1 A2 A3] [B1 B2 B3]. split.
  - intros x Hx. destruct (A1 x Hx), (B1 x Hx). split; [tauto|congruence].
  - intros x k Hx Hk. by rewrite B2, A2.
  - auto.
Qed.

Section touched.
Context `{B : Browser} `{L : ScrollBar.Layout}.
Variable parseJson : string -> option value.
Variable numberToString : Q -> string.
Variables body e p bd : nat.
Implicit Types (d : gmap nat node) (o : offcanvas).

Lemma touched_alter f x d : keepsLinks f -> (forall n, n_classes (f n) = n_classes n) -> touched e bd d (alter f x d).
Proof.
  intros K C. split.
  - intros y _. split; [apply alter_is_Some|]. unfold parentOf. destruct (decide (y = x)) as [->|]; [|by rewrite lookup_alter_ne].
    rewrite lookup_alter_eq. destruct (d !! x); [|done]. cbn. apply K.
  - intros y k _ _. by apply Modal.class_alter.
  - by rewrite Modal.class_alter.
Qed.

(** Anything that is done without classes and links. *)
Lemma touched_edited d d' : edited [] None d d' -> touched e bd d d'.
Proof.
  induction 1 as [|d d1 d' E _ IH]; [done|]. etransitivity; [|exact IH].
  inversion E; subst; try by (exfalso; eapply not_elem_of_nil; eassumption). by apply touched_alter.
Qed.

(** Classes of the panel's own, of the panel or of its backdrop. *)
Lemma touched_owned f x d : x = e \/ x = bd -> keepsLinks f ->
  (forall y k, k ∉ ownClasses -> hasClass (alter f x d) y k = hasClass d y k) -> touched e bd d (alter f x d).
Proof.
  intros Hx K C. split.
  - intros y _. split; [apply alter_is_Some|]. unfold parentOf. destruct (decide (y = x)) as [->|]; [|by rewrite lookup_alter_ne].
    rewrite lookup_alter_eq. destruct (d !! x); [|done]. cbn. apply K.
  - intros y k Hy Hk. destruct (decide (y = x)) as [->|Hne]; [|unfold hasClass; by rewrite lookup_alter_ne].
    destruct Hx as [->| ->]; [|done]. by apply C, Hk.
  - rewrite C; [done|]. by apply (bool_decide_unpack _).
Qed.

Lemma keeps_fold (f : node -> string -> node) cs : (forall c, keepsLinks (fun n => f n c)) -> keepsLinks (fun n => fold_left f cs n).
Proof. intros K. induction cs as [|c cs IH]; intros n; cbn; [done|]. destruct (IH (f n c)) as [-> ->]. apply K. Qed.

Lemma touched_add x cs d : x = e \/ x = bd -> Forall (fun c => c ∈ ownClasses) cs -> touched e bd d (classList_add x cs d).
Proof.
  intros Hx Hcs. apply touched_owned; [done|apply keeps_fold; intros c n; unfold addClass; by destruct (in_strs _ _)|].
  intros y k Hk. change (hasClass (classList_add x cs d) y k = hasClass d y k). rewrite hasClass_add.
  replace (in_strs k cs) with false; [by rewrite andb_false_r, orb_false_r|]. symmetry. apply in_strs_false.
  intros Hin%list_elem_of_In. rewrite Forall_forall in Hcs. by apply Hk, Hcs.
Qed.

Lemma touched_remove x cs d : x = e \/ x = bd -> Forall (fun c => c ∈ ownClasses) cs -> touched e bd d (classList_remove x cs d).
Proof.
  intros Hx Hcs. apply touched_owned; [done|by apply keeps_fold|].
  intros y k Hk. change (hasClass (classList_remove x cs d) y k = hasClass d y k). rewrite hasClass_remove.
  replace (in_strs k cs) with false; [by rewrite andb_false_r, andb_true_r|]. symmetry. apply in_strs_false.
  intros Hin%list_elem_of_In. rewrite Forall_forall in Hcs. by apply Hk, Hcs.
Qed.

#[local] Ltac owned := (by (by left || by right)) || by repeat constructor.

(** The backdrop's element moves; the others stay. *)
Lemma touched_removeElement d : touched e bd d (removeElement bd d).
Proof.
  split; [|intros x k _ _; apply Modal.class_removeElement|by rewrite Modal.class_removeElement].
  intros x Hx. unfold parentOf. rewrite removeElement_lookup. destruct (d !! bd ≫= n_parent) as [q|]; [|done].
  destruct (d !! x) as [n|]; cbn; [|by split]. split; [split; by eexists|]. rewrite decide_False by done. by case_decide.
Qed.

Lemma touched_append d : touched e bd d (appendChild p bd d).
Proof.
  unfold appendChild. etransitivity; [apply touched_removeElement|]. generalize (removeElement bd d) as d1. intros d1. split.
  - intros x Hx. unfold parentOf. rewrite lookup_alter_ne by done. split; [apply alter_is_Some|].
    destruct (decide (x = p)) as [->|]; [|by rewrite lookup_alter_ne]. rewrite lookup_alter_eq. by destruct (d1 !! p).
  - intros x k _ _. by rewrite !Modal.class_alter.
  - by rewrite !Modal.class_alter.
Qed.

Lemma touched_getElement b d : touched e bd d (Backdrop._getElement CLASS_NAME_BACKDROP bd b d).2.
Proof.
  unfold Backdrop._getElement. destruct (Backdrop._element b); [done|]. cbn. split.
  - intros x Hx. unfold parentOf. by rewrite lookup_insert_ne.
  - intros x k Hx _. unfold hasClass. by rewrite lookup_insert_ne.
  - intros _. unfold hasClass. rewrite lookup_insert_eq. by destruct (Backdrop.b_isAnimated b).
Qed.

Lemma touched_backdrop b d :
  touched e bd d (Backdrop.show CLASS_NAME_BACKDROP p bd b d).2 /\ touched e bd d (Backdrop.hide CLASS_NAME_BACKDROP bd b d).2 /\
  touched e bd d (Backdrop.dispose bd b d).2.
Proof.
  split_and!.
  - unfold Backdrop.show. assert (A : touched e bd d (Backdrop._append CLASS_NAME_BACKDROP p bd b d).2).
    { unfold Backdrop._append. destruct (Backdrop._isAppended b); [done|]. pose proof (touched_getElement b d) as G.
      destruct (Backdrop._getElement _ _ _ _) as [b1 d1]. cbn in *. etransitivity; [exact G|apply touched_append]. }
    destruct (Backdrop._append _ _ _ _ _) as [b1 d1]. pose proof (touched_getElement b1 d1) as G.
    destruct (Backdrop._getElement _ _ _ _) as [b2 d2]. cbn in *. etransitivity; [exact A|]. etransitivity; [exact G|]. apply touched_add; owned.
  - unfold Backdrop.hide. pose proof (touched_getElement b d) as G. destruct (Backdrop._getElement _ _ _ _) as [b2 d2]. cbn in *.
    etransitivity; [exact G|]. apply touched_remove; owned.
  - unfold Backdrop.dispose. destruct (negb _); [done|]. apply touched_removeElement.
Qed.

Lemma touched_bar d : touched e bd d (ScrollBar.hide numberToString body d) /\ touched e bd d (ScrollBar.reset parseJson numberToString body d).
Proof. split; apply touched_edited; [apply edited_barHide|apply edited_barReset]. Qed.

Lemma touched_attribute x k v d : touched e bd d (setAttribute x k v d) /\ touched e bd d (removeAttribute x k d).
Proof. split; apply touched_edited; [apply edited_setAttribute|apply edited_removeAttribute]. Qed.

(** *** The methods *)

(** A panel that waits for nothing before it is told to show or hide itself: whether it is shown is what the class says,
    or a transition is under way that will make it so. *)
Definition tracked o : Prop :=
  if _isShown o then o_queue o = [ShowComplete] \/ (o_queue o = [] /\ hasClass (o_page o) e "show" = true)
  else (ShowComplete ∉ o_queue o) /\ (HideComplete ∈ o_queue o \/ hasClass (o_page o) e "show" = false).

Definition untouched o : Prop := _isShown o = false /\ o_queue o = [].

Record moves o o' : Prop := {
  mv_touched : touched e bd (o_page o) (o_page o');
  mv_tracked : e <> bd -> is_Some (o_page o !! e) -> tracked o -> tracked o';
  mv_untouched : untouched o -> untouched o';
  mv_shown : _isShown o' = true -> _isShown o = true
}.

Lemma moves_same o o' : o_page o' = o_page o -> _isShown o' = _isShown o -> o_queue o' = o_queue o -> moves o o'.
Proof. intros H1 H2 H3. split; [by rewrite H1|intros _ _; unfold tracked; by rewrite H1, H2, H3|unfold untouched; by rewrite H2, H3|by rewrite H2]. Qed.

Lemma hide_moves (prevents : list string -> string -> bool) o : o_queue o = [] \/ _isShown o = false -> moves o (hide e bd prevents o).
Proof.
  intros Hq. unfold hide. destruct (_isShown o) eqn:Es; cbn [negb]; [|by apply moves_same]. destruct Hq as [Hq|]; [|done].
  destruct (prevents _ _); [by apply moves_same|]. set (o1 := blur e _).
  assert (E1 : o_page o1 = o_page o /\ o_queue o1 = []) by (subst o1; unfold blur; by case_decide).
  destruct E1 as [E1 E2]. clearbody o1. set (o2 := set_page _ _).
  assert (T2 : touched e bd (o_page o) (o_page o2)) by (subst o2; cbn; rewrite E1; apply touched_add; owned).
  assert (E3 : touched e bd (o_page o) (o_page (hideBackdrop bd o2)) /\ (ShowComplete ∉ o_queue (hideBackdrop bd o2)) /\
    _isShown (hideBackdrop bd o2) = false).
  { unfold hideBackdrop. destruct (negb _); (split; [|split; [cbn; rewrite E2; by apply (bool_decide_unpack _)|done]]); [done|].
    etransitivity; [exact T2|]. apply touched_backdrop. }
  destruct E3 as (T3 & N & S). split; [done| |intros [? _]; congruence|done].
  intros _ _ _. unfold tracked. cbn. rewrite S. split; [|left; rewrite elem_of_app; right; by left].
  rewrite elem_of_app, list_elem_of_singleton. by intros [?|?].
Qed.

Lemma show_moves (prevents : list string -> string -> bool) o : _isShown o = false -> o_queue o = [] ->
  touched e bd (o_page o) (o_page (show numberToString e p body bd prevents o)) /\
  (tracked o -> tracked (show numberToString e p body bd prevents o)).
Proof.
  intros Es Hq. unfold show. rewrite Es. destruct (prevents _ _); [unfold tracked; cbn; by rewrite Es|].
  set (o1 := showBackdrop _ _ _). assert (E1 : touched e bd (o_page o) (o_page o1) /\ o_queue o1 = [] /\ _isShown o1 = true).
  { subst o1. unfold showBackdrop. destruct (negb _); [done|]. split; [|done]. apply touched_backdrop. }
  destruct E1 as (T1 & Q1 & S1). clearbody o1. set (o2 := if negb _ then _ else o1).
  assert (E2 : touched e bd (o_page o) (o_page o2) /\ o_queue o2 = [] /\ _isShown o2 = true).
  { subst o2. destruct (negb _); [|done]. split; [|done]. etransitivity; [exact T1|]. apply touched_bar. }
  destruct E2 as (T2 & Q2 & S2). clearbody o2. cbn. split.
  - etransitivity; [|apply touched_add; owned]. do 2 (etransitivity; [|apply touched_attribute]). exact T2.
  - intros _. unfold tracked. cbn. rewrite S2, Q2. by left.
Qed.

Lemma In_delete {A} (l : list A) k x y : l !! k = Some x -> y ∈ l -> y <> x -> y ∈ delete k l.
Proof.
  intros Hk Hy Hne. revert k Hk. induction Hy as [y l|y z l Hy IH]; intros [|k] Hk; cbn in *; try congruence.
  - by left.
  - right. by apply IH.
Qed.

Lemma delete_In {A} (l : list A) k y : y ∈ delete k l -> y ∈ l.
Proof. revert k. induction l as [|x l IH]; intros [|k] H; cbn in *; [done..|by right|]. apply elem_of_cons in H as [->|H]; [by left|right; by eapply IH]. Qed.

(** A transition that ends takes the panel on. *)
Lemma transition_moves k o : moves o (transitionDone parseJson numberToString e body bd k o).
Proof.
  unfold transitionDone. destruct (o_queue o !! k) as [cb|] eqn:Hk; [|done].
  assert (Hin : cb ∈ o_queue o) by (by eapply list_elem_of_lookup_2).
  assert (U : untouched o -> False) by (intros [_ Hq]; rewrite Hq in Hk; by destruct k).
  set (o1 := set_queue _ o). destruct cb; cbn [runCallback].
  - unfold showCompleteCallBack. set (o2 := if _ || _ then _ else o1).
    assert (E : o_page o2 = o_page o /\ o_queue o2 = delete k (o_queue o) /\ _isShown o2 = _isShown o) by (subst o2; by destruct (_ || _)).
    destruct E as (E1 & E2 & E3). cbn. split; [|intros _ Hi T|done|cbn; by rewrite E3]; cbn; rewrite ?E1.
    + etransitivity; [|apply touched_remove; owned]. apply touched_add; owned.
    + unfold tracked in *. cbn. rewrite ?E1, E2, E3. destruct (_isShown o); [|by destruct T].
      destruct T as [Eq|[Eq _]]; rewrite Eq in *; [|by apply elem_of_nil in Hin]. destruct k as [|k]; [|discriminate Hk]. right. split; [done|].
      rewrite hasClass_remove, hasClass_add. rewrite !(bool_decide_true) by done. cbn. by rewrite orb_true_r.
  - unfold hideCompleteCallback. cbn. set (d := removeAttribute _ _ _).
    assert (T : touched e bd (o_page o) d).
    { subst d. do 2 (etransitivity; [|eapply (proj2 (touched_attribute _ _ "" _))]). apply touched_remove; owned. }
    assert (H : hasClass d e "show" = false).
    { subst d. rewrite !hasClass_removeAttribute, hasClass_remove. rewrite bool_decide_true by done. apply andb_false_r. }
    clearbody d. split; [| |done|done]; cbn.
    + destruct (negb _); [|done]. etransitivity; [exact T|apply touched_bar].
    + intros Hne _ Tr. unfold tracked in *. cbn. destruct (_isShown o).
      * destruct Tr as [Eq|[Eq _]]; rewrite Eq in *; [by apply list_elem_of_singleton in Hin|by apply elem_of_nil in Hin].
      * destruct Tr as [N _]. split; [by intros ?%delete_In|]. right. destruct (negb _); [|done].
        rewrite (edited_class [] None d); [done|apply edited_barReset|apply not_elem_of_nil].
  - split; [apply touched_backdrop| |done|done]. intros Hne _ Tr. unfold tracked in *. cbn.
    assert (C : hasClass (Backdrop.dispose bd (_backdrop o) (o_page o)).2 e "show" = hasClass (o_page o) e "show").
    { unfold Backdrop.dispose. destruct (negb _); [done|]. apply Modal.class_removeElement. }
    rewrite C. destruct (_isShown o).
    + destruct Tr as [Eq|[Eq _]]; rewrite Eq in *; [by apply list_elem_of_singleton in Hin|by apply elem_of_nil in Hin].
    + destruct Tr as [N [Hh|Hh]]; (split; [by intros ?%delete_In|]); [left|by right]. by eapply In_delete.
Qed.
End touched.

(** ** Any number of panels *)

Section flow.
Context `{B : Browser} `{L : ScrollBar.Layout}.
Variable parseJson : string -> option value.
Variable numberToString : Q -> string.
Variables root body : nat.
Variable positionOf : gmap nat node -> nat -> string.
Variable prevents : nat -> list string -> string -> bool.
Variable d0 : gmap nat node.                     (** the page at first *)
Implicit Types (s : stage instance) (o : offcanvas) (i : instance) (e p bd x t : nat) (d : gmap nat node).

Abbreviation step := (step parseJson numberToString root body positionOf prevents).
Abbreviation run := (run parseJson numberToString root body positionOf prevents).

(** Nothing waits. *)
Definition idle s : bool := forallb (fun ei => match o_queue (i_panel ei.2) with [] => true | _ => false end) (map_to_list (st_instances s)).

(** What a person does who waits: the next click, key or load comes when all panels have come to rest, and openers open
    off-canvas panels. No method is called by a script, no instance disposed of. *)
Definition patient s (o : op) : bool :=
  match o with
  | TransitionDone _ _ => true
  | Show _ | Dispose _ => false
  | ClickToggle x =>
      idle s && match getElementFromSelector root (st_page s) x with Some t => hasClass (st_page s) t "offcanvas" | None => true end
  | ClickDismiss x => idle s && bool_decide (is_Some (d0 !! x))
  | _ => idle s
  end.

Fixpoint patiently (ops : list op) s : bool :=
  match ops with
  | [] => true
  | o :: ops => patient s o && patiently ops (step o s).1
  end.

Definition isPanel x : bool := hasClass d0 x "offcanvas".
Definition shownAt s e : bool := match st_instances s !! e with Some i => _isShown (i_panel i) | None => false end.

Definition fitting e d i : Prop :=
  let o := enterPanel d None (i_panel i) in if isPanel e then tracked e o else untouched o.

Record orderly s : Prop := {
  or_stays x : is_Some (d0 !! x) -> is_Some (st_page s !! x) /\ parentOf (st_page s) x = parentOf d0 x;
  or_panels x : hasClass (st_page s) x "offcanvas" = isPanel x;
  or_fresh e i : st_instances s !! e = Some i -> d0 !! i_bd i = None;
  or_others x : is_Some (d0 !! x) -> st_instances s !! x = None -> hasClass (st_page s) x "show" = hasClass d0 x "show";
  or_fits e i : st_instances s !! e = Some i -> fitting e (st_page s) i;
  or_one e e' : shownAt s e = true -> shownAt s e' = true -> e = e'
}.

Lemma panel_in x : isPanel x = true -> is_Some (d0 !! x).
Proof. unfold isPanel, hasClass. by destruct (d0 !! x). Qed.

Lemma idle_queue s e i : idle s = true -> st_instances s !! e = Some i -> o_queue (i_panel i) = [].
Proof.
  unfold idle. rewrite forallb_forall. intros H Hi. specialize (H (e, i)). cbn in H.
  destruct (o_queue (i_panel i)); [done|]. discriminate H. by apply list_elem_of_In, elem_of_map_to_list.
Qed.

(** One panel's method: the panel itself stays in order, and it is not shown beside another one. *)
Lemma orderly_on e (f : nat -> nat -> offcanvas -> offcanvas) s : orderly s ->
  (forall i, st_instances s !! e = Some i ->
     let o := enterPanel (st_page s) (st_focus s) (i_panel i) in let o' := f (i_parent i) (i_bd i) o in
     touched e (i_bd i) (o_page o) (o_page o') /\
     (isPanel e = true -> e <> i_bd i -> is_Some (o_page o !! e) -> tracked e o -> tracked e o') /\
     (isPanel e = false -> untouched o -> untouched o') /\
     (_isShown o' = true -> _isShown o = true \/ forall e', shownAt s e' = false)) ->
  orderly (onPanel prevents e f s).
Proof.
  intros O F. unfold onPanel, on. destruct (st_instances s !! e) as [i|] eqn:Hi; [|done].
  destruct (F i eq_refl) as (T & Tr & Un & Sh). clear F. cbn [enter panel_overlay i_panel i_bd i_parent].
  set (o := enterPanel _ _ _) in *. set (o' := f _ _ o) in *. set (i' := Instance _ _ o').
  destruct (settle_same prevents e i i' s) as (E1 & E2 & _). set (s' := settle _ _ _ _ _) in *. clearbody s'.
  change (pageOf i') with (o_page o') in E1. pose proof (or_fresh _ O _ _ Hi) as Hbd.
  assert (Hne : forall x, is_Some (d0 !! x) -> x <> i_bd i) by (intros x Hx ->; rewrite Hbd in Hx; by apply is_Some_None in Hx).
  assert (Hsh : forall x, shownAt s' x = if decide (x = e) then _isShown o' else shownAt s x).
  { intros x. unfold shownAt. rewrite E2. case_decide as D; [subst x; by rewrite lookup_insert_eq|by rewrite lookup_insert_ne]. }
  split; rewrite ?E1, ?E2.
  - intros x Hx. destruct (or_stays _ O x Hx) as [S P]. destruct (to_there _ _ _ _ T x (Hne x Hx)) as [S' P'].
    split; [by apply S'|]. by rewrite P', <- P.
  - intros x. rewrite <- (or_panels _ O). destruct (decide (x = i_bd i)) as [->|Hx].
    + change (hasClass (st_page s) (i_bd i) "offcanvas") with (hasClass (o_page o) (i_bd i) "offcanvas").
      assert (H0 : hasClass (o_page o) (i_bd i) "offcanvas" = false).
      { change (hasClass (st_page s) (i_bd i) "offcanvas" = false). rewrite (or_panels _ O). unfold isPanel, hasClass. by rewrite Hbd. }
      by rewrite (to_backdrop _ _ _ _ T H0), H0.
    + apply (to_class _ _ _ _ T); [done|]. intros _. by apply (bool_decide_unpack _).
  - intros e' i''. rewrite lookup_insert_Some. intros [[<- <-]|[_ H]]; [done|]. by apply (or_fresh _ O e').
  - intros x Hx. rewrite lookup_insert_None. intros [Hn Hxe]. rewrite <- (or_others _ O x Hx Hn).
    apply (to_class _ _ _ _ T); [by apply Hne|]. by intros ->.
  - intros e' i''. rewrite lookup_insert_Some. intros [[<- <-]|[Hxe H]].
    + pose proof (or_fits _ O _ _ Hi) as Fi. unfold fitting in *. destruct (isPanel e) eqn:Pe.
      * pose proof (panel_in e Pe) as He. destruct (or_stays _ O e He) as [Se _]. exact (Tr eq_refl (Hne e He) Se Fi).
      * exact (Un eq_refl Fi).
    + pose proof (or_fits _ O _ _ H) as Fi. unfold fitting in *. destruct (isPanel e') eqn:Pe; [|exact Fi].
      unfold tracked in *. cbn in *. rewrite (to_class _ _ _ _ T e' "show"); [exact Fi|by apply Hne, panel_in|congruence].
  - intros x y. rewrite !Hsh. pose proof (or_one _ O) as One.
    assert (Se : shownAt s e = _isShown o) by (unfold shownAt; by rewrite Hi).
    repeat case_decide; subst; intros Hx Hy; [done| | |by apply One].
    + destruct (Sh Hx) as [Hs|Hs]; [rewrite <- Se in Hs; by apply One|by rewrite Hs in Hy].
    + destruct (Sh Hy) as [Hs|Hs]; [rewrite <- Se in Hs; by apply One|by rewrite Hs in Hx].
Qed.

Lemma orderly_moves e (f : nat -> nat -> offcanvas -> offcanvas) s : orderly s ->
  (forall i, st_instances s !! e = Some i ->
     let o := enterPanel (st_page s) (st_focus s) (i_panel i) in moves e (i_bd i) o (f (i_parent i) (i_bd i) o)) ->
  orderly (onPanel prevents e f s).
Proof. intros O F. apply orderly_on; [done|]. intros i Hi. destruct (F i Hi) as [M1 M2 M3 M4]. cbv zeta. split_and!; auto. Qed.

Lemma orderly_frame s s' : st_page s' = st_page s -> st_instances s' = st_instances s -> orderly s -> orderly s'.
Proof. intros E1 E2 [H1 H2 H3 H4 H5 H6]. split; unfold shownAt in *; rewrite ?E1, ?E2; done. Qed.

(** *** Hiding *)

Hypothesis permitted : forall e l, prevents e l EVENT_HIDE = false.

(** Nothing that waits would be overtaken by hiding. *)
Definition settled s : Prop := forall e i, st_instances s !! e = Some i -> o_queue (i_panel i) = [] \/ _isShown (i_panel i) = false.

Lemma idle_settled s : idle s = true -> settled s.
Proof. intros H e i Hi. left. by eapply idle_queue. Qed.

Lemma hide_hidden e bd o : _isShown (hide e bd (prevents e) o) = false.
Proof.
  unfold hide. destruct (_isShown o) eqn:E; [|done]. cbn [negb]. rewrite permitted. cbn.
  set (o1 := blur e _). unfold hideBackdrop. by destruct (negb _).
Qed.

(** What a method makes of the instances. *)
Lemma onPanel_instances e (f : nat -> nat -> offcanvas -> offcanvas) s x :
  st_instances (onPanel prevents e f s) !! x =
    if decide (x = e) then (fun i => Instance (i_bd i) (i_parent i) (f (i_parent i) (i_bd i) (enterPanel (st_page s) (st_focus s) (i_panel i)))) <$> st_instances s !! e
    else st_instances s !! x.
Proof.
  unfold onPanel, on. destruct (st_instances s !! e) as [i|] eqn:Hi; [|by case_decide; subst].
  match goal with |- context [settle _ e i ?i' s] => destruct (settle_same prevents e i i' s) as (_ & -> & _) end.
  case_decide; subst; [by rewrite lookup_insert_eq|by rewrite lookup_insert_ne].
Qed.

Lemma settled_hide e (f : nat -> nat -> offcanvas -> offcanvas) s : settled s ->
  (forall i, st_instances s !! e = Some i -> let o := enterPanel (st_page s) (st_focus s) (i_panel i) in
     let o' := f (i_parent i) (i_bd i) o in _isShown o' = false \/ o_queue o' = o_queue o /\ _isShown o' = _isShown o) ->
  settled (onPanel prevents e f s).
Proof.
  intros S F x i. rewrite onPanel_instances. case_decide; subst; [|by apply S].
  destruct (st_instances s !! e) as [i0|] eqn:Hi; [|done]. intros [= <-]. cbn. specialize (F i0 eq_refl). cbv zeta in F.
  destruct F as [F|[F1 F2]]; [by right|]. rewrite F1, F2. by apply (S e).
Qed.

Lemma orderly_hide e s : orderly s -> settled s -> orderly (hideAt prevents e s) /\ settled (hideAt prevents e s).
Proof.
  intros O S. unfold hideAt. split.
  - apply orderly_moves; [done|]. intros i Hi. apply (hide_moves e (i_parent i)). exact (S e i Hi).
  - apply settled_hide; [done|]. intros i Hi. left. apply hide_hidden.
Qed.

Lemma shownAt_hide e s x : shownAt (hideAt prevents e s) x = if decide (x = e) then false else shownAt s x.
Proof.
  unfold shownAt, hideAt. rewrite onPanel_instances. case_decide; [|done]. destruct (st_instances s !! e); [|done]. cbn. apply hide_hidden.
Qed.

(** *** Instances that are made *)

Hypothesis startsClosed : forall x, isPanel x = true -> hasClass d0 x "show" = false.

Record created s s' : Prop := {
  cr_orderly : orderly s';
  cr_page : st_page s' = st_page s;
  cr_others e i : st_instances s' !! e = Some i -> st_instances s !! e = Some i \/ o_queue (i_panel i) = [];
  cr_kept e i : st_instances s !! e = Some i -> st_instances s' !! e = Some i;
  cr_shown e : shownAt s' e = shownAt s e
}.

Lemma created_refl s : orderly s -> created s s.
Proof. split; auto. Qed.

Lemma orderly_create e s : orderly s -> created s (getOrCreateInstance parseJson e s).1.
Proof.
  intros O. unfold getOrCreateInstance. destruct (st_instances s !! e) as [i|] eqn:Hi; [by apply created_refl|].
  unfold construct. destruct (getConfig _ _ _ _ _ _ _ _) as [g|]; [|by apply created_refl].
  destruct (st_page s !! e ≫= n_parent) as [p|]; [|by apply created_refl]. cbn [fst]. set (i := Instance _ _ _).
  assert (Hsh : forall x, shownAt (set_instances (<[e:=i]> (st_instances s)) s) x = shownAt s x).
  { intros x. unfold shownAt. cbn. destruct (decide (x = e)) as [->|]; [by rewrite lookup_insert_eq, Hi|by rewrite lookup_insert_ne]. }
  split; [split| | | |]; cbn [st_page st_instances set_instances].
  - apply O.
  - apply O.
  - intros e' i'. rewrite lookup_insert_Some. intros [[<- <-]|[_ H]]; [|by apply (or_fresh _ O e')]. cbn.
    destruct (d0 !! unclaimed s) as [n|] eqn:En; [|done]. exfalso. destruct (or_stays _ O (unclaimed s)) as [S _]; [by rewrite En|].
    apply elem_of_dom in S. unfold unclaimed in S. match type of S with fresh (_ ∪ ?Y) ∈ _ => apply (is_fresh (dom (st_page s) ∪ Y)) end.
    apply elem_of_union. by left.
  - intros x Hx. rewrite lookup_insert_None. intros [Hn _]. by apply O.
  - intros e' i'. rewrite lookup_insert_Some. intros [[<- <-]|[_ H]]; [|by apply (or_fits _ O)].
    unfold fitting. destruct (isPanel e) eqn:Pe; [|done]. unfold tracked. cbn. split; [by apply not_elem_of_nil|]. right.
    rewrite (or_others _ O) by (done || by apply panel_in). by apply startsClosed.
  - intros x y. rewrite !Hsh. apply O.
  - done.
  - intros e' i'. rewrite lookup_insert_Some. intros [[_ <-]|[_ H]]; [by right|by left].
  - intros e' i' H. rewrite lookup_insert_ne; [done|congruence].
  - done.
Qed.

Lemma created_settled s s' : created s s' -> settled s -> settled s'.
Proof. intros C S e i Hi. destruct (cr_others _ _ C e i Hi) as [H|H]; [by apply (S e)|by left]. Qed.

(** A panel that waits for nothing is toggled: it opens when no other is shown. *)
Lemma orderly_toggle t s : orderly s -> isPanel t = true -> (forall i, st_instances s !! t = Some i -> o_queue (i_panel i) = []) ->
  (shownAt s t = true \/ forall x, shownAt s x = false) -> orderly (toggleAt numberToString body prevents t s).
Proof.
  intros O Pt Q Sh. unfold toggleAt. apply orderly_on; [done|]. intros i Hi. cbv zeta. specialize (Q i Hi).
  unfold shownAt in Sh at 1. rewrite Hi in Sh. set (o := enterPanel _ _ _). change (_isShown (i_panel i)) with (_isShown o) in Sh.
  assert (Qo : o_queue o = []) by exact Q. unfold toggle. destruct (_isShown o) eqn:E.
  - destruct (hide_moves t (i_parent i) (i_bd i) (prevents t) o (or_introl Qo)) as [M1 M2 M3 M4]. split_and!; auto.
  - destruct (show_moves parseJson numberToString body t (i_parent i) (i_bd i) (prevents t) o E Qo) as [M1 M2].
    split_and!; [done|auto|by rewrite Pt|]. intros _. right. by destruct Sh as [Sh|Sh].
Qed.

(** *** What is found open *)

Hypothesis openSelector : forall d x, matches d x OPEN_SELECTOR = hasClass d x "offcanvas" && hasClass d x "show".
Hypothesis wf0 : wfTree d0.
Hypothesis inDocument : forall x, isPanel x = true -> x ∈ descendants (size d0) d0 root.

Lemma shown_panel s x : orderly s -> shownAt s x = true -> isPanel x = true.
Proof.
  intros O. unfold shownAt. destruct (st_instances s !! x) as [i|] eqn:Hi; [|done]. intros Hs.
  pose proof (or_fits _ O x i Hi) as F. unfold fitting in F. destruct (isPanel x); [done|]. destruct F as [F _]. cbn in F. congruence.
Qed.

(** At rest the document's open panels are those whose instances are shown. *)
Lemma open_found s x : orderly s -> wfTree (st_page s) -> idle s = true ->
  x ∈ find (st_page s) OPEN_SELECTOR root <-> shownAt s x = true.
Proof.
  intros O W Id. unfold find. rewrite list_elem_of_In, filter_In, openSelector, (or_panels _ O), andb_true_iff, <- list_elem_of_In. split.
  - intros (_ & Px & Sx). pose proof (panel_in x Px) as Hx. unfold shownAt. destruct (st_instances s !! x) as [i|] eqn:Hi.
    + pose proof (or_fits _ O x i Hi) as F. pose proof (idle_queue s x i Id Hi) as Q. unfold fitting in F. rewrite Px in F. unfold tracked in F. cbn in F.
      destruct (_isShown (i_panel i)); [done|]. destruct F as [_ [F|F]]; [rewrite Q in F; by apply elem_of_nil in F|congruence].
    + rewrite (or_others _ O x Hx Hi), (startsClosed x Px) in Sx. done.
  - intros Hs. pose proof (shown_panel s x O Hs) as Px. pose proof (panel_in x Px) as Hx. split; [|split; [done|]].
    + apply (descends_still d0); [done..| |by apply inDocument]. intros y Hy. apply (or_stays _ O y Hy).
    + unfold shownAt in Hs. destruct (st_instances s !! x) as [i|] eqn:Hi; [|done].
      pose proof (or_fits _ O x i Hi) as F. pose proof (idle_queue s x i Id Hi) as Q. unfold fitting in F. rewrite Px in F. unfold tracked in F. cbn in F.
      rewrite Hs in F. destruct F as [F|[_ F]]; [by rewrite Q in F|done].
Qed.

(** The open panel that the handler looks for. *)
Lemma open_one s : orderly s -> wfTree (st_page s) -> idle s = true ->
  match findOne (st_page s) OPEN_SELECTOR root with
  | Some a => forall x, shownAt s x = true <-> x = a
  | None => forall x, shownAt s x = false
  end.
Proof.
  intros O W Id. pose proof (fun x => open_found s x O W Id) as H. unfold findOne. destruct (find _ _ _) as [|a l]; cbn.
  - intros x. apply not_true_iff_false. intros Hx%H. by apply elem_of_nil in Hx.
  - assert (Ha : shownAt s a = true) by (apply H; by left). intros x. split; [|by intros ->]. intros Hx. by apply (or_one _ O).
Qed.

(** *** Steps *)

Lemma clickToggle_orderly x s : orderly s -> wfTree (st_page s) -> patient s (ClickToggle x) = true ->
  orderly (clickToggle parseJson numberToString root body prevents x s).1.
Proof.
  intros O W. cbn [patient]. intros [Id Ht]%andb_true_iff. unfold clickToggle. destruct (isDisabled _ _); [done|].
  pose proof (open_one s O W Id) as One. set (target := getElementFromSelector root (st_page s) x) in *.
  set (s1 := match target with Some t => _ | None => _ end).
  assert (E1 : st_page s1 = st_page s /\ st_instances s1 = st_instances s) by (subst s1; by destruct target).
  destruct E1 as [Ep Ei]. assert (O1 : orderly s1) by (by apply (orderly_frame s)).
  assert (S1 : settled s1) by (intros e i; rewrite Ei; by apply idle_settled).
  assert (Sh1 : forall y, shownAt s1 y = shownAt s y) by (intros y; unfold shownAt; by rewrite Ei). rewrite Ep.
  assert (Toggle : forall t s2, target = Some t -> orderly s2 -> (forall i, st_instances s2 !! t = Some i -> o_queue (i_panel i) = []) ->
    (shownAt s2 t = true \/ forall y, shownAt s2 y = false) ->
    orderly (andThen (getOrCreateInstance parseJson t s2) (fun s => (toggleAt numberToString body prevents t s, None))).1).
  { intros t s2 Et O2 Q2 Sh2. rewrite Et in Ht. rewrite (or_panels _ O) in Ht. pose proof (orderly_create t s2 O2) as C.
    destruct (getOrCreateInstance parseJson t s2) as [s3 [y|]]; cbn [andThen fst] in *; [apply C|].
    apply orderly_toggle; [apply C|done| |].
    - intros i Hi. destruct (cr_others _ _ C t i Hi) as [H|H]; [by apply Q2|done].
    - destruct Sh2 as [H|H]; [left|right; intros y]; by rewrite (cr_shown _ _ C). }
  assert (Qt : forall t i, st_instances s1 !! t = Some i -> o_queue (i_panel i) = []) by (intros t i; rewrite Ei; by apply idle_queue).
  destruct (findOne _ _ _) as [a|].
  - destruct (decide (Some a <> target)) as [Hne|He]; cbn [andThen].
    + destruct (st_instances s1 !! a) as [ia|] eqn:Ha; cbn [andThen fst]; [|done]. destruct (orderly_hide a s1 O1 S1) as [O2 _].
      destruct target as [t|] eqn:Et; [|exact O2]. apply Toggle; [done|done| |].
      * intros i. unfold hideAt. rewrite onPanel_instances, decide_False by congruence. apply Qt.
      * right. intros y. rewrite shownAt_hide, Sh1. case_decide; [done|]. apply not_true_iff_false. by rewrite One.
    + assert (target = Some a) as Et by (by destruct (decide (target = Some a))). rewrite Et. apply Toggle; [done|done|apply Qt|].
      left. rewrite Sh1. by apply One.
  - cbn [andThen]. destruct target as [t|]; [|done]. apply Toggle; [done|done|apply Qt|]. right. intros y. by rewrite Sh1.
Qed.

(** Instances that are made and hidden, one after the other. *)
Lemma hide_then e s : orderly s -> settled s ->
  let r := andThen (getOrCreateInstance parseJson e s) (fun s => (hideAt prevents e s, None)) in orderly r.1 /\ settled r.1.
Proof.
  intros O S. pose proof (orderly_create e s O) as C. cbv zeta. pose proof (created_settled _ _ C S) as S'. pose proof (cr_orderly _ _ C) as O'.
  destruct (getOrCreateInstance parseJson e s) as [s1 [y|]]; cbn [andThen fst] in *; [done|]. by apply orderly_hide.
Qed.

Lemma each_then (Q : stage instance -> Prop) (f : nat -> stage instance -> outcome (stage instance)) l r :
  Q r.1 -> (forall e s, e ∈ l -> Q s -> Q (f e s).1) -> Q (fold_left (fun r e => andThen r (f e)) l r).1.
Proof.
  revert r. induction l as [|e l IH]; intros [s o] Hs F; cbn [fold_left]; [done|]. apply IH.
  - destruct o; [exact Hs|]. apply F; [by left|exact Hs].
  - intros e' s' He. apply F. by right.
Qed.

Lemma load_orderly s : orderly s -> wfTree (st_page s) -> idle s = true -> orderly (load parseJson numberToString root body prevents s).1.
Proof.
  intros O W Id. unfold load.
  apply (each_then (fun s' => orderly s' /\ forall x, shownAt s x = true -> shownAt s' x = true)
    (fun e s => andThen (getOrCreateInstance parseJson e s) (fun s => (showAt numberToString body prevents e s, None)))); [done|].
  intros e s' He [O' Sh']. apply (open_found s e O W Id) in He. specialize (Sh' e He) as He'. unfold shownAt in He'.
  unfold getOrCreateInstance. destruct (st_instances s' !! e) as [i|] eqn:Hi; [|done]. cbn [andThen fst].
  assert (Eq : forall p bd o, _isShown o = true -> show numberToString e p body bd (prevents e) o = o) by (intros p bd o Ho; unfold show; by rewrite Ho).
  unfold showAt. split.
  - apply orderly_moves; [done|]. intros i' Hi'. rewrite Hi in Hi'. injection Hi' as <-. cbv zeta. rewrite Eq by exact He'. by apply moves_same.
  - intros x Hx. unfold shownAt. rewrite onPanel_instances. case_decide; [|by apply Sh']. rewrite Hi. cbn. by rewrite Eq.
Qed.

Lemma step_orderly s (o : op) : orderly s -> wfTree (st_page s) -> patient s o = true -> orderly (step o s).1.
Proof.
  intros O W P. destruct o as [x|x| | |e|e|e|e key|e|shift|x|e k]; cbn [OffcanvasPage.step fst]; try done.
  - by apply clickToggle_orderly.
  - cbn [patient] in P. apply andb_true_iff in P as [Id _]. unfold clickDismiss. destruct (isDisabled _ _); [done|].
    destruct (match getElementFromSelector _ _ _ with Some t => _ | None => _ end); [|done]. apply hide_then; [done|by apply idle_settled].
  - by apply load_orderly.
  - unfold resize. apply (each_then (fun s => orderly s /\ settled s)
      (fun e s => if negb (str_eqb (positionOf (st_page s) e) "fixed")
        then andThen (getOrCreateInstance parseJson e s) (fun s => (hideAt prevents e s, None)) else (s, None))).
    + split; [done|by apply idle_settled].
    + intros e s' _ [O' S']. destruct (negb _); [by apply hide_then|done].
  - apply orderly_hide; [done|by apply idle_settled].
  - apply orderly_moves; [done|]. intros i Hi. cbv zeta. unfold onKeydown. destruct (negb _); [by apply moves_same|].
    destruct (c_keyboard _); [|by apply moves_same]. apply (hide_moves e (i_parent i)). left. by apply (idle_queue s e).
  - apply orderly_moves; [done|]. intros i Hi. cbv zeta. destruct (Backdrop._isAppended _); [|by apply moves_same]. unfold clickBackdrop.
    destruct (c_backdrop _); [by apply moves_same| |by apply moves_same]. apply (hide_moves e (i_parent i)). left. by apply (idle_queue s e).
  - unfold pressTab. destruct (st_trap s); [|done]. apply orderly_moves; [done|]. intros i Hi. by apply moves_same.
  - destruct (moveFocus_same x s) as (E1 & E2 & _). by apply (orderly_frame s).
  - apply orderly_moves; [done|]. intros i Hi. cbv zeta. apply (transition_moves parseJson numberToString body e (i_parent i)).
Qed.

Lemma run_orderly ops s : residents anchors fits d0 s -> orderly s -> patiently ops s = true ->
  orderly (run ops s) /\ residents anchors fits d0 (run ops s).
Proof.
  revert s. induction ops as [|o ops IH]; intros s I O; cbn; [done|]. intros [P P']%andb_true_iff. apply IH; [| |done].
  - apply panels_step; [|done]. destruct o; try done. cbn in P. by apply andb_true_iff in P as [_ P%bool_decide_eq_true].
  - apply step_orderly; [done|apply I|done].
Qed.

Lemma start_orderly : orderly (emptyStage d0).
Proof. split; unfold shownAt; cbn; try done; intros; by rewrite ?lookup_empty in *. Qed.

(** *** A click *)

Lemma show_shown e p bd o : (forall l, prevents e l EVENT_SHOW = false) -> _isShown (show numberToString e p body bd (prevents e) o) = true.
Proof.
  intros Hp. unfold show. destruct (_isShown o) eqn:E; [done|]. rewrite Hp. cbn. unfold showBackdrop. cbn. destruct (negb _); by destruct (negb _).
Qed.

Lemma shownAt_toggle t s x : (forall l, prevents t l EVENT_SHOW = false) -> is_Some (st_instances s !! t) ->
  shownAt (toggleAt numberToString body prevents t s) x = if decide (x = t) then negb (shownAt s t) else shownAt s x.
Proof.
  intros Hp [i Hi]. unfold shownAt, toggleAt. rewrite onPanel_instances. case_decide; [|done]. rewrite Hi. cbn. unfold toggle. cbn.
  destruct (_isShown (i_panel i)); [apply hide_hidden|by apply show_shown].
Qed.

Lemma click_switches x t s : orderly s -> wfTree (st_page s) -> idle s = true -> isDisabled (st_page s) (Some x) = false ->
  getElementFromSelector root (st_page s) x = Some t -> is_Some (st_instances s !! t) -> (forall l, prevents t l EVENT_SHOW = false) ->
  forall y, shownAt (step (ClickToggle x) s).1 y = bool_decide (y = t) && negb (shownAt s t).
Proof.
  intros O W Id Hd Ht [i Hi] Hp y. cbn [OffcanvasPage.step]. unfold clickToggle. rewrite Hd, Ht. set (s1 := set_restore _ s).
  pose proof (open_one s O W Id) as One. change (st_page s1) with (st_page s).
  assert (Toggle : forall s2, is_Some (st_instances s2 !! t) ->
    shownAt (andThen (getOrCreateInstance parseJson t s2) (fun s => (toggleAt numberToString body prevents t s, None))).1 y =
    if decide (y = t) then negb (shownAt s2 t) else shownAt s2 y).
  { intros s2 [i2 H2]. unfold getOrCreateInstance. rewrite H2. cbn [andThen fst]. by apply shownAt_toggle. }
  destruct (findOne _ _ _) as [a|].
  - destruct (decide (Some a <> Some t)) as [Hne|He].
    + change (st_instances s1) with (st_instances s). assert (Ha : shownAt s a = true) by (by apply One).
      unfold shownAt in Ha. destruct (st_instances s !! a) as [ia|] eqn:Hia; [|done]. cbn [andThen]. rewrite Toggle.
      * rewrite !shownAt_hide. change (shownAt s1) with (shownAt s). destruct (decide (t = a)); [congruence|].
        destruct (decide (y = t)) as [->|Hy]; [by rewrite bool_decide_true|]. rewrite bool_decide_false by done. cbn.
        case_decide; [done|]. apply not_true_iff_false. by rewrite One.
      * unfold hideAt. rewrite onPanel_instances, decide_False by congruence. by exists i.
    + assert (a = t) as -> by (destruct (decide (a = t)); [done|]; exfalso; apply He; congruence). cbn [andThen]. rewrite Toggle by (by exists i).
      change (shownAt s1) with (shownAt s). destruct (decide (y = t)) as [->|Hy]; [by rewrite bool_decide_true|].
      rewrite bool_decide_false by done. apply not_true_iff_false. by rewrite One.
  - cbn [andThen]. rewrite Toggle by (by exists i). change (shownAt s1) with (shownAt s).
    destruct (decide (y = t)) as [->|Hy]; [by rewrite bool_decide_true|]. rewrite bool_decide_false by done. apply One.
Qed.
End flow.
End OffcanvasFlow.

Import OffcanvasFlow.


(** The two panels of the page are opened one after the other, then the second is closed by its own opener. *)
Definition patientOps : list OffcanvasPage.op :=
  [OffcanvasPage.ClickToggle 3; OffcanvasPage.TransitionDone 1 0; OffcanvasPage.ClickToggle 4; OffcanvasPage.TransitionDone 1 1;
   OffcanvasPage.TransitionDone 2 0; OffcanvasPage.TransitionDone 1 0; OffcanvasPage.Load; OffcanvasPage.ClickToggle 4;
   OffcanvasPage.TransitionDone 2 0; OffcanvasPage.TransitionDone 2 0].

(** The same page in a browser that knows the selector as the standard has it. *)
Definition patientBrowser : Browser :=
  Build_Browser (fun d x sel =>
      if str_eqb sel "#one" then x =? 1 else if str_eqb sel "#two" then x =? 2
      else if str_eqb sel ".offcanvas.show" then hasClass d x "offcanvas" && hasClass d x "show" else false)
    (fun _ _ => 1) (fun _ _ => "visible") None.

Lemma panelsPage_panels x : isPanel panelsPage x = true -> x ∈ descendants (size panelsPage) panelsPage 0 /\ hasClass panelsPage x "show" = false.
Proof.
  intros H. assert (Hx : x ∈ [1; 2]).
  { unfold isPanel, hasClass in H. destruct (panelsPage !! x) as [n|] eqn:E; [|done]. apply elem_of_list_to_map_2 in E.
    rewrite !elem_of_cons, elem_of_nil in E. destruct E as [[= -> ->]|[[= -> ->]|[[= -> ->]|[[= -> ->]|[[= -> ->]|[]]]]]]; try discriminate H; apply (bool_decide_unpack _); reflexivity. }
  rewrite !elem_of_cons, elem_of_nil in Hx. destruct Hx as [->|[->|[]]]; (split; [apply (bool_decide_unpack _)|]; vm_compute; reflexivity).
Qed.

Definition patientRun (ops : list OffcanvasPage.op) : stage OffcanvasPage.instance :=
  @OffcanvasPage.run patientBrowser barLayout (fun _ => None) printWhole 0 0 (fun _ _ => "fixed") (fun _ _ _ => false) ops (emptyStage panelsPage).

