(* ===== verification/BsTab.v ===== *)
(** Bootstrap's [Tab]: one tab of a list is active, and with it the panel it points at. *)
From Stdlib Require Import Ascii Lia.
From S2P Require Import Prelude BsCore BsDom BsScrollBar.

Local Open Scope nat_scope.

Module Tab.

Definition EVENT_HIDE : string := "hide.bs.tab".
Definition EVENT_HIDDEN : string := "hidden.bs.tab".
Definition EVENT_SHOW : string := "show.bs.tab".
Definition EVENT_SHOWN : string := "shown.bs.tab".

Definition NOT_SELECTOR_DROPDOWN_TOGGLE : string := ":not(.dropdown-toggle)".
Definition SELECTOR_TAB_PANEL : string := ".list-group, .nav, [role=" +:+ quoted "tablist" +:+ "]".
Definition SELECTOR_OUTER : string := ".nav-item, .list-group-item".
Definition SELECTOR_INNER : string :=
  ".nav-link" +:+ NOT_SELECTOR_DROPDOWN_TOGGLE +:+ ", .list-group-item" +:+ NOT_SELECTOR_DROPDOWN_TOGGLE +:+
  ", [role=" +:+ quoted "tab" +:+ "]" +:+ NOT_SELECTOR_DROPDOWN_TOGGLE.
Definition SELECTOR_DATA_TOGGLE : string :=
  "[data-bs-toggle=" +:+ quoted "tab" +:+ "], [data-bs-toggle=" +:+ quoted "pill" +:+ "], [data-bs-toggle=" +:+ quoted "list" +:+ "]".
Definition SELECTOR_INNER_ELEM : string := SELECTOR_INNER +:+ ", " +:+ SELECTOR_DATA_TOGGLE.
Definition SELECTOR_DATA_TOGGLE_ACTIVE : string :=
  str_join ", " (map (fun w => ".active[data-bs-toggle=" +:+ quoted w +:+ "]") ["tab"; "pill"; "list"]).

(** The two [complete] functions with what they close over. *)
Inductive callback := Activated (element : nat) | Deactivated (element : nat).

Record state := State {
  t_page : gmap nat node;
  t_instances : gmap nat (option nat);  (** the elements that have a [Tab], with its [_parent] *)
  t_focus : option nat;
  t_queue : list callback;              (** callbacks waiting for a transition *)
  t_log : list (nat * string)           (** events triggered, oldest first *)
}.

Definition set_instances (m : gmap nat (option nat)) (s : state) : state := State (t_page s) m (t_focus s) (t_queue s) (t_log s).
Definition set_page (d : gmap nat node) (s : state) : state := State d (t_instances s) (t_focus s) (t_queue s) (t_log s).
Definition set_focus (f : option nat) (s : state) : state := State (t_page s) (t_instances s) f (t_queue s) (t_log s).
Definition enqueue (cb : callback) (s : state) : state :=
  State (t_page s) (t_instances s) (t_focus s) (t_queue s ++ [cb]) (t_log s).
Definition set_queue (q : list callback) (s : state) : state := State (t_page s) (t_instances s) (t_focus s) q (t_log s).
Definition log_event (e : nat) (name : string) (s : state) : state :=
  State (t_page s) (t_instances s) (t_focus s) (t_queue s) (t_log s ++ [(e, name)]).

Section tab.
Context `{B : Browser}.
Variable root : nat.
Variable prevents : list (nat * string) -> nat -> string -> bool.
Implicit Types (d : gmap nat node) (s : state) (e : nat).

Definition _elemIsActive d e : bool := hasClass d e "active".

Definition _getInnerElement d e : option nat :=
  if matches d e SELECTOR_INNER_ELEM then Some e else findOne d SELECTOR_INNER_ELEM e.

Definition _getOuterElement d e : nat := default e (closest d e SELECTOR_OUTER).

(** Without a list around the tab [_parent] is [null], and the search throws. *)
Definition _getChildren d (parent : option nat) : res (list nat) :=
  p ← need_obj parent; Ok (find d SELECTOR_INNER_ELEM p).

Definition _getActiveElem d (parent : option nat) : res (option nat) :=
  l ← _getChildren d parent; Ok (List.find (_elemIsActive d) l).

Definition _setAttributeIfNotExists e (k v : string) d : gmap nat node :=
  match getAttribute d e k with Some _ => d | None => setAttribute e k v d end.

Definition _setInitialAttributesOnTargetPanel child d : gmap nat node :=
  match getElementFromSelector root d child with
  | None => d
  | Some target =>
      let d := _setAttributeIfNotExists target "role" "tabpanel" d in
      let id := default "" (getAttribute d child "id") in
      if str_truthy id then _setAttributeIfNotExists target "aria-labelledby" id d else d
  end.

Definition _setInitialAttributesOnChild child d : res (gmap nat node) :=
  child ← need_obj (_getInnerElement d child);
  let isActive := _elemIsActive d child in
  let outerElem := _getOuterElement d child in
  let d := setAttribute child "aria-selected" (bool_str isActive) d in
  let d := if negb (outerElem =? child) then _setAttributeIfNotExists outerElem "role" "presentation" d else d in
  let d := if negb isActive then setAttribute child "tabindex" "-1" d else d in
  let d := _setAttributeIfNotExists child "role" "tab" d in
  Ok (_setInitialAttributesOnTargetPanel child d).

Definition _setInitialAttributes parent (children : list nat) d : res (gmap nat node) :=
  foldM (fun d child => _setInitialAttributesOnChild child d) children (_setAttributeIfNotExists parent "role" "tablist" d).

(** The constructor; a tab outside a list is left without attributes, and without the listener
    that calls [_keydown]. *)
Definition construct e s : res state :=
  let _parent := closest (t_page s) e SELECTOR_TAB_PANEL in
  let s := set_instances (<[e := _parent]> (t_instances s)) s in
  match _parent with
  | None => Ok s
  | Some p =>
      l ← _getChildren (t_page s) _parent;
      d ← _setInitialAttributes p l (t_page s);
      Ok (set_page d s)
  end.

Definition getOrCreateInstance e s : res state :=
  match t_instances s !! e with Some _ => Ok s | None => construct e s end.

(** [this._parent] of the tab on [e]. *)
Definition parentOf s e : option nat := default None (t_instances s !! e).

(** [element.blur()] *)
Definition blur e s : state := if decide (t_focus s = Some e) then set_focus None s else s.

Definition toggleIn d (outerElem : nat) (selector className : string) (open : bool) : gmap nat node :=
  match findOne d selector outerElem with
  | Some x => classList_toggle x className open d
  | None => d
  end.

Definition _toggleDropDown e (open : bool) d : gmap nat node :=
  let outerElem := _getOuterElement d e in
  if negb (hasClass d outerElem "dropdown") then d
  else
    let d := toggleIn d outerElem ".dropdown-toggle" "active" open in
    let d := toggleIn d outerElem ".dropdown-menu" "show" open in
    setAttribute outerElem "aria-expanded" (bool_str open) d.

Definition isTab d e : bool := ostr_eqb (getAttribute d e "role") (Some "tab").

Definition complete (cb : callback) s : state :=
  let d := t_page s in
  match cb with
  | Activated e =>
      if negb (isTab d e) then set_page (classList_add e ["show"] d) s
      else
        let d := setAttribute e "aria-selected" "true" (removeAttribute e "tabindex" d) in
        log_event e EVENT_SHOWN (set_page (_toggleDropDown e true d) s)
  | Deactivated e =>
      if negb (isTab d e) then set_page (classList_remove e ["show"] d) s
      else
        let d := setAttribute e "tabindex" "-1" (setAttribute e "aria-selected" "false" d) in
        log_event e EVENT_HIDDEN (set_page (_toggleDropDown e false d) s)
  end.

(** [_queueCallback] waits only for an element that fades. *)
Definition queueOr (cb : callback) e s : state :=
  if hasClass (t_page s) e "fade" then enqueue cb s else complete cb s.

(** The recursion goes from a tab to its panel, and on along their links. *)
Fixpoint _activate (fuel : nat) (element : option nat) s : res state :=
  match element with
  | None => Ok s
  | Some e =>
      match fuel with
      | O => Err OutOfFuel
      | S fuel =>
          let s := set_page (classList_add e ["active"] (t_page s)) s in
          s ← _activate fuel (getElementFromSelector root (t_page s) e) s;
          Ok (queueOr (Activated e) e s)
      end
  end.

Fixpoint _deactivate (fuel : nat) (element : option nat) s : res state :=
  match element with
  | None => Ok s
  | Some e =>
      match fuel with
      | O => Err OutOfFuel
      | S fuel =>
          let s := blur e (set_page (classList_remove e ["active"] (t_page s)) s) in
          s ← _deactivate fuel (getElementFromSelector root (t_page s) e) s;
          Ok (queueOr (Deactivated e) e s)
      end
  end.

(** Links that do not lead in a circle visit each element of the page at most once. *)
Definition linkFuel s : nat := S (size (t_page s)).

Definition show e s : res state :=
  if _elemIsActive (t_page s) e then Ok s
  else
    active ← _getActiveElem (t_page s) (parentOf s e);
    let '(s, hidePrevented) := match active with
                               | Some a => (log_event a EVENT_HIDE s, prevents (t_log s) a EVENT_HIDE)
                               | None => (s, false)
                               end in
    let showPrevented := prevents (t_log s) e EVENT_SHOW in
    let s := log_event e EVENT_SHOW s in
    if showPrevented || hidePrevented then Ok s
    else
      s ← _deactivate (linkFuel s) active s;
      _activate (linkFuel s) (Some e) s.

Definition _keydown e (key : string) target s : res state :=
  if negb (in_strs key ["ArrowLeft"; "ArrowRight"; "ArrowUp"; "ArrowDown"; "Home"; "End"]) then Ok s
  else
    l ← _getChildren (t_page s) (parentOf s e);
    let children := List.filter (fun x => negb (isDisabled (t_page s) (Some x))) l in
    let nextActiveElement :=
      if str_eqb key "Home" then hd_error children
      else if str_eqb key "End" then last children
      else getNextActiveElement children (Some target) (in_strs key ["ArrowRight"; "ArrowDown"]) true in
    match nextActiveElement with
    | None => Ok s
    | Some x => s ← getOrCreateInstance x (set_focus (Some x) s); show x s
    end.

(** The click handler of the data API. *)
Definition clickTab e s : res state :=
  if isDisabled (t_page s) (Some e) then Ok s
  else s ← getOrCreateInstance e s; show e s.

(** When the page has loaded, the active tabs get their instances. *)
Definition load s : res state :=
  foldM (fun s e => getOrCreateInstance e s) (find (t_page s) SELECTOR_DATA_TOGGLE_ACTIVE root) s.

(** The [k]-th waiting callback runs. *)
Definition transitionDone (k : nat) s : state :=
  match t_queue s !! k with
  | Some cb => complete cb (set_queue (delete k (t_queue s)) s)
  | None => s
  end.
End tab.

(** ** Switching tabs *)

Definition movable : list string := ["active"; "show"].
Definition stateAttributes : list string := ["aria-selected"; "tabindex"].

(** A page with other tabs and panels active. *)
Abbreviation tabStep := (changes movable stateAttributes).

Section switching.
Context `{B : Browser}.
Variable root : nat.
Implicit Types (d : gmap nat node).

(** The selectors of links and of list items do not ask what is active. *)
Hypothesis css : forall d d' x sel, tabStep d d' -> sel = SELECTOR_OUTER \/ (exists e, getSelector d e = Some sel) ->
  matches d' x sel = matches d x sel.

Lemma links d d' x : tabStep d d' ->
  getElementFromSelector root d' x = getElementFromSelector root d x /\ closest d' x SELECTOR_OUTER = closest d x SELECTOR_OUTER.
Proof.
  intros S. split.
  - assert (E : getSelector d' x = getSelector d x) by (unfold getSelector; by rewrite !(ch_attr _ _ _ _ S)).
    unfold getElementFromSelector. rewrite E. destruct (getSelector d x) as [sel|] eqn:Es; [|done].
    unfold findOne. rewrite (find_same d d'); [done|apply S|]. intros y. apply css; eauto.
  - unfold closest. rewrite (ancestors_changes movable stateAttributes _ d), (proj1 (ch_tree _ _ _ _ S)) by done.
    induction (ancestors (size d) d x) as [|y l IH]; cbn; [done|]. rewrite (css d d'), IH; auto.
Qed.

(** The tab [e] with its panel [p]: the tab does not fade and is not in a dropdown. *)
Record tabWith d (e p : nat) : Prop := {
  tw_tab : is_Some (d !! e);
  tw_panel : is_Some (d !! p);
  tw_link : getElementFromSelector root d e = Some p;
  tw_end : getElementFromSelector root d p = None;
  tw_role : isTab d e = true;
  tw_prole : isTab d p = false;
  tw_fade : hasClass d e "fade" = false;
  tw_plain : hasClass d (_getOuterElement d e) "dropdown" = false
}.

Lemma isTab_step d d' e : tabStep d d' -> isTab d' e = isTab d e.
Proof. intros S. unfold isTab. by rewrite (ch_attr _ _ _ _ S). Qed.

Lemma some_step d d' e : tabStep d d' -> is_Some (d' !! e) <-> is_Some (d !! e).
Proof. apply changes_some. Qed.

Lemma tabWith_step d d' e p : tabStep d d' -> tabWith d e p -> tabWith d' e p.
Proof.
  intros S [H1 H2 H3 H4 H5 H6 H7 H8]. split.
  - by apply (some_step d).
  - by apply (some_step d).
  - by rewrite (proj1 (links d d' e S)).
  - by rewrite (proj1 (links d d' p S)).
  - by rewrite (isTab_step d).
  - by rewrite (isTab_step d).
  - by rewrite (ch_class _ _ _ _ S).
  - unfold _getOuterElement in *. rewrite (proj2 (links d d' e S)). by rewrite (ch_class _ _ _ _ S).
Qed.

Lemma dropdown_none d e p open : tabWith d e p -> _toggleDropDown e open d = d.
Proof. intros T. unfold _toggleDropDown. by rewrite (tw_plain _ _ _ T). Qed.

(** The panel [p], which shows or hides with its transition, if it has one. *)
Definition panelOn p d : gmap nat node :=
  if hasClass d p "fade" then classList_add p ["active"] d else classList_add p ["show"] (classList_add p ["active"] d).
Definition panelOff p d : gmap nat node :=
  if hasClass d p "fade" then classList_remove p ["active"] d
  else classList_remove p ["show"] (classList_remove p ["active"] d).

(** The page once the tab [e] is active and the panel [p] is becoming so, or not any more. *)
Definition activated (e p : nat) d : gmap nat node :=
  setAttribute e "aria-selected" "true" (removeAttribute e "tabindex" (panelOn p (classList_add e ["active"] d))).
Definition deactivated (e p : nat) d : gmap nat node :=
  setAttribute e "tabindex" "-1" (setAttribute e "aria-selected" "false" (panelOff p (classList_remove e ["active"] d))).

Definition waiting d p (cb : callback) : list callback := if hasClass d p "fade" then [cb] else [].

Lemma panel_step p d : tabStep d (panelOn p d) /\ tabStep d (panelOff p d).
Proof.
  unfold panelOn, panelOff. destruct (hasClass d p "fade"); [split; by apply (changes_classes movable stateAttributes p "active")|].
  split; (etransitivity; [|by apply (changes_classes movable stateAttributes p "show")]); by apply (changes_classes movable stateAttributes p "active").
Qed.

Lemma activated_step e p d : tabStep d (activated e p d) /\ tabStep d (deactivated e p d).
Proof.
  unfold activated, deactivated. split.
  - etransitivity; [|by apply (changes_attribute movable stateAttributes e "aria-selected" "true")].
    etransitivity; [|by apply (changes_attribute movable stateAttributes e "tabindex" "")].
    etransitivity; [|apply panel_step]. by apply (changes_classes movable stateAttributes e "active").
  - etransitivity; [|by apply (changes_attribute movable stateAttributes e "tabindex" "-1")].
    etransitivity; [|by apply (changes_attribute movable stateAttributes e "aria-selected" "false")].
    etransitivity; [|apply panel_step]. by apply (changes_classes movable stateAttributes e "active").
Qed.

Lemma none_eq fuel s : _activate root fuel None s = Ok s /\ _deactivate root fuel None s = Ok s.
Proof. by destruct fuel. Qed.

Lemma panel_eq fuel p s : getElementFromSelector root (t_page s) p = None -> isTab (t_page s) p = false ->
  _activate root (S fuel) (Some p) s =
    Ok (State (panelOn p (t_page s)) (t_instances s) (t_focus s)
          (t_queue s ++ waiting (t_page s) p (Activated p)) (t_log s)) /\
  _deactivate root (S fuel) (Some p) s =
    Ok (State (panelOff p (t_page s)) (t_instances s) (t_focus (blur p s))
          (t_queue s ++ waiting (t_page s) p (Deactivated p)) (t_log s)).
Proof.
  intros L R. destruct (changes_classes movable stateAttributes p "active" (t_page s) eq_refl) as [S1 S2]. split.
  - cbn [_activate t_page set_page]. rewrite (proj1 (links _ _ p S1)), L, (proj1 (none_eq _ _)). cbn [mbind res_bind].
    unfold queueOr, waiting, panelOn, complete. cbn [t_page set_page]. rewrite (ch_class _ _ _ _ S1), (isTab_step _ _ _ S1), R by done.
    destruct (hasClass (t_page s) p "fade"); cbn; by rewrite ?app_nil_r.
  - assert (Hb : forall q, t_page (blur p q) = t_page q) by (intros q; unfold blur; by case_decide).
    cbn [_deactivate]. rewrite Hb. cbn [t_page set_page]. rewrite (proj1 (links _ _ p S2)), L, (proj2 (none_eq _ _)).
    cbn [mbind res_bind]. unfold queueOr, waiting, panelOff, complete. rewrite Hb. cbn [t_page set_page].
    rewrite (ch_class _ _ _ _ S2), (isTab_step _ _ _ S2), R by done. unfold blur. cbn [t_focus set_page].
    destruct (hasClass (t_page s) p "fade"); case_decide; cbn; by rewrite ?app_nil_r.
Qed.

Lemma blur_page e s : t_page (blur e s) = t_page s /\ t_instances (blur e s) = t_instances s /\
  t_queue (blur e s) = t_queue s /\ t_log (blur e s) = t_log s.
Proof. unfold blur. by case_decide. Qed.

Lemma activate_eq fuel e p s : tabWith (t_page s) e p ->
  _activate root (S (S fuel)) (Some e) s =
    Ok (State (activated e p (t_page s)) (t_instances s) (t_focus s)
          (t_queue s ++ waiting (t_page s) p (Activated p)) (t_log s ++ [(e, EVENT_SHOWN)])).
Proof.
  intros T. pose proof (proj1 (changes_classes movable stateAttributes e "active" (t_page s) eq_refl)) as S1.
  pose proof (tabWith_step _ _ _ _ S1 T) as T1. destruct (panel_step p (classList_add e ["active"] (t_page s))) as [S2 _].
  pose proof (tabWith_step _ _ _ _ S2 T1) as T2.
  change (_activate root (S (S fuel)) (Some e) s) with
    (let s := set_page (classList_add e ["active"] (t_page s)) s in
     s ← _activate root (S fuel) (getElementFromSelector root (t_page s) e) s; Ok (queueOr (Activated e) e s)).
  cbv zeta. cbn [t_page set_page]. rewrite (tw_link _ _ _ T1).
  rewrite (proj1 (panel_eq fuel p (set_page _ s) (tw_end _ _ _ T1) (tw_prole _ _ _ T1))). cbn [mbind res_bind t_page set_page].
  unfold queueOr, complete. cbn [t_page]. rewrite (tw_fade _ _ _ T2), (tw_role _ _ _ T2). cbn [negb].
  rewrite (dropdown_none _ e p).
  - unfold waiting. by rewrite (ch_class _ _ _ _ S1).
  - eapply tabWith_step; [|exact T2]. etransitivity; [|by apply (changes_attribute movable stateAttributes e "aria-selected" "true")].
    by apply (changes_attribute movable stateAttributes e "tabindex" "").
Qed.

Lemma deactivate_eq fuel e p s : tabWith (t_page s) e p ->
  _deactivate root (S (S fuel)) (Some e) s =
    Ok (State (deactivated e p (t_page s)) (t_instances s) (t_focus (blur p (blur e s)))
          (t_queue s ++ waiting (t_page s) p (Deactivated p)) (t_log s ++ [(e, EVENT_HIDDEN)])).
Proof.
  intros T. pose proof (proj2 (changes_classes movable stateAttributes e "active" (t_page s) eq_refl)) as S1.
  pose proof (tabWith_step _ _ _ _ S1 T) as T1. destruct (panel_step p (classList_remove e ["active"] (t_page s))) as [_ S2].
  pose proof (tabWith_step _ _ _ _ S2 T1) as T2.
  change (_deactivate root (S (S fuel)) (Some e) s) with
    (let s := blur e (set_page (classList_remove e ["active"] (t_page s)) s) in
     s ← _deactivate root (S fuel) (getElementFromSelector root (t_page s) e) s; Ok (queueOr (Deactivated e) e s)).
  cbv zeta. set (s1 := blur e (set_page _ s)).
  assert (H1 : s1 = set_page (classList_remove e ["active"] (t_page s)) (blur e s)).
  { subst s1. unfold blur. cbn. by case_decide. }
  assert (Hp : t_page s1 = classList_remove e ["active"] (t_page s)) by (by rewrite H1).
  rewrite Hp, (tw_link _ _ _ T1), (proj2 (panel_eq fuel p s1 ltac:(rewrite Hp; apply T1) ltac:(rewrite Hp; apply T1))).
  cbn [mbind res_bind]. unfold queueOr, complete. cbn [t_page]. rewrite Hp, (tw_fade _ _ _ T2), (tw_role _ _ _ T2). cbn [negb].
  rewrite (dropdown_none _ e p).
  - unfold waiting. rewrite (ch_class _ _ _ _ S1) by done. destruct (blur_page e s) as (_ & HI & HQ & HL).
    rewrite H1. unfold log_event, set_page. cbn. rewrite HI, HQ, HL. unfold deactivated. f_equal. f_equal.
    unfold blur. cbn. repeat case_decide; cbn in *; congruence.
  - eapply tabWith_step; [|exact T2]. etransitivity; [|by apply (changes_attribute movable stateAttributes e "tabindex" "-1")].
    by apply (changes_attribute movable stateAttributes e "aria-selected" "false").
Qed.

(** *** What the switch leaves *)

(** Every waiting callback has run, in the order of [q]. *)
Definition settle (q : list callback) (s : state) : state := fold_left (fun s cb => complete cb s) q (set_queue [] s).

Lemma panel_classes p d x : is_Some (d !! p) ->
  hasClass (panelOn p d) x "active" = hasClass d x "active" || bool_decide (x = p) /\
  hasClass (panelOff p d) x "active" = hasClass d x "active" && negb (bool_decide (x = p)) /\
  hasClass (panelOn p d) x "show" = hasClass d x "show" || bool_decide (x = p) && negb (hasClass d p "fade") /\
  hasClass (panelOff p d) x "show" = hasClass d x "show" && negb (bool_decide (x = p) && negb (hasClass d p "fade")).
Proof.
  intros Hp. unfold panelOn, panelOff. destruct (hasClass d p "fade"); autorewrite with js; unfold in_strs; cbn;
    rewrite ?(bool_decide_true (is_Some _)) by (try done; by apply alter_is_Some); cbn;
    rewrite ?andb_true_r, ?andb_false_r, ?orb_false_r; cbn; rewrite ?andb_true_r, ?orb_false_r; done.
Qed.

Lemma tab_classes e p d x : is_Some (d !! e) -> is_Some (d !! p) ->
  hasClass (activated e p d) x "active" = hasClass d x "active" || bool_decide (x = e) || bool_decide (x = p) /\
  hasClass (deactivated e p d) x "active" =
    hasClass d x "active" && negb (bool_decide (x = e)) && negb (bool_decide (x = p)) /\
  hasClass (activated e p d) x "show" = hasClass d x "show" || bool_decide (x = p) && negb (hasClass d p "fade") /\
  hasClass (deactivated e p d) x "show" = hasClass d x "show" && negb (bool_decide (x = p) && negb (hasClass d p "fade")).
Proof.
  intros He Hp. destruct (changes_classes movable stateAttributes e "active" d eq_refl) as [S1 S2]. unfold activated, deactivated.
  destruct (panel_classes p _ x (proj2 (some_step _ _ p S1) Hp)) as (A1 & _ & A3 & _).
  destruct (panel_classes p _ x (proj2 (some_step _ _ p S2) Hp)) as (_ & B2 & _ & B4).
  rewrite ?hasClass_setAttribute, ?hasClass_removeAttribute, A1, A3, B2, B4.
  rewrite (ch_class _ _ _ _ S1 p), (ch_class _ _ _ _ S2 p) by done. autorewrite with js. rewrite (bool_decide_true (is_Some _)) by done.
  unfold in_strs. cbn. by rewrite !andb_false_r, !andb_true_r, !orb_false_r.
Qed.

Lemma panel_attribute p d x k :
  getAttribute (panelOn p d) x k = getAttribute d x k /\ getAttribute (panelOff p d) x k = getAttribute d x k.
Proof.
  unfold panelOn, panelOff. destruct (hasClass d p "fade").
  - split; apply getAttribute_classes.
  - split; (etransitivity; [apply getAttribute_classes|]); apply getAttribute_classes.
Qed.

Lemma tab_attributes e p d x k : is_Some (d !! e) ->
  getAttribute (activated e p d) x k =
    (if bool_decide (x = e) && str_eqb k "aria-selected" then Some "true"
     else if bool_decide (x = e) && str_eqb k "tabindex" then None else getAttribute d x k) /\
  getAttribute (deactivated e p d) x k =
    (if bool_decide (x = e) && str_eqb k "tabindex" then Some "-1"
     else if bool_decide (x = e) && str_eqb k "aria-selected" then Some "false" else getAttribute d x k).
Proof.
  intros He. destruct (changes_classes movable stateAttributes e "active" d eq_refl) as [S1 S2]. unfold activated, deactivated.
  rewrite !getAttribute_set, getAttribute_remove, (proj1 (panel_attribute _ _ _ _)), (proj2 (panel_attribute _ _ _ _)).
  rewrite (proj1 (getAttribute_classes _ _ _ _ _)), (proj2 (getAttribute_classes _ _ _ _ _)).
  assert (He' : forall d', tabStep d d' -> bool_decide (is_Some (d' !! e)) = true).
  { intros d' S. apply bool_decide_eq_true. by apply (some_step d). }
  assert (P1 : tabStep d (panelOn p (classList_add e ["active"] d))) by (etransitivity; [exact S1|apply panel_step]).
  assert (P2 : tabStep d (panelOff p (classList_remove e ["active"] d))) by (etransitivity; [exact S2|apply panel_step]).
  rewrite !He', !andb_true_r; try done; 
    (transitivity (panelOn p (classList_add e ["active"] d)); [exact P1|by apply (changes_attribute movable stateAttributes e "tabindex" "")]) ||
    (transitivity (panelOff p (classList_remove e ["active"] d)); [exact P2|by apply (changes_attribute movable stateAttributes e "aria-selected" "false")]).
Qed.

Lemma complete_panel p s : isTab (t_page s) p = false ->
  complete (Activated p) s = set_page (classList_add p ["show"] (t_page s)) s /\
  complete (Deactivated p) s = set_page (classList_remove p ["show"] (t_page s)) s.
Proof. intros R. unfold complete. by rewrite R. Qed.

Lemma getAttribute_add d e cs x k : getAttribute (classList_add e cs d) x k = getAttribute d x k.
Proof. apply getAttribute_classes. Qed.
Lemma getAttribute_removeClass d e cs x k : getAttribute (classList_remove e cs d) x k = getAttribute d x k.
Proof. apply getAttribute_classes. Qed.

Lemma show_added d p x : is_Some (d !! p) ->
  hasClass (classList_add p ["show"] d) x "show" = hasClass d x "show" || bool_decide (x = p).
Proof. intros Hp. by rewrite hasClass_add, (bool_decide_true (is_Some _)), !andb_true_r. Qed.
Lemma show_removed d p x : hasClass (classList_remove p ["show"] d) x "show" = hasClass d x "show" && negb (bool_decide (x = p)).
Proof. by rewrite hasClass_remove, andb_true_r. Qed.

(** [settle] is what both panels' transitions do, in whichever order they end. *)
Lemma settle_panels pa pb q s : pa <> pb -> is_Some (t_page s !! pa) -> is_Some (t_page s !! pb) ->
  isTab (t_page s) pa = false -> isTab (t_page s) pb = false ->
  q ≡ₚ waiting (t_page s) pa (Deactivated pa) ++ waiting (t_page s) pb (Activated pb) ->
  let s' := settle q s in
  t_log s' = t_log s /\
  (forall x k, getAttribute (t_page s') x k = getAttribute (t_page s) x k) /\
  (forall x, hasClass (t_page s') x "active" = hasClass (t_page s) x "active") /\
  (forall x, hasClass (t_page s') x "show" =
     (hasClass (t_page s) x "show" && negb (bool_decide (x = pa) && hasClass (t_page s) pa "fade")) ||
     bool_decide (x = pb) && hasClass (t_page s) pb "fade").
Proof.
  intros Hne Ha Hb Ra Rb Hq. cbv zeta. set (d := t_page s) in *.
  destruct (changes_classes movable stateAttributes pa "show" d eq_refl) as [_ Sa]. destruct (changes_classes movable stateAttributes pb "show" d eq_refl) as [Sb _].
  assert (E1 : settle [Deactivated pa; Activated pb] s = set_page (classList_add pb ["show"] (classList_remove pa ["show"] d)) (set_queue [] s)).
  { unfold settle. cbn [fold_left]. rewrite (proj2 (complete_panel pa (set_queue [] s) Ra)).
    etransitivity; [apply complete_panel; cbn; by rewrite (isTab_step d)|done]. }
  assert (E2 : settle [Activated pb; Deactivated pa] s = set_page (classList_remove pa ["show"] (classList_add pb ["show"] d)) (set_queue [] s)).
  { unfold settle. cbn [fold_left]. rewrite (proj1 (complete_panel pb (set_queue [] s) Rb)).
    etransitivity; [apply complete_panel; cbn; by rewrite (isTab_step d)|done]. }
  unfold waiting in *. destruct (hasClass d pa "fade"), (hasClass d pb "fade"); cbn [app] in Hq.
  - pose proof (proj2 (some_step _ _ pb Sa) Hb) as Hb'.
    apply Permutation_sym, Permutation_length_2_inv in Hq as [-> | ->]; [rewrite E1|rewrite E2]; cbn [t_page t_log set_page set_queue].
    all: split_and!; [done|intros x k; by rewrite ?getAttribute_add, ?getAttribute_removeClass, ?getAttribute_add|
      intros x; autorewrite with js; by rewrite !andb_false_r, orb_false_r, andb_true_r|].
    all: intros x; rewrite ?show_added, ?show_removed, ?show_added by done; destruct (decide (x = pa)) as [->|].
    all: rewrite ?(bool_decide_false (pa = pb)), ?(bool_decide_true (pa = pa)), ?(bool_decide_false (x = pa)) by done.
    all: by rewrite ?andb_true_r, ?andb_false_r, ?orb_false_r.
  - apply Permutation_sym, Permutation_length_1_inv in Hq as ->. unfold settle. cbn [fold_left].
    rewrite (proj2 (complete_panel pa (set_queue [] s) Ra)). cbn [t_page t_log set_page set_queue].
    split_and!; [done|intros x k; apply getAttribute_removeClass|intros x; autorewrite with js; by rewrite andb_false_r, andb_true_r|].
    intros x. by rewrite show_removed, andb_true_r, andb_false_r, orb_false_r.
  - apply Permutation_sym, Permutation_length_1_inv in Hq as ->. unfold settle. cbn [fold_left].
    rewrite (proj1 (complete_panel pb (set_queue [] s) Rb)). cbn [t_page t_log set_page set_queue].
    split_and!; [done|intros x k; apply getAttribute_add|intros x; autorewrite with js; by rewrite andb_false_r, orb_false_r|].
    intros x. rewrite show_added by done. by rewrite andb_false_r, !andb_true_r.
  - apply Permutation_sym, Permutation_nil in Hq as ->. cbn. split_and!; try done. intros x. by rewrite !andb_false_r, orb_false_r, andb_true_r.
Qed.

(** Two tabs of a list, each with its panel. *)
Record switch (s : state) (a pa b pb : nat) : Prop := {
  sw_old : tabWith (t_page s) a pa;
  sw_new : tabWith (t_page s) b pb;
  sw_distinct : NoDup [a; pa; b; pb];
  sw_inactive : hasClass (t_page s) b "active" = false;
  sw_active : _getActiveElem (t_page s) (parentOf s b) = Ok (Some a);
  sw_queue : t_queue s = []
}.

(** The state right after [show]. *)
Definition switched (s : state) (a pa b pb : nat) : state :=
  let d := deactivated a pa (t_page s) in
  State (activated b pb d) (t_instances s) (t_focus (blur pa (blur a s)))
    (waiting (t_page s) pa (Deactivated pa) ++ waiting (t_page s) pb (Activated pb))
    (t_log s ++ [(a, EVENT_HIDE); (b, EVENT_SHOW); (a, EVENT_HIDDEN); (b, EVENT_SHOWN)]).

Lemma fuel_two s e : is_Some (t_page s !! e) -> exists n, linkFuel s = S (S n).
Proof.
  intros [x Hx]. unfold linkFuel. destruct (size (t_page s)) as [|n] eqn:E; [|by exists n].
  apply map_size_empty_iff in E. rewrite E in Hx. by rewrite lookup_empty in Hx.
Qed.

Lemma show_eq prevents s a pa b pb : switch s a pa b pb ->
  prevents (t_log s) a EVENT_HIDE = false -> prevents (t_log s ++ [(a, EVENT_HIDE)]) b EVENT_SHOW = false ->
  show root prevents b s = Ok (switched s a pa b pb).
Proof.
  intros [Ta Tb _ Hi Ha Hq] P1 P2. unfold show, _elemIsActive. rewrite Hi, Ha. cbn [mbind res_bind t_log log_event].
  rewrite P1, P2. cbn [orb]. set (s1 := log_event b EVENT_SHOW _).
  destruct (fuel_two s1 a) as [n ->]; [apply Ta|]. rewrite (deactivate_eq n a pa) by done. cbn [mbind res_bind].
  destruct (activated_step a pa (t_page s)) as [_ S].
  set (s2 := State (deactivated a pa (t_page s1)) _ _ _ _).
  destruct (fuel_two s2 b) as [m ->]; [by apply (some_step _ _ _ S), Tb|].
  rewrite (activate_eq m b pb) by (by apply (tabWith_step _ _ _ _ S)). unfold switched. f_equal.
  cbn [s1 s2 t_page t_instances t_focus t_queue t_log log_event]. rewrite Hq. f_equal.
  - unfold blur. cbn. by repeat case_decide.
  - unfold waiting. cbn. by rewrite (ch_class _ _ _ _ S).
  - by rewrite <- !app_assoc.
Qed.

Lemma switched_step s a pa b pb : tabStep (t_page s) (t_page (switched s a pa b pb)).
Proof. etransitivity; [apply (activated_step a pa)|apply activated_step]. Qed.

Lemma nodup_four (a b c e : nat) : NoDup [a; b; c; e] -> a <> b /\ a <> c /\ a <> e /\ b <> c /\ b <> e /\ c <> e.
Proof. rewrite !NoDup_cons, !not_elem_of_cons. tauto. Qed.

Lemma switched_page s a pa b pb : switch s a pa b pb ->
  let d := t_page s in
  let d' := t_page (switched s a pa b pb) in
  (forall x, hasClass d' x "active" =
     bool_decide (x = b) || bool_decide (x = pb) ||
     hasClass d x "active" && negb (bool_decide (x = a)) && negb (bool_decide (x = pa))) /\
  (forall x, hasClass d' x "show" =
     hasClass d x "show" && negb (bool_decide (x = pa) && negb (hasClass d pa "fade")) ||
     bool_decide (x = pb) && negb (hasClass d pb "fade")) /\
  getAttribute d' a "aria-selected" = Some "false" /\ getAttribute d' a "tabindex" = Some "-1" /\
  getAttribute d' b "aria-selected" = Some "true" /\ getAttribute d' b "tabindex" = None.
Proof.
  intros [Ta Tb Hd _ _ _]. apply nodup_four in Hd as (_ & Hab & _). destruct (activated_step a pa (t_page s)) as [_ S].
  pose proof (tabWith_step _ _ _ _ S Tb) as Tb'. cbn [switched t_page].
  pose proof (fun x => tab_classes a pa (t_page s) x (tw_tab _ _ _ Ta) (tw_panel _ _ _ Ta)) as Fa.
  pose proof (fun x => tab_classes b pb _ x (tw_tab _ _ _ Tb') (tw_panel _ _ _ Tb')) as Fb.
  pose proof (fun x k => tab_attributes a pa (t_page s) x k (tw_tab _ _ _ Ta)) as Aa.
  pose proof (fun x k => tab_attributes b pb _ x k (tw_tab _ _ _ Tb')) as Ab.
  split_and!.
  - intros x. rewrite (proj1 (Fb x)), (proj1 (proj2 (Fa x))). destruct (bool_decide (x = b)), (bool_decide (x = pb));
      by rewrite ?orb_true_r, ?orb_false_r.
  - intros x. destruct (Fb x) as (_ & _ & -> & _), (Fa x) as (_ & _ & _ & ->). by rewrite (ch_class _ _ _ _ S).
  - rewrite (proj1 (Ab a _)), bool_decide_false by done. cbn [andb]. by rewrite (proj2 (Aa a _)), bool_decide_true.
  - rewrite (proj1 (Ab a _)), bool_decide_false by done. cbn [andb]. by rewrite (proj2 (Aa a _)), bool_decide_true.
  - by rewrite (proj1 (Ab b _)), bool_decide_true.
  - by rewrite (proj1 (Ab b _)), bool_decide_true.
Qed.
End switching.
End Tab.

(** C28: choosing a tab of a list announces [hide] and [show], and unless one of them is
    prevented moves the active state from the old tab and its panel to the new ones and from no
    other element; [aria-selected] and [tabindex] follow. Once the fading panels have ended their
    transitions, in whichever order, the new panel shows and the old one does not. *)
Theorem tab_show_switches `{B : Browser} (root : nat) (prevents : list (nat * string) -> nat -> string -> bool)
    (s : Tab.state) (a pa b pb : nat) :
  (forall d d' x sel, Tab.tabStep d d' -> sel = Tab.SELECTOR_OUTER \/ (exists e, getSelector d e = Some sel) ->
     matches d' x sel = matches d x sel) ->
  Tab.switch root s a pa b pb ->
  prevents (Tab.t_log s) a Tab.EVENT_HIDE = false ->
  prevents (Tab.t_log s ++ [(a, Tab.EVENT_HIDE)]) b Tab.EVENT_SHOW = false ->
  exists s', Tab.show root prevents b s = Ok s' /\
    Tab.t_log s' = Tab.t_log s ++ [(a, Tab.EVENT_HIDE); (b, Tab.EVENT_SHOW); (a, Tab.EVENT_HIDDEN); (b, Tab.EVENT_SHOWN)] /\
    forall q, q ≡ₚ Tab.t_queue s' ->
      let d := Tab.t_page s in
      let d' := Tab.t_page (Tab.settle q s') in
      (forall x, hasClass d' x "active" =
         bool_decide (x = b) || bool_decide (x = pb) ||
         hasClass d x "active" && negb (bool_decide (x = a)) && negb (bool_decide (x = pa))) /\
      (forall x, hasClass d' x "show" = bool_decide (x = pb) || hasClass d x "show" && negb (bool_decide (x = pa))) /\
      getAttribute d' a "aria-selected" = Some "false" /\ getAttribute d' a "tabindex" = Some "-1" /\
      getAttribute d' b "aria-selected" = Some "true" /\ getAttribute d' b "tabindex" = None.
Proof.
  intros css W P1 P2. exists (Tab.switched s a pa b pb). split; [by apply Tab.show_eq|]. split; [done|]. intros q Hq.
  destruct (Tab.switched_page root css s a pa b pb W) as (F1 & F2 & F3). cbv zeta.
  destruct W as [Ta Tb Hd _ _ _]. apply Tab.nodup_four in Hd as (_ & _ & _ & _ & Hne & _).
  pose proof (Tab.switched_step s a pa b pb) as S.
  destruct (Tab.settle_panels pa pb q (Tab.switched s a pa b pb) Hne) as (_ & E2 & E3 & E4).
  - by apply (Tab.some_step _ _ _ S), Ta.
  - by apply (Tab.some_step _ _ _ S), Tb.
  - rewrite (Tab.isTab_step _ _ _ S). apply Ta.
  - rewrite (Tab.isTab_step _ _ _ S). apply Tb.
  - rewrite Hq. cbn [Tab.switched Tab.t_queue]. unfold Tab.waiting. by rewrite !(ch_class _ _ _ _ S).
  - rewrite !E2. split; [|split; [|done]]; intros x; [by rewrite E3, F1|].
    rewrite E4, F2, !(ch_class _ _ _ _ S) by done.
    destruct (decide (x = pa)) as [->|]; [rewrite (bool_decide_false (pa = pb)) by done|rewrite (bool_decide_false (x = pa)) by done];
      destruct (hasClass _ pa "fade"), (hasClass _ pb "fade"), (hasClass _ _ "show"), (bool_decide _); done.
Qed.

(** A list (1) of two tabs (2, 3) with fading panels (4, 5). *)
Definition tabBrowser : Browser :=
  Build_Browser (fun d x sel =>
    if str_eqb sel Tab.SELECTOR_INNER_ELEM then hasClass d x "nav-link"
    else if str_eqb sel Tab.SELECTOR_TAB_PANEL then hasClass d x "nav"
    else if str_eqb sel Tab.SELECTOR_OUTER then hasClass d x "nav-item"
    else ostr_eqb (option_map (String "#") (getAttribute d x "id")) (Some sel))
  (fun _ _ => 1) (fun _ _ => "visible") None.

Definition tabPage : gmap nat node :=
  {[0 := Node "HTML" [] [] [] None [1; 4; 5] None;
    1 := Node "DIV" ["nav"] [] [] (Some 0) [2; 3] None;
    2 := Node "BUTTON" ["nav-link"; "active"] [("data-bs-target", "#home")] [] (Some 1) [] (Some false);
    3 := Node "BUTTON" ["nav-link"] [("data-bs-target", "#list")] [] (Some 1) [] (Some false);
    4 := Node "DIV" ["tab-pane"; "fade"; "show"; "active"] [("id", "home")] [] (Some 0) [] None;
    5 := Node "DIV" ["tab-pane"; "fade"] [("id", "list")] [] (Some 0) [] None]}.

Definition tab0 : Tab.state :=
  match @Tab.getOrCreateInstance tabBrowser 0 3 (Tab.State tabPage ∅ (Some 2) [] []) with
  | Ok s => s
  | Err _ => Tab.State ∅ ∅ None [] []
  end.

Lemma tabBrowser_css d d' x sel : Tab.tabStep d d' -> @matches tabBrowser d' x sel = @matches tabBrowser d x sel.
Proof. intros S. cbn [matches tabBrowser]. by rewrite !(ch_class _ _ _ _ S), (ch_attr _ _ _ _ S). Qed.

Lemma tab_show_switches_witness :
  exists s', @Tab.show tabBrowser 0 (fun _ _ _ => false) 3 tab0 = Ok s' /\
    hasClass (Tab.t_page (@Tab.settle tabBrowser [Tab.Activated 5; Tab.Deactivated 4] s')) 5 "show" = true /\
    hasClass (Tab.t_page (@Tab.settle tabBrowser [Tab.Activated 5; Tab.Deactivated 4] s')) 4 "show" = false.
Proof.
  destruct (@tab_show_switches tabBrowser 0 (fun _ _ _ => false) tab0 2 4 3 5) as (s' & E & _ & F).
  - intros d d' x sel S _. by apply tabBrowser_css.
  - split; [split; vm_compute; eauto|split; vm_compute; eauto| |reflexivity|vm_compute; reflexivity|reflexivity].
    apply (bool_decide_unpack _). vm_compute. exact I.
  - reflexivity.
  - reflexivity.
  - exists s'. split; [exact E|]. destruct (F [Tab.Activated 5; Tab.Deactivated 4]) as (_ & G & _).
    + vm_compute in E. injection E as <-. apply perm_swap.
    + split; rewrite G; vm_compute; reflexivity.
Defined.
