(* ===== verification/BsSanitizer.v ===== *)
(** Bootstrap's sanitizer: markup that a caller passes is parsed into a document of its own, and
    elements and attributes that are not on a list are removed from it. *)
From Stdlib Require Import Ascii Lia.
From S2P Require Import Prelude BsCore BsDom BsConfig.

Local Open Scope nat_scope.

(** ** Documents *)

#[local] Set Warnings "-register-all".
(** A node of a parsed document; elements are objects with an identity. *)
Inductive dom :=
  | Text (data : string)
  | Element (id : nat) (nodeName : string) (attributes : obj string) (childNodes : list dom).

Section dom_induction.
Variables (P : dom -> Prop) (Q : list dom -> Prop).
Hypotheses (HT : forall s, P (Text s)) (HE : forall id n a l, Q l -> P (Element id n a l))
  (HN : Q []) (HC : forall t l, P t -> Q l -> Q (t :: l)).

Fixpoint dom_tree_ind (t : dom) : P t :=
  match t with
  | Text s => HT s
  | Element id n a l =>
      HE id n a l ((fix go (l : list dom) : Q l :=
                      match l with [] => HN | t :: l => HC t l (dom_tree_ind t) (go l) end) l)
  end.

Lemma forest_ind (l : list dom) : Q l.
Proof. induction l as [|t l IH]; [exact HN|apply HC; [apply dom_tree_ind|exact IH]]. Qed.
End dom_induction.

(** Elements are the trees of a forest, in document order, as [querySelectorAll('*')]. *)
Fixpoint treeElements (t : dom) : list (nat * string * obj string) :=
  match t with
  | Text _ => []
  | Element id n a l => (id, n, a) :: flat_map treeElements l
  end.
Definition elementsOf (l : list dom) : list (nat * string * obj string) := flat_map treeElements l.
Definition elementIds (l : list dom) : list nat := map (fun x => fst (fst x)) (elementsOf l).

(** An element object with what it holds now. *)
Definition lookupElement (e : nat) (l : list dom) : option (string * obj string) :=
  match List.find (fun x => fst (fst x) =? e) (elementsOf l) with
  | Some (_, n, a) => Some (n, a)
  | None => None
  end.

Fixpoint subtree (e : nat) (t : dom) : list dom :=
  match t with
  | Text _ => []
  | Element id n a l => if id =? e then [t] else flat_map (subtree e) l
  end.

(** The tree without the element, with everything below it. *)
Fixpoint without (e : nat) (t : dom) : list dom :=
  match t with
  | Text s => [Text s]
  | Element id n a l => if id =? e then [] else [Element id n a (flat_map (without e) l)]
  end.

Fixpoint changeAttributes (e : nat) (f : obj string -> obj string) (t : dom) : dom :=
  match t with
  | Text s => Text s
  | Element id n a l => Element id n (if id =? e then f a else a) (map (changeAttributes e f) l)
  end.

(** The document being cleaned, and the trees that have been taken out of it, which the code
    still goes through. *)
Record document := Document { body : list dom; detached : list dom }.

(** [element.remove()] *)
Definition remove (e : nat) (d : document) : document :=
  Document (flat_map (without e) (body d))
    (flat_map (without e) (detached d) ++ flat_map (subtree e) (body d ++ detached d)).

(** [element.removeAttribute(name)] *)
Definition removeAttributeNode (e : nat) (name : string) (d : document) : document :=
  let f := changeAttributes e (odelete name) in Document (map f (body d)) (map f (detached d)).

(** ** What is allowed *)

(** An entry of a list of allowed attributes: a name or a regular expression. *)
Inductive allowEntry := Name (s : string) | RegExp (test : string -> bool).

Definition wordOrDash (a : ascii) : bool :=
  is_lower a || is_upper a || is_digit a || Ascii.eqb a "_" || Ascii.eqb a "-".

(** A text that begins with "aria-" in any case and goes on with word characters and dashes. *)
Definition ARIA_ATTRIBUTE_PATTERN (s : string) : bool :=
  startsWith (toLowerCase s) "aria-" && str_all wordOrDash (str_skip 5 s).

Definition allowList := obj (list allowEntry).

Definition DefaultAllowlist : allowList :=
  [("*", [Name "class"; Name "dir"; Name "id"; Name "lang"; Name "role"; RegExp ARIA_ATTRIBUTE_PATTERN]);
   ("a", [Name "target"; Name "href"; Name "title"; Name "rel"]);
   ("area", []); ("b", []); ("br", []); ("col", []); ("code", []); ("dd", []); ("div", []); ("dl", []);
   ("dt", []); ("em", []); ("hr", []); ("h1", []); ("h2", []); ("h3", []); ("h4", []); ("h5", []);
   ("h6", []); ("i", []);
   ("img", [Name "src"; Name "srcset"; Name "alt"; Name "title"; Name "width"; Name "height"]);
   ("li", []); ("ol", []); ("p", []); ("pre", []); ("s", []); ("small", []); ("span", []); ("sub", []);
   ("sup", []); ("strong", []); ("u", []); ("ul", [])].

Definition uriAttributes : list string :=
  ["background"; "cite"; "href"; "itemtype"; "longdesc"; "poster"; "src"; "xlink:href"].

(** *** SAFE_URL_PATTERN

    The two alternatives of the expression: the class of each star excludes what has to follow
    it, so that the longest run is the only one to try. *)

Definition schemeChar (a : ascii) : bool :=
  is_lower a || is_upper a || is_digit a || Ascii.eqb a "+" || Ascii.eqb a "." || Ascii.eqb a "-".

(** Scheme characters up to a colon. *)
Fixpoint schemeEnd (s : string) : bool :=
  match s with
  | EmptyString => false
  | String a s => if schemeChar a then schemeEnd s else Ascii.eqb a ":"
  end.

(** Characters other than ampersand and colon, up to a slash, question or hash mark or the end. *)
Fixpoint pathEnd (s : string) : bool :=
  match s with
  | EmptyString => true
  | String a s =>
      if Ascii.eqb a "/" || Ascii.eqb a "?" || Ascii.eqb a "#" then true
      else if Ascii.eqb a "&" || Ascii.eqb a ":" then false else pathEnd s
  end.

Definition SAFE_URL_PATTERN (s : string) : bool :=
  negb (startsWith (toLowerCase s) "javascript:") &&
  (match s with String a s => schemeChar a && schemeEnd s | EmptyString => false end || pathEnd s).

Definition allowedAttribute (attribute : string * string) (allowedAttributeList : list allowEntry) : bool :=
  let attributeName := toLowerCase (fst attribute) in
  if existsb (fun x => match x with Name n => str_eqb n attributeName | RegExp _ => false end) allowedAttributeList then
    if in_strs attributeName uriAttributes then SAFE_URL_PATTERN (snd attribute) else true
  else existsb (fun x => match x with RegExp test => test attributeName | Name _ => false end) allowedAttributeList.

(** ** sanitizeHtml *)

(** The browser's parsers and serializer of markup: [DOMParser], and [innerHTML] written and read. *)
Class Markup := {
  parseFromString : string -> list dom;   (** the body of a new document *)
  parseFragment : string -> list dom;
  innerHTML : list dom -> string
}.

Section sanitizer.
Variable allow : allowList.
Implicit Types (d : document) (e : nat).

Definition nameAllowed (nodeName : string) : bool := in_strs (toLowerCase nodeName) (okeys allow).
Definition allowedAttributes (nodeName : string) : list allowEntry :=
  default [] (oget "*" allow) ++ default [] (oget (toLowerCase nodeName) allow).

(** The body of the loop over the elements. *)
Definition sanitizeElement d e : document :=
  match lookupElement e (body d ++ detached d) with
  | None => d
  | Some (nodeName, attributeList) =>
      if negb (nameAllowed nodeName) then remove e d
      else fold_left (fun d attribute =>
             if negb (allowedAttribute attribute (allowedAttributes nodeName))
             then removeAttributeNode e (fst attribute) d else d) attributeList d
  end.

Definition sanitizeDocument (l : list dom) : list dom :=
  body (fold_left sanitizeElement (elementIds l) (Document l [])).

Definition sanitizeHtml `{Markup} (unsafeHtml : string) (sanitizeFunction : option (string -> string)) : string :=
  if String.length unsafeHtml =? 0 then unsafeHtml
  else match sanitizeFunction with
       | Some f => f unsafeHtml
       | None => innerHTML (sanitizeDocument (parseFromString unsafeHtml))
       end.

(** ** What it amounts to *)

(** One walk that drops elements and attributes that are not allowed. *)
Fixpoint clean (t : dom) : list dom :=
  match t with
  | Text s => [Text s]
  | Element id n a l =>
      if nameAllowed n
      then [Element id n (List.filter (fun x => allowedAttribute x (allowedAttributes n)) a) (flat_map clean l)]
      else []
  end.

(** Cleaning only the elements of a list. *)
Fixpoint cleanSome (es : list nat) (t : dom) : list dom :=
  match t with
  | Text s => [Text s]
  | Element id n a l =>
      if bool_decide (id ∈ es) then
        if nameAllowed n
        then [Element id n (List.filter (fun x => allowedAttribute x (allowedAttributes n)) a) (flat_map (cleanSome es) l)]
        else []
      else [Element id n a (flat_map (cleanSome es) l)]
  end.

(** The attribute names of every element are distinct. *)
Definition attributesDistinct (l : list dom) : Prop := Forall (fun x => NoDup (okeys (snd x))) (elementsOf l).

Lemma elementsOf_cons t l : elementsOf (t :: l) = treeElements t ++ elementsOf l.
Proof. done. Qed.
Lemma elementsOf_app l l' : elementsOf (l ++ l') = elementsOf l ++ elementsOf l'.
Proof. apply flat_map_app. Qed.
Lemma elementsOf_element id n a l : elementsOf [Element id n a l] = (id, n, a) :: elementsOf l.
Proof. unfold elementsOf. cbn. by rewrite app_nil_r. Qed.

Lemma elementIds_app l l' : elementIds (l ++ l') = elementIds l ++ elementIds l'.
Proof. unfold elementIds. by rewrite elementsOf_app, map_app. Qed.

(** Each node is kept, or goes with everything below it: identities are never added. *)
Lemma cleanSome_ids es l : sublist (elementIds (flat_map (cleanSome es) l)) (elementIds l).
Proof.
  apply (forest_ind (fun t => sublist (elementIds (cleanSome es t)) (elementIds [t]))
           (fun l => sublist (elementIds (flat_map (cleanSome es) l)) (elementIds l))).
  - done.
  - intros id n a l' IH. cbn [cleanSome]. unfold elementIds at 2. rewrite elementsOf_element. cbn [map fst].
    destruct (bool_decide (id ∈ es)); [destruct (nameAllowed n)|].
    + unfold elementIds at 1. rewrite elementsOf_element. cbn. by apply sublist_skip.
    + apply sublist_nil_l.
    + unfold elementIds at 1. rewrite elementsOf_element. cbn. by apply sublist_skip.
  - done.
  - intros t l' Ht Hl. cbn [flat_map]. rewrite elementIds_app. change (t :: l') with ([t] ++ l'). rewrite elementIds_app.
    by apply sublist_app.
Qed.

(** *** The loop, one element at a time *)

Lemma filter_twice {A} (p : A -> bool) l : List.filter p (List.filter p l) = List.filter p l.
Proof. rewrite filter_filter. apply List.filter_ext. intros x. apply andb_diag. Qed.

Lemma cleanSome_more e es l : flat_map (cleanSome [e]) (flat_map (cleanSome es) l) = flat_map (cleanSome (e :: es)) l.
Proof.
  apply (forest_ind (fun t => flat_map (cleanSome [e]) (cleanSome es t) = cleanSome (e :: es) t)
           (fun l => flat_map (cleanSome [e]) (flat_map (cleanSome es) l) = flat_map (cleanSome (e :: es)) l)).
  - done.
  - intros id n a l' IH. cbn [cleanSome].
    assert (E : bool_decide (id ∈ e :: es) = bool_decide (id ∈ [e]) || bool_decide (id ∈ es)).
    { rewrite <- bool_decide_or. apply bool_decide_ext. rewrite list_elem_of_singleton, elem_of_cons. tauto. }
    rewrite E. destruct (bool_decide (id ∈ es)), (bool_decide (id ∈ [e])) eqn:Ee, (nameAllowed n) eqn:En; cbn;
      rewrite ?app_nil_r; cbn [cleanSome]; rewrite ?Ee, ?En, ?IH, ?filter_twice; done.
  - done.
  - intros t l' Ht Hl. cbn [flat_map]. by rewrite flat_map_app, Ht, Hl.
Qed.

Lemma cleanSome_nil l : flat_map (cleanSome []) l = l.
Proof.
  apply (forest_ind (fun t => cleanSome [] t = [t]) (fun l => flat_map (cleanSome []) l = l)); cbn [cleanSome flat_map].
  - done.
  - intros id n a l' IH. by rewrite IH.
  - done.
  - intros t l' Ht Hl. by rewrite Ht, Hl.
Qed.

Lemma cleanSome_all es l : (forall i, i ∈ elementIds l -> i ∈ es) -> flat_map (cleanSome es) l = flat_map clean l.
Proof.
  apply (forest_ind (fun t => (forall i, i ∈ elementIds [t] -> i ∈ es) -> cleanSome es t = clean t)
           (fun l => (forall i, i ∈ elementIds l -> i ∈ es) -> flat_map (cleanSome es) l = flat_map clean l)).
  - done.
  - intros id n a l' IH Hin. unfold elementIds in Hin. rewrite elementsOf_element in Hin. cbn [cleanSome clean].
    rewrite bool_decide_true by (apply Hin; by left). rewrite IH; [done|]. intros i Hi. apply Hin. by right.
  - done.
  - intros t l' Ht Hl Hin. change (t :: l') with ([t] ++ l') in Hin. rewrite elementIds_app in Hin. cbn [flat_map].
    rewrite Ht, Hl; [done|..]; intros i Hi; apply Hin, elem_of_app; tauto.
Qed.

(** What the entries of one identity have in common decides what cleaning it does. *)
Lemma without_clean e l : (forall n a, (e, n, a) ∈ elementsOf l -> nameAllowed n = false) ->
  flat_map (without e) l = flat_map (cleanSome [e]) l.
Proof.
  apply (forest_ind (fun t => (forall n a, (e, n, a) ∈ elementsOf [t] -> nameAllowed n = false) -> without e t = cleanSome [e] t)
    (fun l => (forall n a, (e, n, a) ∈ elementsOf l -> nameAllowed n = false) -> flat_map (without e) l = flat_map (cleanSome [e]) l)).
  - done.
  - intros id n a l' IH H. rewrite elementsOf_element in H. cbn [without cleanSome].
    destruct (Nat.eqb_spec id e) as [->|Hne].
    + rewrite bool_decide_true by (by left). rewrite (H n a) by (by left). done.
    + rewrite bool_decide_false by (by rewrite list_elem_of_singleton). rewrite IH; [done|]. intros n' a' Hin. eapply H. by right.
  - done.
  - intros t l' Ht Hl H. rewrite elementsOf_cons in H. cbn [flat_map]. rewrite Ht, Hl; [done|..]; intros n a Hin; eapply H, elem_of_app; [by right|].
    left. revert Hin. unfold elementsOf. cbn. by rewrite app_nil_r.
Qed.

Lemma change_clean e f l :
  (forall n a, (e, n, a) ∈ elementsOf l -> nameAllowed n = true /\ f a = List.filter (fun x => allowedAttribute x (allowedAttributes n)) a) ->
  map (changeAttributes e f) l = flat_map (cleanSome [e]) l.
Proof.
  set (good := fun l => forall n a, (e, n, a) ∈ elementsOf l ->
    nameAllowed n = true /\ f a = List.filter (fun x => allowedAttribute x (allowedAttributes n)) a).
  apply (forest_ind (fun t => good [t] -> [changeAttributes e f t] = cleanSome [e] t)
    (fun l => good l -> map (changeAttributes e f) l = flat_map (cleanSome [e]) l)).
  - done.
  - intros id n a l' IH H. unfold good in H. rewrite elementsOf_element in H. cbn [changeAttributes cleanSome].
    assert (good l') by (intros n' a' Hin; apply H; by right). rewrite IH by done.
    destruct (Nat.eqb_spec id e) as [->|Hne].
    + destruct (H n a) as [-> ->]; [by left|]. by rewrite bool_decide_true by (by left).
    + by rewrite bool_decide_false by (by rewrite list_elem_of_singleton).
  - done.
  - intros t l' Ht Hl H. unfold good in H. rewrite elementsOf_cons in H. cbn [map flat_map]. rewrite <- Ht, Hl; [done|..].
    + intros n a Hin. apply H, elem_of_app. by right.
    + intros n a Hin. apply H, elem_of_app. left. revert Hin. unfold elementsOf. cbn. by rewrite app_nil_r.
Qed.

Lemma change_change e f g t : changeAttributes e f (changeAttributes e g t) = changeAttributes e (fun a => f (g a)) t.
Proof.
  apply (dom_tree_ind (fun t => changeAttributes e f (changeAttributes e g t) = changeAttributes e (fun a => f (g a)) t)
    (fun l => map (changeAttributes e f) (map (changeAttributes e g) l) = map (changeAttributes e (fun a => f (g a))) l)).
  - done.
  - intros id n a l IH. cbn [changeAttributes]. rewrite IH. by destruct (id =? e).
  - done.
  - intros t' l Ht Hl. cbn [map]. by rewrite Ht, Hl.
Qed.

Lemma change_id e t : changeAttributes e (fun a => a) t = t.
Proof.
  apply (dom_tree_ind (fun t => changeAttributes e (fun a => a) t = t) (fun l => map (changeAttributes e (fun a => a)) l = l)).
  - done.
  - intros id n a l IH. cbn [changeAttributes]. rewrite IH. by destruct (id =? e).
  - done.
  - intros t' l Ht Hl. cbn [map]. by rewrite Ht, Hl.
Qed.

(** Removing one attribute after the other. *)
Definition strip (good : string * string -> bool) (l a : obj string) : obj string :=
  fold_left (fun a x => if negb (good x) then odelete (fst x) a else a) l a.

Lemma strip_body e good l d :
  body (fold_left (fun d x => if negb (good x) then removeAttributeNode e (fst x) d else d) l d) =
  map (changeAttributes e (strip good l)) (body d).
Proof.
  revert d. induction l as [|x l IH]; intros d; cbn [fold_left].
  - symmetry. rewrite <- (map_id (body d)) at 2. apply map_ext. intros t. apply change_id.
  - rewrite IH. unfold strip. cbn [fold_left]. destruct (good x); cbn [negb]; [done|]. cbn [removeAttributeNode body].
    rewrite map_map. apply map_ext. intros t. by rewrite change_change.
Qed.

Lemma odelete_filter {A} k (a : obj A) : odelete k a = List.filter (fun x => negb (str_eqb k (fst x))) a.
Proof. induction a as [|[k' v] a IH]; cbn; [done|]. rewrite IH. by destruct (str_eqb k k'). Qed.

Lemma filter_and {A} (p q : A -> bool) l : List.filter q (List.filter p l) = List.filter (fun x => p x && q x) l.
Proof. induction l as [|x l IH]; cbn; [done|]. destruct (p x); cbn; rewrite IH; done. Qed.

Lemma strip_filter good l a :
  strip good l a = List.filter (fun x => forallb (fun y => good y || negb (str_eqb (fst y) (fst x))) l) a.
Proof.
  revert a. induction l as [|y l IH]; intros a; unfold strip in *; cbn [fold_left].
  - cbn. induction a as [|x a IHa]; cbn; congruence.
  - rewrite IH. destruct (good y) eqn:Ey; cbn [negb].
    + apply filter_ext. intros x. cbn. by rewrite Ey.
    + rewrite odelete_filter, filter_and. apply filter_ext. intros x. cbn. by rewrite Ey.
Qed.

Lemma strip_self good a : NoDup (okeys a) -> strip good a a = List.filter good a.
Proof.
  intros Hnd. rewrite strip_filter. apply filter_ext_in. intros x Hx. apply eq_true_iff_eq. rewrite forallb_forall. split.
  - intros H. specialize (H x Hx). rewrite String.eqb_refl in H. by rewrite orb_false_r in H.
  - intros Hg y Hy. destruct (String.eqb_spec (fst y) (fst x)) as [E|]; [|by rewrite orb_true_r].
    assert (y = x) as ->; [|by rewrite Hg].
    apply list_elem_of_In, list_elem_of_lookup in Hx as [i Hi], Hy as [j Hj].
    assert (j = i) as ->; [|congruence]. apply (NoDup_lookup (okeys a) j i (fst x)); [done|..];
      unfold okeys; change (map fst a) with (fst <$> a); rewrite list_lookup_fmap, ?Hi, ?Hj; cbn; congruence.
Qed.

Lemma lookup_spec e l n a : lookupElement e l = Some (n, a) -> (e, n, a) ∈ elementsOf l.
Proof.
  unfold lookupElement. destruct (List.find _ _) as [[[i n'] a']|] eqn:E; [|done]. intros [= <- <-].
  apply find_some in E as [Hin He]. apply Nat.eqb_eq in He. cbn in He. subst. by apply list_elem_of_In.
Qed.

Lemma lookup_absent e l : lookupElement e l = None -> e ∉ elementIds l.
Proof.
  unfold lookupElement. destruct (List.find _ _) as [[[i n'] a']|] eqn:E; [done|]. intros _ Hin.
  apply list_elem_of_fmap in Hin as ([[i n] a] & He & Hin). cbn in He. subst i.
  apply list_elem_of_In in Hin. pose proof (find_none _ _ E _ Hin) as Hf. cbn in Hf. by rewrite Nat.eqb_refl in Hf.
Qed.

Lemma entry_unique l e n a n' a' :
  NoDup (elementIds l) -> (e, n, a) ∈ elementsOf l -> (e, n', a') ∈ elementsOf l -> n = n' /\ a = a'.
Proof.
  intros Hnd Hi Hj. apply list_elem_of_lookup in Hi as [i Hi], Hj as [j Hj].
  assert (i = j) as ->; [|split; congruence].
  apply (NoDup_lookup (elementIds l) i j e); [done|..]; unfold elementIds; change (map ?f ?x) with (f <$> x);
    rewrite list_lookup_fmap, ?Hi, ?Hj; done.
Qed.

Lemma entry_id l e n a : (e, n, a) ∈ elementsOf l -> e ∈ elementIds l.
Proof. intros H. apply list_elem_of_fmap. by exists (e, n, a). Qed.

Lemma find_in_app {A} (p : A -> bool) l l' :
  List.find p (l ++ l') = match List.find p l with Some x => Some x | None => List.find p l' end.
Proof. induction l as [|x l IH]; cbn; [done|]. by destruct (p x). Qed.

Lemma sanitizeElement_body d e : NoDup (elementIds (body d)) -> attributesDistinct (body d) ->
  body (sanitizeElement d e) = flat_map (cleanSome [e]) (body d).
Proof.
  intros Hnd Had. unfold sanitizeElement. destruct (lookupElement e (body d ++ detached d)) as [[n a]|] eqn:E.
  2: { apply lookup_absent in E. rewrite elementIds_app, elem_of_app in E. symmetry. rewrite <- without_clean.
       - rewrite <- (map_id (body d)) at 2. rewrite <- (map_ext _ _ (change_id e)). rewrite change_clean, <- without_clean; try done.
         all: intros n a Hin; apply entry_id in Hin; tauto.
       - intros n a Hin; apply entry_id in Hin; tauto. }
  assert (Same : forall n' a', (e, n', a') ∈ elementsOf (body d) -> n' = n /\ a' = a).
  { intros n' a' Hin. unfold lookupElement in E. rewrite elementsOf_app, find_in_app in E.
    destruct (List.find _ (elementsOf (body d))) as [[[i n1] a1]|] eqn:F.
    - injection E as <- <-. apply find_some in F as [F1 F2]. apply Nat.eqb_eq in F2. cbn in F2. subst i.
      apply list_elem_of_In in F1. by apply (entry_unique (body d) e).
    - apply list_elem_of_In in Hin. pose proof (find_none _ _ F _ Hin) as Hf. cbn in Hf. by rewrite Nat.eqb_refl in Hf. }
  destruct (nameAllowed n) eqn:En; cbn [negb].
  - rewrite strip_body. apply change_clean. intros n' a' Hin. destruct (Same n' a' Hin) as [-> ->]. split; [done|].
    apply strip_self. eapply (proj1 (Forall_forall _ _)) in Had; [|exact Hin]. exact Had.
  - cbn [remove body]. apply without_clean. intros n' a' Hin. by destruct (Same n' a' Hin) as [-> ->].
Qed.

Lemma cleanSome_entries es l i n a : (i, n, a) ∈ elementsOf (flat_map (cleanSome es) l) ->
  exists a0, (i, n, a0) ∈ elementsOf l /\ (a = a0 \/ a = List.filter (fun x => allowedAttribute x (allowedAttributes n)) a0).
Proof.
  set (ok := fun l l' => forall i n a, (i, n, a) ∈ elementsOf l' ->
    exists a0, (i, n, a0) ∈ elementsOf l /\ (a = a0 \/ a = List.filter (fun x => allowedAttribute x (allowedAttributes n)) a0)).
  revert i n a. apply (forest_ind (fun t => ok [t] (cleanSome es t)) (fun l => ok l (flat_map (cleanSome es) l))).
  - intros s i n a Hin. cbn in Hin. by apply elem_of_nil in Hin.
  - intros id n a l' IH. unfold ok in *. intros i n' a' Hin. rewrite elementsOf_element. cbn [cleanSome] in Hin.
    destruct (bool_decide (id ∈ es)); [destruct (nameAllowed n)|]; try rewrite elementsOf_element in Hin;
      try (by apply elem_of_nil in Hin); apply elem_of_cons in Hin as [[= -> -> ->]|Hin].
    1,3: exists a; split; [by left|tauto].
    all: destruct (IH i n' a' Hin) as (a0 & H & H'); exists a0; split; [by right|done].
  - intros i n a Hin. by apply elem_of_nil in Hin.
  - intros t l' Ht Hl i n a Hin. cbn [flat_map] in Hin. rewrite elementsOf_app in Hin. change (t :: l') with ([t] ++ l').
    rewrite elementsOf_app. setoid_rewrite elem_of_app. apply elem_of_app in Hin as [Hin|Hin];
      [destruct (Ht i n a Hin) as (a0 & H & H')|destruct (Hl i n a Hin) as (a0 & H & H')]; exists a0; tauto.
Qed.

Lemma filter_keys p (a : obj string) : NoDup (okeys a) -> NoDup (okeys (List.filter p a)).
Proof.
  induction a as [|[k v] a IH]; cbn; [done|]. intros [H1 H2]%NoDup_cons. destruct (p (k, v)); cbn; [|by apply IH].
  apply NoDup_cons. split; [|by apply IH]. intros Hin. apply H1. unfold okeys in *.
  apply list_elem_of_In, in_map_iff in Hin as (x & <- & Hx). apply filter_In in Hx as [Hx _].
  apply list_elem_of_In. by apply in_map.
Qed.

Lemma sanitizeDocument_clean l : NoDup (elementIds l) -> attributesDistinct l -> sanitizeDocument l = flat_map clean l.
Proof.
  intros Hnd Had. unfold sanitizeDocument. rewrite <- (cleanSome_all (rev (elementIds l) ++ [])).
  2: { intros i Hi. rewrite app_nil_r. apply list_elem_of_In. rewrite <- in_rev. by apply list_elem_of_In. }
  assert (H0 : body (Document l []) = flat_map (cleanSome []) l) by (by rewrite cleanSome_nil).
  revert H0. generalize (Document l []) as d, (@nil nat) as es. generalize (elementIds l) at 1 2 as todo.
  intros todo. induction todo as [|e ids IH]; intros d es Hd; [exact Hd|].
  cbn [fold_left rev]. rewrite <- app_assoc. apply IH. rewrite sanitizeElement_body, Hd.
  - apply cleanSome_more.
  - rewrite Hd. eapply sublist_NoDup; [|apply cleanSome_ids]. done.
  - rewrite Hd. apply Forall_forall. intros [[i n] a] Hin. apply cleanSome_entries in Hin as (a0 & Hin & Ha).
    pose proof (proj1 (Forall_forall _ _) Had _ Hin) as Hk. cbn in *. destruct Ha as [->| ->]; [done|by apply filter_keys].
Qed.
End sanitizer.

(** ** Addresses *)

Fixpoint str_filter (p : ascii -> bool) (s : string) : string :=
  match s with
  | EmptyString => EmptyString
  | String a s => if p a then String a (str_filter p s) else str_filter p s
  end.
Fixpoint str_dropWhile (p : ascii -> bool) (s : string) : string :=
  match s with
  | EmptyString => EmptyString
  | String a s' => if p a then str_dropWhile p s' else s
  end.

Definition controlOrSpace (a : ascii) : bool := Ascii.nat_of_ascii a <=? 32.
Definition tabOrNewline (a : ascii) : bool :=
  let n := Ascii.nat_of_ascii a in (n =? 9) || (n =? 10) || (n =? 13).

(** What the URL Standard reads of an attribute: not the control characters and spaces it begins
    with, and no tabs and newlines. *)
Definition urlText (s : string) : string := str_filter (fun a => negb (tabOrNewline a)) (str_dropWhile controlOrSpace s).

Definition pathMark (a : ascii) : bool := Ascii.eqb a "/" || Ascii.eqb a "?" || Ascii.eqb a "#".

Ltac all_chars a := destruct a as [[] [] [] [] [] [] [] []]; vm_compute; intros; try discriminate; auto.

Lemma control_ordinary a : controlOrSpace a = true -> pathMark a = false /\ Ascii.eqb a "&" || Ascii.eqb a ":" = false.
Proof. all_chars a. Qed.
Lemma tab_control a : tabOrNewline a = true -> controlOrSpace a = true.
Proof. all_chars a. Qed.
Lemma scheme_visible a : schemeChar a = true -> controlOrSpace a = false.
Proof. all_chars a. Qed.
Lemma lower_char a b : is_lower b = true -> ascii_lower a = b -> schemeChar a = true /\ pathMark a = false /\ Ascii.eqb a "&" || Ascii.eqb a ":" = false.
Proof.
  intros Hb <-. revert Hb. destruct a as [[] [] [] [] [] [] [] []]; vm_compute; intros H; try discriminate H; auto.
Qed.
Lemma lower_colon a : ascii_lower a = ":"%char -> a = ":"%char.
Proof. destruct a as [[] [] [] [] [] [] [] []]; vm_compute; intros H; try discriminate H; auto. Qed.

Lemma pathEnd_cons a s : pathEnd (String a s) = pathMark a || (negb (Ascii.eqb a "&" || Ascii.eqb a ":") && pathEnd s).
Proof. cbn [pathEnd]. fold (pathMark a). destruct (pathMark a), (Ascii.eqb a "&" || Ascii.eqb a ":"); done. Qed.

Lemma pathEnd_ordinary a s : controlOrSpace a = true -> pathEnd (String a s) = pathEnd s.
Proof. intros [H1 H2]%control_ordinary. by rewrite pathEnd_cons, H1, H2. Qed.

Lemma pathEnd_drop s : pathEnd (str_dropWhile controlOrSpace s) = pathEnd s.
Proof.
  induction s as [|a s IH]; [done|]. cbn [str_dropWhile]. destruct (controlOrSpace a) eqn:Ea; [|done].
  by rewrite IH, pathEnd_ordinary.
Qed.

Lemma pathEnd_filter s : pathEnd (str_filter (fun a => negb (tabOrNewline a)) s) = pathEnd s.
Proof.
  induction s as [|a s IH]; [done|]. cbn [str_filter]. destruct (tabOrNewline a) eqn:Ea; cbn [negb].
  - rewrite pathEnd_ordinary by (by apply tab_control). done.
  - by rewrite !pathEnd_cons, IH.
Qed.

Lemma prefix_cons a p s : startsWith s (String a p) = true -> exists s', s = String a s' /\ startsWith s' p = true.
Proof.
  unfold startsWith. destruct s as [|b s]; cbn; [done|]. destruct (ascii_dec a b) as [->|]; [|done]. eauto.
Qed.

Lemma prefix_same a s p : startsWith (String a s) (String a p) = startsWith s p.
Proof. unfold startsWith. cbn. by destruct (ascii_dec a a). Qed.

Lemma lower_prefix a p s : startsWith (toLowerCase s) (String a p) = true ->
  exists b s', s = String b s' /\ ascii_lower b = a /\ startsWith (toLowerCase s') p = true.
Proof.
  intros H. apply prefix_cons in H as (t & Ht & Hp). destruct s as [|b s]; [done|]. injection Ht as Hb Hs.
  exists b, s. split; [done|]. split; [done|]. unfold toLowerCase. by rewrite Hs.
Qed.

(** A text in small letters and a colon is no path. *)
Lemma pathEnd_scheme p s : str_all is_lower p = true -> startsWith (toLowerCase s) (p +:+ ":") = true -> pathEnd s = false.
Proof.
  revert s. induction p as [|a p IH]; intros s Hp H.
  - apply lower_prefix in H as (b & s' & -> & Hb & _). by apply lower_colon in Hb as ->.
  - cbn in Hp. apply andb_true_iff in Hp as [Ha Hp]. apply lower_prefix in H as (b & s' & -> & Hb & H).
    destruct (lower_char b a Ha Hb) as (_ & H1 & H2). rewrite pathEnd_cons, H1, H2. cbn. by apply IH.
Qed.

Lemma schemeEnd_filter p s : str_all is_lower p = true -> schemeEnd s = true ->
  startsWith (toLowerCase (str_filter (fun a => negb (tabOrNewline a)) s)) (p +:+ ":") = true ->
  startsWith (toLowerCase s) (p +:+ ":") = true.
Proof.
  revert s. induction p as [|a p IH]; intros s Hp Hs H; (destruct s as [|c s]; [done|]); cbn [schemeEnd] in Hs.
  - destruct (schemeChar c) eqn:Ec.
    + cbn [str_filter] in H. destruct (tabOrNewline c) eqn:Et.
      { apply tab_control in Et. by rewrite scheme_visible in Et. }
      cbn [negb] in H. apply lower_prefix in H as (b & s' & [= -> _] & Hb & _). apply lower_colon in Hb as ->. done.
    + apply Ascii.eqb_eq in Hs as ->. by destruct s.
  - cbn in Hp. apply andb_true_iff in Hp as [Ha Hp]. destruct (schemeChar c) eqn:Ec.
    + cbn [str_filter] in H. destruct (tabOrNewline c) eqn:Et.
      { apply tab_control in Et. by rewrite scheme_visible in Et. }
      cbn [negb] in H. apply lower_prefix in H as (b & s' & [= -> <-] & <- & H).
      change (startsWith (String (ascii_lower b) (toLowerCase s)) (String (ascii_lower b) (p +:+ ":")) = true).
      rewrite prefix_same. by apply IH.
    + apply Ascii.eqb_eq in Hs as ->. apply lower_prefix in H as (b & s' & [= <- _] & Hb & _). cbn in Hb. subst a. done.
Qed.

(** No address the pattern accepts is a script, however it is written. *)
Lemma safe_url_no_script s : SAFE_URL_PATTERN s = true -> startsWith (toLowerCase (urlText s)) "javascript:" = false.
Proof.
  unfold SAFE_URL_PATTERN. intros [H1 H2]%andb_true_iff. apply not_true_iff_false. intros Hs.
  apply orb_true_iff in H2 as [H2|H2].
  - destruct s as [|a s]; [done|]. apply andb_true_iff in H2 as [Ha He]. unfold urlText in Hs. cbn [str_dropWhile] in Hs.
    rewrite scheme_visible in Hs by done.
    apply (schemeEnd_filter "javascript") in Hs; [|done|cbn [schemeEnd]; by rewrite Ha].
    apply negb_true_iff in H1. change ("javascript" +:+ ":") with "javascript:" in Hs. by rewrite H1 in Hs.
  - pose proof (pathEnd_scheme "javascript" _ eq_refl Hs) as H. unfold urlText in H.
    rewrite pathEnd_filter, pathEnd_drop in H. congruence.
Qed.

(** ** What is left *)

Lemma clean_entries allow l i n a : (i, n, a) ∈ elementsOf (flat_map (clean allow) l) ->
  nameAllowed allow n = true /\ forallb (fun x => allowedAttribute x (allowedAttributes allow n)) a = true.
Proof.
  set (ok := fun l => forall i n a, (i, n, a) ∈ elementsOf l ->
    nameAllowed allow n = true /\ forallb (fun x => allowedAttribute x (allowedAttributes allow n)) a = true).
  revert i n a. apply (forest_ind (fun t => ok (clean allow t)) (fun l => ok (flat_map (clean allow) l))).
  - intros s i n a Hin. by apply elem_of_nil in Hin.
  - intros id n a l' IH i n' a' Hin. cbn [clean] in Hin. destruct (nameAllowed allow n) eqn:En; [|by apply elem_of_nil in Hin].
    rewrite elementsOf_element in Hin. apply elem_of_cons in Hin as [[= -> -> ->]|Hin]; [|by apply (IH i)].
    split; [done|]. apply forallb_forall. intros x Hx. by apply filter_In in Hx as [_ Hx].
  - intros i n a Hin. by apply elem_of_nil in Hin.
  - intros t l' Ht Hl i n a Hin. cbn [flat_map] in Hin. rewrite elementsOf_app in Hin.
    apply elem_of_app in Hin as [Hin|Hin]; [by apply (Ht i)|by apply (Hl i)].
Qed.

Lemma toLowerCase_idem s : toLowerCase (toLowerCase s) = toLowerCase s.
Proof.
  unfold toLowerCase. induction s as [|a s IH]; cbn; [done|]. f_equal; [|exact IH].
  destruct a as [[] [] [] [] [] [] [] []]; reflexivity.
Qed.

Lemma allowedAttributes_listed allow n x : In x (allowedAttributes allow n) -> In x (concat (map snd allow)).
Proof.
  assert (H : forall k, In x (default [] (oget k allow)) -> In x (concat (map snd allow))).
  { intros k. induction allow as [|[k' v] o IH]; cbn; [done|]. destruct (str_eqb k k'); cbn; rewrite in_app_iff; [tauto|].
    intros Hx. right. by apply IH. }
  unfold allowedAttributes. rewrite in_app_iff. intros [Hx|Hx]; by apply (H _ Hx).
Qed.

(** The attributes the default list lets through: listed by name, or [aria-] ones. *)
Lemma default_attribute n x : allowedAttribute x (allowedAttributes DefaultAllowlist n) = true ->
  (exists k, In (Name k) (concat (map snd DefaultAllowlist)) /\ toLowerCase (fst x) = k /\
             (in_strs k uriAttributes = true -> SAFE_URL_PATTERN (snd x) = true)) \/
  startsWith (toLowerCase (fst x)) "aria-" = true.
Proof.
  unfold allowedAttribute. destruct (existsb _ _) eqn:E.
  - intros H. apply existsb_exists in E as ([k|] & Hin & Hk); [|done]. apply String.eqb_eq in Hk as ->.
    left. exists (toLowerCase (fst x)). split; [by apply (allowedAttributes_listed _ n)|]. split; [done|]. intros Hu. by rewrite Hu in H.
  - intros H. apply existsb_exists in H as ([|test] & Hin & Ht); [done|]. right. apply allowedAttributes_listed in Hin.
    assert (test = ARIA_ATTRIBUTE_PATTERN) as ->.
    { revert Hin. cbn. intros H. repeat destruct H as [H|H]; try discriminate H; try done. by injection H as <-. }
    apply andb_true_iff in Ht as [Ht _]. by rewrite toLowerCase_idem in Ht.
Qed.

(** No attribute of the default list names a script: handlers and styles are not on it. *)
Definition scripting (attributeName : string) : bool :=
  startsWith attributeName "on" || in_strs attributeName ["style"; "srcdoc"; "action"; "formaction"; "xlink:href"].

(** An element with its name on the list, and none of its attributes a script. *)
Definition passive (x : nat * string * obj string) : Prop :=
  in_strs (toLowerCase (snd (fst x))) (okeys DefaultAllowlist) = true /\
  forall k v, (k, v) ∈ snd x ->
    scripting (toLowerCase k) = false /\
    (in_strs (toLowerCase k) uriAttributes = true -> startsWith (toLowerCase (urlText v)) "javascript:" = false).

Lemma default_names_passive k : In (Name k) (concat (map snd DefaultAllowlist)) -> scripting k = false.
Proof.
  intros H. assert (F : forallb (fun x => match x with Name k => negb (scripting k) | RegExp _ => true end)
    (concat (map snd DefaultAllowlist)) = true) by (vm_compute; reflexivity).
  rewrite forallb_forall in F. specialize (F _ H). cbn in F. by apply negb_true_iff in F.
Qed.

Lemma aria_passive s : startsWith s "aria-" = true -> scripting s = false /\ in_strs s uriAttributes = false.
Proof.
  intros H. apply prefix_cons in H as (s1 & -> & H). do 4 (apply prefix_cons in H as (? & -> & H)). done.
Qed.

Lemma clean_passive l : Forall passive (elementsOf (flat_map (clean DefaultAllowlist) l)).
Proof.
  apply Forall_forall. intros [[id n] a] Hin. apply clean_entries in Hin as [Hn Ha].
  split; [exact Hn|]. intros k v Hkv. rewrite forallb_forall in Ha. apply list_elem_of_In in Hkv.
  destruct (default_attribute n (k, v) (Ha _ Hkv)) as [(k' & Hk & E & Hu)|Hk]; cbn [fst snd] in *.
  - rewrite E. split; [by apply default_names_passive|]. intros H. by apply safe_url_no_script, Hu.
  - destruct (aria_passive _ Hk) as [H1 H2]. split; [done|]. by rewrite H2.
Qed.

(** C20: sanitizing, which removes elements and attributes one by one from a document that it
    goes through in a list made beforehand, gives what one walk gives that drops each element that
    is not allowed with all that it holds, and each attribute that is not allowed. *)
Theorem sanitizeHtml_cleans `{Markup} (allow : allowList) (unsafeHtml : string) :
  unsafeHtml <> "" -> NoDup (elementIds (parseFromString unsafeHtml)) -> attributesDistinct (parseFromString unsafeHtml) ->
  sanitizeHtml allow unsafeHtml None = innerHTML (flat_map (clean allow) (parseFromString unsafeHtml)).
Proof.
  intros Hne Hnd Had. unfold sanitizeHtml. destruct unsafeHtml as [|c s]; [done|]. cbn [String.length Nat.eqb].
  by rewrite sanitizeDocument_clean.
Qed.

(** What the default list leaves of a document has only elements on the list, no event
    handler, style or form attribute, and no address that the browser would run as a script,
    however it is capitalised or broken up with control characters. *)
Theorem default_sanitizer_safe (l : list dom) :
  NoDup (elementIds l) -> attributesDistinct l ->
  Forall passive (elementsOf (sanitizeDocument DefaultAllowlist l)).
Proof. intros Hnd Had. rewrite sanitizeDocument_clean by done. apply clean_passive. Qed.

(** A paragraph with a link, a picture with a handler, and a script. *)
Definition unsafeBody : list dom :=
  [Element 1 "P" [("class", "x"); ("onclick", "f()")]
     [Text "see "; Element 2 "A" [("href", "JavaScript:f()"); ("title", "t")] [Text "this"];
      Element 3 "A" [("HREF", "/help")] []];
   Element 4 "SCRIPT" [] [Text "f()"; Element 5 "B" [] []];
   Element 6 "IMG" [("src", "a.png"); ("onerror", "f()"); ("aria-label", "a")] []].

Definition demoMarkup : Markup := Build_Markup (fun _ => unsafeBody) (fun _ => []) (fun l => match elementIds l with [1; 2; 3; 6] => "ok" | _ => "" end).

Lemma unsafeBody_distinct : NoDup (elementIds unsafeBody) /\ attributesDistinct unsafeBody.
Proof.
  split; [apply (bool_decide_unpack _); vm_compute; exact I|].
  unfold attributesDistinct. repeat constructor; apply (bool_decide_unpack _); vm_compute; exact I.
Qed.

Lemma sanitizeHtml_cleans_witness : @sanitizeHtml DefaultAllowlist demoMarkup "<p>" None = "ok".
Proof.
  rewrite (@sanitizeHtml_cleans demoMarkup DefaultAllowlist "<p>"); [vm_compute; reflexivity|discriminate|apply unsafeBody_distinct|apply unsafeBody_distinct].
Defined.

Lemma default_sanitizer_safe_witness :
  elementsOf (sanitizeDocument DefaultAllowlist unsafeBody) =
    [(1, "P", [("class", "x")]); (2, "A", [("title", "t")]); (3, "A", [("HREF", "/help")]);
     (6, "IMG", [("src", "a.png"); ("aria-label", "a")])] /\
  startsWith (toLowerCase (urlText "/help")) "javascript:" = false.
Proof.
  split; [vm_compute; reflexivity|].
  pose proof (default_sanitizer_safe unsafeBody (proj1 unsafeBody_distinct) (proj2 unsafeBody_distinct)) as H.
  rewrite Forall_forall in H. destruct (H (3, "A", [("HREF", "/help")])) as [_ F].
  - apply list_elem_of_In. vm_compute. tauto.
  - apply (F "HREF" "/help"); [by left|reflexivity].
Defined.
