(* ===== verification/BsTemplate.v ===== *)
(** Bootstrap's [TemplateFactory]: the markup of a tooltip or popover, made from a template and
    the contents for its parts. *)
From Stdlib Require Import Ascii QArith Lia.
From S2P Require Import Prelude BsCore BsDom BsConfig BsSanitizer.

Local Open Scope nat_scope.

(** ** Values *)

(** What the caller supplies, and how values print. *)
Class Caller := {
  callFunction : nat -> value;          (** a function, called with the factory *)
  elementTree : nat -> dom;             (** an element of the page, with what it holds *)
  toText : value -> string              (** [String(v)] of other values *)
}.

(** [execute(arg, [this])] *)
Definition execute `{Caller} (v : value) : value := match v with VFunction f => callFunction f | _ => v end.

(** The first element below a node that a selector finds. *)
Class Query := { findIn : list dom -> string -> option nat }.

(** ** The wrapper of a template *)

Fixpoint textContent (t : dom) : string :=
  match t with
  | Text s => s
  | Element _ _ _ l => fold_right (fun t s => textContent t +:+ s) "" l
  end.

Fixpoint setChildren (e : nat) (l' : list dom) (t : dom) : dom :=
  match t with
  | Text s => Text s
  | Element id n a l => if id =? e then Element id n a l' else Element id n a (map (setChildren e l') l)
  end.

(** New elements get identities of their own. *)
Fixpoint renumber (base : nat) (t : dom) : dom :=
  match t with
  | Text s => Text s
  | Element id n a l => Element (base + id) n a (map (renumber base) l)
  end.
Definition nextId (l : list dom) : nat := S (list_max (elementIds l)).

Definition setTextContent (e : nat) (s : string) (wrapper : list dom) : list dom := map (setChildren e [Text s]) wrapper.
Definition setInnerHTML `{Markup} (e : nat) (html : string) (wrapper : list dom) : list dom :=
  map (setChildren e (map (renumber (nextId wrapper)) (parseFragment html))) wrapper.

(** [classList.add(...tokens)] *)
Definition classes (a : obj string) : list string :=
  List.filter str_truthy (split_char " " (str_map (fun c => if is_space c then " "%char else c) (default "" (oget "class" a)))).
Definition addToken (l : list string) (c : string) : list string := if in_strs c l then l else l ++ [c].
Definition classListAdd (tokens : list string) (a : obj string) : res (obj string) :=
  if existsb (fun c => str_eqb c "") tokens then Err (DOMException "SyntaxError")
  else if negb (forallb (str_all (fun c => negb (is_space c))) tokens) then Err (DOMException "InvalidCharacterError")
  else Ok (oset "class" (str_join " " (fold_left addToken tokens (fold_left addToken (classes a) []))) a).

Definition isElementNode (t : dom) : bool := match t with Element _ _ _ _ => true | Text _ => false end.

(** ** TemplateFactory *)

Record templateConfig := TemplateConfig {
  tc_allowList : allowList;
  tc_content : obj value;
  tc_extraClass : value;
  tc_html : bool;
  tc_sanitize : bool;
  tc_sanitizeFn : option (string -> string);
  tc_template : string
}.

Module TemplateFactory.

Definition NAME : string := "TemplateFactory".

Definition Default : templateConfig := TemplateConfig DefaultAllowlist [] (VStr "") false true None "<div></div>".

Definition DefaultType : obj string :=
  [("allowList", "object"); ("content", "object"); ("extraClass", "(string|function)"); ("html", "boolean");
   ("sanitize", "boolean"); ("sanitizeFn", "(null|function)"); ("template", "string")].

Definition DefaultContentType : obj string :=
  [("entry", "(string|element|function|null)"); ("selector", "(string|element)")].

Section factory.
Context `{Caller} `{Query} `{Markup}.
Implicit Types (c : templateConfig).

Definition _resolvePossibleFunction (arg : value) : value := execute arg.

Definition getContent c : list value :=
  List.filter value_truthy (map (fun kv => _resolvePossibleFunction (snd kv)) (tc_content c)).

Definition hasContent c : bool := 0 <? length (getContent c).

Definition _checkContent (arg : obj value) : res unit :=
  foldM (fun _ '(selector, content) =>
    typeCheckConfig NAME [("selector", VStr selector); ("entry", content)] DefaultContentType) arg tt.

(** The options as values, for the check of their types. *)
Definition asValues c : obj value :=
  [("allowList", VObj []); ("content", VObj (tc_content c)); ("extraClass", tc_extraClass c); ("html", VBool (tc_html c));
   ("sanitize", VBool (tc_sanitize c)); ("sanitizeFn", match tc_sanitizeFn c with Some _ => VFunction 0 | None => VNull end);
   ("template", VStr (tc_template c))].

Definition _typeCheckConfig c : res unit :=
  _ ← typeCheckConfig NAME (asValues c) DefaultType; _checkContent (tc_content c).

(** The constructor, on options merged with the defaults. *)
Definition construct c : res templateConfig := _ ← _typeCheckConfig c; Ok c.

Definition changeContent (content : obj value) c : res templateConfig :=
  _ ← _checkContent content;
  Ok (TemplateConfig (tc_allowList c) (oassign (tc_content c) content) (tc_extraClass c) (tc_html c) (tc_sanitize c)
        (tc_sanitizeFn c) (tc_template c)).

Definition _maybeSanitize c (arg : string) : string :=
  if tc_sanitize c then sanitizeHtml (tc_allowList c) arg (tc_sanitizeFn c) else arg.

(** A content that is neither text nor an element has no length, so the sanitizer returns it as it
    is; an array is parsed as its text. *)
Definition htmlOf c (content : value) : string :=
  match content with
  | VStr s => _maybeSanitize c s
  | VArr (_ :: _) => _maybeSanitize c (toText content)
  | _ => toText content
  end.

Definition _putElementInTemplate c (element : nat) (templateElement : nat) (wrapper : list dom) : list dom :=
  if tc_html c then map (setChildren templateElement [renumber (nextId wrapper) (elementTree element)]) wrapper
  else setTextContent templateElement (textContent (elementTree element)) wrapper.

Definition _setContent c (wrapper : list dom) (content : value) (selector : string) : list dom :=
  match findIn wrapper selector with
  | None => wrapper
  | Some templateElement =>
      let content := _resolvePossibleFunction content in
      if negb (value_truthy content) then flat_map (without templateElement) wrapper
      else
        match content with
        | VElement element => _putElementInTemplate c element templateElement wrapper
        | _ =>
            if tc_html c then setInnerHTML templateElement (htmlOf c content) wrapper
            else setTextContent templateElement (match content with VStr s => s | v => toText v end) wrapper
        end
  end.

(** The wrapper with its contents. *)
Definition filled c : list dom :=
  fold_left (fun wrapper '(selector, text) => _setContent c wrapper text selector) (tc_content c)
    (parseFragment (_maybeSanitize c (tc_template c))).

(** [None] is [undefined]: a template without an element. *)
Definition toHtml c : res (option dom) :=
  let template := List.find isElementNode (filled c) in
  let extraClass := _resolvePossibleFunction (tc_extraClass c) in
  if value_truthy extraClass then
    match template, extraClass with
    | Some (Element id n a l), VStr s => a ← classListAdd (split_char " " s) a; Ok (Some (Element id n a l))
    | _, _ => Err (TypeError "undefined")
    end
  else Ok template.
End factory.
End TemplateFactory.

(** ** What a template holds *)

(** What the theorems use of the browser: the elements of a parsed document are different objects with
    different attribute names, nothing is read from no text, and a passive document that is
    printed and read again is passive. *)
Class LawfulMarkup `{Markup} := {
  parse_ids s : NoDup (elementIds (parseFromString s));
  parse_attributes s : attributesDistinct (parseFromString s);
  parse_empty : parseFragment "" = [];
  reparse_passive l : Forall passive (elementsOf l) -> Forall passive (elementsOf (parseFragment (innerHTML l)))
}.

Abbreviation passiveForest l := (Forall passive (elementsOf l)).

Lemma passive_cons t l : passiveForest (t :: l) <-> Forall passive (treeElements t) /\ passiveForest l.
Proof. rewrite elementsOf_cons. apply Forall_app. Qed.

Lemma passive_element id n a l : Forall passive (treeElements (Element id n a l)) <-> passive (id, n, a) /\ passiveForest l.
Proof. cbn [treeElements]. apply Forall_cons. Qed.

Lemma passive_id i j n a : passive (i, n, a) -> passive (j, n, a).
Proof. done. Qed.

Lemma passive_setChildren e l' l : passiveForest l' -> passiveForest l -> passiveForest (map (setChildren e l') l).
Proof.
  intros H'. apply (forest_ind (fun t => Forall passive (treeElements t) -> Forall passive (treeElements (setChildren e l' t)))
    (fun l => passiveForest l -> passiveForest (map (setChildren e l') l))).
  - done.
  - intros id n a l0 IH [H1 H2]%passive_element. cbn [setChildren]. destruct (id =? e); apply passive_element; split; auto.
  - done.
  - intros t l0 Ht Hl [H1 H2]%passive_cons. cbn [map]. apply passive_cons. auto.
Qed.

Lemma passive_renumber base l : passiveForest l -> passiveForest (map (renumber base) l).
Proof.
  apply (forest_ind (fun t => Forall passive (treeElements t) -> Forall passive (treeElements (renumber base t)))
    (fun l => passiveForest l -> passiveForest (map (renumber base) l))).
  - done.
  - intros id n a l0 IH [H1 H2]%passive_element. cbn [renumber]. apply passive_element. split; auto.
  - done.
  - intros t l0 Ht Hl [H1 H2]%passive_cons. cbn [map]. apply passive_cons. auto.
Qed.

Lemma passive_without e l : passiveForest l -> passiveForest (flat_map (without e) l).
Proof.
  apply (forest_ind (fun t => Forall passive (treeElements t) -> passiveForest (without e t))
    (fun l => passiveForest l -> passiveForest (flat_map (without e) l))).
  - intros s _. constructor.
  - intros id n a l0 IH [H1 H2]%passive_element. cbn [without]. destruct (id =? e); [constructor|].
    apply passive_cons. split; [|constructor]. apply passive_element. auto.
  - constructor.
  - intros t l0 Ht Hl [H1 H2]%passive_cons. cbn [flat_map]. rewrite elementsOf_app. apply Forall_app. auto.
Qed.

(** Attributes that are never a script. *)
Definition harmless (k : string) : bool := negb (scripting (toLowerCase k)) && negb (in_strs (toLowerCase k) uriAttributes).

Lemma passive_set key id n a v : harmless key = true -> passive (id, n, a) -> passive (id, n, oset key v a).
Proof.
  intros [P1 P2]%andb_true_iff [H1 H2]. split; [done|]. cbn [snd fst] in *. intros k w Hkw.
  assert ((k, w) ∈ a \/ k = key) as [Hin| ->].
  - clear H1 H2. induction a as [|[k' v'] a IH]; cbn [oset] in Hkw.
    + apply list_elem_of_singleton in Hkw. right. congruence.
    + destruct (String.eqb_spec key k') as [<-|]; apply elem_of_cons in Hkw as [E|E].
      * right. congruence.
      * left. by right.
      * left. injection E as -> ->. by left.
      * destruct (IH E) as [|]; [left; by right|by right].
  - by apply H2.
  - apply negb_true_iff in P1, P2. rewrite P1, P2. done.
Qed.

Section safe.
Context `{Caller} `{Query} `{M : Markup} `{!LawfulMarkup}.
Variable c : templateConfig.
Hypotheses (Hs : tc_sanitize c = true) (Hf : tc_sanitizeFn c = None) (Ha : tc_allowList c = DefaultAllowlist).

Lemma sanitized_passive s : passiveForest (parseFragment (TemplateFactory._maybeSanitize c s)).
Proof.
  unfold TemplateFactory._maybeSanitize, sanitizeHtml. rewrite Hs, Hf, Ha. destruct s as [|a s]; cbn [String.length Nat.eqb].
  - rewrite parse_empty. constructor.
  - apply reparse_passive. rewrite sanitizeDocument_clean; [apply clean_passive|apply parse_ids|apply parse_attributes].
Qed.

(** A content that is a text, or nothing. *)
Definition plain (v : value) : Prop :=
  match execute v with VStr _ | VUndefined | VNull => True | _ => False end.

Lemma setContent_passive wrapper content selector : tc_html c = false \/ plain content ->
  passiveForest wrapper -> passiveForest (TemplateFactory._setContent c wrapper content selector).
Proof.
  intros Hp Hw. unfold TemplateFactory._setContent, TemplateFactory._resolvePossibleFunction, setTextContent, setInnerHTML.
  destruct (findIn wrapper selector) as [e|]; [|done]. unfold plain in Hp.
  destruct (value_truthy (execute content)) eqn:Et; cbn [negb]; [|by apply passive_without].
  destruct (tc_html c) eqn:Eh.
  - destruct Hp as [|Hp]; [done|]. destruct (execute content); try done; cbn [TemplateFactory.htmlOf].
    apply passive_setChildren; [apply passive_renumber, sanitized_passive|done].
  - destruct (execute content); unfold TemplateFactory._putElementInTemplate, setTextContent; rewrite ?Eh;
      (apply passive_setChildren; [constructor|done]).
Qed.

Lemma filled_passive : tc_html c = false \/ Forall (fun kv => plain (snd kv)) (tc_content c) ->
  passiveForest (TemplateFactory.filled c).
Proof.
  intros Hp. unfold TemplateFactory.filled. generalize (sanitized_passive (tc_template c)).
  generalize (parseFragment (TemplateFactory._maybeSanitize c (tc_template c))) as w.
  assert (G : Forall (fun kv => tc_html c = false \/ plain (snd kv)) (tc_content c)).
  { destruct Hp as [Hp|Hp]; [by apply Forall_true; auto|]. eapply Forall_impl; [exact Hp|]. intros x Hx. by right. }
  clear Hp. induction G as [|[k v] l Hx _ IH]; intros w Hw; cbn [fold_left]; [done|]. apply IH. by apply setContent_passive.
Qed.
End safe.

(** A template made with sanitizing on and the default list holds no script: neither its
    own markup nor texts it is filled with bring in an element, a handler or an address that would
    run one, whether texts count as markup or not. *)
Theorem toHtml_safe `{Caller} `{Query} `{M : Markup} `{!LawfulMarkup} (c : templateConfig) (t : dom) :
  tc_sanitize c = true -> tc_sanitizeFn c = None -> tc_allowList c = DefaultAllowlist ->
  tc_html c = false \/ Forall (fun kv => plain (snd kv)) (tc_content c) ->
  TemplateFactory.toHtml c = Ok (Some t) -> Forall passive (treeElements t).
Proof.
  intros Hs Hf Ha Hp. pose proof (filled_passive c Hs Hf Ha Hp) as Hw. unfold TemplateFactory.toHtml.
  assert (Ht : forall t, List.find isElementNode (TemplateFactory.filled c) = Some t -> Forall passive (treeElements t)).
  { intros t' Hin%find_some. destruct Hin as [Hin _]. apply list_elem_of_In in Hin.
    unfold elementsOf in Hw. apply Forall_forall. intros x Hx. rewrite Forall_forall in Hw. apply Hw.
    apply list_elem_of_In, in_flat_map. exists t'. by rewrite <- !list_elem_of_In. }
  destruct (value_truthy _); [|intros [= E]; by apply Ht].
  destruct (List.find isElementNode _) as [[|id n a l]|]; try done. destruct (TemplateFactory._resolvePossibleFunction _) as [| | | | |s| | | |]; try done.
  specialize (Ht _ eq_refl). apply passive_element in Ht as [P1 P2].
  unfold classListAdd. destruct (existsb _ _); [done|]. destruct (negb _); [done|]. cbn [mbind res_bind]. intros [= <-].
  apply passive_element. split; [by apply passive_set|done].
Qed.

(** A tooltip whose title has markup in it; the demonstration parser knows two texts. *)
Definition tooltipBody : list dom := [Element 1 "DIV" [("class", "tooltip")] [Element 2 "DIV" [("class", "tooltip-inner")] []]].
Definition titleBody : list dom := [Element 1 "B" [("onclick", "f()")] [Text "hi"]; Element 2 "SCRIPT" [] []].
Definition cleanTitle : list dom := flat_map (clean DefaultAllowlist) titleBody.

Definition templateMarkup : Markup :=
  Build_Markup (fun s => if str_eqb s "template" then tooltipBody else titleBody)
    (fun s => if str_eqb s "printed template" then tooltipBody else if str_eqb s "printed title" then cleanTitle else [])
    (fun l => match l with [Element _ "DIV" _ _] => "printed template" | [Element _ "B" _ _] => "printed title" | _ => "" end).

Lemma templateMarkup_lawful : @LawfulMarkup templateMarkup.
Proof.
  assert (D : forall l, In l [tooltipBody; titleBody] -> NoDup (elementIds l) /\ attributesDistinct l).
  { intros l Hl. repeat destruct Hl as [<-|Hl]; try done; (split; [apply (bool_decide_unpack _); vm_compute; exact I|]);
      unfold attributesDistinct; repeat constructor; apply (bool_decide_unpack _); vm_compute; exact I. }
  assert (K : forall s, In (@parseFromString templateMarkup s) [tooltipBody; titleBody]).
  { intros s. cbn [parseFromString templateMarkup]. repeat destruct (str_eqb _ _); cbn; tauto. }
  assert (P : passiveForest tooltipBody).
  { change tooltipBody with (flat_map (clean DefaultAllowlist) tooltipBody). apply clean_passive. }
  split; [intros s; apply D, K|intros s; apply D, K|reflexivity|].
  intros l _. cbn [parseFragment innerHTML templateMarkup].
  assert (H : forall s, In s ["printed template"; "printed title"; ""] ->
    passiveForest (if str_eqb s "printed template" then tooltipBody else if str_eqb s "printed title" then cleanTitle else [])).
  { intros s Hs. repeat destruct Hs as [<-|Hs]; cbn [String.eqb Ascii.eqb Bool.eqb orb]; [exact P|apply clean_passive|constructor|done]. }
  apply H. repeat case_match; cbn; tauto.
Qed.

Definition tooltipConfig : templateConfig :=
  TemplateConfig DefaultAllowlist [(".tooltip-inner", VStr "title")] (VStr "mine") true true None "template".
Definition demoCaller : Caller := Build_Caller (fun _ => VNull) (fun _ => Text "") (fun _ => "").
Definition demoQuery : Query := Build_Query (fun _ _ => Some 2).

Lemma toHtml_safe_witness :
  exists t, @TemplateFactory.toHtml demoCaller demoQuery templateMarkup tooltipConfig = Ok (Some t) /\
    Forall passive (treeElements t) /\ textContent t = "hi".
Proof.
  eexists. split; [vm_compute; reflexivity|]. split; [|vm_compute; reflexivity].
  apply (@toHtml_safe demoCaller demoQuery templateMarkup templateMarkup_lawful tooltipConfig); try reflexivity.
  right. repeat constructor.
Defined.
