(* ===== verification/BsTooltip.v ===== *)
(** Bootstrap's [Tooltip] and [Popover]: their options, and the life of a tip that is made, shown and
    taken away as triggers come and go. *)
From Stdlib Require Import Ascii QArith Lia.
From S2P Require Import Prelude BsCore BsDom BsConfig BsScrollBar BsSanitizer BsTemplate.

Local Open Scope nat_scope.

(** The two components: a popover is a tooltip with a header and a body. *)
Inductive component := TooltipClass | PopoverClass.

Module Tooltip.

Definition DISALLOWED_ATTRIBUTES : list string := ["sanitize"; "allowList"; "sanitizeFn"].
Definition SELECTOR_TOOLTIP_INNER : string := ".tooltip-inner".
Definition SELECTOR_MODAL : string := ".modal".
Definition EVENT_MODAL_HIDE : string := "hide.bs.modal".
Definition SELECTOR_TITLE : string := ".popover-header".
Definition SELECTOR_CONTENT : string := ".popover-body".

Definition NAME (k : component) : string := match k with TooltipClass => "tooltip" | PopoverClass => "popover" end.
Definition eventName (k : component) (name : string) : string := name +:+ ".bs." +:+ NAME k.

Definition attr (name v : string) : string := name +:+ "=" +:+ quoted v.
Definition div (a : string) : string := "<div " +:+ a +:+ "></div>".

(** ** Options *)

Section options.
(** The object [DefaultAllowlist] as a value. *)
Variable allowListValue : value.

Definition DefaultTooltip : obj value :=
  [("allowList", allowListValue); ("animation", VBool true); ("boundary", VStr "clippingParents"); ("container", VBool false);
   ("customClass", VStr ""); ("delay", VNum 0);
   ("fallbackPlacements", VArr [VStr "top"; VStr "right"; VStr "bottom"; VStr "left"]); ("html", VBool false);
   ("offset", VArr [VNum 0; VNum 6]); ("placement", VStr "top"); ("popperConfig", VNull); ("sanitize", VBool true);
   ("sanitizeFn", VNull); ("selector", VBool false);
   ("template", VStr ("<div " +:+ attr "class" "tooltip" +:+ " " +:+ attr "role" "tooltip" +:+ ">" +:+
      div (attr "class" "tooltip-arrow") +:+ div (attr "class" "tooltip-inner") +:+ "</div>"));
   ("title", VStr ""); ("trigger", VStr "hover focus")].

Definition DefaultTypeTooltip : obj string :=
  [("allowList", "object"); ("animation", "boolean"); ("boundary", "(string|element)"); ("container", "(string|element|boolean)");
   ("customClass", "(string|function)"); ("delay", "(number|object)"); ("fallbackPlacements", "array"); ("html", "boolean");
   ("offset", "(array|string|function)"); ("placement", "(string|function)"); ("popperConfig", "(null|object|function)");
   ("sanitize", "boolean"); ("sanitizeFn", "(null|function)"); ("selector", "(string|boolean)"); ("template", "string");
   ("title", "(string|element|function)"); ("trigger", "string")].

Definition Default (k : component) : obj value :=
  match k with
  | TooltipClass => DefaultTooltip
  | PopoverClass =>
      oassign DefaultTooltip
        [("content", VStr ""); ("offset", VArr [VNum 0; VNum 8]); ("placement", VStr "right");
         ("template", VStr ("<div " +:+ attr "class" "popover" +:+ " " +:+ attr "role" "tooltip" +:+ ">" +:+
            div (attr "class" "popover-arrow") +:+ "<h3 " +:+ attr "class" "popover-header" +:+ "></h3>" +:+
            div (attr "class" "popover-body") +:+ "</div>"));
         ("trigger", VStr "click")]
  end.

Definition DefaultType (k : component) : obj string :=
  match k with
  | TooltipClass => DefaultTypeTooltip
  | PopoverClass => oassign DefaultTypeTooltip [("content", "(null|string|element|function)")]
  end.

Context `{B : Browser} `{C : Caller}.
Variable parseJson : string -> option value.
Variables root bodyElement : nat.

Definition numberText (key : string) (config : obj value) : obj value :=
  match oget key config with
  | Some (VNum q) => oset key (VStr (toText (VNum q))) config
  | Some VNaN => oset key (VStr (toText VNaN)) config
  | _ => config
  end.

Definition _configAfterMerge (d : gmap nat node) (config : obj value) : obj value :=
  let container := match oget "container" config with
                   | Some (VBool false) => VElement bodyElement
                   | v => match getElement root d (default VUndefined v) with Some e => VElement e | None => VNull end
                   end in
  let config := oset "container" container config in
  let config := match oget "delay" config with
                | Some (VNum q) => oset "delay" (VObj [("show", VNum q); ("hide", VNum q)]) config
                | Some VNaN => oset "delay" (VObj [("show", VNaN); ("hide", VNaN)]) config
                | _ => config
                end in
  numberText "content" (numberText "title" config).

(** The data attributes, without those that decide on sanitizing. *)
Definition allowedData (d : gmap nat node) (e : nat) : obj value :=
  fold_left (fun o k => if in_strs k DISALLOWED_ATTRIBUTES then odelete k o else o)
    (okeys (getDataAttributes parseJson d (Some e))) (getDataAttributes parseJson d (Some e)).

Definition _getConfig (k : component) (d : gmap nat node) (e : nat) (config : value) : res (obj value) :=
  let config := oassign (allowedData d e) (asObject config) in
  let config := _configAfterMerge d (mergeConfigObj parseJson (Default k) (VObj config) d None) in
  _ ← typeCheckConfig (NAME k) config (DefaultType k);
  Ok config.
End options.

(** ** The life of a tip *)

(** The options as the methods read them. *)
Record tooltipConfig := Config {
  c_allowList : allowList;
  c_animation : bool;
  c_boundary : value;
  c_customClass : value;
  c_delayShow : value;
  c_delayHide : value;
  c_fallbackPlacements : value;
  c_html : bool;
  c_offset : value;
  c_placement : value;
  c_popperConfig : value;
  c_sanitize : bool;
  c_sanitizeFn : option (string -> string);
  c_template : string;
  c_title : value;
  c_content : value;                     (** only of a popover *)
  c_trigger : string
}.

(** A property of the options object. *)
Definition option_of (config : obj value) (k : string) : value := default VUndefined (oget k config).

Section reading.
Variable readAllowList : value -> allowList.
Variable stringFunction : nat -> string -> string.

Definition readConfig (o : obj value) : tooltipConfig :=
  let get := option_of o in
  let delay k := default VUndefined (oget k (asObject (get "delay"))) in
  let text k := match get k with VStr s => s | _ => "" end in
  Config (readAllowList (get "allowList")) (value_truthy (get "animation")) (get "boundary") (get "customClass")
    (delay "show") (delay "hide") (get "fallbackPlacements") (value_truthy (get "html")) (get "offset") (get "placement")
    (get "popperConfig") (value_truthy (get "sanitize"))
    (match get "sanitizeFn" with VFunction f => Some (stringFunction f) | _ => None end)
    (text "template") (get "title") (get "content") (text "trigger").
End reading.

(** What the pending timer and the callbacks waiting for a transition do. *)
Inductive timer := EnterTimer | LeaveTimer.
Inductive callback := ShowComplete | HideComplete.

(** A listener of the element: the function [_setListeners] passes to [EventHandler.on]. *)
Inductive listener := OnClick | OnIn | OnOut | OnModalHide.

Record tipElement := Tip { tip_no : nat; tip_attributes : obj string; tip_name : string; tip_nodes : list dom }.

(** The instance, the page around it and what the browser holds for it. [_activeTrigger] is
    [null] after [dispose]. *)
Record state := State {
  _element : option nat;
  _isEnabled : bool;
  _timeout : option nat;
  _isHovered : option bool;
  _activeTrigger : option (obj bool);
  _popper : option nat;
  _templateFactory : option templateConfig;
  _newContent : option (obj value);
  tip : option tipElement;
  t_page : gmap nat node;
  t_attached : list nat;                 (** the tips in the document *)
  t_poppers : list (nat * obj value);    (** the living poppers with their options *)
  t_timers : list (nat * timer * value); (** pending timeouts with their delays *)
  t_queue : list callback;
  t_listeners : list (string * listener);
  t_noop : bool;                         (** the empty listeners on the children of the body *)
  t_next : nat;                          (** fresh numbers for tips, poppers and timers *)
  t_log : list string                    (** events triggered, oldest first *)
}.

Definition set_element (x : option nat) (s : state) : state :=
  State x (_isEnabled s) (_timeout s) (_isHovered s) (_activeTrigger s) (_popper s) (_templateFactory s)
    (_newContent s) (tip s) (t_page s) (t_attached s) (t_poppers s) (t_timers s) (t_queue s) (t_listeners s)
    (t_noop s) (t_next s) (t_log s).
Definition set_enabled (x : bool) (s : state) : state :=
  State (_element s) x (_timeout s) (_isHovered s) (_activeTrigger s) (_popper s) (_templateFactory s)
    (_newContent s) (tip s) (t_page s) (t_attached s) (t_poppers s) (t_timers s) (t_queue s) (t_listeners s)
    (t_noop s) (t_next s) (t_log s).
Definition set_timeout (x : option nat) (s : state) : state :=
  State (_element s) (_isEnabled s) x (_isHovered s) (_activeTrigger s) (_popper s) (_templateFactory s)
    (_newContent s) (tip s) (t_page s) (t_attached s) (t_poppers s) (t_timers s) (t_queue s) (t_listeners s)
    (t_noop s) (t_next s) (t_log s).
Definition set_hovered (x : option bool) (s : state) : state :=
  State (_element s) (_isEnabled s) (_timeout s) x (_activeTrigger s) (_popper s) (_templateFactory s)
    (_newContent s) (tip s) (t_page s) (t_attached s) (t_poppers s) (t_timers s) (t_queue s) (t_listeners s)
    (t_noop s) (t_next s) (t_log s).
Definition set_active (x : option (obj bool)) (s : state) : state :=
  State (_element s) (_isEnabled s) (_timeout s) (_isHovered s) x (_popper s) (_templateFactory s) (_newContent
    s) (tip s) (t_page s) (t_attached s) (t_poppers s) (t_timers s) (t_queue s) (t_listeners s) (t_noop s) (t_next
    s) (t_log s).
Definition set_popper (x : option nat) (s : state) : state :=
  State (_element s) (_isEnabled s) (_timeout s) (_isHovered s) (_activeTrigger s) x (_templateFactory s)
    (_newContent s) (tip s) (t_page s) (t_attached s) (t_poppers s) (t_timers s) (t_queue s) (t_listeners s)
    (t_noop s) (t_next s) (t_log s).
Definition set_factory (x : option templateConfig) (s : state) : state :=
  State (_element s) (_isEnabled s) (_timeout s) (_isHovered s) (_activeTrigger s) (_popper s) x (_newContent s)
    (tip s) (t_page s) (t_attached s) (t_poppers s) (t_timers s) (t_queue s) (t_listeners s) (t_noop s) (t_next s)
    (t_log s).
Definition set_newContent (x : option (obj value)) (s : state) : state :=
  State (_element s) (_isEnabled s) (_timeout s) (_isHovered s) (_activeTrigger s) (_popper s) (_templateFactory
    s) x (tip s) (t_page s) (t_attached s) (t_poppers s) (t_timers s) (t_queue s) (t_listeners s) (t_noop s)
    (t_next s) (t_log s).
Definition set_tip (x : option tipElement) (s : state) : state :=
  State (_element s) (_isEnabled s) (_timeout s) (_isHovered s) (_activeTrigger s) (_popper s) (_templateFactory
    s) (_newContent s) x (t_page s) (t_attached s) (t_poppers s) (t_timers s) (t_queue s) (t_listeners s) (t_noop
    s) (t_next s) (t_log s).
Definition set_page (x : gmap nat node) (s : state) : state :=
  State (_element s) (_isEnabled s) (_timeout s) (_isHovered s) (_activeTrigger s) (_popper s) (_templateFactory
    s) (_newContent s) (tip s) x (t_attached s) (t_poppers s) (t_timers s) (t_queue s) (t_listeners s) (t_noop s)
    (t_next s) (t_log s).
Definition set_attached (x : list nat) (s : state) : state :=
  State (_element s) (_isEnabled s) (_timeout s) (_isHovered s) (_activeTrigger s) (_popper s) (_templateFactory
    s) (_newContent s) (tip s) (t_page s) x (t_poppers s) (t_timers s) (t_queue s) (t_listeners s) (t_noop s)
    (t_next s) (t_log s).
Definition set_poppers (x : list (nat * obj value)) (s : state) : state :=
  State (_element s) (_isEnabled s) (_timeout s) (_isHovered s) (_activeTrigger s) (_popper s) (_templateFactory
    s) (_newContent s) (tip s) (t_page s) (t_attached s) x (t_timers s) (t_queue s) (t_listeners s) (t_noop s)
    (t_next s) (t_log s).
Definition set_timers (x : list (nat * timer * value)) (s : state) : state :=
  State (_element s) (_isEnabled s) (_timeout s) (_isHovered s) (_activeTrigger s) (_popper s) (_templateFactory
    s) (_newContent s) (tip s) (t_page s) (t_attached s) (t_poppers s) x (t_queue s) (t_listeners s) (t_noop s)
    (t_next s) (t_log s).
Definition set_queue (x : list callback) (s : state) : state :=
  State (_element s) (_isEnabled s) (_timeout s) (_isHovered s) (_activeTrigger s) (_popper s) (_templateFactory
    s) (_newContent s) (tip s) (t_page s) (t_attached s) (t_poppers s) (t_timers s) x (t_listeners s) (t_noop s)
    (t_next s) (t_log s).
Definition set_listeners (x : list (string * listener)) (s : state) : state :=
  State (_element s) (_isEnabled s) (_timeout s) (_isHovered s) (_activeTrigger s) (_popper s) (_templateFactory
    s) (_newContent s) (tip s) (t_page s) (t_attached s) (t_poppers s) (t_timers s) (t_queue s) x (t_noop s)
    (t_next s) (t_log s).
Definition set_noop (x : bool) (s : state) : state :=
  State (_element s) (_isEnabled s) (_timeout s) (_isHovered s) (_activeTrigger s) (_popper s) (_templateFactory
    s) (_newContent s) (tip s) (t_page s) (t_attached s) (t_poppers s) (t_timers s) (t_queue s) (t_listeners s) x
    (t_next s) (t_log s).
Definition set_next (x : nat) (s : state) : state :=
  State (_element s) (_isEnabled s) (_timeout s) (_isHovered s) (_activeTrigger s) (_popper s) (_templateFactory
    s) (_newContent s) (tip s) (t_page s) (t_attached s) (t_poppers s) (t_timers s) (t_queue s) (t_listeners s)
    (t_noop s) x (t_log s).
Definition set_log (x : list string) (s : state) : state :=
  State (_element s) (_isEnabled s) (_timeout s) (_isHovered s) (_activeTrigger s) (_popper s) (_templateFactory
    s) (_newContent s) (tip s) (t_page s) (t_attached s) (t_poppers s) (t_timers s) (t_queue s) (t_listeners s)
    (t_noop s) (t_next s) x.

(** [classList] of a tip. *)
Definition tipHas (c : string) (t : tipElement) : bool := in_strs c (classes (tip_attributes t)).
Definition setClasses (l : list string) (t : tipElement) : tipElement :=
  Tip (tip_no t) (oset "class" (str_join " " l) (tip_attributes t)) (tip_name t) (tip_nodes t).
Definition tipAdd (c : string) (t : tipElement) : tipElement :=
  setClasses (addToken (fold_left addToken (classes (tip_attributes t)) []) c) t.
Definition tipRemove (cs : list string) (t : tipElement) : tipElement :=
  if ohas "class" (tip_attributes t)
  then setClasses (List.filter (fun x => negb (in_strs x cs)) (fold_left addToken (classes (tip_attributes t)) [])) t else t.
Definition tipSet (k v : string) (t : tipElement) : tipElement :=
  Tip (tip_no t) (oset k v (tip_attributes t)) (tip_name t) (tip_nodes t).

Section life.
Context `{C : Caller} `{Q : Query} `{M : Markup}.
Variable kind : component.
Variable cfg : tooltipConfig.
Variable prevents : list string -> string -> bool.
Variable inTheDom : gmap nat node -> nat -> bool.   (** the document or the shadow root contains the element *)
Variable inModal touch rtl : bool.
Variable uid : nat -> string.                       (** [getUID(NAME)] *)
Variable elementText : string.
Implicit Types (s : state).

Definition outcome : Type := state * option exn.

(** One statement after another, as long as none throws. *)
Definition andThen (r : outcome) (f : state -> outcome) : outcome :=
  match r with (s, None) => f s | (s, Some e) => (s, Some e) end.

(** [EventHandler.trigger]; without an element it does nothing. *)
Definition triggers (name : string) s : state * bool :=
  match _element s with
  | None => (s, false)
  | Some _ => (set_log (t_log s ++ [eventName kind name]) s, prevents (t_log s) (eventName kind name))
  end.

Definition _isShown s : bool := match tip s with Some t => tipHas "show" t | None => false end.
Definition _isAnimated s : bool := c_animation cfg || match tip s with Some t => tipHas "fade" t | None => false end.

Definition _isWithActiveTrigger s : res bool :=
  match _activeTrigger s with
  | None => Err (TypeError "Object.values")
  | Some o => Ok (existsb (fun kv => snd kv) o)
  end.

Definition setActive (trigger : string) (b : bool) s : outcome :=
  match _activeTrigger s with
  | None => (s, Some (TypeError trigger))
  | Some o => (set_active (Some (oset trigger b o)) s, None)
  end.

Definition clearTimeout (i : option nat) s : state :=
  match i with
  | Some i => set_timers (List.filter (fun t => negb (fst (fst t) =? i)) (t_timers s)) s
  | None => s
  end.

Definition _setTimeout (handler : timer) (timeout : value) s : state :=
  let s := clearTimeout (_timeout s) s in
  set_next (S (t_next s)) (set_timeout (Some (t_next s)) (set_timers (t_timers s ++ [(t_next s, handler, timeout)]) s)).

Definition _enter s : state :=
  if _isShown s || bool_decide (_isHovered s = Some true) then set_hovered (Some true) s
  else _setTimeout EnterTimer (c_delayShow cfg) (set_hovered (Some true) s).

Definition _leave s : outcome :=
  match _isWithActiveTrigger s with
  | Err e => (s, Some e)
  | Ok true => (s, None)
  | Ok false => (_setTimeout LeaveTimer (c_delayHide cfg) (set_hovered (Some false) s), None)
  end.

Definition _disposePopper s : state :=
  let s := match _popper s with
           | Some p => set_popper None (set_poppers (List.filter (fun x => negb (fst x =? p)) (t_poppers s)) s)
           | None => s
           end in
  match tip s with
  | Some t => set_tip None (set_attached (List.filter (fun n => negb (n =? tip_no t)) (t_attached s)) s)
  | None => s
  end.

Definition _resolvePossibleFunction (arg : value) : value := execute arg.

Definition _getTitle s : value :=
  let title := _resolvePossibleFunction (c_title cfg) in
  if value_truthy title then title
  else match _element s with
       | Some e => match getAttribute (t_page s) e "data-bs-original-title" with Some v => VStr v | None => VNull end
       | None => VNull
       end.

Definition _getContent : value := _resolvePossibleFunction (c_content cfg).

Definition _isWithContent s : bool :=
  match kind with
  | TooltipClass => value_truthy (_getTitle s)
  | PopoverClass => value_truthy (_getTitle s) || value_truthy _getContent
  end.

Definition _getContentForTemplate s : obj value :=
  match kind with
  | TooltipClass => [(SELECTOR_TOOLTIP_INNER, _getTitle s)]
  | PopoverClass => [(SELECTOR_TITLE, _getTitle s); (SELECTOR_CONTENT, _getContent)]
  end.

Definition _getTemplateFactory (content : obj value) s : state * res templateConfig :=
  let r := match _templateFactory s with
           | Some f => TemplateFactory.changeContent content f
           | None => TemplateFactory.construct
                       (TemplateConfig (c_allowList cfg) content (_resolvePossibleFunction (c_customClass cfg)) (c_html cfg)
                          (c_sanitize cfg) (c_sanitizeFn cfg) (c_template cfg))
           end in
  match r with Ok f => (set_factory (Some f) s, Ok f) | Err e => (s, Err e) end.

Definition _createTipElement (content : obj value) s : state * res (option tipElement) :=
  match _getTemplateFactory content s with
  | (s, Err e) => (s, Err e)
  | (s, Ok f) =>
      match TemplateFactory.toHtml f with
      | Err e => (s, Err e)
      | Ok (Some (Element _ n a l)) =>
          let t := tipRemove ["fade"; "show"] (Tip (t_next s) a n l) in
          let t := tipAdd ("bs-" +:+ NAME kind +:+ "-auto") t in
          let t := tipSet "id" (uid (t_next s)) t in
          let t := if _isAnimated s then tipAdd "fade" t else t in
          (set_next (S (t_next s)) s, Ok (Some t))
      | Ok _ => (s, Ok None)
      end
  end.

Definition _getTipElement s : state * res (option tipElement) :=
  match tip s with
  | Some t => (s, Ok (Some t))
  | None =>
      match _createTipElement (match _newContent s with Some o => o | None => _getContentForTemplate s end) s with
      | (s, Ok t) => (set_tip t s, Ok t)
      | (s, Err e) => (s, Err e)
      end
  end.

Definition AttachmentMap : obj string :=
  [("AUTO", "auto"); ("TOP", "top"); ("RIGHT", if rtl then "left" else "right"); ("BOTTOM", "bottom");
   ("LEFT", if rtl then "right" else "left")].

Definition _getOffset : value :=
  match c_offset cfg with
  | VStr s => VArr (map parseIntValue (split_char "," s))
  | v => v
  end.

(** [preSet] is the function of the modifier [preSetPlacement]. *)
Variable preSet : nat.

Definition _getPopperConfig (attachment : option string) : obj value :=
  let modifier name options := VObj [("name", VStr name); ("options", VObj options)] in
  let defaultBsPopperConfig :=
    [("placement", match attachment with Some a => VStr a | None => VUndefined end);
     ("modifiers", VArr
       [modifier "flip" [("fallbackPlacements", c_fallbackPlacements cfg)];
        modifier "offset" [("offset", _getOffset)];
        modifier "preventOverflow" [("boundary", c_boundary cfg)];
        modifier "arrow" [("element", VStr ("." +:+ NAME kind +:+ "-arrow"))];
        VObj [("name", VStr "preSetPlacement"); ("enabled", VBool true); ("phase", VStr "beforeMain"); ("fn", VFunction preSet)]])] in
  oassign defaultBsPopperConfig (asObject (execute (c_popperConfig cfg))).

Definition _createPopper s : outcome :=
  match execute (c_placement cfg) with
  | VStr placement =>
      let options := _getPopperConfig (oget (toUpperCase placement) AttachmentMap) in
      (set_next (S (t_next s)) (set_popper (Some (t_next s)) (set_poppers (t_poppers s ++ [(t_next s, options)]) s)), None)
  | _ => (s, Some (TypeError "toUpperCase"))
  end.

(** [_queueCallback(complete, this.tip, this._isAnimated())] *)
Definition showComplete s : outcome :=
  let '(s, _) := triggers "shown" s in
  andThen (if bool_decide (_isHovered s = Some false) then _leave s else (s, None))
    (fun s => (set_hovered (Some false) s, None)).

Definition hideComplete s : outcome :=
  match _isWithActiveTrigger s with
  | Err e => (s, Some e)
  | Ok true => (s, None)
  | Ok false =>
      let s := if bool_decide (_isHovered s = Some true) then s else _disposePopper s in
      match _element s with
      | None => (s, Some (TypeError "removeAttribute"))
      | Some e => (fst (triggers "hidden" (set_page (removeAttribute e "aria-describedby" (t_page s)) s)), None)
      end
  end.

Definition queueCallback (cb : callback) s : outcome :=
  if _isAnimated s then (set_queue (t_queue s ++ [cb]) s, None)
  else match cb with ShowComplete => showComplete s | HideComplete => hideComplete s end.

(** The part of [show] that follows once there is a tip. *)
Definition showTip (e : nat) (t : tipElement) s : outcome :=
  let s := set_page (setAttribute e "aria-describedby" (default "null" (oget "id" (tip_attributes t))) (t_page s)) s in
  let s := if existsb (Nat.eqb (tip_no t)) (t_attached s) then s
           else fst (triggers "inserted" (set_attached (t_attached s ++ [tip_no t]) s)) in
  andThen (_createPopper s) (fun s =>
    let s := set_tip (Some (tipAdd "show" t)) s in
    let s := if touch then set_noop true s else s in
    queueCallback ShowComplete s).

Definition show s : outcome :=
  match _element s with
  | None => (s, Some (TypeError "style"))
  | Some e =>
      if str_eqb (ScrollBar.getStyle (t_page s) e "display") "none" then (s, Some (JsError "Please use show on visible elements"))
      else if negb (_isWithContent s && _isEnabled s) then (s, None)
      else
        let '(s, prevented) := triggers "show" s in
        if prevented || negb (inTheDom (t_page s) e) then (s, None)
        else
          match _getTipElement (_disposePopper s) with
          | (s, Err x) => (s, Some x)
          | (s, Ok None) => (s, Some (TypeError "getAttribute"))
          | (s, Ok (Some t)) => showTip e t s
          end
  end.

Definition hide s : outcome :=
  if negb (_isShown s) then (s, None)
  else
    let '(s, prevented) := triggers "hide" s in
    if prevented then (s, None)
    else
      let s := match tip s with Some t => set_tip (Some (tipRemove ["show"] t)) s | None => s end in
      let s := if touch then set_noop false s else s in
      andThen (andThen (andThen (setActive "click" false s) (setActive "focus" false)) (setActive "hover" false))
        (fun s => queueCallback HideComplete (set_hovered None s)).

(** The popper that is told to update. *)
Definition update s : option nat := _popper s.

Definition enable s : state := set_enabled true s.
Definition disable s : state := set_enabled false s.
Definition toggleEnabled s : state := set_enabled (negb (_isEnabled s)) s.

Definition toggle s : outcome :=
  if negb (_isEnabled s) then (s, None)
  else
    andThen (setActive "click" (negb (default false (_activeTrigger s ≫= oget "click"))) s) (fun s =>
      if _isShown s then _leave s else (_enter s, None)).

Definition setContent (content : obj value) s : outcome :=
  let s := set_newContent (Some content) s in
  if _isShown s then show (_disposePopper s) else (s, None).

Definition dispose s : outcome :=
  let s := clearTimeout (_timeout s) s in
  match _element s with
  | None => (s, Some (TypeError "closest"))
  | Some e =>
      let title := default "" (getAttribute (t_page s) e "data-bs-original-title") in
      let s := if str_truthy title then set_page (setAttribute e "title" title (t_page s)) s else s in
      let s := _disposePopper s in
      (State None false None None None None None None None (t_page s) (t_attached s) (t_poppers s) (t_timers s) (t_queue s)
         [] (t_noop s) (t_next s) (t_log s), None)
  end.

Definition _setListeners : list (string * listener) :=
  flat_map (fun trigger =>
    if str_eqb trigger "click" then [(eventName kind "click", OnClick)]
    else if str_eqb trigger "manual" then []
    else if str_eqb trigger "hover" then [(eventName kind "mouseenter", OnIn); (eventName kind "mouseleave", OnOut)]
    else [(eventName kind "focusin", OnIn); (eventName kind "focusout", OnOut)])
    (split_char " " (c_trigger cfg)) ++ (if inModal then [(EVENT_MODAL_HIDE, OnModalHide)] else []).

Definition _fixTitle (e : nat) (d : gmap nat node) : gmap nat node :=
  let title := default "" (getAttribute d e "title") in
  if negb (str_truthy title) then d
  else
    let label := default "" (getAttribute d e "aria-label") in
    let d := if negb (str_truthy label) && negb (str_truthy (str_trim elementText)) then setAttribute e "aria-label" title d else d in
    removeAttribute e "title" (setAttribute e "data-bs-original-title" title d).

(** The constructor of a tooltip without a [selector]. *)
Definition construct (e : nat) (d : gmap nat node) : state :=
  State (Some e) true None None (Some []) None None None None (_fixTitle e d) [] [] [] [] _setListeners false 0 [].

(** The handlers; [inside] is whether the element contains the event's related target. *)
Definition handle (l : listener) (focus inside : bool) s : outcome :=
  let trigger := if focus then "focus" else "hover" in
  match l with
  | OnClick => toggle s
  | OnIn => andThen (setActive trigger true s) (fun s => (_enter s, None))
  | OnOut => andThen (setActive trigger inside s) _leave
  | OnModalHide => match _element s with Some _ => hide s | None => (s, None) end
  end.

(** An event of the page reaches every listener for it, whatever one of them throws. *)
Definition dispatch (name : string) (focus inside : bool) s : outcome :=
  fold_left (fun '(s, e) x => if str_eqb (fst x) name then
      let '(s, e') := handle (snd x) focus inside s in (s, match e with Some e => Some e | None => e' end) else (s, e))
    (t_listeners s) (s, None).

Inductive event :=
  | MouseEnter | MouseLeave (inside : bool) | FocusIn | FocusOut (inside : bool) | Click | ModalHides
  | TimerFires (i : nat) | TransitionDone (k : nat)
  | Enable | Disable | ToggleEnabled | Toggle | Show | Hide | SetContent (content : obj value) | Dispose.

Definition step (ev : event) s : outcome :=
  match ev with
  | MouseEnter => dispatch (eventName kind "mouseenter") false false s
  | MouseLeave inside => dispatch (eventName kind "mouseleave") false inside s
  | FocusIn => dispatch (eventName kind "focusin") true false s
  | FocusOut inside => dispatch (eventName kind "focusout") true inside s
  | Click => dispatch (eventName kind "click") false false s
  | ModalHides => dispatch EVENT_MODAL_HIDE false false s
  | TimerFires i =>
      match List.find (fun t => fst (fst t) =? i) (t_timers s) with
      | None => (s, None)
      | Some (_, h, _) =>
          let s := set_timers (List.filter (fun t => negb (fst (fst t) =? i)) (t_timers s)) s in
          match h, bool_decide (_isHovered s = Some true) with
          | EnterTimer, true => show s
          | LeaveTimer, false => hide s
          | _, _ => (s, None)
          end
      end
  | TransitionDone k =>
      match t_queue s !! k with
      | None => (s, None)
      | Some cb =>
          let s := set_queue (delete k (t_queue s)) s in
          match cb with ShowComplete => showComplete s | HideComplete => hideComplete s end
      end
  | Enable => (enable s, None)
  | Disable => (disable s, None)
  | ToggleEnabled => (toggleEnabled s, None)
  | Toggle => toggle s
  | Show => show s
  | Hide => hide s
  | SetContent content => setContent content s
  | Dispose => dispose s
  end.

(** What is thrown is reported by the browser, and life goes on. *)
Definition run (evs : list event) s : state := fold_left (fun s ev => fst (step ev s)) evs s.

(** ** Nothing is left behind *)

(** The document holds at most the current tip, the one living popper is the current one, the one
    pending timeout is the one that is remembered, and a disposed tooltip has none of them. *)
Record inv (s : state) : Prop := {
  i_attached : t_attached s = [] \/ exists t, tip s = Some t /\ t_attached s = [tip_no t];
  i_poppers : map fst (t_poppers s) = match _popper s with Some p => [p] | None => [] end;
  i_timers : t_timers s = [] \/ exists i h v, _timeout s = Some i /\ t_timers s = [(i, h, v)];
  i_disposed : _element s = None ->
    tip s = None /\ _popper s = None /\ _activeTrigger s = None /\ t_listeners s = [] /\ t_timers s = []
}.

Ltac keep := intros [? ? ? ?]; split; cbn; auto.

Lemma inv_page x s : inv s -> inv (set_page x s).
Proof. keep. Qed.
Lemma inv_log x s : inv s -> inv (set_log x s).
Proof. keep. Qed.
Lemma inv_hovered x s : inv s -> inv (set_hovered x s).
Proof. keep. Qed.
Lemma inv_noop x s : inv s -> inv (set_noop x s).
Proof. keep. Qed.
Lemma inv_queue x s : inv s -> inv (set_queue x s).
Proof. keep. Qed.
Lemma inv_next x s : inv s -> inv (set_next x s).
Proof. keep. Qed.
Lemma inv_factory x s : inv s -> inv (set_factory x s).
Proof. keep. Qed.
Lemma inv_newContent x s : inv s -> inv (set_newContent x s).
Proof. keep. Qed.
Lemma inv_enabled x s : inv s -> inv (set_enabled x s).
Proof. keep. Qed.

Lemma inv_active o s : inv s -> is_Some (_activeTrigger s) -> inv (set_active (Some o) s).
Proof. intros [? ? ? H] [x Hx]. split; cbn; auto. intros E. destruct (H E) as (_ & _ & H' & _). congruence. Qed.

(** Another state of the same tip, or one where there was none. *)
Lemma inv_tip t s : inv s -> is_Some (_element s) ->
  (forall t0, tip s = Some t0 -> tip_no t0 = tip_no t) -> inv (set_tip (Some t) s).
Proof.
  intros [H1 H2 H3 H4] [e He] Hn. split; cbn; auto; [|congruence].
  destruct H1 as [H1|(t0 & Ht & H1)]; [by left|]. right. exists t. split; [done|]. by rewrite <- (Hn t0 Ht).
Qed.

Create HintDb tooltip.
#[local] Hint Resolve inv_page inv_log inv_hovered inv_noop inv_queue inv_next inv_factory inv_newContent inv_enabled : tooltip.

Lemma inv_triggers name s : inv s -> inv (fst (triggers name s)).
Proof. intros I. unfold triggers. destruct (_element s); cbn; auto with tooltip. Qed.

Lemma triggers_keep name s : _element (fst (triggers name s)) = _element s /\ tip (fst (triggers name s)) = tip s /\
  _popper (fst (triggers name s)) = _popper s /\ t_attached (fst (triggers name s)) = t_attached s /\
  _activeTrigger (fst (triggers name s)) = _activeTrigger s.
Proof. unfold triggers. destruct (_element s) eqn:E; cbn; rewrite ?E; auto. Qed.

Lemma filter_none {A} (p : A -> bool) l : (forall x, In x l -> p x = false) -> List.filter p l = [].
Proof. induction l as [|x l IH]; intros H; cbn; [done|]. rewrite H by (by left). apply IH. intros y Hy. apply H. by right. Qed.

Lemma inv_clear s : inv s -> inv (clearTimeout (_timeout s) s) /\ t_timers (clearTimeout (_timeout s) s) = [].
Proof.
  intros [H1 H2 H3 H4]. unfold clearTimeout. destruct (_timeout s) as [i|] eqn:Ei.
  - assert (List.filter (fun t => negb (fst (fst t) =? i)) (t_timers s) = []) as E.
    { destruct H3 as [->|(j & h & v & Hj & ->)]; [done|]. injection Hj as ->. cbn. by rewrite Nat.eqb_refl. }
    split; [|done]. split; cbn; auto. intros Hn. destruct (H4 Hn) as (? & ? & ? & ? & _). auto.
  - assert (t_timers s = []) by (by destruct H3 as [|(j & h & v & Hj & _)]). split; [|done]. split; auto.
Qed.

Lemma inv_setTimeout h v s : inv s -> is_Some (_element s) -> inv (_setTimeout h v s).
Proof.
  intros I [e He]. unfold _setTimeout. destruct (inv_clear s I) as [[H1 H2 H3 H4] E]. split; cbn; auto.
  - rewrite E. right. eauto 6.
  - intros Hn. destruct (_timeout s); cbn in Hn; congruence.
Qed.

Lemma inv_enter s : inv s -> is_Some (_element s) -> inv (_enter s).
Proof. intros I He. unfold _enter. destruct (_ || _); auto with tooltip. apply inv_setTimeout; auto with tooltip. Qed.

Lemma inv_leave s : inv s -> inv (fst (_leave s)).
Proof.
  intros I. unfold _leave, _isWithActiveTrigger. destruct (_activeTrigger s) as [o|] eqn:Ea; [|done].
  destruct (existsb _ o); [done|]. cbn. apply inv_setTimeout; auto with tooltip. cbn.
  destruct (_element s) eqn:Ee; [by eexists|]. destruct (i_disposed s I Ee) as (_ & _ & H & _). congruence.
Qed.

Lemma inv_disposePopper s : inv s ->
  inv (_disposePopper s) /\ tip (_disposePopper s) = None /\ _popper (_disposePopper s) = None /\
  t_attached (_disposePopper s) = [] /\ t_poppers (_disposePopper s) = [] /\ _element (_disposePopper s) = _element s /\
  _activeTrigger (_disposePopper s) = _activeTrigger s.
Proof.
  intros [H1 H2 H3 H4]. unfold _disposePopper.
  set (s1 := match _popper s with Some _ => _ | None => s end).
  assert (E1 : tip s1 = tip s /\ t_attached s1 = t_attached s /\ t_timers s1 = t_timers s /\ _timeout s1 = _timeout s /\
    _element s1 = _element s /\ _activeTrigger s1 = _activeTrigger s /\ t_listeners s1 = t_listeners s /\
    _popper s1 = None /\ t_poppers s1 = []).
  { subst s1. destruct (_popper s) as [p|] eqn:Ep; cbn; split_and!; auto.
    - apply filter_none. intros [q o] Hq. apply negb_false_iff, Nat.eqb_eq. apply (in_map fst) in Hq. rewrite H2 in Hq.
      destruct Hq as [|[]]. done.
    - by destruct (t_poppers s). }
  destruct E1 as (T & A & TM & TO & E & AC & L & P & PS). clearbody s1.
  assert (A' : match tip s1 with Some t => List.filter (fun n => negb (n =? tip_no t)) (t_attached s1) = [] | None => t_attached s1 = [] end).
  { rewrite T, A. destruct H1 as [->|(t & Ht & ->)]; [by destruct (tip s)|]. rewrite Ht. cbn. by rewrite Nat.eqb_refl. }
  destruct (tip s1) as [t|] eqn:Et; cbn; (split_and!; [split; cbn|..]); rewrite ?T, ?A, ?TM, ?TO, ?E, ?AC, ?L, ?P, ?PS; auto; try congruence.
  all: try (rewrite A in A'; by left).
  all: intros Hn; destruct (H4 Hn) as (? & ? & ? & ? & ?); split_and!; auto; congruence.
Qed.

Lemma inv_setActive trigger b s : inv s -> inv (fst (setActive trigger b s)).
Proof. intros I. unfold setActive. destruct (_activeTrigger s) eqn:E; [|done]. cbn. apply inv_active; [done|]. rewrite E. by eexists. Qed.

Lemma setActive_element trigger b s : _element (fst (setActive trigger b s)) = _element s.
Proof. unfold setActive. by destruct (_activeTrigger s). Qed.

Lemma tip_inv_andThen (P : state -> Prop) r f : P (fst r) -> (forall s, P s -> P (fst (f s))) -> P (fst (andThen r f)).
Proof. intros Hr Hf. unfold andThen. destruct r as [s [e|]]; [done|]. by apply Hf. Qed.

(** What a tip is made in: no tip before, and only its number is new. *)
Lemma inv_getTip s : inv s -> is_Some (_element s) -> tip s = None ->
  let r := _getTipElement s in
  inv (fst r) /\ _element (fst r) = _element s /\ _popper (fst r) = _popper s /\ t_attached (fst r) = t_attached s /\
  t_poppers (fst r) = t_poppers s /\ (forall t, snd r = Ok (Some t) -> tip (fst r) = Some t).
Proof.
  intros I He Ht. unfold _getTipElement. rewrite Ht. unfold _createTipElement, _getTemplateFactory.
  destruct (match _templateFactory s with Some f => _ | None => _ end) as [f|x]; cbn; [|done].
  assert (I1 : inv (set_factory (Some f) s)) by auto with tooltip.
  assert (N : forall s', inv s' -> tip s' = None -> inv (set_tip None s')).
  { intros s' [H1 H2 H3 H4] Hn. split; cbn; auto. left. destruct H1 as [|(t & Ht' & _)]; congruence. intros En. destruct (H4 En) as (_ & H). auto. }
  destruct (TemplateFactory.toHtml f) as [[[|id n a l]|]|x]; cbn; [..|done].
  - split_and!; try done. apply N; [done|]. cbn. by rewrite Ht.
  - split_and!; try done; [|congruence]. apply inv_tip; [auto with tooltip|done|]. cbn. congruence.
  - split_and!; try done. apply N; [done|]. cbn. by rewrite Ht.
Qed.

Lemma inv_showComplete s : inv s -> inv (fst (showComplete s)).
Proof.
  intros I. unfold showComplete. pose proof (inv_triggers "shown" s I) as I1. destruct (triggers "shown" s) as [s1 b]. cbn in I1.
  apply tip_inv_andThen; [|intros s' I'; cbn; auto with tooltip]. destruct (bool_decide _); [by apply inv_leave|done].
Qed.

Lemma inv_hideComplete s : inv s -> inv (fst (hideComplete s)).
Proof.
  intros I. unfold hideComplete. destruct (_isWithActiveTrigger s) as [[]|]; [done| |done].
  set (s1 := if bool_decide _ then s else _disposePopper s).
  assert (inv s1) by (subst s1; destruct (bool_decide _); [done|by apply inv_disposePopper]). clearbody s1.
  destruct (_element s1); [|done]. cbn. apply inv_triggers. auto with tooltip.
Qed.

Lemma inv_queueCallback cb s : inv s -> inv (fst (queueCallback cb s)).
Proof.
  intros I. unfold queueCallback. destruct (_isAnimated s); [cbn; auto with tooltip|].
  destruct cb; [by apply inv_showComplete|by apply inv_hideComplete].
Qed.

(** A popper is made where there is none, for a tip in the document. *)
Lemma inv_createPopper s : inv s -> is_Some (_element s) -> _popper s = None ->
  inv (fst (_createPopper s)) /\ _element (fst (_createPopper s)) = _element s /\ tip (fst (_createPopper s)) = tip s.
Proof.
  intros [H1 H2 H3 H4] [e He] Hp. unfold _createPopper. destruct (execute (c_placement cfg)); cbn; (split; [|done]); split; cbn; auto.
  - rewrite map_app, H2, Hp. done.
  - congruence.
Qed.

Lemma inv_showTip e t s : inv s -> is_Some (_element s) -> tip s = Some t -> _popper s = None -> t_attached s = [] ->
  inv (fst (showTip e t s)).
Proof.
  intros I He Ht Hp Ha. unfold showTip. cbn [t_attached set_page]. rewrite Ha. cbn [existsb].
  set (s1 := set_attached _ _).
  assert (I1 : inv s1). { destruct I as [H1 H2 H3 H4]. split; cbn; auto. right. by exists t. }
  pose proof (inv_triggers "inserted" s1 I1) as I2. destruct (triggers_keep "inserted" s1) as (E & T & P & _).
  assert (HeS : is_Some (_element (fst (triggers "inserted" s1)))) by (by rewrite E).
  destruct (inv_createPopper _ I2 HeS) as (I3 & E3 & T3); [rewrite P; exact Hp|].
  unfold andThen. destruct (_createPopper _) as [s3 [x|]]; [exact I3|]. cbn [fst] in *. apply inv_queueCallback.
  assert (inv (set_tip (Some (tipAdd "show" t)) s3)).
  { apply inv_tip; [done|by rewrite E3|]. rewrite T3, T. cbn. rewrite Ht. intros t0 [= <-]. done. }
  destruct touch; auto with tooltip.
Qed.

Lemma tip_inv_show s : inv s -> inv (fst (show s)).
Proof.
  intros I. unfold show. destruct (_element s) as [e|] eqn:He; [|done]. destruct (str_eqb _ "none"); [done|].
  destruct (negb _); [done|]. pose proof (inv_triggers "show" s I) as I1. destruct (triggers_keep "show" s) as (E & _).
  destruct (triggers "show" s) as [s1 b]. cbn [fst] in *. destruct (b || _); [done|].
  destruct (inv_disposePopper s1 I1) as (I2 & T2 & P2 & A2 & PS2 & E2 & _).
  assert (HeS : is_Some (_element (_disposePopper s1))) by (rewrite E2, E, He; by eexists).
  destruct (inv_getTip _ I2 HeS T2) as (I3 & E3 & P3 & A3 & _ & T3).
  destruct (_getTipElement (_disposePopper s1)) as [s3 [[t|]|x]]; cbn [fst snd] in *; try done.
  apply inv_showTip; [done|by rewrite E3|by apply T3|by rewrite P3|by rewrite A3].
Qed.

Lemma tip_inv_hide s : inv s -> inv (fst (hide s)).
Proof.
  intros I. unfold hide. destruct (_isShown s) eqn:Es; [|done]. cbn [negb]. unfold _isShown in Es.
  destruct (tip s) as [t|] eqn:Et; [|done].
  assert (He : is_Some (_element s)).
  { destruct (_element s) eqn:E; [by eexists|]. destruct (i_disposed s I E) as (H & _). congruence. }
  pose proof (inv_triggers "hide" s I) as I1. destruct (triggers_keep "hide" s) as (E & T & _).
  destruct (triggers "hide" s) as [s1 b]. cbn [fst] in *. destruct b; [done|]. rewrite T, Et.
  assert (I2 : inv (set_tip (Some (tipRemove ["show"] t)) s1)).
  { apply inv_tip; [done|by rewrite E|]. rewrite T, Et. intros t0 [= <-]. unfold tipRemove. by destruct (ohas _ _). }
  set (s2 := if touch then _ else _). assert (inv s2) by (subst s2; destruct touch; auto with tooltip). clearbody s2.
  repeat apply tip_inv_andThen; [|intros s' Hs; by apply inv_setActive..|]; [by apply inv_setActive|].
  intros s' Hs. apply inv_queueCallback. auto with tooltip.
Qed.

Lemma tip_inv_toggle s : inv s -> inv (fst (toggle s)).
Proof.
  intros I. unfold toggle. destruct (_isEnabled s); [|done]. cbn [negb]. unfold setActive.
  destruct (_activeTrigger s) as [o|] eqn:Ea; [|done]. cbn [andThen].
  assert (He : is_Some (_element s)).
  { destruct (_element s) eqn:E; [by eexists|]. destruct (i_disposed s I E) as (_ & _ & H & _). congruence. }
  assert (I' : inv (set_active (Some (oset "click" (negb (default false (Some o ≫= oget "click"))) o)) s)).
  { apply inv_active; [done|]. rewrite Ea. by eexists. }
  destruct (_isShown _); [by apply inv_leave|]. cbn. by apply inv_enter.
Qed.

Lemma inv_setContent c s : inv s -> inv (fst (setContent c s)).
Proof. intros I. unfold setContent. destruct (_isShown _); cbn; [|auto with tooltip]. apply tip_inv_show, inv_disposePopper. auto with tooltip. Qed.

Lemma tip_inv_dispose s : inv s -> inv (fst (dispose s)).
Proof.
  intros I. unfold dispose. destruct (inv_clear s I) as [I1 T1]. destruct (_element _) as [e|]; [|done]. cbn [fst].
  set (s2 := if str_truthy _ then _ else _).
  assert (I2 : inv s2 /\ t_timers s2 = []) by (subst s2; destruct (str_truthy _); split; auto with tooltip). clearbody s2.
  destruct I2 as [I2 T2]. destruct (inv_disposePopper s2 I2) as (I3 & Ht & Hp & Ha & Hps & _).
  assert (T3 : t_timers (_disposePopper s2) = []).
  { unfold _disposePopper. destruct (_popper s2); cbn; destruct (tip s2); cbn; exact T2. }
  split; cbn; [by left|by rewrite Hps|by left|done].
Qed.

(** A disposed tooltip has no triggers. *)
Lemma alive s o : inv s -> _activeTrigger s = Some o -> is_Some (_element s).
Proof. intros I Ea. destruct (_element s) eqn:E; [by eexists|]. destruct (i_disposed s I E) as (_ & _ & H & _). congruence. Qed.

Lemma inv_handle l focus inside s : inv s -> inv (fst (handle l focus inside s)).
Proof.
  intros I. unfold handle. destruct l.
  - by apply tip_inv_toggle.
  - unfold andThen, setActive. destruct (_activeTrigger s) as [o|] eqn:Ea; [|done]. cbn. apply inv_enter; [|by apply (alive s o)].
    apply inv_active; [done|]. rewrite Ea. by eexists.
  - apply tip_inv_andThen; [by apply inv_setActive|]. intros. by apply inv_leave.
  - destruct (_element s); [by apply tip_inv_hide|done].
Qed.

Lemma tip_inv_dispatch name focus inside s : inv s -> inv (fst (dispatch name focus inside s)).
Proof.
  intros I. unfold dispatch. generalize (t_listeners s) as ls. intros ls.
  assert (G : forall e, inv (fst (fold_left (fun '(s, e) x => if str_eqb (fst x) name then
      let '(s, e') := handle (snd x) focus inside s in (s, match e with Some e => Some e | None => e' end) else (s, e)) ls (s, e)))); [|apply G].
  revert s I. induction ls as [|x ls IH]; intros s I e; [done|]. cbn [fold_left]. destruct (str_eqb (fst x) name); [|by apply IH].
  pose proof (inv_handle (snd x) focus inside s I) as I'. destruct (handle (snd x) focus inside s) as [s' e']. by apply IH.
Qed.

Lemma tip_inv_step ev s : inv s -> inv (fst (step ev s)).
Proof.
  intros I. destruct ev; cbn [step]; try (by apply tip_inv_dispatch); try (unfold enable, disable, toggleEnabled; cbn; auto with tooltip; fail).
  - destruct (List.find _ (t_timers s)) as [[[j h] v]|]; [|done].
    assert (I' : inv (set_timers (List.filter (fun t => negb (fst (fst t) =? i)) (t_timers s)) s)).
    { destruct I as [H1 H2 H3 H4]. split; cbn; auto.
      - destruct H3 as [->|(j' & h' & v' & Hj & ->)]; [by left|]. cbn. destruct (negb _); [right; eauto 6|by left].
      - intros En. destruct (H4 En) as (? & ? & ? & ? & ->). auto. }
    destruct h, (bool_decide _); try done; [by apply tip_inv_show|by apply tip_inv_hide].
  - destruct (t_queue s !! k) as [[]|]; [apply inv_showComplete|apply inv_hideComplete|done]; auto with tooltip.
  - by apply tip_inv_toggle.
  - by apply tip_inv_show.
  - by apply tip_inv_hide.
  - by apply inv_setContent.
  - by apply tip_inv_dispose.
Qed.

Lemma tip_inv_run evs s : inv s -> inv (run evs s).
Proof. revert s. unfold run. induction evs as [|ev evs IH]; intros s I; [done|]. cbn [fold_left]. by apply IH, tip_inv_step. Qed.

Lemma tip_inv_construct e d : inv (construct e d).
Proof. split; cbn; auto. done. Qed.

(** What that means for the document. *)
Lemma tip_inv_clean s : inv s ->
  (t_attached s = [] \/ exists t, tip s = Some t /\ t_attached s = [tip_no t]) /\
  length (t_poppers s) <= 1 /\ length (t_timers s) <= 1 /\
  (_element s = None -> t_attached s = [] /\ t_poppers s = [] /\ t_timers s = []).
Proof.
  intros [I1 I2 I3 I4]. rewrite <- (length_map fst), I2. split_and!; [done|by destruct (_popper _); cbn; lia|..].
  - destruct I3 as [->|(i & h & v & _ & ->)]; cbn; lia.
  - intros En. destruct (I4 En) as (Ht & Hp & _ & _ & Hm). rewrite Hp in I2.
    split_and!; [|by destruct (t_poppers _)|done]. destruct I1 as [|(t & Ht' & _)]; [done|congruence].
Qed.
End life.

(** ** Sanitizing is not up to the page *)

Section markup.
Context `{B : Browser} `{C : Caller}.
Variable allowListValue : value.
Variable parseJson : string -> option value.
Variables root bodyElement : nat.

Lemma allowedData_none k d e : in_strs k DISALLOWED_ATTRIBUTES = true -> oget k (allowedData parseJson d e) = None.
Proof.
  intros Hk. unfold allowedData. generalize (getDataAttributes parseJson d (Some e)) as o. intros o.
  assert (G : forall ks (o : obj value), In k ks \/ oget k o = None ->
    oget k (fold_left (fun o k => if in_strs k DISALLOWED_ATTRIBUTES then odelete k o else o) ks o) = None).
  { intros ks. induction ks as [|k' ks IH]; intros o' H; cbn [fold_left]; [by destruct H|]. apply IH.
    destruct (String.eqb_spec k k') as [<-|Hne].
    - right. by rewrite Hk, oget_odelete, String.eqb_refl.
    - destruct H as [[->|H]|H]; [done|by left|]. right. destruct (in_strs k' _); [|done]. rewrite oget_odelete. by destruct (str_eqb k k'). }
  apply G. destruct (oget k o) as [v|] eqn:E; [left; by apply (oget_Some_In k v)|by right].
Qed.

Lemma numberText_keeps k key o : str_eqb k key = false -> oget k (numberText key o) = oget k o.
Proof. intros H. unfold numberText. destruct (oget key o) as [[]|]; try done; by rewrite oget_oset, H. Qed.

Lemma afterMerge_keeps k d o : in_strs k ["container"; "delay"; "title"; "content"] = false ->
  oget k (_configAfterMerge root bodyElement d o) = oget k o.
Proof.
  unfold in_strs. cbn [existsb]. rewrite !orb_false_iff. intros (H1 & H2 & H3 & H4 & _). unfold _configAfterMerge.
  rewrite !numberText_keeps by done. set (c := match oget "container" o with Some _ => _ | None => _ end). clearbody c.
  assert (E : oget k (oset "container" c o) = oget k o) by (by rewrite oget_oset, H1).
  destruct (oget "delay" (oset "container" c o)) as [[]|]; rewrite <- E; try done; by rewrite oget_oset, H2.
Qed.

(** What an element's attributes say about sanitizing is ignored. *)
Lemma getConfig_sanitizing k kind d e config o : in_strs k DISALLOWED_ATTRIBUTES = true -> oget k (asObject config) = None ->
  _getConfig allowListValue parseJson root bodyElement kind d e config = Ok o -> oget k o = oget k (DefaultTooltip allowListValue).
Proof.
  intros Hk Hc. unfold _getConfig. destruct (typeCheckConfig _ _ _); [|done]. cbn [mbind res_bind]. intros [= <-].
  assert (Hk3 : k = "sanitize" \/ k = "allowList" \/ k = "sanitizeFn").
  { unfold in_strs in Hk. cbn in Hk. rewrite !orb_true_iff, !String.eqb_eq in Hk. intuition congruence. }
  rewrite afterMerge_keeps by (by destruct Hk3 as [->|[->| ->]]).
  unfold mergeConfigObj. cbn [asObject getDataAttributes]. rewrite oget_oassign_notin.
  - change (oassign (oassign ?x []) []) with x. destruct kind; [done|]. destruct Hk3 as [->|[->| ->]]; reflexivity.
  - apply oget_None. rewrite oget_oassign_notin; [by apply allowedData_none|by apply oget_None].
Qed.
End markup.

Section safety.
Context `{C : Caller} `{Q : Query} `{M : Markup} `{L : !LawfulMarkup}.
Variable kind : component.
Variable cfg : tooltipConfig.
Variable prevents : list string -> string -> bool.
Variable inTheDom : gmap nat node -> nat -> bool.
Variable inModal touch rtl : bool.
Variable uid : nat -> string.
Variable elementText : string.
Variable preSet : nat.
Implicit Types (s : state).

Hypotheses (Hs : c_sanitize cfg = true) (Hf : c_sanitizeFn cfg = None) (Ha : c_allowList cfg = DefaultAllowlist).

Definition contentOk (o : obj value) : Prop := c_html cfg = false \/ Forall (fun kv => plain (snd kv)) o.
Definition factoryOk (f : templateConfig) : Prop :=
  tc_sanitize f = true /\ tc_sanitizeFn f = None /\ tc_allowList f = DefaultAllowlist /\ tc_html f = c_html cfg /\ contentOk (tc_content f).
Definition tipOk (t : tipElement) : Prop := passive (tip_no t, tip_name t, tip_attributes t) /\ passiveForest (tip_nodes t).

Record safe (s : state) : Prop := {
  s_tip t : tip s = Some t -> tipOk t;
  s_factory f : _templateFactory s = Some f -> factoryOk f;
  s_content o : _newContent s = Some o -> contentOk o
}.

(** Titles and bodies of the options are texts, unless markup is off anyway. *)
Hypothesis titleOk : c_html cfg = false \/ plain (c_title cfg) /\ plain (c_content cfg).

Lemma plain_value v : plain v -> plain (execute v).
Proof. unfold plain. destruct (execute v) as [| | | | | | | | |f] eqn:E; try done. Qed.

Lemma templateContent_ok s : contentOk (_getContentForTemplate kind cfg s).
Proof.
  destruct titleOk as [H|[H1 H2]]; [by left|]. right.
  assert (T : plain (_getTitle cfg s)).
  { unfold _getTitle, _resolvePossibleFunction. destruct (value_truthy _); [by apply plain_value|].
    destruct (_element s); [|done]. by destruct (getAttribute _ _ _). }
  unfold _getContentForTemplate. destruct kind; repeat constructor; try done. by apply plain_value.
Qed.

Lemma contentOk_assign a b : contentOk a -> contentOk b -> contentOk (oassign a b).
Proof.
  intros [H|Ha'] [H'|Hb]; try (by left). right. revert a Ha'. induction Hb as [|[k v] b Hv _ IH]; intros a Ha'; [done|].
  rewrite oget_oassign_cons. apply IH. clear IH. induction Ha' as [|[k' v'] a Hv' Ha' IH]; cbn [oset]; [by repeat constructor|].
  destruct (str_eqb k k'); by constructor.
Qed.

Lemma tipOk_set k v t : harmless k = true -> tipOk t -> tipOk (tipSet k v t).
Proof. intros Hk [H1 H2]. split; [by apply passive_set|done]. Qed.
Lemma tipOk_add c t : tipOk t -> tipOk (tipAdd c t).
Proof. intros [H1 H2]. split; [by apply passive_set|done]. Qed.
Lemma tipOk_remove cs t : tipOk t -> tipOk (tipRemove cs t).
Proof. intros [H1 H2]. unfold tipRemove. destruct (ohas _ _); (split; [|done]); [by apply passive_set|done]. Qed.

Lemma safe_getFactory content s : safe s -> contentOk content ->
  safe (fst (_getTemplateFactory cfg content s)) /\
  forall f, snd (_getTemplateFactory cfg content s) = Ok f -> factoryOk f.
Proof.
  intros [S1 S2 S3] Hc. unfold _getTemplateFactory.
  set (r := match _templateFactory s with Some f => _ | None => _ end).
  assert (R : forall f, r = Ok f -> factoryOk f).
  { intros f. subst r. destruct (_templateFactory s) as [f0|] eqn:Ef.
    - destruct (S2 f0 eq_refl) as (F1 & F2 & F3 & F4 & F5). unfold TemplateFactory.changeContent.
      destruct (TemplateFactory._checkContent content); [|done]. cbn. intros [= <-]. split_and!; try done. by apply contentOk_assign.
    - unfold TemplateFactory.construct. destruct (TemplateFactory._typeCheckConfig _); [|done]. cbn. intros [= <-]. done. }
  clearbody r. destruct r as [f|x]; cbn; (split; [|intros f' [= <-] || intros f' [=]]).
  - split; cbn; auto. intros f' [= <-]. by apply R.
  - by apply R.
  - by split.
Qed.

Lemma safe_getTip s : safe s -> safe (fst (_getTipElement kind cfg uid s)) /\
  forall t, snd (_getTipElement kind cfg uid s) = Ok (Some t) -> tipOk t.
Proof.
  intros S. unfold _getTipElement. destruct (tip s) as [t|] eqn:Et; [split; [done|]; intros t' [= <-]; by apply (s_tip s S)|].
  set (content := match _newContent s with Some o => o | None => _ end).
  assert (Hc : contentOk content).
  { subst content. destruct (_newContent s) eqn:En; [by apply (s_content s S)|apply templateContent_ok]. }
  unfold _createTipElement. destruct (safe_getFactory content s S Hc) as [S' F].
  destruct (_getTemplateFactory cfg content s) as [s1 [f|x]]; cbn [fst snd] in *; [|by split].
  destruct (F f eq_refl) as (F1 & F2 & F3 & F4 & F5).
  destruct (TemplateFactory.toHtml f) as [[[|id n a l]|]|x] eqn:E; cbn [fst snd].
  1,3: split; [|done]; split; cbn; try done; apply S'.
  2: by split.
  assert (G : Forall passive (treeElements (Element id n a l))).
  { apply (toHtml_safe f); try done. destruct F5 as [H|H]; [left; congruence|by right]. }
  apply passive_element in G as [G1 G2].
  set (t := if _isAnimated cfg s1 then _ else _).
  assert (tipOk t).
  { subst t. destruct (_isAnimated cfg s1); [apply tipOk_add|]; apply tipOk_set, tipOk_add, tipOk_remove; by split. }
  clearbody t. split; [|by intros t' [= <-]]. split; cbn; [by intros t' [= <-]|apply S'|apply S'].
Qed.

(** Everything else leaves the three fields alone, or drops the tip. *)
Definition fades (s s' : state) : Prop :=
  (tip s' = tip s \/ tip s' = None) /\ _templateFactory s' = _templateFactory s /\ _newContent s' = _newContent s.

Lemma safe_fades s s' : fades s s' -> safe s -> safe s'.
Proof.
  intros ([E|E] & E1 & E2) [S1 S2 S3]; split; rewrite ?E, ?E1, ?E2; auto; done.
Qed.

#[local] Instance fades_preorder : PreOrder fades.
Proof.
  split; [intros s; split; [by left|done]|]. intros a b c ([H1|H1] & H2 & H3) ([K1|K1] & K2 & K3);
    (split; [rewrite K1; auto|split; congruence]).
Qed.

Lemma fades_triggers name s : fades s (fst (triggers kind prevents name s)).
Proof. unfold triggers. destruct (_element s); (split; [by left|done]). Qed.
Lemma fades_timeout h v s : fades s (_setTimeout h v s).
Proof. unfold _setTimeout, clearTimeout. destruct (_timeout s); (split; [by left|done]). Qed.
Lemma fades_enter s : fades s (_enter cfg s).
Proof. unfold _enter. destruct (_ || _); [split; [by left|done]|]. etransitivity; [|apply fades_timeout]. split; [by left|done]. Qed.
Lemma fades_leave s : fades s (fst (_leave cfg s)).
Proof.
  unfold _leave. destruct (_isWithActiveTrigger s) as [[]|]; [split; [by left|done]| |split; [by left|done]]. cbn.
  etransitivity; [|apply fades_timeout]. split; [by left|done].
Qed.
Lemma fades_dispose s : fades s (_disposePopper s).
Proof.
  unfold _disposePopper. destruct (_popper s); cbn; destruct (tip s) eqn:E; (split; [cbn; rewrite ?E; auto|done]).
Qed.
Lemma fades_setActive k b s : fades s (fst (setActive k b s)).
Proof. unfold setActive. destruct (_activeTrigger s); (split; [by left|done]). Qed.

Lemma fades_showComplete s : fades s (fst (showComplete kind cfg prevents s)).
Proof.
  unfold showComplete. pose proof (fades_triggers "shown" s) as T. destruct (triggers _ _ "shown" s) as [s1 b]. cbn in T.
  etransitivity; [exact T|]. destruct (bool_decide _); cbn; [|split; [by left|done]].
  pose proof (fades_leave s1) as Lv. destruct (_leave cfg s1) as [s2 [e|]]; cbn in *; [done|].
  etransitivity; [exact Lv|]. split; [by left|done].
Qed.

Lemma fades_hideComplete s : fades s (fst (hideComplete kind prevents s)).
Proof.
  unfold hideComplete. destruct (_isWithActiveTrigger s) as [[]|]; [done| |done].
  set (s1 := if bool_decide _ then s else _). assert (fades s s1) by (subst s1; destruct (bool_decide _); [done|apply fades_dispose]).
  clearbody s1. destruct (_element s1); [|done]. cbn. etransitivity; [exact H|]. etransitivity; [|apply fades_triggers]. split; [by left|done].
Qed.

Lemma fades_queue cb s : fades s (fst (queueCallback kind cfg prevents cb s)).
Proof.
  unfold queueCallback. destruct (_isAnimated cfg s); [split; [by left|done]|].
  destruct cb; [apply fades_showComplete|apply fades_hideComplete].
Qed.

Lemma safe_setTip t s : safe s -> tipOk t -> safe (set_tip (Some t) s).
Proof. intros [S1 S2 S3] Ht. split; cbn; auto. by intros t' [= <-]. Qed.

Lemma safe_showTip e t s : safe s -> tipOk t -> safe (fst (showTip kind cfg prevents touch rtl preSet e t s)).
Proof.
  intros S Ht. unfold showTip. set (s1 := if existsb _ _ then _ else _).
  assert (fades s s1).
  { subst s1. destruct (existsb _ _); [split; [by left|done]|]. etransitivity; [|apply fades_triggers]. split; [by left|done]. }
  clearbody s1. apply (safe_fades _ s1) in S; [|done].
  assert (P : fades s1 (fst (_createPopper kind cfg rtl preSet s1))) by (unfold _createPopper; destruct (execute _); (split; [by left|done])).
  destruct (_createPopper kind cfg rtl preSet s1) as [s2 [x|]]; cbn in *; [by apply (safe_fades s1)|].
  eapply safe_fades; [apply fades_queue|]. apply (safe_fades s1) in P; [|done].
  assert (safe (set_tip (Some (tipAdd "show" t)) s2)) by (apply safe_setTip; [done|by apply tipOk_add]).
  destruct touch; [|done]. eapply safe_fades; [|exact H0]. split; [by left|done].
Qed.

Lemma safe_show s : safe s -> safe (fst (show kind cfg prevents inTheDom touch rtl uid preSet s)).
Proof.
  intros S. unfold show. destruct (_element s) as [e|]; [|done]. destruct (str_eqb _ _); [done|]. destruct (negb _); [done|].
  pose proof (fades_triggers "show" s) as T. destruct (triggers _ _ "show" s) as [s1 b]. cbn in T.
  apply (safe_fades s s1) in S; [|done]. destruct (b || _); [done|].
  apply (safe_fades _ _ (fades_dispose s1)) in S. destruct (safe_getTip _ S) as [S2 T2].
  destruct (_getTipElement kind cfg uid (_disposePopper s1)) as [s2 [[t|]|x]]; cbn [fst snd] in *; try done.
  apply safe_showTip; [done|by apply T2].
Qed.

Lemma safe_hide s : safe s -> safe (fst (hide kind cfg prevents touch s)).
Proof.
  intros S. unfold hide. destruct (negb _); [done|]. pose proof (fades_triggers "hide" s) as T.
  destruct (triggers _ _ "hide" s) as [s1 b]. cbn in T. apply (safe_fades s s1) in S; [|done]. destruct b; [done|].
  set (s2 := match tip s1 with Some t => _ | None => _ end).
  assert (S2 : safe s2). { subst s2. destruct (tip s1) eqn:E; [|done]. apply safe_setTip; [done|]. by apply tipOk_remove, (s_tip s1 S). }
  clearbody s2. set (s3 := if touch then _ else _).
  assert (S3 : safe s3). { subst s3. destruct touch; [|done]. eapply safe_fades; [|exact S2]. split; [by left|done]. }
  clearbody s3. apply tip_inv_andThen; [|intros s' S'; eapply safe_fades; [|exact S']; etransitivity; [|apply fades_queue]; split; [by left|done]].
  repeat (apply tip_inv_andThen; [|intros s' S'; eapply safe_fades; [apply fades_setActive|exact S']]).
  eapply safe_fades; [apply fades_setActive|exact S3].
Qed.

Lemma safe_toggle s : safe s -> safe (fst (toggle cfg s)).
Proof.
  intros S. unfold toggle. destruct (negb _); [done|]. apply tip_inv_andThen.
  - eapply safe_fades; [apply fades_setActive|exact S].
  - intros s' S'. destruct (_isShown s'); cbn; (eapply safe_fades; [|exact S']); [apply fades_leave|apply fades_enter].
Qed.

Lemma safe_handle l focus inside s : safe s -> safe (fst (handle kind cfg prevents touch l focus inside s)).
Proof.
  intros S. unfold handle. destruct l; [by apply safe_toggle|..].
  - apply tip_inv_andThen; [eapply safe_fades; [apply fades_setActive|exact S]|].
    intros s' S'. eapply safe_fades; [apply fades_enter|exact S'].
  - apply tip_inv_andThen; [eapply safe_fades; [apply fades_setActive|exact S]|].
    intros s' S'. eapply safe_fades; [apply fades_leave|exact S'].
  - destruct (_element s); [by apply safe_hide|done].
Qed.

Lemma safe_dispatch name focus inside s : safe s -> safe (fst (dispatch kind cfg prevents touch name focus inside s)).
Proof.
  intros S. unfold dispatch. generalize (t_listeners s) as ls, (@None exn) as e. intros ls. revert s S.
  induction ls as [|x ls IH]; intros s S e; [done|]. cbn [fold_left]. destruct (str_eqb (fst x) name); [|by apply IH].
  pose proof (safe_handle (snd x) focus inside s S) as S'. destruct (handle _ _ _ _ (snd x) focus inside s) as [s' e']. by apply IH.
Qed.

(** The contents given later on are texts too. *)
Definition eventOk (ev : event) : Prop := match ev with SetContent o => contentOk o | _ => True end.

Lemma safe_step ev s : eventOk ev -> safe s -> safe (fst (step kind cfg prevents inTheDom touch rtl uid preSet ev s)).
Proof.
  intros He S. assert (Same : forall s', tip s' = tip s -> _templateFactory s' = _templateFactory s -> _newContent s' = _newContent s -> safe s').
  { intros s' E1 E2 E3. eapply safe_fades; [|exact S]. split; [by left|done]. }
  destruct ev; cbn [step]; try (by apply safe_dispatch); try (by apply Same).
  - destruct (List.find _ (t_timers s)) as [[[j h] v]|]; [|done]. destruct h, (bool_decide _); try (by apply Same).
    + apply safe_show. by apply Same.
    + apply safe_hide. by apply Same.
  - destruct (t_queue s !! k) as [[]|]; [..|done]; (eapply safe_fades; [apply fades_showComplete || apply fades_hideComplete|by apply Same]).
  - by apply safe_toggle.
  - by apply safe_show.
  - by apply safe_hide.
  - unfold setContent. assert (S' : safe (set_newContent (Some content) s)).
    { destruct S as [S1 S2 S3]. split; cbn; auto. by intros o [= <-]. }
    destruct (_isShown _); [|done]. apply safe_show. eapply safe_fades; [apply fades_dispose|done].
  - unfold dispose. set (s1 := clearTimeout _ s).
    assert (S1 : safe s1) by (subst s1; unfold clearTimeout; destruct (_timeout s); [by apply Same|done]).
    clearbody s1. destruct (_element s1); [|done]. cbn. by split.
Qed.

Lemma safe_run evs s : Forall eventOk evs -> safe s -> safe (run kind cfg prevents inTheDom touch rtl uid preSet evs s).
Proof.
  intros He. revert s. unfold run. induction He as [|ev evs H _ IH]; intros s S; [done|]. cbn [fold_left]. by apply IH, safe_step.
Qed.
End safety.
End Tooltip.



(** ** Runs *)

(** A button whose attributes ask for markup, and for it not to be sanitized. *)
Definition tipPage : gmap nat node :=
  {[1 := Node "BUTTON" []
      [("data-bs-title", "title"); ("data-bs-html", "true"); ("data-bs-template", "template"); ("data-bs-sanitize", "false"); ("data-bs-delay", "500");
       ("data-bs-sanitize-fn", "null"); ("data-bs-allow-list", "null")] [] None [] None]}.

Definition tipBrowser : Browser := Build_Browser (fun _ _ _ => false) (fun _ _ => 1) (fun _ _ => "visible") None.

Definition tipOptions : obj value :=
  match Tooltip._getConfig (B:=tipBrowser) (C:=demoCaller) (VObj []) (fun _ => None) 0 2 TooltipClass tipPage 1 VUndefined with
  | Ok o => o
  | Err _ => []
  end.
Definition tipConfig : Tooltip.tooltipConfig := Tooltip.readConfig (fun _ => DefaultAllowlist) (fun _ s => s) tipOptions.

Definition tipStart : Tooltip.state := Tooltip.construct TooltipClass tipConfig false "Save" 1 tipPage.
Definition tipStep (ev : Tooltip.event) (s : Tooltip.state) : Tooltip.outcome :=
  @Tooltip.step demoCaller demoQuery templateMarkup TooltipClass tipConfig (fun _ _ => false) (fun _ _ => true)
    false false (fun _ => "tooltip7") 0 ev s.
Definition tipRun (evs : list Tooltip.event) : Tooltip.state :=
  @Tooltip.run demoCaller demoQuery templateMarkup TooltipClass tipConfig (fun _ _ => false) (fun _ _ => true)
    false false (fun _ => "tooltip7") 0 evs tipStart.


(** When the pointer leaves a tooltip's element and comes back while the tip fades in, the timeout of
    the leave is still pending when the end of the fade clears [_isHovered]: the tip is hidden
    although the pointer is on the element. *)
Theorem tooltip_hides_under_hover :
  let s := tipRun [Tooltip.MouseEnter; Tooltip.TimerFires 0; Tooltip.MouseLeave false; Tooltip.MouseEnter; Tooltip.TransitionDone 0] in
  Tooltip._activeTrigger s = Some [("hover", true)] /\ Tooltip.t_timers s = [(3, Tooltip.LeaveTimer, VNum 500)] /\
  Tooltip.t_log (fst (tipStep (Tooltip.TimerFires 3) s)) =
    ["show.bs.tooltip"; "inserted.bs.tooltip"; "shown.bs.tooltip"; "hide.bs.tooltip"].
Proof. vm_compute. split_and!; reflexivity. Qed.

(** Disposing of a tooltip while its tip fades out leaves the callback of [hide] behind, which throws
    because the instance's fields are gone. *)
Theorem tooltip_disposed_while_hiding_throws :
  let s := tipRun [Tooltip.Show; Tooltip.TransitionDone 0; Tooltip.Hide; Tooltip.Dispose] in
  Tooltip._element s = None /\ Tooltip.t_queue s = [Tooltip.HideComplete] /\
  snd (tipStep (Tooltip.TransitionDone 0) s) = Some (TypeError "Object.values").
Proof. vm_compute. split_and!; reflexivity. Qed.
