(* ===== verification/BsTooltipDelegate.v ===== *)
(** A tooltip or popover with a [selector]: it serves every matching element below its own by making
    an instance of each that an event reaches. *)
From Stdlib Require Import Ascii QArith Lia.
From S2P Require Import Prelude BsCore BsEvents BsDom BsConfig BsSanitizer BsTemplate BsTooltip.

Local Open Scope nat_scope.

Module Delegate.
Import Tooltip.

(** [===] on options. Two objects with the same contents are taken for one: whether an option is then left out
    or passed on, the instance gets the same value. *)
Fixpoint strictEq (v w : value) : bool :=
  match v, w with
  | VUndefined, VUndefined | VNull, VNull => true
  | VBool a, VBool b => Bool.eqb a b
  | VNum p, VNum q => Qeq_bool p q
  | VStr s, VStr t => str_eqb s t
  | VElement a, VElement b => a =? b
  | VFunction a, VFunction b => a =? b
  | VObj o, VObj p =>
      (fix same (o p : list (string * value)) : bool :=
         match o, p with
         | [], [] => true
         | (k, v) :: o, (l, w) :: p => str_eqb k l && strictEq v w && same o p
         | _, _ => false
         end) o p
  | VArr l, VArr m =>
      (fix same (l m : list value) : bool :=
         match l, m with [], [] => true | v :: l, w :: m => strictEq v w && same l m | _, _ => false end) l m
  | _, _ => false
  end.

Section delegation.
Context `{B : Browser} `{C : Caller} `{Q : Query} `{M : Markup}.
Variable allowListValue : value.
Variable readAllowList : value -> allowList.
Variable stringFunction : nat -> string -> string.
Variable parseJson : string -> option value.
Variables root bodyElement : nat.
Variable kind : component.

Definition defaultOf (k : string) : value := default VUndefined (oget k (Default allowListValue kind)).

(** The options that are not the defaults, for an instance that has no listeners of its own. *)
Definition _getDelegateConfig (config : obj value) : obj value :=
  oset "trigger" (VStr "manual") (oset "selector" (VBool false)
    (List.filter (fun kv => negb (strictEq (defaultOf kv.1) kv.2)) config)).

(** ** The instances *)

Record member := Member { m_config : tooltipConfig; m_state : state }.

Record delegation := Delegation {
  g_page : gmap nat node;
  g_members : gmap nat member;
  g_active : bool                       (** the listeners of the delegating instance are there *)
}.
Implicit Types (g : delegation) (e x : nat).

Variable owner : nat.
Variable config : obj value.            (** of the delegating instance *)
Variable selector : string.             (** its option *)
Variable prevents : nat -> list string -> string -> bool.
Variable inTheDom : gmap nat node -> nat -> bool.
Variables touch rtl : bool.
Variable inModal : nat -> bool.
Variable uid : nat -> nat -> string.
Variable textOf : nat -> string.
Variable preSet : nat.

(** The element that an event at [x] is handled for. *)
Definition delegateTarget (d : gmap nat node) (x : nat) : option nat :=
  delegationTarget (find d selector owner) owner (ancestors (size d) d x).

Definition put e (m : member) g : delegation := Delegation (t_page (m_state m)) (<[e := m]> (g_members g)) (g_active g).

(** [_initializeOnDelegatedTarget] *)
Definition _initializeOnDelegatedTarget e g : delegation * option exn :=
  match g_members g !! e with
  | Some _ => (g, None)
  | None =>
      match _getConfig allowListValue parseJson root bodyElement kind (g_page g) e (VObj (_getDelegateConfig config)) with
      | Err x => (g, Some x)
      | Ok o =>
          let cfg := readConfig readAllowList stringFunction o in
          (put e (Member cfg (construct kind cfg (inModal e) (textOf e) e (g_page g))) g, None)
      end
  end.

(** Something is done with the instance at [e]. *)
Definition withMember e (f : tooltipConfig -> state -> outcome) g : delegation * option exn :=
  match g_members g !! e with
  | None => (g, None)
  | Some m => let r := f (m_config m) (set_page (g_page g) (m_state m)) in (put e (Member (m_config m) r.1) g, r.2)
  end.

(** A listener of the delegating instance runs for an event at [x]. *)
Definition delegated (l : listener) (focus inside : bool) x g : delegation * option exn :=
  match delegateTarget (g_page g) x with
  | None => (g, None)
  | Some e =>
      match _initializeOnDelegatedTarget e g with
      | (g, Some x) => (g, Some x)
      | (g, None) =>
          withMember e (fun cfg => handle kind cfg (prevents e) touch l focus inside) g
      end
  end.

(** Every listener for the event runs, whatever one of them throws. *)
Definition dispatchAt (name : string) (focus inside : bool) x g : delegation * option exn :=
  if negb (g_active g) then (g, None)
  else
    fold_left (fun '(g, e) l => if str_eqb (fst l) name then
        let '(g, e') := delegated (snd l) focus inside x g in (g, match e with Some e => Some e | None => e' end) else (g, e))
      (_setListeners kind (readConfig readAllowList stringFunction config) false) (g, None).

(** Events of the page are at an element; those of an instance are its own. *)
Inductive op :=
  | PageEvent (name : string) (focus inside : bool) (x : nat)
  | At (e : nat) (ev : event)
  | DisposeOwner.

Definition opStep (o : op) g : delegation * option exn :=
  match o with
  | PageEvent name focus inside x => dispatchAt name focus inside x g
  | At e ev => withMember e (fun cfg => Tooltip.step kind cfg (prevents e) inTheDom touch rtl (uid e) preSet ev) g
  | DisposeOwner => (Delegation (g_page g) (g_members g) false, None)
  end.

Definition opRun (ops : list op) g : delegation := fold_left (fun g o => fst (opStep o g)) ops g.

(** ** Each instance is a tooltip *)

Definition membersOk g : Prop := forall e m, g_members g !! e = Some m -> inv (m_state m).

Lemma members_put e m g : inv (m_state m) -> membersOk g -> membersOk (put e m g).
Proof. intros Hm H e' m'. cbn. rewrite lookup_insert_Some. intros [[<- <-]|[_ Hl]]; [done|by apply (H e')]. Qed.

Lemma members_with e f g : (forall cfg s, inv s -> inv (f cfg s).1) -> membersOk g -> membersOk (withMember e f g).1.
Proof.
  intros F H. unfold withMember. destruct (g_members g !! e) as [m|] eqn:Hm; [|done]. apply members_put; [|done]. cbn.
  apply F, inv_page. by apply (H e).
Qed.

Lemma members_initialize e g : membersOk g -> membersOk (_initializeOnDelegatedTarget e g).1.
Proof.
  intros H. unfold _initializeOnDelegatedTarget. destruct (g_members g !! e); [done|]. destruct (_getConfig _ _ _ _ _ _ _ _); [|done].
  apply members_put; [|done]. apply tip_inv_construct.
Qed.

Lemma members_delegated l focus inside x g : membersOk g -> membersOk (delegated l focus inside x g).1.
Proof.
  intros H. unfold delegated. destruct (delegateTarget _ _) as [e|]; [|done]. pose proof (members_initialize e g H) as H1.
  destruct (_initializeOnDelegatedTarget e g) as [g1 [y|]]; [done|]. apply members_with; [|done]. intros. by apply inv_handle.
Qed.

Lemma members_run ops g : membersOk g -> membersOk (opRun ops g).
Proof.
  revert g. unfold opRun. induction ops as [|o ops IH]; intros g H; cbn [fold_left]; [done|]. apply IH.
  destruct o as [name focus inside x|e ev|]; cbn [opStep]; [|apply members_with; [intros; by apply tip_inv_step|done]|done].
  unfold dispatchAt. destruct (negb _); [done|]. generalize (_setListeners kind (readConfig readAllowList stringFunction config) false) as ls. intros ls.
  assert (G : forall (e : option exn), membersOk (fst (fold_left (fun '(g, e) l => if str_eqb (fst l) name then
        let '(g, e') := delegated (snd l) focus inside x g in (g, match e with Some e => Some e | None => e' end) else (g, e)) ls (g, e)))); [|exact (G None)].
  revert g H. induction ls as [|l ls IHl]; intros g H e; [done|]. cbn [fold_left]. destruct (str_eqb _ _); [|by apply IHl].
  pose proof (members_delegated (snd l) focus inside x g H) as H'. destruct (delegated _ _ _ _ g). by apply IHl.
Qed.

(** ** The options of an instance *)

Lemma NoDup_filter_keys (p : string * value -> bool) (o : obj value) : List.NoDup (okeys o) -> List.NoDup (okeys (List.filter p o)).
Proof.
  unfold okeys. induction o as [|[k v] o IH]; cbn; [done|]. intros H. apply List.NoDup_cons_iff in H as [H1 H2].
  destruct (p (k, v)); cbn; [|by apply IH]. constructor; [|by apply IH]. intros Hin. apply H1.
  apply in_map_iff in Hin as ([k' v'] & <- & Hin). apply filter_In in Hin as [Hin _]. by apply in_map_iff; exists (k', v').
Qed.

Lemma oget_filter k (p : string * value -> bool) (o : obj value) : List.NoDup (okeys o) ->
  oget k (List.filter p o) = match oget k o with Some v => if p (k, v) then Some v else None | None => None end.
Proof.
  unfold okeys. induction o as [|[l v] o IH]; cbn; [done|]. intros H. apply List.NoDup_cons_iff in H as [H1 H2].
  destruct (String.eqb_spec k l) as [->|Hne].
  - destruct (p (l, v)); cbn; [by rewrite String.eqb_refl|]. rewrite IH by done.
    destruct (oget l o) as [w|] eqn:E; [|done]. destruct H1. by apply (oget_Some_In l w).
  - destruct (p (l, v)); cbn; [|by apply IH]. destruct (String.eqb_spec k l); [done|by apply IH].
Qed.

(** The options passed on. *)
Lemma delegate_option k : List.NoDup (okeys config) -> oget k (_getDelegateConfig config) =
  if str_eqb k "trigger" then Some (VStr "manual") else if str_eqb k "selector" then Some (VBool false)
  else match oget k config with Some v => if strictEq (defaultOf k) v then None else Some v | None => None end.
Proof.
  intros N. unfold _getDelegateConfig. rewrite !oget_oset. destruct (str_eqb k "trigger"), (str_eqb k "selector"); try done.
  rewrite oget_filter by done. destruct (oget k config) as [v|]; [|done]. cbn. by destruct (strictEq _ v).
Qed.

(** Objects that are built key by key have each key once. *)
Lemma NoDup_okeys_oassign (a b : obj value) : List.NoDup (okeys a) -> List.NoDup (okeys (oassign a b)).
Proof. revert a. induction b as [|[k v] b IH]; intros a H; [done|]. rewrite oget_oassign_cons. by apply IH, NoDup_okeys_oset. Qed.

Lemma NoDup_allowedData d e : List.NoDup (okeys (allowedData parseJson d e)).
Proof.
  assert (N : List.NoDup (okeys (getDataAttributes parseJson d (Some e)))).
  { unfold getDataAttributes. assert (G : forall l o, List.NoDup (okeys o) -> List.NoDup (okeys (fold_left (fun attributes '(key, v) =>
      if startsWith key "bs" && negb (startsWith key "bsConfig") then oset (pureKey key) (normalizeData parseJson (Some v)) attributes
      else attributes) l o))); [|apply G; constructor].
    intros l. induction l as [|[k v] l IH]; intros o H; cbn [fold_left]; [done|]. apply IH. destruct (_ && _); [by apply NoDup_okeys_oset|done]. }
  unfold allowedData. generalize (okeys (getDataAttributes parseJson d (Some e))) as ks. intros ks. revert N.
  generalize (getDataAttributes parseJson d (Some e)) as o. induction ks as [|k ks IH]; intros o H; cbn [fold_left]; [done|].
  apply IH. destruct (in_strs _ _); [by apply NoDup_odelete|done].
Qed.

(** An option of the instance before its values are put into their final form. *)
Definition merged k d e : option value :=
  match oget k (_getDelegateConfig config) with
  | Some v => Some v
  | None => match oget k (allowedData parseJson d e) with Some w => Some w | None => oget k (Default allowListValue kind) end
  end.

Lemma merged_option k d e : List.NoDup (okeys config) ->
  oget k (mergeConfigObj parseJson (Default allowListValue kind) (VObj (oassign (allowedData parseJson d e) (_getDelegateConfig config))) d None) =
  merged k d e.
Proof.
  intros N. unfold mergeConfigObj. cbn [asObject getDataAttributes]. change (oassign (oassign ?x []) []) with x.
  assert (N1 : List.NoDup (okeys (_getDelegateConfig config))).
  { unfold _getDelegateConfig. by do 2 apply NoDup_okeys_oset; apply NoDup_filter_keys. }
  rewrite oget_oassign by apply NoDup_okeys_oassign, NoDup_allowedData. rewrite oget_oassign by done. unfold merged.
  by destruct (oget k (_getDelegateConfig config)).
Qed.
End delegation.
End Delegate.

(** An instance that is made for an element below a delegating tooltip or popover has no listeners of its own — it neither
    delegates nor reacts to events — and has each option that is not converted (as container, delay, title and content are) from the
    delegating instance, or, where that has the default, from the element's data attributes, or else from the defaults. What
    the attributes say about sanitizing is left out. *)
Theorem tooltip_delegate_options `{B : Browser} `{C : Caller} (allowListValue : value) (readAllowList : value -> allowList)
    (stringFunction : nat -> string -> string) (parseJson : string -> option value) (root bodyElement : nat) (kind : component)
    (config o : obj value) (d : gmap nat node) (e : nat) :
  List.NoDup (okeys config) ->
  Tooltip._getConfig allowListValue parseJson root bodyElement kind d e (VObj (Delegate._getDelegateConfig allowListValue kind config)) = Ok o ->
  Tooltip._setListeners kind (Tooltip.readConfig readAllowList stringFunction o) false = [] /\ oget "selector" o = Some (VBool false) /\
  (forall k, in_strs k ["selector"; "trigger"; "container"; "delay"; "title"; "content"] = false ->
     oget k o =
       match (match oget k config with Some v => if Delegate.strictEq (Delegate.defaultOf allowListValue kind k) v then None else Some v | None => None end) with
       | Some v => Some v
       | None => match oget k (Tooltip.allowedData parseJson d e) with
                 | Some w => Some w
                 | None => oget k (Tooltip.Default allowListValue kind)
                 end
       end) /\
  (forall k, in_strs k Tooltip.DISALLOWED_ATTRIBUTES = true -> oget k (Tooltip.allowedData parseJson d e) = None).
Proof.
  intros N. unfold Tooltip._getConfig. destruct (typeCheckConfig _ _ _); [|done]. cbn [mbind res_bind asObject]. intros [= <-].
  assert (G : forall k, in_strs k ["container"; "delay"; "title"; "content"] = false ->
    oget k (Tooltip._configAfterMerge root bodyElement d (mergeConfigObj parseJson (Tooltip.Default allowListValue kind)
      (VObj (oassign (Tooltip.allowedData parseJson d e) (Delegate._getDelegateConfig allowListValue kind config))) d None)) =
    Delegate.merged allowListValue parseJson kind config k d e).
  { intros k Hk. rewrite Tooltip.afterMerge_keeps by done. by apply Delegate.merged_option. }
  split_and!.
  - unfold Tooltip._setListeners, Tooltip.readConfig, Tooltip.option_of. cbn [Tooltip.c_trigger]. rewrite (G "trigger") by done.
    unfold Delegate.merged. by rewrite Delegate.delegate_option.
  - rewrite (G "selector") by done. unfold Delegate.merged. by rewrite Delegate.delegate_option.
  - intros k Hk. unfold in_strs in Hk. cbn [existsb] in Hk. rewrite !orb_false_iff in Hk. destruct Hk as (K1 & K2 & K3 & K4 & K5 & K6 & _).
    rewrite G by (unfold in_strs; cbn [existsb]; by rewrite K3, K4, K5, K6). unfold Delegate.merged. by rewrite Delegate.delegate_option, K1, K2.
  - intros k Hk. by apply Tooltip.allowedData_none.
Qed.

(** A list whose buttons have tooltips: one instance for all of them. *)
Definition listPage : gmap nat node :=
  list_to_map [(0, Node "BODY" [] [] [] None [1] None); (1, Node "UL" [] [] [] (Some 0) [2; 3] None);
    (2, Node "BUTTON" ["item"] [("data-bs-title", "one"); ("data-bs-sanitize", "false"); ("data-bs-placement", "left")] [] (Some 1) [] None);
    (3, Node "BUTTON" ["item"] [("data-bs-title", "two")] [] (Some 1) [] None)].

Definition listBrowser : Browser :=
  Build_Browser (fun d x sel => str_eqb sel ".item" && hasClass d x "item") (fun _ _ => 1) (fun _ _ => "visible") None.

Definition listOptions (d : gmap nat node) (e : nat) (config : obj value) : obj value :=
  match Tooltip._getConfig (B := listBrowser) (C := demoCaller) (VObj []) (fun _ => None) 0 0 TooltipClass d e (VObj config) with
  | Ok o => o
  | Err _ => []
  end.
Definition listConfig : obj value := listOptions listPage 1 [("selector", VStr ".item"); ("html", VBool true); ("trigger", VStr "hover")].
Definition itemConfig : obj value := listOptions listPage 2 (Delegate._getDelegateConfig (VObj []) TooltipClass listConfig).

Lemma tooltip_delegate_options_witness :
  map (fun k => oget k itemConfig) ["html"; "placement"; "sanitize"; "selector"] =
    [Some (VBool true); Some (VStr "left"); Some (VBool true); Some (VBool false)].
Proof.
  destruct (@tooltip_delegate_options listBrowser demoCaller (VObj []) (fun _ => DefaultAllowlist) (fun _ s => s) (fun _ => None) 0 0 TooltipClass
    listConfig itemConfig listPage 2) as (_ & Hs & Hk & _).
  - vm_compute. repeat constructor; cbn; intuition discriminate.
  - vm_compute. reflexivity.
  - cbn [map]. rewrite Hs, !Hk by (vm_compute; reflexivity). vm_compute. reflexivity.
Defined.

(** Whatever the page and the caller do with the elements below a delegating tooltip or popover, each of them
    has at most one instance, and the document holds no tip of it but the current one, with at most one popper and one pending
    timeout, and nothing once it is disposed of. *)
Theorem tooltip_delegates_clean `{B : Browser} `{C : Caller} `{Q : Query} `{M : Markup} (allowListValue : value)
    (readAllowList : value -> allowList) (stringFunction : nat -> string -> string) (parseJson : string -> option value)
    (root bodyElement : nat) (kind : component) (owner : nat) (config : obj value) (selector : string)
    (prevents : nat -> list string -> string -> bool) (inTheDom : gmap nat node -> nat -> bool) (touch rtl : bool)
    (inModal : nat -> bool) (uid : nat -> nat -> string) (textOf : nat -> string) (preSet : nat) (d : gmap nat node)
    (ops : list Delegate.op) :
  let g := Delegate.opRun allowListValue readAllowList stringFunction parseJson root bodyElement kind owner config selector prevents
             inTheDom touch rtl inModal uid textOf preSet ops (Delegate.Delegation d ∅ true) in
  forall e m, Delegate.g_members g !! e = Some m ->
    let s := Delegate.m_state m in
    (Tooltip.t_attached s = [] \/ exists t, Tooltip.tip s = Some t /\ Tooltip.t_attached s = [Tooltip.tip_no t]) /\
    length (Tooltip.t_poppers s) <= 1 /\ length (Tooltip.t_timers s) <= 1 /\
    (Tooltip._element s = None -> Tooltip.t_attached s = [] /\ Tooltip.t_poppers s = [] /\ Tooltip.t_timers s = []).
Proof.
  intros g e m Hm s. apply Tooltip.tip_inv_clean.
  by apply (Delegate.members_run allowListValue readAllowList stringFunction parseJson root bodyElement kind owner config
    selector prevents inTheDom touch rtl inModal uid textOf preSet ops (Delegate.Delegation d ∅ true)) with e.
Qed.

(** The pointer goes over both buttons, and the first tip appears. *)
Definition listRun (ops : list Delegate.op) : Delegate.delegation :=
  @Delegate.opRun listBrowser demoCaller demoQuery templateMarkup (VObj []) (fun _ => DefaultAllowlist) (fun _ s => s) (fun _ => None) 0 0
    TooltipClass 1 listConfig ".item" (fun _ _ _ => false) (fun _ _ => true) false false (fun _ => false) (fun _ _ => "tooltip7") (fun _ => "") 0
    ops (Delegate.Delegation listPage ∅ true).
Definition listOps : list Delegate.op :=
  [Delegate.PageEvent "mouseenter.bs.tooltip" false false 2; Delegate.PageEvent "mouseenter.bs.tooltip" false false 3;
   Delegate.At 2 (Tooltip.TimerFires 0)].

Example tooltip_delegates_run :
  (fun m => (Tooltip.t_attached (Delegate.m_state m), length (Tooltip.t_poppers (Delegate.m_state m)))) <$>
    Delegate.g_members (listRun listOps) !! 2 = Some ([1], 1).
Proof. vm_compute. reflexivity. Qed.
