(* ===== verification/BsDropdown.v ===== *)
(** Bootstrap's [Dropdown]: menus that open next to their toggles, close when the user turns elsewhere,
    and are walked through with the keyboard. *)
From Stdlib Require Import Ascii QArith Lia.
From S2P Require Import Prelude BsCore BsDom BsConfig BsSanitizer BsTemplate BsModal BsTooltip.

Local Open Scope nat_scope.

Module Dropdown.

Definition NAME : string := "dropdown".
Definition EVENT_HIDE : string := "hide.bs.dropdown".
Definition EVENT_HIDDEN : string := "hidden.bs.dropdown".
Definition EVENT_SHOW : string := "show.bs.dropdown".
Definition EVENT_SHOWN : string := "shown.bs.dropdown".
Definition SELECTOR_DATA_TOGGLE : string := "[data-bs-toggle=" +:+ quoted "dropdown" +:+ "]:not(.disabled):not(:disabled)".
Definition SELECTOR_DATA_TOGGLE_SHOWN : string := SELECTOR_DATA_TOGGLE +:+ ".show".
Definition SELECTOR_MENU : string := ".dropdown-menu".
Definition SELECTOR_NAVBAR : string := ".navbar".
Definition SELECTOR_NAVBAR_NAV : string := ".navbar-nav".
Definition SELECTOR_VISIBLE_ITEMS : string := ".dropdown-menu .dropdown-item:not(.disabled):not(:disabled)".

(** The placements, mirrored where text runs from right to left. *)
Definition PLACEMENT_TOP (rtl : bool) : string := if rtl then "top-end" else "top-start".
Definition PLACEMENT_TOPEND (rtl : bool) : string := if rtl then "top-start" else "top-end".
Definition PLACEMENT_BOTTOM (rtl : bool) : string := if rtl then "bottom-end" else "bottom-start".
Definition PLACEMENT_BOTTOMEND (rtl : bool) : string := if rtl then "bottom-start" else "bottom-end".
Definition PLACEMENT_RIGHT (rtl : bool) : string := if rtl then "left-start" else "right-start".
Definition PLACEMENT_LEFT (rtl : bool) : string := if rtl then "right-start" else "left-start".

Definition Default : obj value :=
  [("autoClose", VBool true); ("boundary", VStr "clippingParents"); ("display", VStr "dynamic"); ("offset", VArr [VNum 0; VNum 2]);
   ("popperConfig", VNull); ("reference", VStr "toggle")].

Definition DefaultType : obj string :=
  [("autoClose", "(boolean|string)"); ("boundary", "(string|element)"); ("display", "string");
   ("offset", "(array|string|function)"); ("popperConfig", "(null|object|function)"); ("reference", "(string|element|object)")].

(** An instance; its element is the key it is stored under. *)
Record instance := Instance {
  _parent : option nat;
  _menu : option nat;
  _inNavbar : bool;
  _popper : option nat;
  _config : obj value
}.

Record popper := Popper { p_id : nat; p_reference : value; p_menu : nat; p_options : obj value }.

Record state := State {
  d_page : gmap nat node;
  d_instances : gmap nat instance;
  d_focus : option nat;
  d_poppers : list popper;               (** those that have not been destroyed *)
  d_noop : bool;                         (** the empty listeners on the children of the body *)
  d_next : nat;
  d_log : list (nat * string)
}.

Definition set_page (d : gmap nat node) (s : state) : state :=
  State d (d_instances s) (d_focus s) (d_poppers s) (d_noop s) (d_next s) (d_log s).
Definition set_instances (m : gmap nat instance) (s : state) : state :=
  State (d_page s) m (d_focus s) (d_poppers s) (d_noop s) (d_next s) (d_log s).
Definition set_focus (f : option nat) (s : state) : state :=
  State (d_page s) (d_instances s) f (d_poppers s) (d_noop s) (d_next s) (d_log s).
Definition set_poppers (l : list popper) (s : state) : state :=
  State (d_page s) (d_instances s) (d_focus s) l (d_noop s) (d_next s) (d_log s).
Definition set_noop (b : bool) (s : state) : state :=
  State (d_page s) (d_instances s) (d_focus s) (d_poppers s) b (d_next s) (d_log s).
Definition log_event (e : nat) (name : string) (s : state) : state :=
  State (d_page s) (d_instances s) (d_focus s) (d_poppers s) (d_noop s) (d_next s) (d_log s ++ [(e, name)]).

(** A popper is destroyed; destroying it again does nothing. *)
Definition destroy (i : instance) (s : state) : state :=
  match _popper i with
  | Some p => set_poppers (List.filter (fun x => negb (p_id x =? p)) (d_poppers s)) s
  | None => s
  end.

(** An event of the pointer or the keyboard, as [clearMenus] sees it. *)
Record pageEvent := PageEvent {
  e_type : string;
  e_key : string;
  e_rightButton : bool;
  e_target : nat;
  e_path : list nat                      (** the elements of [composedPath()] *)
}.

Section dropdown.
Context `{B : Browser} `{C : Caller}.
Variable parseJson : string -> option value.
Variable root : nat.
Variable rtl touch : bool.
Variable bsPosition : gmap nat node -> nat -> string.  (** the computed [--bs-position] *)
Variable prevents : list (nat * string) -> nat -> string -> bool.
Implicit Types (d : gmap nat node) (s : state) (e : nat) (i : instance).

Definition option_of i (k : string) : value := default VUndefined (oget k (_config i)).

Definition _getConfig d e (config : value) : res (obj value) :=
  o ← getConfig parseJson NAME Default DefaultType (fun o => o) config d (Some e);
  match oget "reference" o with
  | Some (VObj r) =>
      match oget "getBoundingClientRect" r with
      | Some (VFunction _) => Ok o
      | _ => Err (TypeError ("DROPDOWN: Option " +:+ quoted "reference" +:+ " provided type " +:+ quoted "object" +:+
               " without a required " +:+ quoted "getBoundingClientRect" +:+ " method."))
      end
  | _ => Ok o
  end.

Definition _detectNavbar d e : bool := match closest d e SELECTOR_NAVBAR with Some _ => true | None => false end.

Definition parentOf d e : option nat := (d !! e) ≫= n_parent.

(** The search below the parent throws when there is none. *)
Definition menuOf d e : res (option nat) :=
  match next d e SELECTOR_MENU with
  | m :: _ => Ok (Some m)
  | [] =>
      match prev d e SELECTOR_MENU with
      | m :: _ => Ok (Some m)
      | [] => p ← need_obj (parentOf d e); Ok (findOne d SELECTOR_MENU p)
      end
  end.

(** The instance is stored before its menu is looked for. *)
Definition construct e (config : value) s : outcome state :=
  let d := d_page s in
  match _getConfig d e config with
  | Err x => (s, Some x)
  | Ok o =>
      match menuOf d e with
      | Err x => (set_instances (<[e := Instance (parentOf d e) None false None o]> (d_instances s)) s, Some x)
      | Ok menu => (set_instances (<[e := Instance (parentOf d e) menu (_detectNavbar d e) None o]> (d_instances s)) s, None)
      end
  end.

Definition getOrCreateInstance e s : outcome state :=
  match d_instances s !! e with Some _ => (s, None) | None => construct e VUndefined s end.

(** Without a menu the property read throws. *)
Definition _isShown d i : res bool := m ← need_obj (_menu i); Ok (hasClass d m "show").

Definition _getOffset i : value :=
  match option_of i "offset" with
  | VStr s => VArr (map parseIntValue (split_char "," s))
  | v => v
  end.

Definition _getPlacement d i (menu : nat) : res string :=
  parentDropdown ← need_obj (_parent i);
  if hasClass d parentDropdown "dropend" then Ok (PLACEMENT_RIGHT rtl)
  else if hasClass d parentDropdown "dropstart" then Ok (PLACEMENT_LEFT rtl)
  else if hasClass d parentDropdown "dropup-center" then Ok "top"
  else if hasClass d parentDropdown "dropdown-center" then Ok "bottom"
  else
    let isEnd := str_eqb (str_trim (bsPosition d menu)) "end" in
    if hasClass d parentDropdown "dropup" then Ok (if isEnd then PLACEMENT_TOPEND rtl else PLACEMENT_TOP rtl)
    else Ok (if isEnd then PLACEMENT_BOTTOMEND rtl else PLACEMENT_BOTTOM rtl).

(** The options of the popper, and the page: a static menu is marked. *)
Definition _getPopperConfig d i (menu : nat) : res (obj value * gmap nat node) :=
  placement ← _getPlacement d i menu;
  let static := _inNavbar i || match option_of i "display" with VStr v => str_eqb v "static" | _ => false end in
  let modifier name options := VObj [("name", VStr name); ("options", VObj options)] in
  let modifiers :=
    if static then [VObj [("name", VStr "applyStyles"); ("enabled", VBool false)]]
    else [modifier "preventOverflow" [("boundary", option_of i "boundary")]; modifier "offset" [("offset", _getOffset i)]] in
  let d := if static then setDataAttribute menu "popper" "static" d else d in
  Ok (oassign [("placement", VStr placement); ("modifiers", VArr modifiers)] (asObject (execute (option_of i "popperConfig"))), d).

Definition referenceOf e i : value :=
  match option_of i "reference" with
  | VStr r => if str_eqb r "parent" then match _parent i with Some p => VElement p | None => VNull end else VElement e
  | VElement r => VElement r
  | VObj r => VObj r
  | VArr r => VArr r
  | VNull => VNull
  | _ => VElement e
  end.

Definition _createPopper e i (menu : nat) s : res state :=
  '(options, d) ← _getPopperConfig (d_page s) i menu;
  Ok (State d (<[e := Instance (_parent i) (_menu i) (_inNavbar i) (Some (d_next s)) (_config i)]> (d_instances s)) (d_focus s)
        (d_poppers s ++ [Popper (d_next s) (referenceOf e i) menu options]) (d_noop s) (S (d_next s)) (d_log s)).

(** The part of [show] after the event, for an instance with a menu. *)
Definition openMenu e i (menu : nat) s : outcome state :=
  match _createPopper e i menu s with
  | Err x => (s, Some x)
  | Ok s =>
      let s := if touch && match _parent i with Some p => negb (bool_decide (is_Some (closest (d_page s) p SELECTOR_NAVBAR_NAV))) | None => false end
               then set_noop true s else s in
      let d := setAttribute e "aria-expanded" "true" (d_page s) in
      let d := classList_add e ["show"] (classList_add menu ["show"] d) in
      (log_event e EVENT_SHOWN (set_focus (Some e) (set_page d s)), None)
  end.

Definition show e s : outcome state :=
  match d_instances s !! e with
  | None => (s, None)
  | Some i =>
      if isDisabled (d_page s) (Some e) then (s, None)
      else
        match _menu i with
        | None => (s, Some (TypeError "classList"))
        | Some menu =>
            if hasClass (d_page s) menu "show" then (s, None)
            else
              let prevented := prevents (d_log s) e EVENT_SHOW in
              let s := log_event e EVENT_SHOW s in
              if prevented then (s, None) else openMenu e i menu s
        end
  end.

(** [_completeHide], for an instance with a menu. *)
Definition _completeHide e i (menu : nat) s : state :=
  let prevented := prevents (d_log s) e EVENT_HIDE in
  let s := log_event e EVENT_HIDE s in
  if prevented then s
  else
    let s := if touch then set_noop false s else s in
    let s := destroy i s in
    let d := classList_remove e ["show"] (classList_remove menu ["show"] (d_page s)) in
    let d := removeDataAttribute menu "popper" (setAttribute e "aria-expanded" "false" d) in
    log_event e EVENT_HIDDEN (set_page d s).

Definition hide e s : outcome state :=
  match d_instances s !! e with
  | None => (s, None)
  | Some i =>
      if isDisabled (d_page s) (Some e) then (s, None)
      else
        match _menu i with
        | None => (s, Some (TypeError "classList"))
        | Some menu => (if hasClass (d_page s) menu "show" then _completeHide e i menu s else s, None)
        end
  end.

Definition toggle e s : outcome state :=
  match d_instances s !! e with
  | None => (s, None)
  | Some i =>
      match _isShown (d_page s) i with
      | Err x => (s, Some x)
      | Ok true => hide e s
      | Ok false => show e s
      end
  end.

Definition dispose e s : state :=
  match d_instances s !! e with
  | None => s
  | Some i => set_instances (delete e (d_instances s)) (destroy i s)
  end.

Definition update e s : state :=
  match d_instances s !! e with
  | None => s
  | Some i =>
      set_instances (<[e := Instance (_parent i) (_menu i) (_detectNavbar (d_page s) e) (_popper i) (_config i)]> (d_instances s)) s
  end.

Definition _selectMenuItem i (key : string) (target : nat) s : outcome state :=
  match _menu i with
  | None => (s, Some (TypeError "querySelectorAll"))
  | Some menu =>
      let items := List.filter (fun x => isVisible (d_page s) (Some x)) (find (d_page s) SELECTOR_VISIBLE_ITEMS menu) in
      match getNextActiveElement items (Some target) (str_eqb key "ArrowDown") (negb (existsb (Nat.eqb target) items)) with
      | Some x => (set_focus (Some x) s, None)
      | None => (s, None)
      end
  end.

(** A regular expression of alternatives, tried on the name of a tag. *)
Definition tagIn (d : gmap nat node) (x : nat) (words : list string) : bool :=
  match d !! x with Some n => existsb (fun w => str_includes (toLowerCase (n_tag n)) w) words | None => false end.

(** The event or the option [autoClose] asks for the menu to stay. *)
Definition keptByOption (ev : pageEvent) e i : bool :=
  let isMenuTarget := match _menu i with Some m => existsb (Nat.eqb m) (e_path ev) | None => false end in
  let autoClose := option_of i "autoClose" in
  let says word := match autoClose with VStr v => str_eqb v word | _ => false end in
  match autoClose with VBool false => true | _ => false end ||
  (existsb (Nat.eqb e) (e_path ev) || says "inside" && negb isMenuTarget || says "outside" && isMenuTarget).

(** Tab within the menu and events of its inputs leave it open. *)
Definition keptByTarget (ev : pageEvent) d (menu : nat) : bool :=
  containsNode d menu (e_target ev) &&
    (str_eqb (e_type ev) "keyup" && str_eqb (e_key ev) "Tab" ||
     tagIn d (e_target ev) ["input"; "select"; "option"; "textarea"; "form"]).

(** One turn of the loop. *)
Definition clearMenu (ev : pageEvent) e s : outcome state :=
  match d_instances s !! e with
  | None => (s, None)
  | Some i =>
      if keptByOption ev e i then (s, None)
      else
        match _menu i with
        | None => (s, Some (TypeError "contains"))
        | Some menu => (if keptByTarget ev (d_page s) menu then s else _completeHide e i menu s, None)
        end
  end.

Definition clearMenus (ev : pageEvent) s : outcome state :=
  if e_rightButton ev || str_eqb (e_type ev) "keyup" && negb (str_eqb (e_key ev) "Tab") then (s, None)
  else fold_left (fun r e => andThen r (clearMenu ev e)) (find (d_page s) SELECTOR_DATA_TOGGLE_SHOWN root) (s, None).

(** [this] is the toggle or the menu that has the listener. *)
Definition getToggleButton d (this : nat) : res (option nat) :=
  if matches d this SELECTOR_DATA_TOGGLE then Ok (Some this)
  else
    match prev d this SELECTOR_DATA_TOGGLE with
    | x :: _ => Ok (Some x)
    | [] =>
        match next d this SELECTOR_DATA_TOGGLE with
        | x :: _ => Ok (Some x)
        | [] => p ← need_obj (parentOf d this); Ok (findOne d SELECTOR_DATA_TOGGLE p)
        end
    end.

Definition dataApiKeydownHandler (this : nat) (key : string) (target : nat) s : outcome state :=
  let isInput := tagIn (d_page s) target ["input"; "textarea"] in
  let isEscapeEvent := str_eqb key "Escape" in
  let isUpOrDownEvent := in_strs key ["ArrowUp"; "ArrowDown"] in
  if negb isUpOrDownEvent && negb isEscapeEvent then (s, None)
  else if isInput && negb isEscapeEvent then (s, None)
  else
    match getToggleButton (d_page s) this with
    | Err x => (s, Some x)
    | Ok None => (s, Some (TypeError "parentNode"))
    | Ok (Some button) =>
        andThen (getOrCreateInstance button s) (fun s =>
          match d_instances s !! button with
          | None => (s, None)
          | Some i =>
              if isUpOrDownEvent then andThen (show button s) (_selectMenuItem i key target)
              else
                match _isShown (d_page s) i with
                | Err x => (s, Some x)
                | Ok true => andThen (hide button s) (fun s => (set_focus (Some button) s, None))
                | Ok false => (s, None)
                end
          end)
    end.

(** The click handler, delegated to the elements that are toggles. *)
Definition clickToggle e s : outcome state :=
  if matches (d_page s) e SELECTOR_DATA_TOGGLE then andThen (getOrCreateInstance e s) (toggle e) else (s, None).

Inductive op :=
  | Show (e : nat) | Hide (e : nat) | Toggle (e : nat) | Dispose (e : nat) | Update (e : nat) | ClickToggle (e : nat)
  | PageEvents (ev : pageEvent) | Keydown (this : nat) (key : string) (target : nat).

Definition step (o : op) s : outcome state :=
  match o with
  | Show e => show e s
  | Hide e => hide e s
  | Toggle e => toggle e s
  | Dispose e => (dispose e s, None)
  | Update e => (update e s, None)
  | ClickToggle e => clickToggle e s
  | PageEvents ev => clearMenus ev s
  | Keydown this key target => dataApiKeydownHandler this key target s
  end.

Definition run (ops : list op) s : state := fold_left (fun s o => fst (step o s)) ops s.
End dropdown.

(** ** Poppers and open menus *)

Definition changedAttributes : list string := ["aria-expanded"; "data-bs-popper"].
Abbreviation kept := (changes ["show"] changedAttributes).

Section poppers.
Context `{B : Browser} `{C : Caller}.
Variable parseJson : string -> option value.
Variable root : nat.
Variable rtl touch : bool.
Variable bsPosition : gmap nat node -> nat -> string.
Variable prevents : list (nat * string) -> nat -> string -> bool.
Variable d0 : gmap nat node.
Implicit Types (d : gmap nat node) (s : state) (e m p : nat) (i : instance).

(** Which elements are toggles and menus does not depend on what is open. *)
Hypothesis css : forall d x sel, kept d0 d -> sel ∈ [SELECTOR_MENU; SELECTOR_DATA_TOGGLE] -> matches d x sel = matches d0 x sel.

Definition owns e m : Prop := matches d0 e SELECTOR_DATA_TOGGLE = true /\ menuOf d0 e = Ok (Some m).

(** Each menu belongs to one toggle, is on the page, and is no toggle itself. *)
Record wellFormed : Prop := {
  wf_owner e e' m : owns e m -> owns e' m -> e = e';
  wf_apart e e' m m' : owns e m -> owns e' m' -> m <> e';
  wf_exists e m : owns e m -> is_Some (d0 !! m)
}.
Hypothesis wf : wellFormed.

Lemma menuOf_kept d e : kept d0 d -> menuOf d e = menuOf d0 e.
Proof.
  intros K. unfold menuOf, next, prev, parentOf. rewrite (siblings_changes _ _ _ _ e K).
  assert (F : forall l, List.find (fun x => matches d x SELECTOR_MENU) l = List.find (fun x => matches d0 x SELECTOR_MENU) l).
  { intros l. induction l as [|x l IH]; cbn; [done|]. rewrite css, IH by (done || apply list_elem_of_In; cbn; tauto). done. }
  rewrite !F. destruct (List.find _ (siblings d0 e).2); [done|]. destruct (List.find _ (siblings d0 e).1); [done|].
  assert (P : (d !! e ≫= n_parent) = (d0 !! e ≫= n_parent)).
  { pose proof (ch_parent _ _ _ _ K e) as H. destruct (d !! e), (d0 !! e); cbn in *; congruence. }
  rewrite P. destruct (d0 !! e ≫= n_parent) as [q|]; [|done]. cbn. unfold findOne.
  rewrite (find_same d0 d); [done|apply K|]. intros x. apply css; [done|]. apply list_elem_of_In. cbn. tauto.
Qed.

Definition shown s m : Prop := hasClass (d_page s) m "show" = true.

Record inv s : Prop := {
  iv_page : kept d0 (d_page s);
  iv_menu e i m : d_instances s !! e = Some i -> _menu i = Some m -> owns e m;
  iv_fresh e i p : d_instances s !! e = Some i -> _popper i = Some p -> p < d_next s;
  iv_old p : p ∈ map p_id (d_poppers s) -> p < d_next s;
  iv_inj e i e' i' p : d_instances s !! e = Some i -> d_instances s !! e' = Some i' ->
    _popper i = Some p -> _popper i' = Some p -> e = e';
  iv_live p : p ∈ map p_id (d_poppers s) <->
    exists e i m, d_instances s !! e = Some i /\ _popper i = Some p /\ _menu i = Some m /\ shown s m
}.

Lemma filter_ids p l q : q ∈ map p_id (List.filter (fun x => negb (p_id x =? p)) l) <-> q ∈ map p_id l /\ q <> p.
Proof.
  rewrite !list_elem_of_In, !in_map_iff. split.
  - intros (x & <- & Hx). apply filter_In in Hx as [Hx Hn]. apply negb_true_iff, Nat.eqb_neq in Hn. eauto.
  - intros [(x & <- & Hx) Hn]. exists x. split; [done|]. apply filter_In. split; [done|]. by apply negb_true_iff, Nat.eqb_neq.
Qed.

(** Fields the invariant does not speak of. *)
Lemma drop_inv_frame s s' : inv s -> d_page s' = d_page s -> d_instances s' = d_instances s -> d_poppers s' = d_poppers s ->
  d_next s' = d_next s -> inv s'.
Proof.
  intros [H1 H2 H3 H4 H5 H6] E1 E2 E3 E4. split; rewrite ?E1, ?E2, ?E3, ?E4; try done.
  intros p. rewrite H6. unfold shown. by rewrite E1.
Qed.

(** The classes of a page where [e] and [m] have been opened or closed. *)
Lemma class_open d e m x : is_Some (d !! m) ->
  hasClass (classList_add e ["show"] (classList_add m ["show"] (setAttribute e "aria-expanded" "true" d))) x "show" = true <->
  hasClass d x "show" = true \/ x = m \/ (x = e /\ is_Some (d !! e)).
Proof.
  intros Hm. autorewrite with js. rewrite !orb_true_iff, !andb_true_iff, !bool_decide_eq_true.
  unfold classList_add, setAttribute. rewrite !alter_is_Some. unfold in_strs. cbn. tauto.
Qed.

Lemma class_close d e m x :
  hasClass (removeDataAttribute m "popper" (setAttribute e "aria-expanded" "false"
    (classList_remove e ["show"] (classList_remove m ["show"] d)))) x "show" = true <->
  hasClass d x "show" = true /\ x <> m /\ x <> e.
Proof.
  unfold removeDataAttribute. autorewrite with js.
  rewrite !andb_true_iff, !negb_true_iff, !andb_false_iff, !bool_decide_eq_false. unfold in_strs. cbn. intuition discriminate.
Qed.

Lemma inv_open s e i m : inv s -> d_instances s !! e = Some i -> _menu i = Some m -> ~ shown s m ->
  inv (fst (openMenu rtl touch bsPosition e i m s)).
Proof.
  intros I He Hm Hs. unfold openMenu, _createPopper, _getPopperConfig.
  destruct (_getPlacement rtl bsPosition (d_page s) i m) as [pl|x]; [|done]. cbn [mbind res_bind].
  set (d1 := if _ || _ then setDataAttribute m "popper" "static" (d_page s) else d_page s).
  assert (D1 : kept (d_page s) d1 /\ forall x, hasClass d1 x "show" = hasClass (d_page s) x "show").
  { subst d1. destruct (_ || _); [|done]. split; [by apply (changes_attribute _ _ m (dataAttribute "popper") "static")|].
    intros x. apply hasClass_setAttribute. }
  clearbody d1. destruct D1 as [K1 C1]. destruct I as [H1 H2 H3 H4 H5 H6]. pose proof (H2 e i m He Hm) as Hown.
  assert (Km : is_Some (d1 !! m)).
  { apply (changes_some _ _ _ _ m K1), (changes_some _ _ _ _ m H1). by apply (wf_exists wf e). }
  cbn [fst]. match goal with |- inv (log_event _ _ (set_focus _ (set_page _ ?x))) => set (s1 := x) end.
  assert (E : d_page s1 = d1 /\ d_next s1 = S (d_next s) /\ map p_id (d_poppers s1) = map p_id (d_poppers s) ++ [d_next s] /\
    d_instances s1 = <[e := Instance (_parent i) (_menu i) (_inNavbar i) (Some (d_next s)) (_config i)]> (d_instances s)).
  { subst s1. destruct (touch && _); cbn; rewrite map_app; done. }
  clearbody s1. destruct E as (E1 & E2 & E3 & E4).
  split; cbn; rewrite ?E1, ?E2, ?E3, ?E4.
  - transitivity (d_page s); [done|]. transitivity d1; [done|].
    etransitivity; [|by apply (changes_classes _ _ e "show")]. etransitivity; [|by apply (changes_classes _ _ m "show")].
    by apply (changes_attribute _ _ e "aria-expanded" "true").
  - intros e1 i1 m1. rewrite lookup_insert_Some. intros [[<- <-]|[Hne Hi]]; cbn; [intros Hm1; congruence|]. by apply H2.
  - intros e1 i1 p. rewrite lookup_insert_Some. intros [[<- <-]|[Hne Hi]]; cbn; [intros [= <-]; lia|].
    intros Hp. specialize (H3 _ _ _ Hi Hp). lia.
  - intros p. rewrite elem_of_app, list_elem_of_singleton. intros [Hp| ->]; [specialize (H4 p Hp); lia|lia].
  - intros e1 i1 e2 i2 p. rewrite !lookup_insert_Some. intros [[<- <-]|[N1 Hi1]] [[<- <-]|[N2 Hi2]]; cbn; try done.
    + intros [= <-] Hp. specialize (H3 _ _ _ Hi2 Hp). lia.
    + intros Hp [= <-]. specialize (H3 _ _ _ Hi1 Hp). lia.
    + by apply H5.
  - intros p. rewrite elem_of_app, list_elem_of_singleton, H6. unfold shown. cbn [d_page set_page log_event set_focus]. rewrite ?E1.
    setoid_rewrite (class_open d1 e m _ Km). setoid_rewrite C1. split.
    + intros [(e1 & i1 & m1 & Hi & Hp & Hm1 & Hs1)| ->].
      * exists e1, i1, m1. rewrite lookup_insert_ne; [tauto|]. intros <-. apply Hs. unfold shown in *. congruence.
      * eexists e, _, m. rewrite lookup_insert_eq. split; [reflexivity|]. cbn. tauto.
    + intros (e1 & i1 & m1 & Hi & Hp & Hm1 & Hs1). apply lookup_insert_Some in Hi as [[<- <-]|[Hne Hi]]; [right; cbn in Hp; congruence|].
      left. exists e1, i1, m1. split_and!; try done. pose proof (H2 _ _ _ Hi Hm1) as Hown1. destruct Hs1 as [|[->|[-> _]]]; [done| |].
      * by destruct Hne; apply (wf_owner wf e e1 m).
      * by destruct (wf_apart wf e1 e e m Hown1 Hown).
Qed.

Lemma destroy_fields i s : d_page (destroy i s) = d_page s /\ d_instances (destroy i s) = d_instances s /\
  d_next (destroy i s) = d_next s /\ d_log (destroy i s) = d_log s /\
  forall q, q ∈ map p_id (d_poppers (destroy i s)) <-> q ∈ map p_id (d_poppers s) /\ _popper i <> Some q.
Proof.
  unfold destroy. destruct (_popper i) as [p|]; cbn; split_and!; try done; intros q.
  - rewrite filter_ids. split; intros [? ?]; split; congruence.
  - split; [intros ?; split; done|by intros [? _]].
Qed.

Lemma kept_close d e m : kept d (removeDataAttribute m "popper" (setAttribute e "aria-expanded" "false"
  (classList_remove e ["show"] (classList_remove m ["show"] d)))).
Proof.
  etransitivity; [|by apply (changes_attribute _ _ m (dataAttribute "popper") "")].
  etransitivity; [|by apply (changes_attribute _ _ e "aria-expanded" "false")].
  etransitivity; [|by apply (changes_classes _ _ e "show")]. by apply (changes_classes _ _ m "show").
Qed.

Lemma inv_completeHide s e i m : inv s -> d_instances s !! e = Some i -> _menu i = Some m -> inv (_completeHide touch prevents e i m s).
Proof.
  intros I He Hm. unfold _completeHide. destruct (prevents _ _ _); [by apply (drop_inv_frame s)|].
  set (s1 := if touch then _ else _). assert (I1 : inv s1 /\ d_instances s1 = d_instances s /\ d_page s1 = d_page s).
  { subst s1. destruct touch; (split; [by apply (drop_inv_frame s)|done]). }
  clearbody s1. destruct I1 as (I1 & Ei & Ep). rewrite <- Ei in He.
  destruct (destroy_fields i s1) as (F1 & F2 & F3 & _ & F4). destruct I1 as [H1 H2 H3 H4 H5 H6].
  pose proof (H2 e i m He Hm) as Hown. split; cbn; rewrite ?F1, ?F2, ?F3; try done.
  - transitivity (d_page s1); [done|]. apply kept_close.
  - intros p [Hp _]%F4. by apply H4.
  - intros p. rewrite F4, H6. unfold shown. cbn [d_page set_page log_event]. rewrite ?F1. setoid_rewrite class_close. split.
    + intros [(e1 & i1 & m1 & Hi & Hp & Hm1 & Hs1) Hn]. exists e1, i1, m1. split_and!; try done.
      * intros ->. assert (e1 = e) as -> by (apply (wf_owner wf e1 e m); [by apply (H2 e1 i1)|done]). congruence.
      * intros ->. by destruct (wf_apart wf e1 e e m (H2 _ _ _ Hi Hm1) Hown).
    + intros (e1 & i1 & m1 & Hi & Hp & Hm1 & Hs1 & N1 & N2). split; [by exists e1, i1, m1|].
      intros Hpe. assert (e1 = e) as -> by (by apply (H5 e1 i1 e i p)). congruence.
Qed.

Lemma drop_inv_dispose s e : inv s -> inv (dispose e s).
Proof.
  intros I. unfold dispose. destruct (d_instances s !! e) as [i|] eqn:He; [|done].
  destruct (destroy_fields i s) as (F1 & F2 & F3 & _ & F4). destruct I as [H1 H2 H3 H4 H5 H6].
  split; cbn; rewrite ?F1, ?F3; try done; try setoid_rewrite lookup_delete_Some.
  - intros e1 i1 m1 [_ Hi]. by apply H2.
  - intros e1 i1 p [_ Hi]. by apply (H3 e1 i1).
  - intros p [Hp _]%F4. by apply H4.
  - intros e1 i1 e2 i2 p [_ Hi1] [_ Hi2]. by apply H5.
  - intros p. rewrite F4, H6. unfold shown. cbn [d_page set_instances]. rewrite ?F1. split.
    + intros [(e1 & i1 & m1 & Hi & Hp & Hm1 & Hs1) Hn]. exists e1, i1, m1. split_and!; try done. intros ->. congruence.
    + intros (e1 & i1 & m1 & [Hne Hi] & Hp & Hm1 & Hs1). split; [by exists e1, i1, m1|].
      intros Hpe. by destruct Hne; apply (H5 e i e1 i1 p).
Qed.

(** A new instance has no popper; an instance keeps its menu and popper. *)
Lemma inv_insert s e i : inv s -> (forall m, _menu i = Some m -> owns e m) ->
  match d_instances s !! e with Some i0 => _menu i = _menu i0 /\ _popper i = _popper i0 | None => _popper i = None end ->
  inv (set_instances (<[e := i]> (d_instances s)) s).
Proof.
  intros [H1 H2 H3 H4 H5 H6] Hm Hi0.
  assert (Old : forall e1 i1 p, <[e := i]> (d_instances s) !! e1 = Some i1 -> _popper i1 = Some p ->
    exists i2, d_instances s !! e1 = Some i2 /\ _popper i2 = Some p /\ _menu i2 = _menu i1).
  { intros e1 i1 p. rewrite lookup_insert_Some. intros [[<- <-]|[Hne Hi]] Hp; [|by exists i1].
    destruct (d_instances s !! e) as [i0|]; [|congruence]. exists i0. destruct Hi0. split_and!; congruence. }
  split; cbn; try done.
  - intros e1 i1 m1. rewrite lookup_insert_Some. intros [[<- <-]|[Hne Hi]]; [by apply Hm|by apply H2].
  - intros e1 i1 p Hi Hp. destruct (Old _ _ _ Hi Hp) as (i2 & Hi2 & Hp2 & _). by apply (H3 e1 i2).
  - intros e1 i1 e2 i2 p Hi1 Hi2 Hp1 Hp2. destruct (Old _ _ _ Hi1 Hp1) as (j1 & J1 & P1 & _).
    destruct (Old _ _ _ Hi2 Hp2) as (j2 & J2 & P2 & _). by apply (H5 e1 j1 e2 j2 p).
  - intros p. rewrite H6. split.
    + intros (e1 & i1 & m1 & Hi & Hp & Hm1 & Hs). destruct (decide (e1 = e)) as [->|Hne].
      * rewrite Hi in Hi0. destruct Hi0 as [Q1 Q2]. exists e, i, m1. rewrite lookup_insert_eq. split_and!; [done|congruence..|done].
      * exists e1, i1, m1. by rewrite lookup_insert_ne by done.
    + intros (e1 & i1 & m1 & Hi & Hp & Hm1 & Hs). destruct (Old _ _ _ Hi Hp) as (i2 & Hi2 & Hp2 & Hm2).
      exists e1, i2, m1. split_and!; [done|congruence..|done].
Qed.

Lemma drop_inv_construct s e c : inv s -> matches d0 e SELECTOR_DATA_TOGGLE = true -> d_instances s !! e = None -> inv (fst (construct parseJson e c s)).
Proof.
  intros I Ht Hn. unfold construct. destruct (_getConfig _ _ _ _) as [o|x]; [|done].
  rewrite menuOf_kept by apply I. destruct (menuOf d0 e) as [m|x] eqn:Hm; cbn [fst]; apply inv_insert; cbn; rewrite ?Hn; try done.
  intros m' ->. done.
Qed.

Lemma inv_getOrCreate s e : inv s -> matches d0 e SELECTOR_DATA_TOGGLE = true -> inv (fst (getOrCreateInstance parseJson e s)).
Proof. intros I Ht. unfold getOrCreateInstance. destruct (d_instances s !! e) eqn:He; [done|by apply drop_inv_construct]. Qed.

Lemma inv_update s e : inv s -> inv (update e s).
Proof.
  intros I. unfold update. destruct (d_instances s !! e) as [i|] eqn:He; [|done].
  apply inv_insert; cbn; rewrite ?He; try done. intros m. by apply (iv_menu _ I).
Qed.

Lemma drop_inv_show s e : inv s -> inv (fst (show rtl touch bsPosition prevents e s)).
Proof.
  intros I. unfold show. destruct (d_instances s !! e) as [i|] eqn:He; [|done]. destruct (isDisabled _ _); [done|].
  destruct (_menu i) as [m|] eqn:Hm; [|done]. destruct (hasClass (d_page s) m "show") eqn:Hs; [done|].
  destruct (prevents _ _ _); cbn; [by apply (drop_inv_frame s)|].
  apply inv_open; try done; [by apply (drop_inv_frame s)|]. unfold shown. cbn. congruence.
Qed.

Lemma drop_inv_hide s e : inv s -> inv (fst (hide touch prevents e s)).
Proof.
  intros I. unfold hide. destruct (d_instances s !! e) as [i|] eqn:He; [|done]. destruct (isDisabled _ _); [done|].
  destruct (_menu i) as [m|] eqn:Hm; [|done]. cbn. destruct (hasClass _ _ _); [by apply inv_completeHide|done].
Qed.

Lemma drop_inv_toggle s e : inv s -> inv (fst (toggle rtl touch bsPosition prevents e s)).
Proof.
  intros I. unfold toggle. destruct (d_instances s !! e) as [i|] eqn:He; [|done].
  destruct (_isShown _ _) as [[]|x]; [by apply drop_inv_hide|by apply drop_inv_show|done].
Qed.

Lemma drop_inv_andThen r f : inv (fst r) -> (forall s, inv s -> inv (fst (f s))) -> inv (fst (andThen r f)).
Proof. destruct r as [s [x|]]; cbn; auto. Qed.

Lemma inv_clearMenu ev e s : inv s -> inv (fst (clearMenu touch prevents ev e s)).
Proof.
  intros I. unfold clearMenu. destruct (d_instances s !! e) as [i|] eqn:He; [|done]. destruct (keptByOption _ _ _); [done|].
  destruct (_menu i) as [m|] eqn:Hm; [|done]. destruct (keptByTarget _ _ _); [done|]. by apply inv_completeHide.
Qed.

Lemma inv_clearMenus ev s : inv s -> inv (fst (clearMenus root touch prevents ev s)).
Proof.
  intros I. unfold clearMenus. destruct (_ || _); [done|]. generalize (find (d_page s) SELECTOR_DATA_TOGGLE_SHOWN root) as l. intros l.
  assert (I' : inv (fst ((s, None) : outcome state))) by done. clear I. revert I'. generalize ((s, None) : outcome state).
  induction l as [|e l IH]; intros r I; cbn; [done|]. apply IH, drop_inv_andThen; [done|]. intros s'. apply inv_clearMenu.
Qed.

Lemma inv_select i k t s : inv s -> inv (fst (_selectMenuItem i k t s)).
Proof.
  intros I. unfold _selectMenuItem. destruct (_menu i); [|done].
  destruct (getNextActiveElement _ _ _ _); [by apply (drop_inv_frame s)|done].
Qed.

Lemma toggle_kept d e : kept d0 d -> matches d e SELECTOR_DATA_TOGGLE = true -> matches d0 e SELECTOR_DATA_TOGGLE = true.
Proof. intros K. rewrite css; [done..|]. apply list_elem_of_In. cbn. tauto. Qed.

Lemma getToggleButton_matches d x b : getToggleButton d x = Ok (Some b) -> matches d b SELECTOR_DATA_TOGGLE = true.
Proof.
  unfold getToggleButton. destruct (matches d x SELECTOR_DATA_TOGGLE) eqn:E; [by intros [= <-]|]. unfold prev, next.
  destruct (List.find _ (siblings d x).1) eqn:F1; [intros [= <-]; by apply find_some in F1 as [_ ?]|].
  destruct (List.find _ (siblings d x).2) eqn:F2; [intros [= <-]; by apply find_some in F2 as [_ ?]|].
  destruct (parentOf d x) as [q|]; [|done]. cbn. unfold findOne, find. intros [= H].
  destruct (List.filter _ _) as [|y l] eqn:F; [done|]. injection H as ->.
  assert (Hin : In b (b :: l)) by (by left). rewrite <- F in Hin. by apply filter_In in Hin as [_ ?].
Qed.

Lemma inv_keydown this k t s : inv s -> inv (fst (dataApiKeydownHandler parseJson rtl touch bsPosition prevents this k t s)).
Proof.
  intros I. unfold dataApiKeydownHandler. destruct (_ && _); [done|]. destruct (_ && _); [done|].
  destruct (getToggleButton _ _) as [[b|]|x] eqn:Hb; [|done..]. apply getToggleButton_matches, (toggle_kept _ _ (iv_page _ I)) in Hb.
  apply drop_inv_andThen; [by apply inv_getOrCreate|]. clear s I. intros s I.
  destruct (d_instances s !! b) as [i|]; [|done]. destruct (in_strs _ _).
  - apply drop_inv_andThen; [by apply drop_inv_show|]. intros s'. apply inv_select.
  - destruct (_isShown _ _) as [[]|x]; [|done..]. apply drop_inv_andThen; [by apply drop_inv_hide|]. intros s' I'. by apply (drop_inv_frame s').
Qed.

Lemma drop_inv_step o s : inv s -> inv (fst (step parseJson root rtl touch bsPosition prevents o s)).
Proof.
  intros I. destruct o; cbn [step]; [by apply drop_inv_show|by apply drop_inv_hide|by apply drop_inv_toggle|by apply drop_inv_dispose|by apply inv_update| |
    by apply inv_clearMenus|by apply inv_keydown].
  unfold clickToggle. destruct (matches _ _ _) eqn:Ht; [|done]. apply (toggle_kept _ _ (iv_page _ I)) in Ht.
  apply drop_inv_andThen; [by apply inv_getOrCreate|]. intros s'. apply drop_inv_toggle.
Qed.

Lemma drop_inv_run ops s : inv s -> inv (run parseJson root rtl touch bsPosition prevents ops s).
Proof. revert s. induction ops as [|o ops IH]; intros s I; cbn; [done|]. by apply IH, drop_inv_step. Qed.

Lemma inv_start s : d_page s = d0 -> d_instances s = ∅ -> d_poppers s = [] -> inv s.
Proof.
  intros E1 E2 E3. split; rewrite ?E1, ?E2, ?E3; try done; intros p; [by intros ?%elem_of_nil|].
  split; [by intros ?%elem_of_nil|]. by intros (e & i & m & Hi & _).
Qed.

(** ** What an event of the page closes *)

Lemma keptByTarget_kept ev d d' m : kept d d' -> keptByTarget ev d' m = keptByTarget ev d m.
Proof.
  intros K. unfold keptByTarget, containsNode, tagIn.
  rewrite (descendants_same _ d d'), (proj1 (ch_tree _ _ _ _ K)) by apply K.
  pose proof (ch_tag _ _ _ _ K (e_target ev)) as H.
  destruct (d' !! e_target ev), (d !! e_target ev); cbn in H; try discriminate H; [|done]. by injection H as ->.
Qed.

Lemma completeHide_page s e i m : (forall l x, prevents l x EVENT_HIDE = false) ->
  d_instances (_completeHide touch prevents e i m s) = d_instances s /\
  d_page (_completeHide touch prevents e i m s) = removeDataAttribute m "popper" (setAttribute e "aria-expanded" "false"
    (classList_remove e ["show"] (classList_remove m ["show"] (d_page s)))).
Proof. intros P. unfold _completeHide, destroy. rewrite P. destruct touch, (_popper i); done. Qed.

(** The toggles [l] have had their turn. *)
Record cleared (ev : pageEvent) s (l : list nat) s' : Prop := {
  cl_page : kept (d_page s) (d_page s');
  cl_instances : d_instances s' = d_instances s;
  cl_shown e i m : d_instances s !! e = Some i -> _menu i = Some m ->
    hasClass (d_page s') m "show" =
      hasClass (d_page s) m "show" && (negb (bool_decide (e ∈ l)) || keptByOption ev e i || keptByTarget ev (d_page s) m)
}.

Lemma cleared_clearMenu ev s l s' e : (forall l x, prevents l x EVENT_HIDE = false) -> inv s ->
  (forall e i, d_instances s !! e = Some i -> is_Some (_menu i)) -> cleared ev s l s' ->
  (clearMenu touch prevents ev e s').2 = None /\ cleared ev s (e :: l) (clearMenu touch prevents ev e s').1.
Proof.
  intros P I M [C1 C2 C3]. unfold clearMenu. rewrite C2.
  assert (Same : (forall i m, d_instances s !! e = Some i -> _menu i = Some m ->
      keptByOption ev e i || keptByTarget ev (d_page s) m = true) -> cleared ev s (e :: l) s').
  { intros K. split; [done..|]. intros e1 i1 m1 H1 Hm1. rewrite (C3 _ _ _ H1 Hm1).
    destruct (decide (e1 = e)) as [->|Hne]; [|by rewrite (bool_decide_ext (e1 ∈ e :: l) (e1 ∈ l)) by (rewrite elem_of_cons; tauto)].
    specialize (K _ _ H1 Hm1). rewrite <- !orb_assoc, K, !orb_true_r. done. }
  destruct (d_instances s !! e) as [i|] eqn:He; [|split; [done|]; by apply Same].
  destruct (M e i He) as [m Hm]. destruct (keptByOption ev e i) eqn:K1.
  { split; [done|]. apply Same. intros i1 m1 [= <-] _. by rewrite K1. }
  rewrite Hm. cbn [fst snd]. split; [done|]. rewrite (keptByTarget_kept ev (d_page s)) by done.
  destruct (keptByTarget ev (d_page s) m) eqn:K2.
  { apply Same. intros i1 m1 [= <-] Hm1. assert (m1 = m) as -> by congruence. by rewrite K2, orb_true_r. }
  destruct (completeHide_page s' e i m P) as [E1 E2]. split; rewrite ?E1, ?E2; [|done|].
  - etransitivity; [apply C1|apply kept_close].
  - intros e1 i1 m1 H1 Hm1. apply eq_bool_prop_intro, (iff_trans (Is_true_true _)), (iff_trans (class_close _ _ _ _)), iff_sym, (iff_trans (Is_true_true _)).
    rewrite (C3 _ _ _ H1 Hm1). pose proof (iv_menu _ I _ _ _ H1 Hm1) as O1. pose proof (iv_menu _ I _ _ _ He Hm) as O2.
    destruct (decide (e1 = e)) as [->|Hne].
    + assert (i1 = i) as -> by congruence. assert (m1 = m) as -> by congruence.
      rewrite K1, K2, (bool_decide_true (e ∈ e :: l)) by set_solver. rewrite andb_false_r. split; [done|tauto].
    + rewrite (bool_decide_ext (e1 ∈ e :: l) (e1 ∈ l)) by (rewrite elem_of_cons; tauto).
      assert (m1 <> m) by (intros ->; by destruct Hne; apply (wf_owner wf e1 e m)).
      pose proof (wf_apart wf e1 e m1 m O1 O2). tauto.
Qed.

Lemma cleared_fold ev s l before s' : (forall l x, prevents l x EVENT_HIDE = false) -> inv s ->
  (forall e i, d_instances s !! e = Some i -> is_Some (_menu i)) -> cleared ev s before s' ->
  let r := fold_left (fun r e => andThen r (clearMenu touch prevents ev e)) l (s', None) in
  r.2 = None /\ cleared ev s (rev l ++ before) r.1.
Proof.
  intros P I M. revert before s'. induction l as [|e l IH]; intros before s' H; cbn; [done|].
  destruct (cleared_clearMenu ev s before s' e P I M H) as [E H']. destruct (clearMenu touch prevents ev e s') as [s2 x]. cbn in E. subst x.
  rewrite <- app_assoc. by apply IH.
Qed.

Lemma clearMenus_cleared ev s : (forall l x, prevents l x EVENT_HIDE = false) -> inv s ->
  (forall e i, d_instances s !! e = Some i -> is_Some (_menu i)) ->
  e_rightButton ev = false -> str_eqb (e_type ev) "keyup" && negb (str_eqb (e_key ev) "Tab") = false ->
  (clearMenus root touch prevents ev s).2 = None /\
  cleared ev s (find (d_page s) SELECTOR_DATA_TOGGLE_SHOWN root) (clearMenus root touch prevents ev s).1.
Proof.
  intros P I M E1 E2. unfold clearMenus. rewrite E1, E2. cbn [orb].
  destruct (cleared_fold ev s (find (d_page s) SELECTOR_DATA_TOGGLE_SHOWN root) [] s P I M) as [H1 [H2 H3 H4]].
  { split; [done..|]. intros e i m _ _. rewrite bool_decide_false by set_solver. by rewrite andb_true_r. }
  split; [done|]. split; [done..|]. intros e i m He Hm. rewrite (H4 e i m He Hm), app_nil_r.
  by rewrite (bool_decide_ext (e ∈ rev _) (e ∈ find (d_page s) SELECTOR_DATA_TOGGLE_SHOWN root)) by (by rewrite !list_elem_of_In, <- in_rev).
Qed.
End poppers.
End Dropdown.

(** C23: on a page where each menu belongs to one toggle, whatever sequence of clicks, keys, calls of
    the methods and events of the page it sees, the poppers at work are those of the open menus: an instance's
    popper is alive exactly while its menu is shown, and no popper outlives its instance. *)
Theorem dropdown_poppers_match_menus `{B : Browser} `{C : Caller} parseJson root rtl touch bsPosition prevents (s : Dropdown.state)
    (ops : list Dropdown.op) (p : nat) :
  (forall d x sel, Dropdown.kept (Dropdown.d_page s) d -> sel ∈ [Dropdown.SELECTOR_MENU; Dropdown.SELECTOR_DATA_TOGGLE] ->
    matches d x sel = matches (Dropdown.d_page s) x sel) ->
  Dropdown.wellFormed (Dropdown.d_page s) -> Dropdown.d_instances s = ∅ -> Dropdown.d_poppers s = [] ->
  let s' := Dropdown.run parseJson root rtl touch bsPosition prevents ops s in
  p ∈ map Dropdown.p_id (Dropdown.d_poppers s') <->
  exists e i m, Dropdown.d_instances s' !! e = Some i /\ Dropdown._popper i = Some p /\ Dropdown._menu i = Some m /\
    hasClass (Dropdown.d_page s') m "show" = true.
Proof. intros css W E1 E2. apply (Dropdown.iv_live (Dropdown.d_page s)), Dropdown.drop_inv_run; try done. by apply Dropdown.inv_start. Qed.


(** Two dropdowns, each a toggle (2, 5) with its menu (3, 6). *)
Definition dropBrowser : Browser :=
  Build_Browser (fun d x sel =>
    let isToggle := ostr_eqb (getAttribute d x "data-bs-toggle") (Some "dropdown") in
    if str_eqb sel Dropdown.SELECTOR_MENU then hasClass d x "dropdown-menu"
    else if str_eqb sel Dropdown.SELECTOR_DATA_TOGGLE then isToggle
    else str_eqb sel Dropdown.SELECTOR_DATA_TOGGLE_SHOWN && isToggle && hasClass d x "show")
  (fun _ _ => 1) (fun _ _ => "visible") None.

Definition dropPage : gmap nat node :=
  {[0 := Node "HTML" [] [] [] None [1; 4] None;
    1 := Node "DIV" ["dropdown"] [] [] (Some 0) [2; 3] None;
    2 := Node "BUTTON" [] [("data-bs-toggle", "dropdown")] [] (Some 1) [] (Some false);
    3 := Node "UL" ["dropdown-menu"] [] [] (Some 1) [] None;
    4 := Node "DIV" ["dropdown"] [] [] (Some 0) [5; 6] None;
    5 := Node "BUTTON" [] [("data-bs-toggle", "dropdown"); ("data-bs-auto-close", "outside")] [] (Some 4) [] (Some false);
    6 := Node "UL" ["dropdown-menu"] [] [] (Some 4) [] None]}.

Definition drop0 : Dropdown.state := Dropdown.State dropPage ∅ None [] false 0 [].

Lemma dropBrowser_css d x sel : Dropdown.kept dropPage d -> sel ∈ [Dropdown.SELECTOR_MENU; Dropdown.SELECTOR_DATA_TOGGLE] ->
  @matches dropBrowser d x sel = @matches dropBrowser dropPage x sel.
Proof.
  intros K. rewrite !elem_of_cons, elem_of_nil. intros [->|[->|[]]]; cbn [matches dropBrowser].
  - apply (ch_class _ _ _ _ K x "dropdown-menu"). reflexivity.
  - by rewrite (ch_attr _ _ _ _ K x "data-bs-toggle") by reflexivity.
Qed.

Lemma dropPage_owns e m : @Dropdown.owns dropBrowser dropPage e m -> e = 2 /\ m = 3 \/ e = 5 /\ m = 6.
Proof.
  intros [T M]. do 7 (destruct e as [|e]; [vm_compute in T, M; try discriminate T; injection M as <-; tauto|]). exfalso.
  assert (N : dropPage !! S (S (S (S (S (S (S e)))))) = None).
  { unfold dropPage. rewrite !lookup_insert_ne by lia. apply lookup_singleton_ne. lia. }
  cbn [matches dropBrowser] in T. unfold getAttribute in T. rewrite N in T. discriminate T.
Qed.

Lemma dropPage_wf : @Dropdown.wellFormed dropBrowser dropPage.
Proof.
  split; intros *.
  - intros H1%dropPage_owns H2%dropPage_owns. lia.
  - intros H1%dropPage_owns H2%dropPage_owns. lia.
  - intros [[-> ->]|[-> ->]]%dropPage_owns; vm_compute; eauto.
Qed.

Definition dropRun (ops : list Dropdown.op) : Dropdown.state :=
  @Dropdown.run dropBrowser demoCaller (fun _ => None) 0 false false (fun _ _ => "") (fun _ _ _ => false) ops drop0.

Lemma dropdown_poppers_match_menus_witness :
  exists e i m, Dropdown.d_instances (dropRun [Dropdown.ClickToggle 2; Dropdown.ClickToggle 5; Dropdown.ClickToggle 2]) !! e = Some i /\
    Dropdown._popper i = Some 1 /\ Dropdown._menu i = Some m /\
    hasClass (Dropdown.d_page (dropRun [Dropdown.ClickToggle 2; Dropdown.ClickToggle 5; Dropdown.ClickToggle 2])) m "show" = true.
Proof.
  apply (@dropdown_poppers_match_menus dropBrowser demoCaller (fun _ => None) 0 false false (fun _ _ => "") (fun _ _ _ => false) drop0).
  - exact dropBrowser_css.
  - exact dropPage_wf.
  - reflexivity.
  - reflexivity.
  - apply list_elem_of_In. vm_compute. tauto.
Defined.

Definition dropEvent : Dropdown.pageEvent := Dropdown.PageEvent "click" "" false 6 [6; 4; 0].

Lemma dropRun_instance (e m : nat) (keeps : bool) :
  (e, m, keeps) ∈ [(2, 3, false); (5, 6, true)] ->
  exists i, Dropdown.d_instances (dropRun [Dropdown.ClickToggle 2; Dropdown.ClickToggle 5]) !! e = Some i /\
    Dropdown._menu i = Some m /\ Dropdown.keptByOption dropEvent e i = keeps.
Proof. rewrite list_elem_of_In. intros [[= <- <- <-]|[[= <- <- <-]|[]]]; vm_compute; eauto. Qed.

Lemma dropRun_menus : map_Forall (fun _ i => is_Some (Dropdown._menu i))
  (Dropdown.d_instances (dropRun [Dropdown.ClickToggle 2; Dropdown.ClickToggle 5])).
Proof. apply (bool_decide_unpack _). vm_compute. exact I. Qed.


(** Why the pages above give each menu one toggle: two toggles (2, 7) with one menu. The second hides what the first
    has shown and leaves the first popper at work; shown again, the menu has two. *)
Definition sharedPage : gmap nat node :=
  <[1 := Node "DIV" ["dropdown"] [] [] (Some 0) [2; 3; 7] None]>
  (<[7 := Node "BUTTON" [] [("data-bs-toggle", "dropdown")] [] (Some 1) [] (Some false)]> dropPage).

Example shared_menu_keeps_popper :
  let s := @Dropdown.run dropBrowser demoCaller (fun _ => None) 0 false false (fun _ _ => "") (fun _ _ _ => false)
    [Dropdown.ClickToggle 2; Dropdown.ClickToggle 7; Dropdown.ClickToggle 2] (Dropdown.State sharedPage ∅ None [] false 0 []) in
  map (fun p => (Dropdown.p_id p, Dropdown.p_menu p)) (Dropdown.d_poppers s) = [(0, 3); (1, 3)].
Proof. vm_compute. reflexivity. Qed.
