(* ===== verification/BsScrollSpy.v ===== *)
(** Bootstrap's [ScrollSpy]: the links of a navigation follow the section of a page that is in view. *)
From Stdlib Require Import Ascii QArith Lia.
From S2P Require Import Prelude BsCore BsDom BsConfig BsSanitizer BsTemplate.

Local Open Scope nat_scope.

Module ScrollSpy.

Definition NAME : string := "scrollspy".
Definition SELECTOR_TARGET_LINKS : string := "[href]".
Definition SELECTOR_ACTIVE_LINKS : string := SELECTOR_TARGET_LINKS +:+ ".active".
Definition SELECTOR_NAV_LIST_GROUP : string := ".nav, .list-group".
Definition SELECTOR_LINK_ITEMS : string := ".nav-link, .nav-item > .nav-link, .list-group-item".
Definition SELECTOR_DROPDOWN : string := ".dropdown".
Definition SELECTOR_DROPDOWN_TOGGLE : string := ".dropdown-toggle".

Definition Default : obj value :=
  [("offset", VNull); ("rootMargin", VStr "0px 0px -25%"); ("smoothScroll", VBool false); ("target", VNull);
   ("threshold", VArr [VNum (1 # 10); VNum (1 # 2); VNum 1])].

Definition DefaultType : obj string :=
  [("offset", "(number|null)"); ("rootMargin", "string"); ("smoothScroll", "boolean"); ("target", "element");
   ("threshold", "array")].

(** [_activeTarget]: a link, [null], or [undefined] after a section without a link. *)
Inductive active := Null | Undefined | Link (e : nat).

#[export] Instance active_eq_dec : EqDecision active.
Proof. solve_decision. Defined.

(** What the browser tells the observer of a section. *)
Record entry := Entry { en_target : nat; en_isIntersecting : bool }.

Record observer := Observer { ob_root : option nat; ob_threshold : value; ob_rootMargin : value; ob_observed : list nat }.

(** The spy on one element, with the page. *)
Record state := State {
  sp_page : gmap nat node;
  sp_disposed : bool;                    (** the fields of the instance are [null] *)
  _config : obj value;
  _targetLinks : obj nat;
  _observableSections : option (obj nat);   (** [None] is [null] *)
  _rootElement : option nat;
  _activeTarget : active;
  _observer : option observer;
  visibleEntryTop : Z;
  parentScrollTop : Z;
  sp_listener : bool;                    (** the click listener on the target *)
  sp_scrolls : list (option nat * Z);    (** smooth scrolls, of the window or an element *)
  sp_log : list nat                      (** the links of the [activate] events *)
}.

Definition set_page (d : gmap nat node) (s : state) : state :=
  State d (sp_disposed s) (_config s) (_targetLinks s) (_observableSections s) (_rootElement s) (_activeTarget s) (_observer s)
    (visibleEntryTop s) (parentScrollTop s) (sp_listener s) (sp_scrolls s) (sp_log s).
Definition set_maps (links sections : obj nat) (s : state) : state :=
  State (sp_page s) (sp_disposed s) (_config s) links (Some sections) (_rootElement s) (_activeTarget s) (_observer s)
    (visibleEntryTop s) (parentScrollTop s) (sp_listener s) (sp_scrolls s) (sp_log s).
Definition set_active (a : active) (s : state) : state :=
  State (sp_page s) (sp_disposed s) (_config s) (_targetLinks s) (_observableSections s) (_rootElement s) a (_observer s)
    (visibleEntryTop s) (parentScrollTop s) (sp_listener s) (sp_scrolls s) (sp_log s).
Definition set_observer (o : option observer) (s : state) : state :=
  State (sp_page s) (sp_disposed s) (_config s) (_targetLinks s) (_observableSections s) (_rootElement s) (_activeTarget s) o
    (visibleEntryTop s) (parentScrollTop s) (sp_listener s) (sp_scrolls s) (sp_log s).
Definition set_tops (visible parent : Z) (s : state) : state :=
  State (sp_page s) (sp_disposed s) (_config s) (_targetLinks s) (_observableSections s) (_rootElement s) (_activeTarget s) (_observer s)
    visible parent (sp_listener s) (sp_scrolls s) (sp_log s).
Definition set_listener (b : bool) (s : state) : state :=
  State (sp_page s) (sp_disposed s) (_config s) (_targetLinks s) (_observableSections s) (_rootElement s) (_activeTarget s) (_observer s)
    (visibleEntryTop s) (parentScrollTop s) b (sp_scrolls s) (sp_log s).
Definition log_scroll (r : option nat) (z : Z) (s : state) : state :=
  State (sp_page s) (sp_disposed s) (_config s) (_targetLinks s) (_observableSections s) (_rootElement s) (_activeTarget s) (_observer s)
    (visibleEntryTop s) (parentScrollTop s) (sp_listener s) (sp_scrolls s ++ [(r, z)]) (sp_log s).
Definition log_activate (e : nat) (s : state) : state :=
  State (sp_page s) (sp_disposed s) (_config s) (_targetLinks s) (_observableSections s) (_rootElement s) (_activeTarget s) (_observer s)
    (visibleEntryTop s) (parentScrollTop s) (sp_listener s) (sp_scrolls s) (sp_log s ++ [e]).

Section spy.
Context `{B : Browser} `{C : Caller}.
Variable parseJson : string -> option value.
Variables root bodyElement element : nat.
Variable hash : gmap nat node -> nat -> option string.   (** the property [hash], [None] where there is none *)
Variable decodeURI : string -> option string.            (** [None]: it throws *)
Variable isSelector : string -> bool.                    (** [querySelector] throws at other strings *)
Variable overflowY : gmap nat node -> nat -> string.     (** the computed style *)
Implicit Types (d : gmap nat node) (s : state) (e t : nat).

Definition option_of s (k : string) : value := default VUndefined (oget k (_config s)).
Definition sections s : obj nat := default [] (_observableSections s).
Definition target s : nat := match option_of s "target" with VElement e => e | _ => bodyElement end.

Definition _configAfterMerge d (config : obj value) : obj value :=
  let config := oset "target" (VElement (default bodyElement (getElement root d (default VUndefined (oget "target" config))))) config in
  let config := match oget "offset" config with
                | Some v => if value_truthy v then oset "rootMargin" (VStr (toText v +:+ "px 0px -30%")) config else config
                | None => config
                end in
  match oget "threshold" config with
  | Some (VStr t) => oset "threshold" (VArr (map parseFloatValue (split_char "," t))) config
  | _ => config
  end.

(** *** The sections and their links *)

Definition addTarget (anchor : nat) s : outcome state :=
  let h := default "" (hash (sp_page s) anchor) in
  if negb (str_truthy h) || isDisabled (sp_page s) (Some anchor) then (s, None)
  else
    match decodeURI h with
    | None => (s, Some (JsError "URIError"))
    | Some decoded =>
        if negb (isSelector decoded) then (s, Some (DOMException "SyntaxError"))
        else
          match findOne (sp_page s) decoded element with
          | Some section =>
              if isVisible (sp_page s) (Some section)
              then (set_maps (oset decoded anchor (_targetLinks s)) (oset h section (sections s)) s, None)
              else (s, None)
          | None => (s, None)
          end
    end.

Definition _initializeTargetsAndObservables s : outcome state :=
  fold_left (fun r anchor => andThen r (addTarget anchor)) (find (sp_page s) SELECTOR_TARGET_LINKS (target s)) (set_maps [] [] s, None).

(** A listener that is there already is replaced. *)
Definition _maybeEnableSmoothScroll s : state := if value_truthy (option_of s "smoothScroll") then set_listener true s else s.

Definition _getNewObserver s : observer := Observer (_rootElement s) (option_of s "threshold") (option_of s "rootMargin") [].

(** A section is observed once. *)
Definition observe (section : nat) (o : observer) : observer :=
  Observer (ob_root o) (ob_threshold o) (ob_rootMargin o)
    (if existsb (Nat.eqb section) (ob_observed o) then ob_observed o else ob_observed o ++ [section]).
Definition disconnect (o : observer) : observer := Observer (ob_root o) (ob_threshold o) (ob_rootMargin o) [].

Definition refresh s : outcome state :=
  if sp_disposed s then (set_maps [] [] s, Some (TypeError "target"))
  else
    andThen (_initializeTargetsAndObservables s) (fun s =>
      let s := _maybeEnableSmoothScroll s in
      let o := match _observer s with Some o => disconnect o | None => _getNewObserver s end in
      (set_observer (Some (fold_left (fun o section => observe section o) (map snd (sections s)) o)) s, None)).

Definition construct (config : value) d : res (outcome state) :=
  o ← getConfig parseJson NAME Default DefaultType (_configAfterMerge d) config d (Some element);
  let rootElement := if str_eqb (overflowY d element) "visible" then None else Some element in
  Ok (refresh (State d false o [] (Some []) rootElement Null None 0 0 false [] [])).

(** [super.dispose()] removes the listeners of the element itself, no others. *)
Definition dispose s : outcome state :=
  match _observer s with
  | None => (s, Some (TypeError "disconnect"))
  | Some _ =>
      (State (sp_page s) true [] [] None None Null None 0 0 (sp_listener s && negb (target s =? element)) (sp_scrolls s) (sp_log s), None)
  end.

(** *** Following the page *)

Definition _clearActiveClass (parent : nat) d : gmap nat node :=
  let d := classList_remove parent ["active"] d in
  fold_left (fun d node => classList_remove node ["active"] d) (find d SELECTOR_ACTIVE_LINKS parent) d.

Definition _activateParents t d : res (gmap nat node) :=
  if hasClass d t "dropdown-item" then
    dropdown ← need_obj (closest d t SELECTOR_DROPDOWN);
    toggle ← need_obj (findOne d SELECTOR_DROPDOWN_TOGGLE dropdown);
    Ok (classList_add toggle ["active"] d)
  else
    listGroups ← parents d t SELECTOR_NAV_LIST_GROUP;
    Ok (fold_left (fun d listGroup => fold_left (fun d item => classList_add item ["active"] d) (prev d listGroup SELECTOR_LINK_ITEMS) d)
          listGroups d).

Definition _process (t : option nat) s : outcome state :=
  let a := match t with Some t => Link t | None => Undefined end in
  if decide (_activeTarget s = a) then (s, None)
  else
    let s := set_active a (set_page (_clearActiveClass (target s) (sp_page s)) s) in
    match t with
    | None => (s, Some (TypeError "classList"))
    | Some t =>
        let s := set_page (classList_add t ["active"] (sp_page s)) s in
        match _activateParents t (sp_page s) with
        | Err x => (s, Some x)
        | Ok d => (log_activate t (set_page d s), None)
        end
    end.

Definition targetElement s (en : entry) : option nat :=
  oget ("#" +:+ default "" (getAttribute (sp_page s) (en_target en) "id")) (_targetLinks s).

Definition activate (offsetTop : nat -> Z) (en : entry) s : outcome state :=
  _process (targetElement s en) (set_tops (offsetTop (en_target en)) (parentScrollTop s) s).

(** The loop; [down] is [userScrollsDown] and [atTop] says that the parent is not scrolled. *)
Fixpoint observerLoop (offsetTop : nat -> Z) (down atTop : bool) (entries : list entry) s : outcome state :=
  match entries with
  | [] => (s, None)
  | en :: entries =>
      if negb (en_isIntersecting en) then
        let s := set_active Null s in
        match targetElement s en with
        | None => (s, Some (TypeError "classList"))
        | Some t => observerLoop offsetTop down atTop entries (set_page (_clearActiveClass t (sp_page s)) s)
        end
      else
        let entryIsLowerThanPrevious := (visibleEntryTop s <=? offsetTop (en_target en))%Z in
        if down && entryIsLowerThanPrevious then
          andThen (activate offsetTop en s) (fun s => if atTop then (s, None) else observerLoop offsetTop down atTop entries s)
        else if negb down && negb entryIsLowerThanPrevious then
          andThen (activate offsetTop en s) (observerLoop offsetTop down atTop entries)
        else observerLoop offsetTop down atTop entries s
  end.

Definition _observerCallback (scrollTop : Z) (offsetTop : nat -> Z) (entries : list entry) s : outcome state :=
  if sp_disposed s then (s, Some (TypeError "parentScrollTop"))
  else
    observerLoop offsetTop (parentScrollTop s <=? scrollTop)%Z (scrollTop =? 0)%Z entries
      (set_tops (visibleEntryTop s) scrollTop s).

(** A click on a link of the target; [linkHash] is the [hash] of what was clicked. *)
Definition clickLink (linkHash : option string) (offsetTop : nat -> Z) s : outcome state :=
  if negb (sp_listener s) then (s, None)
  else
    match _observableSections s with
    | None => (s, Some (TypeError "get"))
    | Some sections =>
        match h ← linkHash; oget h sections with
        | None => (s, None)
        | Some section => (log_scroll (_rootElement s) (offsetTop section - offsetTop element)%Z s, None)
        end
    end.

Inductive op :=
  | Refresh | Dispose
  | Observed (scrollTop : Z) (offsetTop : nat -> Z) (entries : list entry)
  | Click (linkHash : option string) (offsetTop : nat -> Z).

Definition step (o : op) s : outcome state :=
  match o with
  | Refresh => refresh s
  | Dispose => dispose s
  | Observed scrollTop offsetTop entries => _observerCallback scrollTop offsetTop entries s
  | Click linkHash offsetTop => clickLink linkHash offsetTop s
  end.

Definition run (ops : list op) s : state := fold_left (fun s o => fst (step o s)) ops s.
End spy.

(** *** The start of the page *)

Definition SELECTOR_DATA_SPY : string := "[data-bs-spy=" +:+ quoted "scroll" +:+ "]".

Section load.
Context `{B : Browser} `{C : Caller}.
Variable parseJson : string -> option value.
Variables root bodyElement : nat.
Variable hash : gmap nat node -> nat -> option string.
Variable decodeURI : string -> option string.
Variable isSelector : string -> bool.
Variable overflowY : gmap nat node -> nat -> string.

(** An instance is stored before its first [refresh], which may throw. *)
Definition getOrCreateInstance (d : gmap nat node) (e : nat) (spies : gmap nat state) : outcome (gmap nat state) :=
  match spies !! e with
  | Some _ => (spies, None)
  | None =>
      match construct parseJson root bodyElement e hash decodeURI isSelector overflowY VUndefined d with
      | Err x => (spies, Some x)
      | Ok (s, thrown) => (<[e := s]> spies, thrown)
      end
  end.

(** [load]: the spies of the markup, up to the first that throws. *)
Definition load (d : gmap nat node) (spies : gmap nat state) : outcome (gmap nat state) :=
  fold_left (fun r e => andThen r (getOrCreateInstance d e)) (find d SELECTOR_DATA_SPY root) (spies, None).
End load.

(** ** One section at a time *)

Abbreviation kept := (changes ["active"] []).
#[local] Ltac structural := done || (apply list_elem_of_In; cbn; tauto).

Section links.
Context `{B : Browser}.
Variable d0 : gmap nat node.
Implicit Types (d : gmap nat node) (s : state) (t x : nat).

(** Which elements are links, items and lists does not depend on what is active. *)
Definition structure : list string :=
  [SELECTOR_TARGET_LINKS; SELECTOR_NAV_LIST_GROUP; SELECTOR_LINK_ITEMS; SELECTOR_DROPDOWN; SELECTOR_DROPDOWN_TOGGLE].
Hypothesis css : forall d x sel, kept d0 d -> sel ∈ structure -> matches d x sel = matches d0 x sel.
Hypothesis cssActive : forall d x, matches d x SELECTOR_ACTIVE_LINKS = matches d x SELECTOR_TARGET_LINKS && hasClass d x "active".

Lemma find_kept d sel p : kept d0 d -> sel ∈ structure -> find d sel p = find d0 sel p.
Proof. intros K H. apply find_same; [apply K|]. intros x. by apply css. Qed.

Lemma firstMatch_kept d sel l : kept d0 d -> sel ∈ structure ->
  List.find (fun x => matches d x sel) l = List.find (fun x => matches d0 x sel) l.
Proof. intros K H. induction l as [|x l IH]; cbn; [done|]. by rewrite css, IH. Qed.

Lemma closest_kept d sel p : kept d0 d -> sel ∈ structure -> closest d p sel = closest d0 p sel.
Proof.
  intros K H. unfold closest. rewrite (ancestors_changes _ _ _ d0 d) by done. rewrite (proj1 (ch_tree _ _ _ _ K)). by apply firstMatch_kept.
Qed.

Lemma prev_kept d sel p : kept d0 d -> sel ∈ structure -> prev d p sel = prev d0 p sel.
Proof. intros K H. unfold prev. rewrite (siblings_changes _ _ _ _ p K). by rewrite firstMatch_kept. Qed.

Lemma parents_kept d sel p : kept d0 d -> sel ∈ structure -> parents d p sel = parents d0 p sel.
Proof.
  intros K H. unfold parents. rewrite (proj1 (ch_tree _ _ _ _ K)). generalize (size d0) as fuel. intros fuel. revert p.
  induction fuel as [|fuel IH]; intros p; cbn [parentsFrom]; [done|].
  assert (P : (d !! p ≫= n_parent) = (d0 !! p ≫= n_parent)).
  { pose proof (ch_parent _ _ _ _ K p) as E. destruct (d !! p), (d0 !! p); cbn in *; congruence. }
  rewrite P. destruct (d0 !! p ≫= n_parent) as [q|]; [|done]. rewrite closest_kept by done.
  destruct (closest d0 q sel); [|done]. by rewrite IH.
Qed.

(** *** Links that are no longer active *)

Lemma remove_all l d :
  let d' := fold_left (fun d e => classList_remove e ["active"] d) l d in
  kept d d' /\ forall x, hasClass d' x "active" = hasClass d x "active" && negb (bool_decide (x ∈ l)).
Proof.
  revert d. induction l as [|e l IH]; intros d; cbn.
  - split; [done|]. intros x. rewrite bool_decide_false by apply not_elem_of_nil. by rewrite andb_true_r.
  - destruct (IH (classList_remove e ["active"] d)) as [K E]. split; [etransitivity; [by apply (changes_classes _ _ e "active")|done]|].
    intros x. rewrite E. autorewrite with js. rewrite (bool_decide_ext (x ∈ e :: l) (x = e \/ x ∈ l)) by apply elem_of_cons.
    rewrite bool_decide_or. change (in_strs "active" ["active"]) with true. rewrite andb_true_r, negb_orb, andb_assoc.
    destruct (hasClass d x "active"), (bool_decide (x = e)); done.
Qed.

Lemma clear_class d p : kept d0 d ->
  kept d (_clearActiveClass p d) /\
  forall x, hasClass (_clearActiveClass p d) x "active" =
    hasClass d x "active" && negb (bool_decide (x = p \/ x ∈ find d0 SELECTOR_TARGET_LINKS p)).
Proof.
  intros K. unfold _clearActiveClass. set (d1 := classList_remove p ["active"] d).
  assert (K1 : kept d d1) by (by apply (changes_classes _ _ p "active")).
  destruct (remove_all (find d1 SELECTOR_ACTIVE_LINKS p) d1) as [K2 E]. split; [by transitivity d1|].
  intros x. rewrite E.
  assert (F : x ∈ find d1 SELECTOR_ACTIVE_LINKS p <-> x ∈ find d0 SELECTOR_TARGET_LINKS p /\ hasClass d1 x "active" = true).
  { assert (K' : kept d0 d1) by (by transitivity d).
    rewrite <- (find_kept d1) by structural. rewrite !list_elem_of_In. unfold find.
    rewrite !filter_In, cssActive, andb_true_iff. tauto. }
  rewrite (bool_decide_ext _ _ F). subst d1. autorewrite with js. change (in_strs "active" ["active"]) with true. rewrite andb_true_r.
  destruct (hasClass d x "active"); [|done]. cbn [andb].
  destruct (decide (x = p)) as [->|Hne].
  - rewrite (bool_decide_true (p = p)) by done. by rewrite (bool_decide_true (p = p \/ _)) by (by left).
  - rewrite (bool_decide_false (x = p)) by done. cbn [negb andb]. f_equal. apply bool_decide_ext. tauto.
Qed.

(** *** Links that become active *)

(** What [_process] marks for a link: itself and the items that hold it. *)
Definition marks t x : Prop :=
  x = t \/
  (exists dropdown, closest d0 t SELECTOR_DROPDOWN = Some dropdown /\ findOne d0 SELECTOR_DROPDOWN_TOGGLE dropdown = Some x) \/
  (exists listGroups g, parents d0 t SELECTOR_NAV_LIST_GROUP = Ok listGroups /\ g ∈ listGroups /\ x ∈ prev d0 g SELECTOR_LINK_ITEMS).

(** Nothing on the page keeps [_activateParents] from working. *)
Definition activatable t : bool :=
  if hasClass d0 t "dropdown-item"
  then match closest d0 t SELECTOR_DROPDOWN ≫= findOne d0 SELECTOR_DROPDOWN_TOGGLE with Some _ => true | None => false end
  else match parents d0 t SELECTOR_NAV_LIST_GROUP with Ok _ => true | Err _ => false end.

Lemma add_active d e x : kept d (classList_add e ["active"] d) /\
  (hasClass (classList_add e ["active"] d) x "active" = true -> hasClass d x "active" = true \/ x = e) /\
  (hasClass d x "active" = true -> hasClass (classList_add e ["active"] d) x "active" = true).
Proof.
  split; [by apply (changes_classes _ _ e "active")|]. autorewrite with js. split.
  - rewrite orb_true_iff, !andb_true_iff, !bool_decide_eq_true. tauto.
  - intros ->. by rewrite ?orb_true_r.
Qed.

Lemma add_all l d x :
  let d' := fold_left (fun d e => classList_add e ["active"] d) l d in
  kept d d' /\ (hasClass d' x "active" = true -> hasClass d x "active" = true \/ x ∈ l) /\
  (hasClass d x "active" = true -> hasClass d' x "active" = true).
Proof.
  revert d. induction l as [|e l IH]; intros d; cbn; [split; [done|tauto]|].
  destruct (IH (classList_add e ["active"] d)) as (K & H & H'). destruct (add_active d e x) as (K1 & H1 & H1').
  split; [by transitivity (classList_add e ["active"] d)|]. rewrite elem_of_cons. split; [|tauto].
  intros [Hx|Hx]%H; [|tauto]. apply H1 in Hx. tauto.
Qed.

Lemma add_groups gs d x : kept d0 d ->
  let d' := fold_left (fun d g => fold_left (fun d e => classList_add e ["active"] d) (prev d g SELECTOR_LINK_ITEMS) d) gs d in
  kept d d' /\ (hasClass d' x "active" = true -> hasClass d x "active" = true \/ exists g, g ∈ gs /\ x ∈ prev d0 g SELECTOR_LINK_ITEMS) /\
  (hasClass d x "active" = true -> hasClass d' x "active" = true).
Proof.
  revert d. induction gs as [|g gs IH]; intros d K; cbn; [split; [done|tauto]|].
  destruct (add_all (prev d g SELECTOR_LINK_ITEMS) d x) as (K1 & H1 & H1'). set (d1 := fold_left _ (prev d g _) d) in *.
  destruct (IH d1) as (K2 & H2 & H2'); [by transitivity d|]. split; [by transitivity d1|]. split; [|tauto].
  intros [Hx|(g' & Hg & Hx)]%H2; [|right; exists g'; rewrite elem_of_cons; tauto]. apply H1 in Hx as [Hx|Hx]; [tauto|].
  right. exists g. rewrite elem_of_cons. split; [tauto|]. by rewrite <- (prev_kept d) by structural.
Qed.

Lemma activateParents_marks t d d' : kept d0 d -> _activateParents t d = Ok d' ->
  kept d d' /\ forall x, (hasClass d' x "active" = true -> hasClass d x "active" = true \/ marks t x) /\
    (hasClass d x "active" = true -> hasClass d' x "active" = true).
Proof.
  intros K. unfold _activateParents. destruct (hasClass d t "dropdown-item").
  - rewrite closest_kept by structural. destruct (closest d0 t SELECTOR_DROPDOWN) as [dd|] eqn:E1; [|done].
    cbn. unfold findOne. rewrite find_kept by structural.
    destruct (hd_error (find d0 SELECTOR_DROPDOWN_TOGGLE dd)) as [q|] eqn:E2; [|done]. cbn. intros [= <-].
    split; [apply (add_active d q q)|]. intros x. destruct (add_active d q x) as (_ & H1 & H2). split; [|done].
    intros [?| ->]%H1; [tauto|]. right. right. left. by exists dd.
  - rewrite parents_kept by structural. destruct (parents d0 t _) as [gs|] eqn:E; [|done].
    cbn. intros [= <-]. split; [by apply (add_groups gs d 0)|]. intros x. destruct (add_groups gs d x K) as (_ & H1 & H2). split; [|done].
    intros [?|(g & Hg & Hx)]%H1; [tauto|]. right. right. right. by exists gs, g.
Qed.

Lemma activateParents_total t d : kept d0 d -> activatable t = true -> exists d', _activateParents t d = Ok d'.
Proof.
  intros K H. unfold activatable in H. unfold _activateParents. rewrite (ch_class _ _ _ _ K) by done.
  destruct (hasClass d0 t "dropdown-item").
  - rewrite (closest_kept d) by structural. destruct (closest d0 t _) as [dd|]; [|done]. cbn in *. unfold findOne in *.
    rewrite (find_kept d) by structural. destruct (hd_error _) as [q|]; [|done]. cbn. by eexists.
  - rewrite (parents_kept d) by structural. destruct (parents d0 t _) as [gs|]; [|done]. cbn. by eexists.
Qed.
End links.

Section life.
Context `{B : Browser}.
Variable bodyElement : nat.
Variable d0 : gmap nat node.
Variable nav : nat.
Implicit Types (d : gmap nat node) (s : state) (t x : nat).
Hypothesis css : forall d x sel, kept d0 d -> sel ∈ structure -> matches d x sel = matches d0 x sel.
Hypothesis cssActive : forall d x, matches d x SELECTOR_ACTIVE_LINKS = matches d x SELECTOR_TARGET_LINKS && hasClass d x "active".

#[local] Abbreviation target := (target bodyElement).
#[local] Abbreviation _process := (_process bodyElement).
#[local] Abbreviation observerLoop := (observerLoop bodyElement).

(** The links that are active belong to one section, the active target's if there is one. *)
Definition oneSection d (a : active) : Prop :=
  exists t, (forall x, x ∈ find d0 SELECTOR_TARGET_LINKS nav -> hasClass d x "active" = true -> marks d0 t x) /\
    forall l, a = Link l -> l = t /\ (is_Some (d0 !! l) -> hasClass d l "active" = true).

Record inv s : Prop := {
  iv_page : kept d0 (sp_page s);
  iv_target : sp_disposed s = false -> target s = nav;
  iv_links : oneSection (sp_page s) (_activeTarget s)
}.

Lemma oneSection_less d d' : (forall x, hasClass d' x "active" = true -> hasClass d x "active" = true) ->
  forall a, oneSection d a -> oneSection d' Null.
Proof. intros L a (t & H & _). exists t. split; [|done]. intros x Hx Ha. by apply H, L. Qed.

Definition sameSpy s s' : Prop :=
  sp_disposed s' = sp_disposed s /\ _config s' = _config s /\ _targetLinks s' = _targetLinks s /\
  visibleEntryTop s' = visibleEntryTop s /\ parentScrollTop s' = parentScrollTop s.

Lemma process_same (t : option nat) s : sameSpy s (_process t s).1.
Proof.
  unfold ScrollSpy._process. destruct (decide _); [done|]. destruct t as [t|]; [|done]. by destruct (_activateParents _ _).
Qed.

Lemma inv_process (t : option nat) s : inv s -> sp_disposed s = false -> inv (_process t s).1.
Proof.
  intros I D. assert (T : target (_process t s).1 = nav).
  { rewrite <- (iv_target _ I D). unfold ScrollSpy.target, option_of. by rewrite (proj1 (proj2 (process_same t s))). }
  revert T. unfold ScrollSpy._process. destruct (decide _) as [_|Ha]; [done|]. destruct I as [K Ht HL]. rewrite (Ht D).
  destruct (clear_class d0 css cssActive (sp_page s) nav K) as [K1 E1]. set (d1 := _clearActiveClass nav (sp_page s)) in *.
  assert (K1' : kept d0 d1) by (by transitivity (sp_page s)).
  assert (Z1 : forall x, x ∈ find d0 SELECTOR_TARGET_LINKS nav -> hasClass d1 x "active" = false).
  { intros x Hx. rewrite E1, bool_decide_true by tauto. apply andb_false_r. }
  destruct t as [t|]; cbn [fst]; [|intros T; split; [done..|]; exists 0; split; [|done]; intros x Hx; cbn; by rewrite Z1].
  cbn [sp_page set_page set_active]. set (d2 := classList_add t ["active"] d1).
  assert (K2 : kept d0 d2) by (transitivity d1; [done|]; apply (add_active d1 t t)).
  assert (M2 : forall x, x ∈ find d0 SELECTOR_TARGET_LINKS nav -> hasClass d2 x "active" = true -> x = t).
  { intros x Hx Hd. destruct (add_active d1 t x) as (_ & H & _). apply H in Hd as [Hd|]; [|done]. by rewrite Z1 in Hd. }
  assert (A2 : is_Some (d0 !! t) -> hasClass d2 t "active" = true).
  { intros H. subst d2. autorewrite with js. apply (changes_some _ _ _ _ t K1') in H.
    rewrite !bool_decide_true by done. apply orb_true_r. }
  destruct (_activateParents t d2) as [d3|ex] eqn:E; cbn [fst]; intros T.
  - destruct (activateParents_marks d0 css t d2 d3 K2 E) as [K3 M3].
    split; cbn; [by transitivity d2|done|]. exists t. split.
    + intros x Hx [Hd|]%M3; [|done]. left. by apply M2.
    + intros l [= <-]. split; [done|]. intros H. by apply M3, A2.
  - split; cbn; [done..|]. exists t. split; [intros x Hx Hd; left; by apply M2|]. intros l [= <-]. by split.
Qed.

Lemma spy_inv_frame s s' : inv s -> sp_page s' = sp_page s -> _config s' = _config s -> sp_disposed s' = sp_disposed s ->
  _activeTarget s' = _activeTarget s -> inv s'.
Proof.
  intros [H1 H2 H3] E1 E2 E3 E4. split; rewrite ?E1, ?E3, ?E4; try done.
  intros D. rewrite <- H2 by done. unfold ScrollSpy.target, option_of. by rewrite E2.
Qed.

Lemma inv_clearEntry t s : inv s -> inv (set_page (_clearActiveClass t (sp_page s)) (set_active Null s)).
Proof.
  intros [H1 H2 H3]. destruct (clear_class d0 css cssActive (sp_page s) t H1) as [K E]. split; cbn; [by transitivity (sp_page s)|done|].
  apply (oneSection_less (sp_page s) _) with (a := _activeTarget s); [|done]. intros x. rewrite E. by intros [? _]%andb_true_iff.
Qed.

Lemma inv_activate off en s : inv s -> sp_disposed s = false ->
  inv (activate bodyElement off en s).1 /\ sp_disposed (activate bodyElement off en s).1 = false.
Proof.
  intros I D. unfold activate. set (s1 := set_tops _ _ s). assert (I1 : inv s1) by (by apply (spy_inv_frame s)).
  split; [by apply inv_process|]. by rewrite (proj1 (process_same (targetElement s en) s1)).
Qed.

Lemma inv_observerLoop off down atTop entries s : inv s -> sp_disposed s = false ->
  inv (observerLoop off down atTop entries s).1.
Proof.
  revert s. induction entries as [|en entries IH]; intros s I D; cbn [ScrollSpy.observerLoop]; [done|].
  destruct (inv_activate off en s I D) as [I1 D1].
  destruct (negb (en_isIntersecting en)).
  - destruct (targetElement _ en) as [t|]; [apply IH; [exact (inv_clearEntry t s I)|done]|].
    destruct I as [H1 H2 H3]. split; cbn; [done..|]. by apply (oneSection_less (sp_page s)) with (a := _activeTarget s).
  - destruct (down && _); [|destruct (negb down && _); [|by apply IH]];
      destruct (activate bodyElement off en s) as [s1 [x|]]; cbn in *; try done; [destruct atTop; [done|]|]; by apply IH.
Qed.

(** *** The section the scrolling has reached *)

(** [z] is not further in the direction of the scrolling than [top]. *)
Definition notBeyond (down : bool) (z top : Z) : Prop := if down then (z <= top)%Z else (top <= z)%Z.

Definition followed (off : nat -> Z) (down : bool) (entries : list entry) s s' : Prop :=
  (forall z, z = visibleEntryTop s \/ z ∈ map (fun en => off (en_target en)) entries -> notBeyond down z (visibleEntryTop s')) /\
  (visibleEntryTop s' = visibleEntryTop s /\ _activeTarget s' = _activeTarget s \/
   exists en l, en ∈ entries /\ targetElement s en = Some l /\ off (en_target en) = visibleEntryTop s' /\ _activeTarget s' = Link l).

Lemma activate_follows off en l s : inv s -> sp_disposed s = false -> targetElement s en = Some l -> activatable d0 l = true ->
  let r := activate bodyElement off en s in
  r.2 = None /\ visibleEntryTop r.1 = off (en_target en) /\ _activeTarget r.1 = Link l /\ inv r.1 /\ sp_disposed r.1 = false /\
  _targetLinks r.1 = _targetLinks s.
Proof.
  intros I D El Al. cbv zeta. destruct (inv_activate off en s I D) as [I1 D1]. unfold activate in *. rewrite El in *.
  set (s1 := set_tops _ _ s) in *. destruct (process_same (Some l) s1) as (_ & _ & F3 & F4 & _).
  rewrite F3, F4. split_and!; try done; unfold ScrollSpy._process; destruct (decide _) as [Ea|]; try done;
    cbn [sp_page set_page set_active];
    match goal with |- context [_activateParents l ?d] => destruct (activateParents_total d0 css l d) as [d' ->]; try done end.
  all: transitivity (_clearActiveClass (target s1) (sp_page s1)); [|apply (add_active _ l l)].
  all: transitivity (sp_page s1); [apply I|apply (clear_class d0 css cssActive), I].
Qed.

Lemma targetElement_kept s s' en : kept d0 (sp_page s) -> kept d0 (sp_page s') -> _targetLinks s' = _targetLinks s ->
  targetElement s' en = targetElement s en.
Proof. intros K K' E. unfold targetElement. rewrite E. by rewrite (ch_attr _ _ _ _ K), (ch_attr _ _ _ _ K') by done. Qed.

Lemma loop_follows off down entries s : inv s -> sp_disposed s = false ->
  (forall en, en ∈ entries -> en_isIntersecting en = true /\ exists l, targetElement s en = Some l /\ activatable d0 l = true) ->
  let r := observerLoop off down false entries s in r.2 = None /\ followed off down entries s r.1.
Proof.
  revert s. induction entries as [|en entries IH]; intros s I D H; cbn [ScrollSpy.observerLoop].
  { split; [done|]. split; [|by left]. intros z [->|[]%elem_of_nil]. unfold notBeyond. destruct down; cbn; lia. }
  destruct (H en) as (Hi & l & El & Al); [by left|]. rewrite Hi. cbn [negb].
  assert (Tail : forall s1, inv s1 -> sp_disposed s1 = false -> _targetLinks s1 = _targetLinks s ->
    (visibleEntryTop s1 = visibleEntryTop s /\ _activeTarget s1 = _activeTarget s /\ notBeyond down (off (en_target en)) (visibleEntryTop s) \/
     visibleEntryTop s1 = off (en_target en) /\ _activeTarget s1 = Link l /\ notBeyond down (visibleEntryTop s) (off (en_target en))) ->
    let r := observerLoop off down false entries s1 in r.2 = None /\ followed off down (en :: entries) s r.1).
  { intros s1 I1 D1 L1 Hc. assert (TE : forall en, targetElement s1 en = targetElement s en).
    { intros e. apply targetElement_kept; [apply I|apply I1|done]. }
    destruct (IH s1 I1 D1) as [E [F1 F2]]. { intros e He. rewrite TE. apply H. by right. }
    split; [done|]. pose proof (F1 _ (or_introl eq_refl)) as F0. split.
    - intros z Hz. assert (Hz' : z ∈ map (fun en => off (en_target en)) entries \/ z = visibleEntryTop s \/ z = off (en_target en)).
      { cbn in Hz. rewrite elem_of_cons in Hz. tauto. }
      destruct Hz' as [Hz'|Hz']; [by apply F1; right|]. unfold notBeyond in *. destruct Hz', Hc as [(? & _ & ?)|(? & _ & ?)], down; lia.
    - destruct F2 as [[T A]|(e & le & He & Tl & To & A)].
      + destruct Hc as [(? & ? & _)|(? & ? & _)]; [left; split; congruence|]. right. exists en, l. split_and!; [by left|done|congruence|congruence].
      + right. exists e, le. rewrite TE in Tl. split_and!; [by right|done..]. }
  destruct (activate_follows off en l s I D El Al) as (X1 & X2 & X3 & X4 & X5 & X6).
  destruct (down && (visibleEntryTop s <=? off (en_target en))%Z) eqn:C1; [|destruct (negb down && _) eqn:C2].
  - apply andb_true_iff in C1 as [-> Hle%Z.leb_le]. destruct (activate _ _ _ _) as [s1 y]. cbn in X1. subst y. cbn [andThen].
    apply Tail; [done..|]. right. by split_and!.
  - apply andb_true_iff in C2 as [->%negb_true_iff Hle%negb_true_iff%Z.leb_gt]. destruct (activate _ _ _ _) as [s1 y]. cbn in X1. subst y.
    cbn [andThen]. apply Tail; [done..|]. right. split_and!; [done..|]. cbn. lia.
  - apply Tail; [done..|]. left. split_and!; [done..|]. unfold notBeyond. destruct down; cbn in *; [apply Z.leb_gt in C1|apply negb_false_iff, Z.leb_le in C2]; lia.
Qed.

(** *** The other operations leave the links alone *)

Context `{C : Caller}.
Variables root element : nat.
Variable hash : gmap nat node -> nat -> option string.
Variable decodeURI : string -> option string.
Variable isSelector : string -> bool.

Definition sameLinks s s' : Prop :=
  sp_page s' = sp_page s /\ _config s' = _config s /\ sp_disposed s' = sp_disposed s /\ _activeTarget s' = _activeTarget s.

Lemma addTarget_same anchor s : sameLinks s (addTarget element hash decodeURI isSelector anchor s).1.
Proof.
  unfold addTarget. destruct (_ || _); [done|]. destruct (decodeURI _) as [h|]; [|done]. destruct (negb _); [done|].
  destruct (findOne _ _ _); [|done]. by destruct (isVisible _ _).
Qed.

Lemma initialize_same s : sameLinks s (_initializeTargetsAndObservables bodyElement element hash decodeURI isSelector s).1.
Proof.
  unfold _initializeTargetsAndObservables. generalize (find (sp_page s) SELECTOR_TARGET_LINKS (target s)) as l. intros l.
  assert (H : sameLinks s ((set_maps [] [] s, None) : outcome state).1) by done. revert H. generalize ((set_maps [] [] s, None) : outcome state).
  induction l as [|a l IH]; intros r H; cbn; [done|]. apply IH. destruct r as [s1 [x|]]; cbn in *; [done|].
  destruct H as (H1 & H2 & H3 & H4), (addTarget_same a s1) as (E1 & E2 & E3 & E4). repeat split; congruence.
Qed.

Lemma refresh_same s : sameLinks s (refresh bodyElement element hash decodeURI isSelector s).1.
Proof.
  unfold refresh. destruct (sp_disposed s) eqn:D; [done|]. pose proof (initialize_same s) as H.
  destruct (_initializeTargetsAndObservables _ _ _ _ _ s) as [s1 [x|]]; cbn in *; [done|].
  unfold _maybeEnableSmoothScroll. by destruct (value_truthy _).
Qed.

Lemma spy_inv_step o s : inv s -> inv (step bodyElement element hash decodeURI isSelector o s).1.
Proof.
  intros I. destruct o as [| |top off entries|h off]; cbn [step].
  - destruct (refresh_same s) as (E1 & E2 & E3 & E4). by apply (spy_inv_frame s).
  - unfold dispose. destruct (_observer s); [|done]. destruct I as [H1 H2 H3]. split; cbn; [done..|].
    by apply (oneSection_less (sp_page s)) with (a := _activeTarget s).
  - unfold _observerCallback. destruct (sp_disposed s) eqn:D; [done|]. apply inv_observerLoop; [|done]. by apply (spy_inv_frame s).
  - unfold clickLink. destruct (negb _); [done|]. destruct (_observableSections s); [|done].
    destruct (_ ≫= _); [|done]. by apply (spy_inv_frame s).
Qed.

Lemma spy_inv_run ops s : inv s -> inv (run bodyElement element hash decodeURI isSelector ops s).
Proof. revert s. induction ops as [|o ops IH]; intros s I; cbn; [done|]. by apply IH, spy_inv_step. Qed.

(** A new spy, on a page where no link is active. *)
Lemma spy_inv_construct parseJson overflowY c s r :
  construct parseJson root bodyElement element hash decodeURI isSelector overflowY c d0 = Ok (s, r) -> target s = nav ->
  (forall x, x ∈ find d0 SELECTOR_TARGET_LINKS nav -> hasClass d0 x "active" = false) -> inv s.
Proof.
  unfold construct. destruct (getConfig _ _ _ _ _ _ _ _) as [o|]; [|done]. cbn [mbind res_bind]. intros [= E] T N.
  match type of E with refresh _ _ _ _ _ ?x = _ => pose proof (refresh_same x) as H end.
  rewrite E in H. cbn in H. destruct H as (E1 & E2 & E3 & E4). split; rewrite ?E1, ?E4; cbn; [done..|].
  exists 0. split; [|done]. intros x Hx. by rewrite N.
Qed.
End life.
End ScrollSpy.

(** C27: whatever the observer reports, in whatever order, and whatever else happens to a spy, one section at
    a time is highlighted: the links of the navigation that are active are the link of one section and the items that
    hold it, and the active target, where there is one, is that link and is highlighted. *)
Theorem spy_single_active `{B : Browser} `{C : Caller} parseJson root bodyElement element hash decodeURI isSelector overflowY
    config (d0 : gmap nat node) (s : ScrollSpy.state) thrown (ops : list ScrollSpy.op) :
  (forall d x sel, ScrollSpy.kept d0 d -> sel ∈ ScrollSpy.structure -> matches d x sel = matches d0 x sel) ->
  (forall d x, matches d x ScrollSpy.SELECTOR_ACTIVE_LINKS = matches d x ScrollSpy.SELECTOR_TARGET_LINKS && hasClass d x "active") ->
  ScrollSpy.construct parseJson root bodyElement element hash decodeURI isSelector overflowY config d0 = Ok (s, thrown) ->
  let links := find d0 ScrollSpy.SELECTOR_TARGET_LINKS (ScrollSpy.target bodyElement s) in
  (forall x, x ∈ links -> hasClass d0 x "active" = false) ->
  let s' := ScrollSpy.run bodyElement element hash decodeURI isSelector ops s in
  exists t, (forall x, x ∈ links -> hasClass (ScrollSpy.sp_page s') x "active" = true -> ScrollSpy.marks d0 t x) /\
    forall l, ScrollSpy._activeTarget s' = ScrollSpy.Link l ->
      l = t /\ (is_Some (d0 !! l) -> hasClass (ScrollSpy.sp_page s') l "active" = true).
Proof.
  intros css cssA E links N s'.
  apply (ScrollSpy.iv_links bodyElement), ScrollSpy.spy_inv_run; [done..|]. by eapply ScrollSpy.spy_inv_construct.
Qed.

(** C26: sections come into view while the page is scrolled. The spy settles on the furthest of them in the
    direction of the scrolling, the lowest on the way down and the highest on the way up, makes its link the active target
    and highlights it; when none of them is further than the one it had, it stays there. Nothing is thrown. *)
Theorem spy_follows_scroll `{B : Browser} `{C : Caller} parseJson root bodyElement element hash decodeURI isSelector overflowY
    config (d0 : gmap nat node) (s0 : ScrollSpy.state) thrown (ops : list ScrollSpy.op)
    (scrollTop : Z) (offsetTop : nat -> Z) (entries : list ScrollSpy.entry) :
  (forall d x sel, ScrollSpy.kept d0 d -> sel ∈ ScrollSpy.structure -> matches d x sel = matches d0 x sel) ->
  (forall d x, matches d x ScrollSpy.SELECTOR_ACTIVE_LINKS = matches d x ScrollSpy.SELECTOR_TARGET_LINKS && hasClass d x "active") ->
  ScrollSpy.construct parseJson root bodyElement element hash decodeURI isSelector overflowY config d0 = Ok (s0, thrown) ->
  (forall x, x ∈ find d0 ScrollSpy.SELECTOR_TARGET_LINKS (ScrollSpy.target bodyElement s0) -> hasClass d0 x "active" = false) ->
  let s := ScrollSpy.run bodyElement element hash decodeURI isSelector ops s0 in
  ScrollSpy.sp_disposed s = false -> scrollTop <> 0%Z ->
  (forall en, en ∈ entries -> ScrollSpy.en_isIntersecting en = true /\
    exists l, ScrollSpy.targetElement s en = Some l /\ ScrollSpy.activatable d0 l = true) ->
  let r := ScrollSpy._observerCallback bodyElement scrollTop offsetTop entries s in
  r.2 = None /\
  ScrollSpy.followed offsetTop (ScrollSpy.parentScrollTop s <=? scrollTop)%Z entries s r.1 /\
  forall l, ScrollSpy._activeTarget r.1 = ScrollSpy.Link l -> is_Some (d0 !! l) -> hasClass (ScrollSpy.sp_page r.1) l "active" = true.
Proof.
  intros css cssA E N s D Hz H r. subst r.
  assert (I : ScrollSpy.inv bodyElement d0 (ScrollSpy.target bodyElement s0) s).
  { apply ScrollSpy.spy_inv_run; [done..|]. by eapply ScrollSpy.spy_inv_construct. }
  unfold ScrollSpy._observerCallback. rewrite D, (proj2 (Z.eqb_neq _ _) Hz).
  set (s1 := ScrollSpy.set_tops _ _ s). assert (I1 : ScrollSpy.inv bodyElement d0 (ScrollSpy.target bodyElement s0) s1) by (by apply (ScrollSpy.spy_inv_frame _ _ _ s)).
  destruct (ScrollSpy.loop_follows bodyElement d0 _ css cssA offsetTop (ScrollSpy.parentScrollTop s <=? scrollTop)%Z entries s1 I1 D H) as [R F].
  split; [done|]. split; [done|]. intros l Hl.
  pose proof (ScrollSpy.inv_observerLoop bodyElement d0 _ css cssA offsetTop (ScrollSpy.parentScrollTop s <=? scrollTop)%Z false entries s1 I1 D) as I2.
  destruct (ScrollSpy.iv_links _ _ _ _ I2) as (t & _ & H2). by apply H2.
Qed.

(** A navigation (1) of two links (2, 3), and the sections (5, 6) of the element (4) they lead to. *)
Definition spyBrowser : Browser :=
  Build_Browser (fun d x sel =>
    let isLink := match getAttribute d x "href" with Some _ => true | None => false end in
    if str_eqb sel ScrollSpy.SELECTOR_TARGET_LINKS then isLink
    else if str_eqb sel ScrollSpy.SELECTOR_ACTIVE_LINKS then isLink && hasClass d x "active"
    else if str_eqb sel ScrollSpy.SELECTOR_NAV_LIST_GROUP then hasClass d x "nav"
    else if str_eqb sel ScrollSpy.SELECTOR_LINK_ITEMS then hasClass d x "nav-link"
    else if str_eqb sel ScrollSpy.SELECTOR_DROPDOWN then hasClass d x "dropdown"
    else if str_eqb sel ScrollSpy.SELECTOR_DROPDOWN_TOGGLE then hasClass d x "dropdown-toggle"
    else ostr_eqb (option_map (String "#") (getAttribute d x "id")) (Some sel))
  (fun _ _ => 1) (fun _ _ => "visible") None.

Definition spyPage : gmap nat node :=
  {[0 := Node "BODY" [] [] [] None [1; 4] None;
    1 := Node "UL" ["nav"] [] [] (Some 0) [2; 3] None;
    2 := Node "A" ["nav-link"] [("href", "#one")] [] (Some 1) [] None;
    3 := Node "A" ["nav-link"] [("href", "#two")] [] (Some 1) [] None;
    4 := Node "DIV" [] [] [] (Some 0) [5; 6] None;
    5 := Node "H4" [] [("id", "one")] [] (Some 4) [] None;
    6 := Node "H4" [] [("id", "two")] [] (Some 4) [] None]}.

Definition spyHash (d : gmap nat node) (x : nat) : option string := getAttribute d x "href".

Definition spyMade : res (outcome ScrollSpy.state) :=
  @ScrollSpy.construct spyBrowser demoCaller (fun _ => None) 0 0 4 spyHash Some (fun _ => true) (fun _ _ => "auto")
    (VObj [("target", VElement 1); ("smoothScroll", VBool true)]) spyPage.

Definition spy0 : ScrollSpy.state :=
  match spyMade with Ok (s, _) => s | Err _ => ScrollSpy.State ∅ true [] [] None None ScrollSpy.Null None 0 0 false [] [] end.

Lemma spyBrowser_css d x sel : ScrollSpy.kept spyPage d -> sel ∈ ScrollSpy.structure ->
  @matches spyBrowser d x sel = @matches spyBrowser spyPage x sel.
Proof.
  intros K. unfold ScrollSpy.structure. rewrite !elem_of_cons, elem_of_nil.
  intros [->|[->|[->|[->|[->|[]]]]]].
  - cbn [matches spyBrowser]. by rewrite (ch_attr _ _ _ _ K x "href") by reflexivity.
  - exact (ch_class _ _ _ _ K x "nav" eq_refl).
  - exact (ch_class _ _ _ _ K x "nav-link" eq_refl).
  - exact (ch_class _ _ _ _ K x "dropdown" eq_refl).
  - exact (ch_class _ _ _ _ K x "dropdown-toggle" eq_refl).
Qed.

Lemma spyBrowser_active d x : @matches spyBrowser d x ScrollSpy.SELECTOR_ACTIVE_LINKS =
  @matches spyBrowser d x ScrollSpy.SELECTOR_TARGET_LINKS && hasClass d x "active".
Proof. reflexivity. Qed.

Lemma spyMade_ok : spyMade = Ok (spy0, None).
Proof. vm_compute. reflexivity. Qed.

Definition at1000 (x : nat) : Z := if (x =? 6) then 1000 else 100.

Definition spyScroll : list ScrollSpy.op :=
  [ScrollSpy.Observed 50 at1000 [ScrollSpy.Entry 5 true; ScrollSpy.Entry 6 false]].

Lemma spyPage_quiet x : x ∈ @find spyBrowser spyPage ScrollSpy.SELECTOR_TARGET_LINKS (ScrollSpy.target 0 spy0) ->
  hasClass spyPage x "active" = false.
Proof. rewrite list_elem_of_In. vm_compute. intros [<-|[<-|[]]]; reflexivity. Qed.

Lemma spy_single_active_witness :
  exists t, forall l, ScrollSpy._activeTarget (@ScrollSpy.run spyBrowser 0 4 spyHash Some (fun _ => true) spyScroll spy0) = ScrollSpy.Link l -> l = t.
Proof.
  destruct (@spy_single_active spyBrowser demoCaller (fun _ => None) 0 0 4 spyHash Some (fun _ => true) (fun _ _ => "auto")
    (VObj [("target", VElement 1); ("smoothScroll", VBool true)]) spyPage spy0 None spyScroll spyBrowser_css spyBrowser_active spyMade_ok
    spyPage_quiet) as (t & _ & H).
  exists t. intros l Hl. exact (proj1 (H l Hl)).
Defined.

Lemma spy_follows_scroll_witness :
  let s := @ScrollSpy.run spyBrowser 0 4 spyHash Some (fun _ => true) spyScroll spy0 in
  let r := @ScrollSpy._observerCallback spyBrowser 0 900 at1000 [ScrollSpy.Entry 6 true] s in
  r.2 = None /\ hasClass (ScrollSpy.sp_page r.1) 3 "active" = true.
Proof.
  destruct (@spy_follows_scroll spyBrowser demoCaller (fun _ => None) 0 0 4 spyHash Some (fun _ => true) (fun _ _ => "auto")
    (VObj [("target", VElement 1); ("smoothScroll", VBool true)]) spyPage spy0 None spyScroll 900 at1000 [ScrollSpy.Entry 6 true]
    spyBrowser_css spyBrowser_active spyMade_ok spyPage_quiet) as (H1 & _ & H3).
  - reflexivity.
  - discriminate.
  - intros en Hen. apply list_elem_of_singleton in Hen as ->. split; [reflexivity|]. exists 3. split; vm_compute; reflexivity.
  - split; [exact H1|]. apply H3; vm_compute; eauto.
Defined.

(** The listener for smooth scrolling is on the navigation, and [dispose] removes the listeners of
    the spied element only. Unless the two are the same, every click on a link of the navigation afterwards reads a field
    of the disposed instance and throws, and refreshing the spy throws as well. *)
Theorem spy_disposed_click_throws `{B : Browser} bodyElement element hash decodeURI isSelector (s : ScrollSpy.state) linkHash offsetTop :
  is_Some (ScrollSpy._observer s) -> ScrollSpy.sp_listener s = true -> ScrollSpy.target bodyElement s <> element ->
  exists s', ScrollSpy.dispose bodyElement element s = (s', None) /\
    (ScrollSpy.clickLink element linkHash offsetTop s').2 = Some (TypeError "get") /\
    (ScrollSpy.refresh bodyElement element hash decodeURI isSelector s').2 = Some (TypeError "target").
Proof.
  intros [o Ho] L T. unfold ScrollSpy.dispose. rewrite Ho. eexists. split; [reflexivity|].
  unfold ScrollSpy.clickLink. cbn. by rewrite L, (proj2 (Nat.eqb_neq _ _) T).
Qed.

Lemma spy_disposed_click_throws_witness :
  (ScrollSpy.clickLink 4 (Some "#one") at1000 spy0).2 = None /\
  (ScrollSpy.clickLink 4 (Some "#one") at1000 (ScrollSpy.dispose 0 4 spy0).1).2 = Some (TypeError "get").
Proof.
  split; [vm_compute; reflexivity|].
  destruct (@spy_disposed_click_throws spyBrowser 0 4 spyHash Some (fun _ => true) spy0 (Some "#one") at1000) as (s' & E & H & _).
  - vm_compute. eauto.
  - reflexivity.
  - vm_compute. discriminate.
  - rewrite E. exact H.
Defined.

(** The items that hold a link are cleared only if they have an address themselves: here the link (2) is an item of a
    dropdown (7) whose toggle (8) is a button. The toggle is marked with its item and keeps the mark when the spy moves on. *)
Definition spyMenuPage : gmap nat node :=
  <[1 := Node "UL" ["nav"] [] [] (Some 0) [7; 3] None]>
  (<[2 := Node "A" ["dropdown-item"] [("href", "#one")] [] (Some 7) [] None]>
  (<[7 := Node "LI" ["dropdown"] [] [] (Some 1) [8; 2] None]>
  (<[8 := Node "BUTTON" ["dropdown-toggle"] [] [] (Some 7) [] (Some false)]> spyPage))).

Example spy_toggle_stays_active :
  match @ScrollSpy.construct spyBrowser demoCaller (fun _ => None) 0 0 4 spyHash Some (fun _ => true) (fun _ _ => "auto")
          (VObj [("target", VElement 1)]) spyMenuPage with
  | Ok (s, _) =>
      let s := @ScrollSpy.run spyBrowser 0 4 spyHash Some (fun _ => true)
        [ScrollSpy.Observed 50 at1000 [ScrollSpy.Entry 5 true];
         ScrollSpy.Observed 900 at1000 [ScrollSpy.Entry 6 true; ScrollSpy.Entry 5 false]] s in
      map (fun x => hasClass (ScrollSpy.sp_page s) x "active") [2; 3; 8] = [false; true; true]
  | Err _ => False
  end.
Proof. vm_compute. reflexivity. Qed.
