(* ===== verification/BsPlugin.v ===== *)
(** Bootstrap as jQuery plugins: the definitions that wait for the document, [noConflict], and the
    interface through which a collection of elements is given a configuration or the name of a method. *)
From Stdlib Require Import Ascii QArith Lia.
From S2P Require Import Prelude BsCore BsDom BsConfig.

Local Open Scope nat_scope.

Module Plugin.

Inductive plugin :=
  | Alert | Button | Carousel | Collapse | Dropdown | Modal | Offcanvas | Tooltip | Popover | ScrollSpy | Tab | Toast.
#[global] Instance plugin_eq_dec : EqDecision plugin.
Proof. solve_decision. Defined.

Definition NAME (p : plugin) : string :=
  match p with
  | Alert => "alert" | Button => "button" | Carousel => "carousel" | Collapse => "collapse" | Dropdown => "dropdown"
  | Modal => "modal" | Offcanvas => "offcanvas" | Tooltip => "tooltip" | Popover => "popover" | ScrollSpy => "scrollspy"
  | Tab => "tab" | Toast => "toast"
  end.

(** The plugins in the order in which the bundle defines them. *)
Definition bundle : list plugin :=
  [Alert; Button; Carousel; Collapse; Dropdown; Modal; Offcanvas; Tooltip; Popover; ScrollSpy; Tab; Toast].

(** ** Definition *)

(** A property of [$.fn]: a function of the page or of another library, or an interface. *)
Inductive fnValue := Foreign (id : nat) | Interface (p : plugin).

Record window := Window {
  w_loading : bool;                      (** [document.readyState] is "loading" *)
  w_listening : bool;                    (** the listener for [DOMContentLoaded] *)
  w_callbacks : list plugin;             (** [DOMContentLoadedCallbacks] *)
  w_jQuery : bool;                       (** [window.jQuery] *)
  w_noJQuery : bool;                     (** the body has [data-bs-no-jquery] *)
  w_fn : gmap string fnValue;            (** [$.fn] *)
  w_conflicts : gmap string (option fnValue)     (** what each [noConflict] remembers, by name *)
}.

Definition set_fn (fn : gmap string fnValue) (w : window) : window :=
  Window (w_loading w) (w_listening w) (w_callbacks w) (w_jQuery w) (w_noJQuery w) fn (w_conflicts w).

Definition getjQuery (w : window) : bool := w_jQuery w && negb (w_noJQuery w).

(** The callback that [defineJQueryPlugin] passes on. *)
Definition define (p : plugin) (w : window) : window :=
  if getjQuery w
  then Window (w_loading w) (w_listening w) (w_callbacks w) (w_jQuery w) (w_noJQuery w)
         (<[NAME p := Interface p]> (w_fn w)) (<[NAME p := w_fn w !! NAME p]> (w_conflicts w))
  else w.

Definition onDOMContentLoaded (p : plugin) (w : window) : window :=
  if w_loading w
  then Window (w_loading w) (w_listening w || bool_decide (w_callbacks w = [])) (w_callbacks w ++ [p]) (w_jQuery w) (w_noJQuery w) (w_fn w) (w_conflicts w)
  else define p w.

Definition defineJQueryPlugin (p : plugin) (w : window) : window := onDOMContentLoaded p w.

(** The document is there. *)
Definition DOMContentLoaded (w : window) : window :=
  let w' := Window false false (w_callbacks w) (w_jQuery w) (w_noJQuery w) (w_fn w) (w_conflicts w) in
  if w_listening w then fold_left (fun w p => define p w) (w_callbacks w) w' else w'.

(** [$.fn[name].noConflict()] *)
Definition noConflict (p : plugin) (w : window) : window :=
  match w_conflicts w !! NAME p with
  | Some (Some v) => set_fn (<[NAME p := v]> (w_fn w)) w
  | Some None => set_fn (delete (NAME p) (w_fn w)) w
  | None => w
  end.

Definition loadBundle (w : window) : window := fold_left (fun w p => defineJQueryPlugin p w) bundle w.

(** *** What the page sees *)

(** The plugins of a list, defined one after the other. *)
Lemma define_all ps w : NoDup (map NAME ps) -> getjQuery w = true ->
  let w' := fold_left (fun w p => define p w) ps w in
  getjQuery w' = true /\ w_loading w' = w_loading w /\
  (forall p, p ∈ ps -> w_fn w' !! NAME p = Some (Interface p) /\ w_conflicts w' !! NAME p = Some (w_fn w !! NAME p)) /\
  (forall name, name ∉ map NAME ps -> w_fn w' !! name = w_fn w !! name).
Proof.
  revert w. induction ps as [|p ps IH]; intros w N J; cbn [fold_left].
  { split_and!; try done. by intros p ?%elem_of_nil. }
  cbn [map] in N. apply NoDup_cons in N as [N1 N2].
  assert (Jd : getjQuery (define p w) = true) by (unfold define; by rewrite J).
  assert (E : define p w = Window (w_loading w) (w_listening w) (w_callbacks w) (w_jQuery w) (w_noJQuery w)
      (<[NAME p := Interface p]> (w_fn w)) (<[NAME p := w_fn w !! NAME p]> (w_conflicts w))) by (unfold define; by rewrite J).
  destruct (IH (define p w) N2 Jd) as (H1 & H2 & H3 & H4). split_and!; [done|by rewrite H2, E|..].
  - intros q [->|Hq]%elem_of_cons.
    + assert (C : w_conflicts (fold_left (fun w p => define p w) ps (define p w)) !! NAME p = Some (w_fn w !! NAME p)).
      { clear -N1 E. assert (G : forall w', w_conflicts w' !! NAME p = Some (w_fn w !! NAME p) ->
          w_conflicts (fold_left (fun w p => define p w) ps w') !! NAME p = Some (w_fn w !! NAME p)).
        { induction ps as [|q ps IH]; intros w' Hw; cbn [fold_left]; [done|]. cbn [map] in N1. apply not_elem_of_cons in N1 as [N1 N2].
          apply IH; [done|]. unfold define. destruct (getjQuery w'); [|done]. cbn. by rewrite lookup_insert_ne. }
        apply G. rewrite E. cbn. by rewrite lookup_insert_eq. }
      split; [|done]. rewrite H4 by done. rewrite E. cbn. by rewrite lookup_insert_eq.
    + destruct (H3 q Hq) as [-> ->]. split; [done|]. rewrite E. cbn.
      rewrite lookup_insert_ne; [done|]. intros Heq. apply N1. rewrite Heq. by apply list_elem_of_fmap_2.
  - intros name [Hne Hn]%not_elem_of_cons. rewrite H4 by done. rewrite E. cbn. by rewrite lookup_insert_ne.
Qed.

Lemma define_none ps w : getjQuery w = false -> fold_left (fun w p => define p w) ps w = w.
Proof. intros J. induction ps as [|p ps IH]; cbn [fold_left]; [done|]. unfold define at 2. by rewrite J. Qed.

Lemma queue_all ps w : w_loading w = true -> w_listening w = bool_decide (w_callbacks w <> []) ->
  fold_left (fun w p => defineJQueryPlugin p w) ps w =
  Window true (bool_decide (w_callbacks w ++ ps <> [])) (w_callbacks w ++ ps) (w_jQuery w) (w_noJQuery w) (w_fn w) (w_conflicts w).
Proof.
  revert w. induction ps as [|p ps IH]; intros [l h c j n f k] Hl Hh; cbn in Hl, Hh; subst l; cbn [fold_left w_callbacks w_jQuery w_noJQuery w_fn w_conflicts].
  { by rewrite app_nil_r, Hh. }
  unfold defineJQueryPlugin at 2, onDOMContentLoaded. cbn [w_loading w_listening w_callbacks w_jQuery w_noJQuery w_fn w_conflicts].
  rewrite IH; cbn [w_loading w_listening w_callbacks w_jQuery w_noJQuery w_fn w_conflicts]; [by rewrite <- app_assoc|done|].
  rewrite Hh. destruct c; reflexivity.
Qed.

Lemma noConflict_all ps w : (forall p, p ∈ ps -> is_Some (w_conflicts w !! NAME p)) ->
  forall name, w_fn (fold_left (fun w p => noConflict p w) ps w) !! name =
    if decide (name ∈ map NAME ps) then default None (w_conflicts w !! name) else w_fn w !! name.
Proof.
  revert w. induction ps as [|p ps IH]; intros w H name; cbn [fold_left map].
  { rewrite decide_False; [done|]. apply not_elem_of_nil. }
  assert (Hc : w_conflicts (noConflict p w) = w_conflicts w) by (unfold noConflict; by destruct (w_conflicts w !! NAME p) as [[v|]|]).
  rewrite IH by (intros q Hq; rewrite Hc; apply H; by constructor). rewrite Hc.
  destruct (decide (name ∈ map NAME ps)) as [Hin|Hn]; [rewrite decide_True by (by constructor); done|].
  destruct (H p ltac:(constructor)) as [v Hv]. unfold noConflict. rewrite Hv. destruct (decide (name = NAME p)) as [->|Hne].
  - rewrite decide_True by constructor. rewrite Hv. cbn. destruct v as [v|]; cbn; [by rewrite lookup_insert_eq|by rewrite lookup_delete_eq].
  - rewrite decide_False by (rewrite not_elem_of_cons; tauto). destruct v as [v|]; cbn; [by rewrite lookup_insert_ne by done|by rewrite lookup_delete_ne by done].
Qed.

(** ** The interface *)

(** What [data[config]] is. *)
Inductive member := Undefined | Method | Field.
#[global] Instance member_eq_dec : EqDecision member.
Proof. solve_decision. Defined.

(** What the interface needs of the components, whose instances and page are part of a state. *)
Class Components (S : Type) := {
  hasInstance : plugin -> nat -> S -> bool;
  construct : plugin -> nat -> value -> S -> outcome S;
  memberOf : plugin -> nat -> string -> S -> member;
  call : plugin -> nat -> string -> list value -> S -> outcome S
}.

Section interface.
Context {S : Type} `{K : Components S}.
Implicit Types (p : plugin) (e : nat) (s : S).

(** [typeof v === 'object'] *)
Definition isObject (v : value) : bool := match v with VNull | VObj _ | VArr _ | VElement _ => true | _ => false end.

Definition getOrCreateInstance p e (config : value) s : outcome S :=
  if hasInstance p e s then (s, None)
  else
    let config := match config with VUndefined => VObj [] | _ => config end in
    construct p e (if isObject config then config else VNull) s.

Definition noMethod (name : string) : exn := TypeError ("No method named " +:+ quoted name).

(** [data[config](...)], where a member is missing only if it is undefined. *)
Definition callMember p e (name : string) (arguments : list value) s : outcome S :=
  match memberOf p e name s with
  | Undefined => (s, Some (noMethod name))
  | Field => (s, Some (TypeError name))
  | Method => call p e name arguments s
  end.

(** The same, where names of private members and the constructor are refused as well. *)
Definition callPublic p e (name : string) (arguments : list value) s : outcome S :=
  if bool_decide (memberOf p e name s = Undefined) || startsWith name "_" || str_eqb name "constructor"
  then (s, Some (noMethod name))
  else callMember p e name arguments s.

(** The functions that the interfaces give to [each]. *)
Definition Alert_jQuery (config : value) e s : outcome S :=
  andThen (getOrCreateInstance Alert e VUndefined s) (fun s =>
    match config with VStr name => callPublic Alert e name [VElement e] s | _ => (s, None) end).

Definition Button_jQuery (config : value) e s : outcome S :=
  andThen (getOrCreateInstance Button e VUndefined s) (fun s =>
    match config with
    | VStr name => if str_eqb name "toggle" then call Button e name [] s else (s, None)
    | _ => (s, None)
    end).

Definition Carousel_jQuery (config : value) e s : outcome S :=
  andThen (getOrCreateInstance Carousel e config s) (fun s =>
    match config with
    | VNum _ | VNaN => call Carousel e "to" [config] s
    | VStr name => callPublic Carousel e name [] s
    | _ => (s, None)
    end).

(** The configuration that the interface of [Collapse] makes. *)
Definition Collapse_config (config : value) : value :=
  match config with
  | VStr name => if str_includes name "show" || str_includes name "hide" then VObj [("toggle", VBool false)] else VObj []
  | _ => VObj []
  end.

Definition Collapse_jQuery (config : value) e s : outcome S :=
  andThen (getOrCreateInstance Collapse e (Collapse_config config) s) (fun s =>
    match config with VStr name => callMember Collapse e name [] s | _ => (s, None) end).

Definition Dropdown_jQuery (config : value) e s : outcome S :=
  andThen (getOrCreateInstance Dropdown e config s) (fun s =>
    match config with VStr name => callMember Dropdown e name [] s | _ => (s, None) end).

Definition Modal_jQuery (config relatedTarget : value) e s : outcome S :=
  andThen (getOrCreateInstance Modal e config s) (fun s =>
    match config with VStr name => callMember Modal e name [relatedTarget] s | _ => (s, None) end).

Definition Offcanvas_jQuery (config : value) e s : outcome S :=
  andThen (getOrCreateInstance Offcanvas e config s) (fun s =>
    match config with VStr name => callPublic Offcanvas e name [VElement e] s | _ => (s, None) end).

Definition Tooltip_jQuery (config : value) e s : outcome S :=
  andThen (getOrCreateInstance Tooltip e config s) (fun s =>
    match config with VStr name => callMember Tooltip e name [] s | _ => (s, None) end).

Definition Popover_jQuery (config : value) e s : outcome S :=
  andThen (getOrCreateInstance Popover e config s) (fun s =>
    match config with VStr name => callMember Popover e name [] s | _ => (s, None) end).

Definition ScrollSpy_jQuery (config : value) e s : outcome S :=
  andThen (getOrCreateInstance ScrollSpy e config s) (fun s =>
    match config with VStr name => callPublic ScrollSpy e name [] s | _ => (s, None) end).

Definition Tab_jQuery (config : value) e s : outcome S :=
  andThen (getOrCreateInstance Tab e VUndefined s) (fun s =>
    match config with VStr name => callPublic Tab e name [] s | _ => (s, None) end).

Definition Toast_jQuery (config : value) e s : outcome S :=
  andThen (getOrCreateInstance Toast e config s) (fun s =>
    match config with VStr name => callMember Toast e name [VElement e] s | _ => (s, None) end).

Definition each p (config relatedTarget : value) : nat -> S -> outcome S :=
  match p with
  | Alert => Alert_jQuery config
  | Button => Button_jQuery config
  | Carousel => Carousel_jQuery config
  | Collapse => Collapse_jQuery config
  | Dropdown => Dropdown_jQuery config
  | Modal => Modal_jQuery config relatedTarget
  | Offcanvas => Offcanvas_jQuery config
  | Tooltip => Tooltip_jQuery config
  | Popover => Popover_jQuery config
  | ScrollSpy => ScrollSpy_jQuery config
  | Tab => Tab_jQuery config
  | Toast => Toast_jQuery config
  end.

Definition jQueryInterface p (config relatedTarget : value) (elements : list nat) s : outcome S :=
  fold_left (fun r e => andThen r (each p config relatedTarget e)) elements (s, None).

Lemma interface_stops p config relatedTarget es s x :
  fold_left (fun r e => andThen r (each p config relatedTarget e)) es (s, Some x) = (s, Some x).
Proof. by induction es. Qed.

Lemma interface_cons p config relatedTarget e es s :
  jQueryInterface p config relatedTarget (e :: es) s =
  andThen (each p config relatedTarget e s) (jQueryInterface p config relatedTarget es).
Proof.
  unfold jQueryInterface. cbn [fold_left andThen]. destruct (each p config relatedTarget e s) as [s1 [x|]]; cbn [andThen]; [|done].
  apply interface_stops.
Qed.

(** *** Calls by name *)

(** The interfaces that refuse the names of private methods, *)
Definition strict p : bool :=
  match p with Alert | Carousel | Offcanvas | ScrollSpy | Tab => true | _ => false end.

(** the configuration that an interface passes on, *)
Definition configFor p (config : value) : value :=
  match p with
  | Alert | Button | Tab => VUndefined
  | Collapse => Collapse_config config
  | _ => config
  end.

(** and what it passes to a method. *)
Definition argumentsFor p e (relatedTarget : value) : list value :=
  match p with
  | Alert | Offcanvas | Toast => [VElement e]
  | Modal => [relatedTarget]
  | _ => []
  end.

Lemma each_named p name relatedTarget e s : p <> Button ->
  each p (VStr name) relatedTarget e s =
  andThen (getOrCreateInstance p e (configFor p (VStr name)) s) (fun s =>
    (if strict p then callPublic else callMember) p e name (argumentsFor p e relatedTarget) s).
Proof. by destruct p. Qed.
End interface.
End Plugin.


(** A page whose own plugin has the name of one of Bootstrap's. *)
Definition jQueryPage (loading : bool) : Plugin.window :=
  Plugin.Window loading false [] true false {["button" := Plugin.Foreign 1; "slider" := Plugin.Foreign 2]} ∅.


(** Asked by name for a private method, an interface that checks for it makes the instance of the first element and throws; one that does
    not check — those of collapses, dropdowns, modals, tooltips, popovers and toasts — calls the method, of every element in
    turn. *)
Theorem jquery_private_methods {S : Type} `{K : Plugin.Components S} (p : Plugin.plugin) (name : string) (relatedTarget : value)
    (e : nat) (es : list nat) (s s1 : S) :
  p <> Plugin.Button -> startsWith name "_" = true ->
  Plugin.getOrCreateInstance p e (Plugin.configFor p (VStr name)) s = (s1, None) -> Plugin.memberOf p e name s1 = Plugin.Method ->
  Plugin.jQueryInterface p (VStr name) relatedTarget (e :: es) s =
    if Plugin.strict p then (s1, Some (Plugin.noMethod name))
    else andThen (Plugin.call p e name (Plugin.argumentsFor p e relatedTarget) s1) (Plugin.jQueryInterface p (VStr name) relatedTarget es).
Proof.
  intros Hp Hn Hc Hm. rewrite Plugin.interface_cons, Plugin.each_named by done. rewrite Hc. cbn [andThen].
  destruct (Plugin.strict p); unfold Plugin.callPublic, Plugin.callMember; rewrite Hm; [|done].
  by rewrite bool_decide_false, Hn by done.
Qed.

(** Components that keep a record of the calls. *)
#[local] Instance recorded : Plugin.Components (list (nat * string)) := {
  Plugin.hasInstance _ e s := existsb (fun c => (c.1 =? e) && str_eqb c.2 "constructor") s;
  Plugin.construct _ e _ s := (s ++ [(e, "constructor")], None);
  Plugin.memberOf _ _ name _ := if in_strs name ["show"; "hide"; "_hideModal"; "constructor"] then Plugin.Method else Plugin.Undefined;
  Plugin.call _ e name _ s := (s ++ [(e, name)], None)
}.

Lemma jquery_private_methods_witness :
  Plugin.jQueryInterface Plugin.Modal (VStr "_hideModal") VUndefined [1; 2] [] =
    ([(1, "constructor"); (1, "_hideModal"); (2, "constructor"); (2, "_hideModal")], None).
Proof.
  rewrite (jquery_private_methods Plugin.Modal "_hideModal" VUndefined 1 [2] [] [(1, "constructor")]).
  - reflexivity.
  - discriminate.
  - reflexivity.
  - reflexivity.
  - reflexivity.
Defined.

(** The interface of [Collapse] makes its configuration itself: the options it is given are not used. *)
Theorem jquery_collapse_ignores_options {S : Type} `{K : Plugin.Components S} (o : obj value) (elements : list nat) (s : S) :
  Plugin.jQueryInterface Plugin.Collapse (VObj o) VUndefined elements s = Plugin.jQueryInterface Plugin.Collapse (VObj []) VUndefined elements s.
Proof. reflexivity. Qed.
