(* ===== verification/PopperGeometry.v ===== *)
(** Popper's placement names and rectangle arithmetic (the pure part of the
    positioning engine bundled in [bootstrap.bundle.js]): placements and their
    opposites, clamping, paddings, offsets of a popper next to its reference. *)
From Stdlib Require Import Ascii QArith Qminmax Qround Qabs Lqa Lia.
From S2P Require Import Prelude.

(** ** Names *)

Definition top : string := "top".
Definition bottom : string := "bottom".
Definition right : string := "right".
Definition left : string := "left".
Definition auto : string := "auto".
Definition basePlacements : list string := [top; bottom; right; left].
Definition start : string := "start".
Definition end_ : string := "end".
Definition variationPlacements : list string :=
  fold_left (fun acc placement =>
    acc ++ [placement +:+ "-" +:+ start; placement +:+ "-" +:+ end_]) basePlacements [].
Definition placements : list string :=
  fold_left (fun acc placement =>
    acc ++ [placement; placement +:+ "-" +:+ start; placement +:+ "-" +:+ end_])
    (basePlacements ++ [auto]) [].
Definition modifierPhases : list string :=
  ["beforeRead"; "read"; "afterRead"; "beforeMain"; "main"; "afterMain";
   "beforeWrite"; "write"; "afterWrite"].

(** ** Records *)

Inductive axis := AxisX | AxisY.
Inductive len := Width | Height.

#[export] Instance axis_eq_dec : EqDecision axis.
Proof. solve_decision. Defined.
#[export] Instance len_eq_dec : EqDecision len.
Proof. solve_decision. Defined.

Record xy := XY { xy_x : Q; xy_y : Q }.
Record rect := Rect { r_x : Q; r_y : Q; r_width : Q; r_height : Q }.
Record clientRect := ClientRect {
  cr_width : Q; cr_height : Q; cr_top : Q; cr_right : Q;
  cr_bottom : Q; cr_left : Q; cr_x : Q; cr_y : Q
}.
Record sides := Sides { s_top : Q; s_right : Q; s_bottom : Q; s_left : Q }.

(** [o[axis]], [o[axis] = v], [rect[len]] *)
Definition xy_get (a : axis) (o : xy) : Q :=
  match a with AxisX => xy_x o | AxisY => xy_y o end.
Definition xy_set (a : axis) (v : Q) (o : xy) : xy :=
  match a with AxisX => XY v (xy_y o) | AxisY => XY (xy_x o) v end.
Definition rect_pos (a : axis) (r : rect) : Q :=
  match a with AxisX => r_x r | AxisY => r_y r end.
Definition rect_len (l : len) (r : rect) : Q :=
  match l with Width => r_width r | Height => r_height r end.

(** [sides[key]]: [undefined] for a name that is not a side. *)
Definition side_get (k : string) (s : sides) : option Q :=
  if str_eqb k top then Some (s_top s)
  else if str_eqb k right then Some (s_right s)
  else if str_eqb k bottom then Some (s_bottom s)
  else if str_eqb k left then Some (s_left s)
  else None.

Local Open Scope Q_scope.

(** ** Placements *)

Definition getBasePlacement (placement : string) : string :=
  hd "" (split_char "-"%char placement).

Definition getVariation (placement : string) : option string :=
  nth_error (split_char "-"%char placement) 1.

Definition getMainAxisFromPlacement (placement : string) : axis :=
  if in_strs placement [top; bottom] then AxisX else AxisY.

Definition getAltAxis (a : axis) : axis :=
  match a with AxisX => AxisY | AxisY => AxisX end.

(** The length property that goes with an axis: [axis === 'y' ? 'height' : 'width']. *)
Definition len_of_axis (a : axis) : len :=
  match a with AxisY => Height | AxisX => Width end.

(** [s.replace(/k1|k2|.../g, matched => table[matched])]: at every position the
    first key of the table that matches is replaced; the scan goes on after it.
    [skip] counts the characters of a match still to be passed over. *)
Fixpoint first_key (table : list (string * string)) (s : string) : option (string * string) :=
  match table with
  | [] => None
  | (k, v) :: t => if startsWith s k then Some (k, v) else first_key t s
  end.

Fixpoint replace_all (table : list (string * string)) (skip : nat) (s : string) : string :=
  match s with
  | EmptyString => EmptyString
  | String a s' =>
      match skip with
      | S n => replace_all table n s'
      | O =>
          match first_key table s with
          | Some (k, v) => v +:+ replace_all table (String.length k - 1) s'
          | None => String a (replace_all table O s')
          end
      end
  end.

(** Alternatives in the order of the regular expression [/left|right|bottom|top/g]. *)
Definition hash_1 : list (string * string) :=
  [(left, right); (right, left); (bottom, top); (top, bottom)].

Definition getOppositePlacement (placement : string) : string :=
  replace_all hash_1 0 placement.

Definition hash : list (string * string) := [(start, end_); (end_, start)].

Definition getOppositeVariationPlacement (placement : string) : string :=
  replace_all hash 0 placement.

Definition getExpandedFallbackPlacements (placement : string) : list string :=
  if str_eqb (getBasePlacement placement) auto then []
  else
    let oppositePlacement := getOppositePlacement placement in
    [getOppositeVariationPlacement placement; oppositePlacement;
     getOppositeVariationPlacement oppositePlacement].

(** ** Clamping *)

Definition within (min value max : Q) : Q := Qmax min (Qmin value max).

Definition withinMaxClamp (min value max : Q) : Q :=
  let v := within min value max in
  if Qlt_bool max v then max else v.

(** ** Paddings *)

Record rects := Rects { rs_reference : rect; rs_popper : rect }.

(** The [padding] option: a number, a (partial) object of sides, or a function
    of the rectangles and the placement. *)
Inductive padding :=
  | PadNum (q : Q)
  | PadObj (o : obj Q)
  | PadFun (f : rects -> string -> Q + obj Q).

Definition getFreshSideObject : sides := Sides 0 0 0 0.

(** [Object.assign({}, getFreshSideObject(), paddingObject)] *)
Definition mergePaddingObject (paddingObject : obj Q) : sides :=
  Sides (default (s_top getFreshSideObject) (oget top paddingObject))
        (default (s_right getFreshSideObject) (oget right paddingObject))
        (default (s_bottom getFreshSideObject) (oget bottom paddingObject))
        (default (s_left getFreshSideObject) (oget left paddingObject)).

Definition expandToHashMap {A} (value : A) (keys : list string) : obj A :=
  fold_left (fun hashMap key => oset key value hashMap) keys [].

Definition toPaddingObject (p : padding) (rs : rects) (placement : string) : sides :=
  let p := match p with
           | PadFun f => f rs placement
           | PadNum q => inl q
           | PadObj o => inr o
           end in
  mergePaddingObject (match p with
                      | inr o => o
                      | inl q => expandToHashMap q basePlacements
                      end).

(** ** Rectangles *)

Definition rectToClientRect (r : rect) : clientRect :=
  {| cr_width := r_width r; cr_height := r_height r;
     cr_x := r_x r; cr_y := r_y r;
     cr_left := r_x r; cr_top := r_y r;
     cr_right := r_x r + r_width r; cr_bottom := r_y r + r_height r |}.

(** The position of [element] next to [reference]; [placement] is optional. *)
Definition computeOffsets (reference element : rect) (placement : option string) : xy :=
  let placement := match placement with
                   | Some p => if str_truthy p then Some p else None
                   | None => None
                   end in
  let basePlacement := getBasePlacement <$> placement in
  let variation := placement ≫= getVariation in
  let commonX := r_x reference + r_width reference / 2 - r_width element / 2 in
  let commonY := r_y reference + r_height reference / 2 - r_height element / 2 in
  let at_ p := ostr_eqb basePlacement (Some p) in
  let offsets :=
    if at_ top then XY commonX (r_y reference - r_height element)
    else if at_ bottom then XY commonX (r_y reference + r_height reference)
    else if at_ right then XY (r_x reference + r_width reference) commonY
    else if at_ left then XY (r_x reference - r_width element) commonY
    else XY (r_x reference) (r_y reference) in
  let mainAxis := match basePlacement with
                  | Some b => if str_truthy b then Some (getMainAxisFromPlacement b) else None
                  | None => None
                  end in
  match mainAxis with
  | None => offsets
  | Some a =>
      let l := len_of_axis a in
      let d := rect_len l reference / 2 - rect_len l element / 2 in
      if ostr_eqb variation (Some start) then xy_set a (xy_get a offsets - d) offsets
      else if ostr_eqb variation (Some end_) then xy_set a (xy_get a offsets + d) offsets
      else offsets
  end.

(** ** The [offset] modifier's arithmetic *)

(** The [offset] option: a (possibly short) array, or a function giving one. *)
Inductive offsetOption :=
  | OffArr (a : list Q)
  | OffFun (f : rects -> string -> list Q).

Definition distanceAndSkiddingToXY (placement : string) (rs : rects) (o : offsetOption) : xy :=
  let basePlacement := getBasePlacement placement in
  let invertDistance := if in_strs basePlacement [left; top] then (-1) else 1 in
  let ref := match o with OffFun f => f rs placement | OffArr a => a end in
  let skidding := default 0 (nth_error ref 0) in
  let distance := default 0 (nth_error ref 1) * invertDistance in
  if in_strs basePlacement [left; right] then XY distance skidding else XY skidding distance.

(** ** The [hide] modifier's arithmetic *)

Definition getSideOffsets (overflow : sides) (r : rect) (preventedOffsets : xy) : sides :=
  {| s_top := s_top overflow - r_height r - xy_y preventedOffsets;
     s_right := s_right overflow - r_width r + xy_x preventedOffsets;
     s_bottom := s_bottom overflow - r_height r + xy_y preventedOffsets;
     s_left := s_left overflow - r_width r - xy_x preventedOffsets |}.

Definition isAnySideFullyClipped (overflow : sides) : bool :=
  existsb (fun side => match side_get side overflow with
                       | Some q => Qle_bool 0 q
                       | None => false
                       end) [top; right; bottom; left].

(** ** Rounding to device pixels *)

Definition roundOffsetsByDPR (o : xy) (devicePixelRatio : Q) : xy :=
  let dpr := if Qeq_bool devicePixelRatio 0 then 1 else devicePixelRatio in
  XY (Qround (xy_x o * dpr) / dpr) (Qround (xy_y o * dpr) / dpr).

(** * Properties *)

(** Splitting a goal over the members of a closed list of strings. *)
Ltac each_member H :=
  vm_compute in H;
  repeat (destruct H as [<-|H]); [.. | destruct H].

(** ** Placement names *)

(** The placements that name a side: all of [placements] but the [auto] ones. *)
Definition sidePlacements : list string := basePlacements ++ variationPlacements.

Lemma sidePlacements_placements p : In p sidePlacements -> In p placements.
Proof. intros H. each_member H; vm_compute; tauto. Qed.

Lemma opposite_side_placements p :
  In p sidePlacements -> In (getOppositePlacement p) sidePlacements.
Proof. intros H. each_member H; vm_compute; tauto. Qed.

Lemma base_of_side_placement p :
  In p sidePlacements -> In (getBasePlacement p) basePlacements.
Proof. intros H. each_member H; vm_compute; tauto. Qed.

(** Taking the opposite of a placement twice gives it back; once, it changes the side for the one
    across, on the same axis and with the same variation, and taking the opposite variation
    twice gives the placement back too and never changes the side. *)
Theorem opposite_placement_spec (p : string) :
  In p sidePlacements ->
  getOppositePlacement (getOppositePlacement p) = p /\
  getBasePlacement (getOppositePlacement p) = getOppositePlacement (getBasePlacement p) /\
  getBasePlacement (getOppositePlacement p) <> getBasePlacement p /\
  getMainAxisFromPlacement (getBasePlacement (getOppositePlacement p)) =
    getMainAxisFromPlacement (getBasePlacement p) /\
  getVariation (getOppositePlacement p) = getVariation p /\
  getOppositeVariationPlacement (getOppositeVariationPlacement p) = p /\
  getBasePlacement (getOppositeVariationPlacement p) = getBasePlacement p.
Proof. intros H. each_member H; vm_compute; repeat split; congruence. Qed.

Lemma opposite_placement_spec_witness :
  getBasePlacement (getOppositePlacement "left-start") = "right".
Proof.
  destruct (opposite_placement_spec "left-start") as (_ & H & _); [|exact H].
  vm_compute; tauto.
Defined.

(** ** Clamping *)

Lemma within_ge_min lo v hi : lo <= within lo v hi.
Proof. unfold within. apply Q.le_max_l. Qed.

Lemma within_le_max lo v hi : lo <= hi -> within lo v hi <= hi.
Proof. unfold within. intros. apply Q.max_lub; [done|apply Q.le_min_r]. Qed.

Lemma within_id lo v hi : lo <= v -> v <= hi -> within lo v hi == v.
Proof. unfold within. q_lra. Qed.

Lemma withinMaxClamp_le_max lo v hi : withinMaxClamp lo v hi <= hi.
Proof. unfold withinMaxClamp. q_cases; lra. Qed.

Lemma withinMaxClamp_ge_min lo v hi : lo <= hi -> lo <= withinMaxClamp lo v hi.
Proof.
  intros H. unfold withinMaxClamp. q_cases; [done|]. apply within_ge_min.
Qed.

#[export] Hint Resolve within_ge_min within_le_max withinMaxClamp_le_max
  withinMaxClamp_ge_min : js.

(** ** The popper touches its reference and is aligned with it *)

(** [element] placed at [o] touches the side of [reference] that [base] names. *)
Definition touches (base : string) (reference element : rect) (o : xy) : Prop :=
  if str_eqb base top then xy_y o + r_height element == r_y reference
  else if str_eqb base bottom then xy_y o == r_y reference + r_height reference
  else if str_eqb base right then xy_x o == r_x reference + r_width reference
  else if str_eqb base left then xy_x o + r_width element == r_x reference
  else False.

(** Along the other axis: centred, or with the [start] or [end] edges in line. *)
Definition aligned (variation : option string) (a : axis) (reference element : rect) (o : xy) : Prop :=
  let l := len_of_axis a in
  match variation with
  | None => xy_get a o + rect_len l element / 2 == rect_pos a reference + rect_len l reference / 2
  | Some v =>
      if str_eqb v start then xy_get a o == rect_pos a reference
      else xy_get a o + rect_len l element == rect_pos a reference + rect_len l reference
  end.

(** C39: at each of the twelve placements the popper touches the side of the reference that the
    placement names, and along the other axis it is centred, or has its start or its end
    edge in line with that of the reference. *)
Theorem computeOffsets_spec (reference element : rect) (p : string) :
  In p sidePlacements ->
  let o := computeOffsets reference element (Some p) in
  let base := getBasePlacement p in
  touches base reference element o /\
  aligned (getVariation p) (getMainAxisFromPlacement base) reference element o.
Proof.
  intros H. destruct reference as [rx ry rw rh], element as [ex ey ew eh].
  each_member H; cbn; split; qlra.
Qed.

Lemma computeOffsets_spec_witness :
  xy_x (computeOffsets (Rect 10 20 100 40) (Rect 0 0 30 10) (Some "bottom-end")) + 30 == 10 + 100.
Proof.
  destruct (computeOffsets_spec (Rect 10 20 100 40) (Rect 0 0 30 10) "bottom-end") as [_ H].
  - vm_compute; tauto.
  - exact H.
Defined.

(** ** Rounding *)

Lemma Qround_div_error x d : 0 < d -> Qabs (Qround (x * d) / d - x) <= (1 # 2) / d.
Proof.
  intros Hd. destruct (Qround_bounds (x * d)) as [Hlo Hhi].
  assert (Hx : Qround (x * d) / d - x == (Qround (x * d) - x * d) / d) by (field; lra).
  rewrite Hx. apply Qabs_Qle_condition. split.
  - apply Qle_shift_div_l; [done|].
    assert (Hd' : - ((1 # 2) / d) * d == - (1 # 2)) by (field; lra). rewrite Hd'. lra.
  - unfold Qdiv at 1 2. apply Qmult_le_compat_r; [lra|].
    apply Qlt_le_weak, Qinv_lt_0_compat; done.
Qed.

(** Rounding to device pixels moves an offset by at most half a device pixel. *)
Theorem roundOffsetsByDPR_error (o : xy) (dpr : Q) :
  0 < dpr ->
  Qabs (xy_x (roundOffsetsByDPR o dpr) - xy_x o) <= (1 # 2) / dpr /\
  Qabs (xy_y (roundOffsetsByDPR o dpr) - xy_y o) <= (1 # 2) / dpr.
Proof.
  intros Hd. unfold roundOffsetsByDPR.
  destruct (Qeq_bool dpr 0) eqn:E; [apply Qeq_bool_iff in E; lra|].
  split; apply Qround_div_error; done.
Qed.

Lemma roundOffsetsByDPR_error_witness :
  Qabs (xy_x (roundOffsetsByDPR (XY (7 # 3) 0) 2) - (7 # 3)) <= (1 # 2) / 2.
Proof. apply (roundOffsetsByDPR_error (XY (7 # 3) 0) 2). reflexivity. Defined.
