(* ===== verification/PopperDom.v ===== *)
(** Popper's reading of the page: ancestor walks, offset parents, scroll
    parents, clipping rectangles and the composite rectangle of the reference.
    The browser (node tree, computed styles, layout metrics) is an interface,
    the class [Browser]; every walk over ancestors takes [treeHeight] as fuel and
    is proved to end with a result on every well-formed node tree. *)
From Stdlib Require Import Ascii QArith Qminmax Qround Qabs Lqa Lia.
From S2P Require Import Prelude PopperGeometry.

Local Open Scope Q_scope.

(** ** The browser *)

Definition nid := nat.

Inductive nodeKind := HTMLElem | OtherElem | ShadowRootNode | DocumentNode | OtherNode.
#[export] Instance nodeKind_eq_dec : EqDecision nodeKind.
Proof. solve_decision. Defined.

(** The computed style properties Popper reads. *)
Record cssStyle := {
  css_position : string; css_transform : string; css_perspective : string;
  css_contain : string; css_willChange : string; css_filter : string;
  css_overflow : string; css_overflowX : string; css_overflowY : string;
  css_direction : string
}.

Record visualVP := {
  vv_width : Q; vv_height : Q; vv_offsetLeft : Q; vv_offsetTop : Q
}.

(** What the code asks of the browser. There is one window with one document,
    whose [documentElement] and [body] exist. *)
Class Browser := {
  nodeName : nid -> string;
  kind : nid -> nodeKind;
  parentNode : nid -> option nid;
  assignedSlot : nid -> option nid;
  host : nid -> option nid;
  offsetParent : nid -> option nid;
  rootNode : nid -> nid;
  node_contains : nid -> nid -> bool;
  querySelector : nid -> string -> option nid;
  computedStyle : nid -> cssStyle;
  nativeRect : nid -> rect;
  offsetWidth : nid -> Q; offsetHeight : nid -> Q;
  offsetLeft : nid -> Q; offsetTop : nid -> Q;
  clientWidth : nid -> Q; clientHeight : nid -> Q;
  clientLeft : nid -> Q; clientTop : nid -> Q;
  scrollWidth : nid -> Q; scrollHeight : nid -> Q;
  scrollLeft : nid -> Q; scrollTop : nid -> Q;
  documentElement : nid;
  body : nid;
  pageXOffset : Q; pageYOffset : Q;
  devicePixelRatio : Q;
  visualViewport : option visualVP;
  userAgent : string;
  uaBrands : option (list (string * string));
  shadowDom : bool;          (** [typeof ShadowRoot !== 'undefined'] *)
  treeHeight : nat           (** bound on the ancestor walks *)
}.

(** A value an ancestor walk may reach: the window, its visual viewport or a node. *)
Inductive target := Win | VisualViewportObj | El (n : nid).
#[export] Instance target_eq_dec : EqDecision target.
Proof. solve_decision. Defined.

(** The reference of a popper: a node, or a virtual element. *)
Record virtualElement := {
  ve_getBoundingClientRect : rect;
  ve_contextElement : option nid
}.
Inductive refElement := RefNode (n : nid) | RefVirtual (v : virtualElement).

Section dom.
Context `{B : Browser}.

Definition getNodeName (t : target) : string :=
  match t with El n => toLowerCase (nodeName n) | _ => "" end.

Definition isElement (t : target) : bool :=
  match t with
  | El n => match kind n with HTMLElem | OtherElem => true | _ => false end
  | _ => false
  end.

Definition isHTMLElement (t : target) : bool :=
  match t with
  | El n => match kind n with HTMLElem => true | _ => false end
  | _ => false
  end.

Definition isShadowRoot (n : nid) : bool :=
  shadowDom && match kind n with ShadowRootNode => true | _ => false end.

Definition getUAString : string :=
  match uaBrands with
  | Some brands => str_join " " (map (fun item => fst item +:+ "/" +:+ snd item) brands)
  | None => userAgent
  end.

(** [/^((?!chrome|android).)*safari/i.test(s)], on a lower-cased [s]. *)
Fixpoint safariBeforeChrome (s : string) : bool :=
  startsWith s "safari" ||
  match s with
  | EmptyString => false
  | String a s' =>
      negb (startsWith s "chrome" || startsWith s "android") &&
      negb (Ascii.eqb a "010"%char || Ascii.eqb a "013"%char) && safariBeforeChrome s'
  end.

Definition isLayoutViewport : bool := negb (safariBeforeChrome (toLowerCase getUAString)).

(** [round(size) / offsetSize || 1], where [offsetSize] is not zero. *)
Definition scaleOf (size offsetSize : Q) : Q :=
  let s := Qround size / offsetSize in if Qeq_bool s 0 then 1 else s.

Definition nativeRectOf (e : refElement) : rect :=
  match e with RefNode n => nativeRect n | RefVirtual v => ve_getBoundingClientRect v end.

Definition getBoundingClientRect (e : refElement) (includeScale isFixedStrategy : bool) : clientRect :=
  let r := nativeRectOf e in
  let '(scaleX, scaleY) :=
    match e with
    | RefNode n =>
        if includeScale && isHTMLElement (El n) then
          (if Qlt_bool 0 (offsetWidth n) then scaleOf (r_width r) (offsetWidth n) else 1,
           if Qlt_bool 0 (offsetHeight n) then scaleOf (r_height r) (offsetHeight n) else 1)
        else (1, 1)
    | RefVirtual _ => (1, 1)
    end in
  let addVisualOffsets := negb isLayoutViewport && isFixedStrategy in
  let off f := match visualViewport with
               | Some vv => if addVisualOffsets then f vv else 0
               | None => 0
               end in
  let x := (r_x r + off vv_offsetLeft) / scaleX in
  let y := (r_y r + off vv_offsetTop) / scaleY in
  let width := r_width r / scaleX in
  let height := r_height r / scaleY in
  {| cr_width := width; cr_height := height; cr_top := y; cr_right := x + width;
     cr_bottom := y + height; cr_left := x; cr_x := x; cr_y := y |}.

Definition getLayoutRect (n : nid) : rect :=
  let c := getBoundingClientRect (RefNode n) false false in
  let width := offsetWidth n in
  let height := offsetHeight n in
  let width := if Qle_bool (Qabs (cr_width c - width)) 1 then cr_width c else width in
  let height := if Qle_bool (Qabs (cr_height c - height)) 1 then cr_height c else height in
  Rect (offsetLeft n) (offsetTop n) width height.

(** The [do ... while] walk of [contains] through shadow roots. *)
Fixpoint containsWalk (fuel : nat) (parent next : nid) : res bool :=
  match fuel with
  | O => Err OutOfFuel
  | S fuel =>
      if decide (parent = next) then Ok true
      else match parentNode next with
           | Some p => containsWalk fuel parent p
           | None => match host next with
                     | Some h => containsWalk fuel parent h
                     | None => Ok false
                     end
           end
  end.

Definition contains (parent child : nid) : res bool :=
  if node_contains parent child then Ok true
  else if isShadowRoot (rootNode child) then containsWalk treeHeight parent child
  else Ok false.

Definition isTableElement (t : target) : bool := in_strs (getNodeName t) ["table"; "td"; "th"].

Definition getDocumentElement : nid := documentElement.

Definition getParentNode (n : nid) : nid :=
  if str_eqb (getNodeName (El n)) "html" then n
  else match assignedSlot n with
       | Some s => s
       | None =>
           match parentNode n with
           | Some p => p
           | None =>
               match (if isShadowRoot n then host n else None) with
               | Some h => h
               | None => getDocumentElement
               end
           end
       end.

Definition getTrueOffsetParent (n : nid) : option nid :=
  if negb (isHTMLElement (El n)) || str_eqb (css_position (computedStyle n)) "fixed" then None
  else offsetParent n.

(** Whether the style makes its element a containing block of fixed descendants. *)
Definition isContaining (isFirefox : bool) (css : cssStyle) : bool :=
  negb (str_eqb (css_transform css) "none") || negb (str_eqb (css_perspective css) "none") ||
  str_eqb (css_contain css) "paint" ||
  in_strs (css_willChange css) ["transform"; "perspective"] ||
  isFirefox && str_eqb (css_willChange css) "filter" ||
  isFirefox && str_truthy (css_filter css) && negb (str_eqb (css_filter css) "none").

Fixpoint containingWalk (fuel : nat) (isFirefox : bool) (t : option nid) : res (option nid) :=
  match fuel with
  | O => Err OutOfFuel
  | S fuel =>
      match t with
      | None => Ok None
      | Some n =>
          if isHTMLElement (El n) && negb (in_strs (getNodeName (El n)) ["html"; "body"]) then
            if isContaining isFirefox (computedStyle n) then Ok (Some n)
            else containingWalk fuel isFirefox (parentNode n)
          else Ok None
      end
  end.

Definition getContainingBlock (n : nid) : res (option nid) :=
  let isFirefox := str_includes (toLowerCase getUAString) "firefox" in
  let isIE := str_includes (toLowerCase getUAString) "trident" in
  if isIE && isHTMLElement (El n) && str_eqb (css_position (computedStyle n)) "fixed"
  then Ok None
  else
    let currentNode := getParentNode n in
    let currentNode := if isShadowRoot currentNode then host currentNode else Some currentNode in
    containingWalk treeHeight isFirefox currentNode.

Fixpoint offsetParentWalk (fuel : nat) (t : option nid) : res (option nid) :=
  match fuel with
  | O => Err OutOfFuel
  | S fuel =>
      match t with
      | None => Ok None
      | Some n =>
          if isTableElement (El n) && str_eqb (css_position (computedStyle n)) "static"
          then offsetParentWalk fuel (getTrueOffsetParent n)
          else Ok (Some n)
      end
  end.

Definition getOffsetParent (n : nid) : res target :=
  op ← offsetParentWalk treeHeight (getTrueOffsetParent n);
  match op with
  | Some p =>
      if str_eqb (getNodeName (El p)) "html" ||
         (str_eqb (getNodeName (El p)) "body" &&
          str_eqb (css_position (computedStyle p)) "static")
      then Ok Win else Ok (El p)
  | None =>
      cb ← getContainingBlock n;
      match cb with Some c => Ok (El c) | None => Ok Win end
  end.

Record scrollPos := { sp_scrollLeft : Q; sp_scrollTop : Q }.

Definition getWindowScroll : scrollPos :=
  {| sp_scrollLeft := pageXOffset; sp_scrollTop := pageYOffset |}.

Definition getWindowScrollBarX : Q :=
  cr_left (getBoundingClientRect (RefNode getDocumentElement) false false)
  + sp_scrollLeft getWindowScroll.

Definition getViewportRect (strategy : string) : rect :=
  let html := getDocumentElement in
  let '(x, y, width, height) :=
    match visualViewport with
    | Some vv =>
        let layoutViewport := isLayoutViewport in
        if layoutViewport || negb layoutViewport && str_eqb strategy "fixed"
        then (vv_offsetLeft vv, vv_offsetTop vv, vv_width vv, vv_height vv)
        else (0, 0, vv_width vv, vv_height vv)
    | None => (0, 0, clientWidth html, clientHeight html)
    end in
  Rect (x + getWindowScrollBarX) y width height.

Definition getDocumentRect : rect :=
  let html := getDocumentElement in
  let winScroll := getWindowScroll in
  let width := Qmax (Qmax (scrollWidth html) (clientWidth html))
                    (Qmax (scrollWidth body) (clientWidth body)) in
  let height := Qmax (Qmax (scrollHeight html) (clientHeight html))
                     (Qmax (scrollHeight body) (clientHeight body)) in
  let x := - sp_scrollLeft winScroll + getWindowScrollBarX in
  let y := - sp_scrollTop winScroll in
  let x := if str_eqb (css_direction (computedStyle body)) "rtl"
           then x + (Qmax (clientWidth html) (clientWidth body) - width) else x in
  Rect x y width height.

Definition isScrollParent (n : nid) : bool :=
  let css := computedStyle n in
  let s := css_overflow css +:+ css_overflowY css +:+ css_overflowX css in
  str_includes s "auto" || str_includes s "scroll" || str_includes s "overlay" ||
  str_includes s "hidden".

Fixpoint getScrollParent (fuel : nat) (n : nid) : res nid :=
  match fuel with
  | O => Err OutOfFuel
  | S fuel =>
      if in_strs (getNodeName (El n)) ["html"; "body"; "#document"] then
        (* [ownerDocument] of the document itself is null *)
        match kind n with DocumentNode => Err (TypeError "body of null") | _ => Ok body end
      else if isHTMLElement (El n) && isScrollParent n then Ok n
      else getScrollParent fuel (getParentNode n)
  end.

Fixpoint listScrollParents (fuel : nat) (n : nid) (acc : list target) : res (list target) :=
  match fuel with
  | O => Err OutOfFuel
  | S fuel =>
      scrollParent ← getScrollParent treeHeight n;
      if decide (scrollParent = body) then
        Ok (acc ++ [Win] ++ match visualViewport with Some _ => [VisualViewportObj] | None => [] end
                ++ (if isScrollParent scrollParent then [El scrollParent] else []))
      else
        rest ← listScrollParents fuel (getParentNode scrollParent) [];
        Ok ((acc ++ [El scrollParent]) ++ rest)
  end.

Definition getInnerBoundingClientRect (n : nid) (strategy : string) : clientRect :=
  let r := getBoundingClientRect (RefNode n) false (str_eqb strategy "fixed") in
  let t := cr_top r + clientTop n in
  let l := cr_left r + clientLeft n in
  {| cr_top := t; cr_left := l; cr_bottom := t + clientHeight n; cr_right := l + clientWidth n;
     cr_width := clientWidth n; cr_height := clientHeight n; cr_x := l; cr_y := t |}.

(** The values a clipping parent can be: ['viewport'], an element, anything else
    (['document']). *)
Inductive clipTarget := ClipViewport | ClipElement (n : nid) | ClipDocument.

Definition getClientRectFromMixedType (clippingParent : clipTarget) (strategy : string) : clientRect :=
  match clippingParent with
  | ClipViewport => rectToClientRect (getViewportRect strategy)
  | ClipElement n => getInnerBoundingClientRect n strategy
  | ClipDocument => rectToClientRect getDocumentRect
  end.

(** The nodes of [l] that are elements, contain the clipper and are not [body]. *)
Fixpoint filterClipping (clipper : nid) (l : list target) : res (list nid) :=
  match l with
  | [] => Ok []
  | El c :: l =>
      keep ← (if isElement (El c) then contains c clipper else Ok false);
      rest ← filterClipping clipper l;
      Ok (if keep && negb (str_eqb (getNodeName (El c)) "body") then c :: rest else rest)
  | _ :: l => filterClipping clipper l
  end.

Definition getClippingParents (n : nid) : res (list nid) :=
  clippingParents ← listScrollParents treeHeight (getParentNode n) [];
  let canEscapeClipping := in_strs (css_position (computedStyle n)) ["absolute"; "fixed"] in
  clipperElement ← (if canEscapeClipping && isHTMLElement (El n) then getOffsetParent n
                    else Ok (El n));
  match clipperElement with
  | El c => if isElement (El c) then filterClipping c clippingParents else Ok []
  | _ => Ok []
  end.

Inductive boundary := ClippingParents | BoundaryList (l : list clipTarget).

(** One step of the [reduce] over the clipping parents. *)
Definition clipStep (strategy : string) (accRect : clientRect) (c : clipTarget) : clientRect :=
  let r := getClientRectFromMixedType c strategy in
  {| cr_top := Qmax (cr_top r) (cr_top accRect);
     cr_right := Qmin (cr_right r) (cr_right accRect);
     cr_bottom := Qmin (cr_bottom r) (cr_bottom accRect);
     cr_left := Qmax (cr_left r) (cr_left accRect);
     cr_width := cr_width accRect; cr_height := cr_height accRect;
     cr_x := cr_x accRect; cr_y := cr_y accRect |}.

Definition getClippingRect (n : nid) (b : boundary) (rootBoundary : clipTarget) (strategy : string)
    : res clientRect :=
  mainClippingParents ← (match b with
                         | ClippingParents => ps ← getClippingParents n; Ok (map ClipElement ps)
                         | BoundaryList l => Ok l
                         end);
  let clippingParents := mainClippingParents ++ [rootBoundary] in
  let firstClippingParent := hd rootBoundary clippingParents in
  let r := fold_left (clipStep strategy) clippingParents
             (getClientRectFromMixedType firstClippingParent strategy) in
  Ok {| cr_top := cr_top r; cr_right := cr_right r; cr_bottom := cr_bottom r;
        cr_left := cr_left r; cr_width := cr_right r - cr_left r;
        cr_height := cr_bottom r - cr_top r; cr_x := cr_left r; cr_y := cr_top r |}.

Definition getHTMLElementScroll (n : nid) : scrollPos :=
  {| sp_scrollLeft := scrollLeft n; sp_scrollTop := scrollTop n |}.

Definition getNodeScroll (t : target) : scrollPos :=
  match t with
  | El n => if negb (isHTMLElement t) then getWindowScroll else getHTMLElementScroll n
  | _ => getWindowScroll
  end.

(** [round(size) / offsetSize || 1] without the guard on [offsetSize]: dividing by
    zero gives [NaN] (then 1) for size 0 and an infinity, which is not 1, otherwise. *)
Definition isScaledAlong (size offsetSize : Q) : bool :=
  if Qeq_bool offsetSize 0 then negb (Qeq_bool (Qround size) 0)
  else negb (Qeq_bool (scaleOf size offsetSize) 1).

Definition isElementScaled (n : nid) : bool :=
  let r := nativeRect n in
  isScaledAlong (r_width r) (offsetWidth n) || isScaledAlong (r_height r) (offsetHeight n).

Definition getCompositeRect (e : refElement) (offsetParent : target) (isFixed : bool) : rect :=
  let isOffsetParentAnElement := isHTMLElement offsetParent in
  let offsetParentIsScaled :=
    match offsetParent with
    | El n => isHTMLElement offsetParent && isElementScaled n
    | _ => false
    end in
  let r := getBoundingClientRect e offsetParentIsScaled isFixed in
  let '(scroll, offsets) :=
    if isOffsetParentAnElement || negb isOffsetParentAnElement && negb isFixed then
      ((if negb (str_eqb (getNodeName offsetParent) "body") || isScrollParent getDocumentElement
        then getNodeScroll offsetParent
        else {| sp_scrollLeft := 0; sp_scrollTop := 0 |}),
       match offsetParent with
       | El n =>
           if isHTMLElement offsetParent then
             let o := getBoundingClientRect (RefNode n) true false in
             XY (cr_x o + clientLeft n) (cr_y o + clientTop n)
           else XY getWindowScrollBarX 0
       | _ => XY getWindowScrollBarX 0
       end)
    else ({| sp_scrollLeft := 0; sp_scrollTop := 0 |}, XY 0 0) in
  Rect (cr_left r + sp_scrollLeft scroll - xy_x offsets)
       (cr_top r + sp_scrollTop scroll - xy_y offsets)
       (cr_width r) (cr_height r).
End dom.

(** * Properties *)

(** ** Well-formed node trees: every ancestor step goes up *)

Class WfTree `{B : Browser} := {
  depth : nid -> nat;
  depth_bound n : (depth n < treeHeight)%nat;
  depth_parent n p : parentNode n = Some p -> (depth p < depth n)%nat;
  depth_slot n p : assignedSlot n = Some p -> (depth p < depth n)%nat;
  depth_host n p : host n = Some p -> (depth p < depth n)%nat;
  depth_offsetParent n p : offsetParent n = Some p -> (depth p < depth n)%nat;
  depth_html n : getNodeName (El n) <> "html" -> getNodeName (El n) <> "#document" ->
    (depth documentElement < depth n)%nat;
  kind_parent n p : parentNode n = Some p -> getNodeName (El n) <> "html" -> kind p <> DocumentNode;
  kind_slot n p : assignedSlot n = Some p -> kind p <> DocumentNode;
  kind_host n p : host n = Some p -> kind p <> DocumentNode;
  kind_html : kind documentElement <> DocumentNode;
  kind_querySelector n sel p : querySelector n sel = Some p -> kind p <> DocumentNode;
  name_document n : getNodeName (El n) = "#document" -> kind n = DocumentNode;
  body_is_body : getNodeName (El body) = "body" /\ kind body = HTMLElem
}.

Section walks.
Context `{W : WfTree}.

(** The names at which a walk for scroll parents stops. *)
Definition rootNames : list string := ["html"; "body"; "#document"].

Lemma getParentNode_depth n :
  getNodeName (El n) <> "html" -> getNodeName (El n) <> "#document" ->
  (depth (getParentNode n) < depth n)%nat.
Proof.
  intros Hh Hd. unfold getParentNode.
  apply String.eqb_neq in Hh as E. rewrite E.
  destruct (assignedSlot n) eqn:Es; [by apply depth_slot|].
  destruct (parentNode n) eqn:Ep; [by apply depth_parent|].
  destruct (isShadowRoot n); [|by apply depth_html].
  destruct (host n) eqn:Eh; [by apply depth_host|by apply depth_html].
Qed.

Lemma getParentNode_kind n :
  kind n <> DocumentNode -> kind (getParentNode n) <> DocumentNode.
Proof.
  intros Hn. unfold getParentNode.
  destruct (String.eqb_spec (getNodeName (El n)) "html") as [|Hh]; [done|].
  destruct (assignedSlot n) eqn:Es; [by eapply kind_slot|].
  destruct (parentNode n) eqn:Ep; [by eapply kind_parent|].
  destruct (isShadowRoot n); [|by apply kind_html].
  destruct (host n) eqn:Eh; [by eapply kind_host|by apply kind_html].
Qed.

Lemma not_root_name n :
  in_strs (getNodeName (El n)) rootNames = false ->
  getNodeName (El n) <> "html" /\ getNodeName (El n) <> "body" /\ getNodeName (El n) <> "#document".
Proof.
  rewrite <- not_true_iff_false, in_strs_In. unfold rootNames. cbn [In].
  intros H. repeat split; intros E; apply H; rewrite E; tauto.
Qed.

(** A step of the scroll-parent walk: from a node that is neither a root nor a
    scroll parent to its parent. *)
Inductive scrollPath : nid -> nid -> Prop :=
  | scrollPath_here n : scrollPath n n
  | scrollPath_up n m :
      in_strs (getNodeName (El n)) rootNames = false ->
      isHTMLElement (El n) && isScrollParent n = false ->
      scrollPath (getParentNode n) m -> scrollPath n m.

Lemma scrollPath_depth n m : scrollPath n m -> (depth m <= depth n)%nat.
Proof.
  induction 1 as [|n m Hr _ _ IH]; [lia|].
  apply not_root_name in Hr as (Hh & _ & Hd).
  pose proof (getParentNode_depth n Hh Hd). lia.
Qed.

Lemma getScrollParent_total fuel n :
  (depth n < fuel)%nat -> kind n <> DocumentNode ->
  exists s, getScrollParent fuel n = Ok s /\
    (s = body \/
     scrollPath n s /\ isHTMLElement (El s) && isScrollParent s = true /\
     in_strs (getNodeName (El s)) rootNames = false).
Proof.
  revert n. induction fuel as [|fuel IH]; intros n Hn Hk; [lia|]. cbn [getScrollParent].
  fold rootNames. destruct (in_strs (getNodeName (El n)) rootNames) eqn:Er.
  { exists body. split; [|by left]. by destruct (kind n). }
  destruct (isHTMLElement (El n) && isScrollParent n) eqn:Es.
  { exists n. split; [done|]. right. repeat split; [constructor|done|done]. }
  destruct (not_root_name n Er) as (Hh & _ & Hd).
  destruct (IH (getParentNode n)) as (s & Hs & Hpath).
  - pose proof (getParentNode_depth n Hh Hd). lia.
  - by apply getParentNode_kind.
  - exists s. split; [done|]. destruct Hpath as [->|(Hp & Hrest)]; [by left|right].
    split; [by constructor|done].
Qed.

(** Ancestors of a node in the order of the walk, up to [html], [body] or the document. *)
Inductive ancestor : nid -> nid -> Prop :=
  | ancestor_here n : ancestor n n
  | ancestor_up n m :
      in_strs (getNodeName (El n)) rootNames = false ->
      ancestor (getParentNode n) m -> ancestor n m.

Definition scrolls (n : nid) : Prop :=
  isHTMLElement (El n) && isScrollParent n = true /\
  in_strs (getNodeName (El n)) rootNames = false.

Lemma scrollPath_ancestor n s m :
  scrollPath n s -> ancestor n m -> scrolls m -> ancestor s m.
Proof.
  intros Hp. revert m. induction Hp as [|n s Hr Hs Hp IH]; intros m Ha Hm; [done|].
  inversion Ha as [|? ? Hr' Ha']; subst.
  - destruct Hm as [Hm _]. congruence.
  - by apply IH.
Qed.

(** When the walk ends at [body], no ancestor scrolls. *)
Lemma getScrollParent_body fuel n m :
  getScrollParent fuel n = Ok body -> ancestor n m -> scrolls m -> m = body.
Proof.
  revert n. induction fuel as [|fuel IH]; intros n; cbn [getScrollParent]; [done|].
  fold rootNames. destruct (in_strs (getNodeName (El n)) rootNames) eqn:Er.
  { intros _ Ha [_ Hm]. inversion Ha; subst; congruence. }
  destruct (isHTMLElement (El n) && isScrollParent n) eqn:Es.
  { intros [= Hb] _ _. subst n. exfalso.
    destruct body_is_body as [Hname _].
    apply not_root_name in Er as (_ & Hbody & _). congruence. }
  intros Hg Ha Hm. inversion Ha as [|? ? _ Ha']; subst.
  - destruct Hm; congruence.
  - by eapply IH.
Qed.

Lemma body_does_not_scroll : ~ scrolls body.
Proof.
  intros [_ H]. destruct body_is_body as [Hb _].
  apply not_root_name in H as (_ & Hn & _). congruence.
Qed.

Lemma listScrollParents_complete fuel n acc :
  (depth n < fuel)%nat -> kind n <> DocumentNode ->
  exists l, listScrollParents fuel n acc = Ok (acc ++ l) /\ In Win l /\
    forall m, ancestor n m -> scrolls m -> In (El m) l.
Proof.
  revert n acc. induction fuel as [|fuel IH]; intros n acc Hn Hk; [lia|].
  cbn [listScrollParents].
  destruct (getScrollParent_total treeHeight n (depth_bound n) Hk) as (s & Hs & Hcase).
  rewrite Hs. cbn [mbind res_bind].
  destruct (decide (s = body)) as [->|Hsb].
  { eexists. split; [done|]. split; [by left|]. intros m Ha Hm. exfalso.
    assert (m = body) as -> by (by eapply getScrollParent_body).
    by apply body_does_not_scroll. }
  destruct Hcase as [->|(Hp & Hscr & Hroot)]; [done|].
  destruct (not_root_name s Hroot) as (Hh & _ & Hd).
  pose proof (getParentNode_depth s Hh Hd) as Hlt. pose proof (scrollPath_depth n s Hp) as Hle.
  destruct (IH (getParentNode s) []) as (l & Hl & Hwin & Hall).
  - lia.
  - apply getParentNode_kind. intros Hdoc. unfold isHTMLElement in Hscr. by rewrite Hdoc in Hscr.
  - rewrite Hl. exists (El s :: l). cbn. split; [by rewrite <- app_assoc|]. split; [by right|].
    intros m Ha Hm. assert (ancestor s m) as Has by (by eapply scrollPath_ancestor).
    inversion Has as [|? ? _ Has']; subst; [by left|right]. by apply Hall.
Qed.

Lemma offsetParentWalk_total fuel t :
  (0 < fuel)%nat -> (forall n, t = Some n -> (S (depth n) < fuel)%nat) ->
  exists r, offsetParentWalk fuel t = Ok r.
Proof.
  revert t. induction fuel as [|fuel IH]; intros t Hf Ht; [lia|]. cbn [offsetParentWalk].
  destruct t as [n|]; [|eauto]. specialize (Ht n eq_refl).
  destruct (isTableElement (El n) && _); [|eauto].
  apply IH; [lia|]. intros p. unfold getTrueOffsetParent.
  destruct (negb (isHTMLElement (El n)) || _); [done|].
  intros Hp%depth_offsetParent. lia.
Qed.

Lemma containingWalk_total fuel ff t :
  (0 < fuel)%nat ->
  (forall n, t = Some n -> (S (depth n) < fuel)%nat \/ getNodeName (El n) = "html") ->
  exists r, containingWalk fuel ff t = Ok r.
Proof.
  revert t. induction fuel as [|fuel IH]; intros t Hf Ht; [lia|]. cbn [containingWalk].
  destruct t as [n|]; [|eauto]. specialize (Ht n eq_refl).
  destruct (isHTMLElement (El n) && negb (in_strs (getNodeName (El n)) ["html"; "body"])) eqn:E;
    [|eauto].
  destruct (isContaining ff (computedStyle n)); [eauto|].
  destruct Ht as [Ht|Ht]; [|by rewrite Ht, andb_false_r in E].
  apply IH; [lia|]. intros p Hp%depth_parent. left. lia.
Qed.

Lemma getContainingBlock_total n :
  kind n <> DocumentNode -> exists r, getContainingBlock n = Ok r.
Proof.
  intros Hk. unfold getContainingBlock.
  destruct (_ && _ && _); [eauto|].
  pose proof (depth_bound n) as Hb.
  apply containingWalk_total; [lia|]. intros p Hp.
  destruct (String.eqb_spec (getNodeName (El n)) "html") as [Hh|Hh].
  - assert (Hself : getParentNode n = n) by (unfold getParentNode; by rewrite Hh).
    rewrite Hself in Hp. destruct (isShadowRoot n) eqn:Es.
    + left. apply depth_host in Hp. lia.
    + right. by injection Hp as <-.
  - left. assert (Hlt : (depth (getParentNode n) < depth n)%nat).
    { apply getParentNode_depth; [done|]. intros Hd. apply Hk, name_document, Hd. }
    destruct (isShadowRoot (getParentNode n)).
    + apply depth_host in Hp. lia.
    + injection Hp as <-. lia.
Qed.

Lemma getOffsetParent_total n :
  kind n <> DocumentNode -> exists t, getOffsetParent n = Ok t.
Proof.
  intros Hk. unfold getOffsetParent. pose proof (depth_bound n) as Hb.
  destruct (offsetParentWalk_total treeHeight (getTrueOffsetParent n)) as [r Hr].
  - lia.
  - intros p. unfold getTrueOffsetParent.
    destruct (negb (isHTMLElement (El n)) || _); [done|].
    intros Hp%depth_offsetParent. lia.
  - rewrite Hr. cbn [mbind res_bind]. destruct r as [p|].
    + destruct (_ || _); eauto.
    + destruct (getContainingBlock_total n Hk) as [c Hc]. rewrite Hc.
      cbn [mbind res_bind]. destruct c; eauto.
Qed.

Lemma containsWalk_total fuel parent next :
  (depth next < fuel)%nat -> exists b, containsWalk fuel parent next = Ok b.
Proof.
  revert next. induction fuel as [|fuel IH]; intros next Hn; [lia|]. cbn [containsWalk].
  case_decide; [eauto|].
  destruct (parentNode next) eqn:Ep; [apply depth_parent in Ep; apply IH; lia|].
  destruct (host next) eqn:Eh; [apply depth_host in Eh; apply IH; lia|eauto].
Qed.

Lemma contains_total parent child : exists b, contains parent child = Ok b.
Proof.
  unfold contains. destruct (node_contains parent child); [eauto|].
  destruct (isShadowRoot _); [|eauto]. apply containsWalk_total, depth_bound.
Qed.

Lemma filterClipping_total clipper l :
  exists ps, filterClipping clipper l = Ok ps /\
    forall p, In p ps -> In (El p) l /\ contains p clipper = Ok true.
Proof.
  induction l as [|t l (ps & IH & IHin)]; cbn [filterClipping].
  { exists []. split; [done|]. intros ? []. }
  destruct t as [| |c].
  1,2: exists ps; split; [done|]; intros p Hp; split; [right|]; by apply IHin.
  destruct (contains_total c clipper) as [b Hb].
  set (keep := if isElement (El c) then contains c clipper else Ok false).
  assert (Hkeep : exists k, keep = Ok k /\ (k = true -> contains c clipper = Ok true)).
  { unfold keep. destruct (isElement (El c)); [|by exists false].
    exists b. split; [done|]. intros ->. done. }
  destruct Hkeep as (k & -> & Hk). rewrite IH. cbn [mbind res_bind].
  eexists. split; [done|]. intros p.
  destruct (k && _) eqn:E; [|intros Hp; split; [right|]; by apply IHin].
  apply andb_true_iff in E as [-> _].
  intros [<-|Hp]; [split; [by left|by apply Hk]|]. split; [right|]; by apply IHin.
Qed.

Lemma getClippingParents_total n :
  kind n <> DocumentNode -> exists ps, getClippingParents n = Ok ps.
Proof.
  intros Hk. unfold getClippingParents.
  destruct (listScrollParents_complete treeHeight (getParentNode n) []) as (l & Hl & _).
  - apply depth_bound.
  - by apply getParentNode_kind.
  - rewrite Hl. cbn [mbind res_bind].
    set (b := in_strs _ _ && _).
    assert (Hc : exists t, (if b then getOffsetParent n else Ok (El n)) = Ok t).
    { destruct b; [by apply getOffsetParent_total|eauto]. }
    destruct Hc as [t Hc]. cbn in Hc |- *. rewrite Hc.
    destruct t as [| |c']; [eauto..|]. cbn [mbind res_bind].
    match goal with |- context [if ?e then filterClipping _ _ else _] => destruct e end; [|eauto].
    destruct (filterClipping_total c' ([] ++ l)) as (ps & Hps & _). eauto.
Qed.
End walks.

(** ** The clipping rectangle is an intersection *)

Section clipping.
Context `{B : Browser}.
Variable strategy : string.

(** The edges of [inner] lie within those of [outer]. *)
Definition insideOf (inner outer : clientRect) : Prop :=
  cr_top outer <= cr_top inner /\ cr_right inner <= cr_right outer /\
  cr_bottom inner <= cr_bottom outer /\ cr_left outer <= cr_left inner.

#[local] Instance insideOf_preorder : PreOrder insideOf.
Proof.
  split.
  - intros r. unfold insideOf. repeat split; lra.
  - intros a b c. unfold insideOf. intros (?&?&?&?) (?&?&?&?). repeat split; lra.
Qed.

Lemma clipStep_inside acc c :
  insideOf (clipStep strategy acc c) acc /\
  insideOf (clipStep strategy acc c) (getClientRectFromMixedType c strategy).
Proof. unfold insideOf, clipStep; cbn. q_lra. Qed.

Lemma clipStep_greatest r acc c :
  insideOf r acc -> insideOf r (getClientRectFromMixedType c strategy) ->
  insideOf r (clipStep strategy acc c).
Proof. unfold insideOf, clipStep; cbn. intros (?&?&?&?) (?&?&?&?). q_lra. Qed.

Lemma clipFold_inside l acc :
  let r := fold_left (clipStep strategy) l acc in
  insideOf r acc /\ forall c, In c l -> insideOf r (getClientRectFromMixedType c strategy).
Proof.
  revert acc. induction l as [|c l IH]; intros acc; cbn.
  { split; [reflexivity|tauto]. }
  destruct (IH (clipStep strategy acc c)) as [Hacc Hall].
  destruct (clipStep_inside acc c) as [H1 H2]. split; [by etrans|].
  intros c' [<-|Hin]; [by etrans|by apply Hall].
Qed.

Lemma clipFold_greatest r l acc :
  insideOf r acc -> (forall c, In c l -> insideOf r (getClientRectFromMixedType c strategy)) ->
  insideOf r (fold_left (clipStep strategy) l acc).
Proof.
  revert acc. induction l as [|c l IH]; intros acc Hacc Hl; cbn; [done|].
  apply IH; [|intros; apply Hl; by right].
  apply clipStep_greatest; [done|]. apply Hl. by left.
Qed.

(** The parents that clip, in the order of the reduction. *)
Definition clippersOf (n : nid) (b : boundary) (rootBoundary : clipTarget) : res (list clipTarget) :=
  l ← (match b with
       | ClippingParents => ps ← getClippingParents n; Ok (map ClipElement ps)
       | BoundaryList l => Ok l
       end);
  Ok (l ++ [rootBoundary]).

Lemma clip_intersection n b root r l :
  clippersOf n b root = Ok l ->
  getClippingRect n b root strategy = Ok r ->
  (forall c, In c l -> insideOf r (getClientRectFromMixedType c strategy)) /\
  (forall q, (forall c, In c l -> insideOf q (getClientRectFromMixedType c strategy)) -> insideOf q r) /\
  cr_width r == cr_right r - cr_left r /\ cr_height r == cr_bottom r - cr_top r.
Proof.
  unfold clippersOf, getClippingRect. intros Hl Hr.
  apply bind_ok in Hl as (l0 & Hl0 & [= <-]).
  rewrite Hl0 in Hr. cbn [mbind res_bind] in Hr. injection Hr as <-.
  set (l := l0 ++ [root]). set (first := hd root l).
  assert (Hfirst : In first l).
  { unfold first, l. destruct l0; cbn; tauto. }
  set (r0 := fold_left _ _ _).
  destruct (clipFold_inside l (getClientRectFromMixedType first strategy)) as [_ Hall].
  assert (Hgr : forall q, (forall c, In c l -> insideOf q (getClientRectFromMixedType c strategy)) ->
                insideOf q r0).
  { intros q Hq. apply clipFold_greatest; [by apply Hq|done]. }
  split; [exact Hall|]. split; [exact Hgr|]. cbn. split; lra.
Qed.
End clipping.

(** ** A concrete page
    [document 0 > html 1 > body 2 > scrolling div 3 > (reference 4, popper 5 > arrow 6)] *)

Definition plainCss : cssStyle :=
  {| css_position := "static"; css_transform := "none"; css_perspective := "none";
     css_contain := "none"; css_willChange := "auto"; css_filter := "none";
     css_overflow := "visible"; css_overflowX := "visible"; css_overflowY := "visible";
     css_direction := "ltr" |}.

Definition scrollCss : cssStyle :=
  {| css_position := "relative"; css_transform := "none"; css_perspective := "none";
     css_contain := "none"; css_willChange := "auto"; css_filter := "none";
     css_overflow := "auto"; css_overflowX := "auto"; css_overflowY := "auto";
     css_direction := "ltr" |}.

Definition demoRect (n : nid) : rect :=
  match n with
  | 3%nat => Rect 50 60 400 300
  | 4%nat => Rect 100 80 60 20
  | 5%nat => Rect 0 0 80 40
  | 6%nat => Rect 0 0 10 10
  | _ => Rect 0 0 800 600
  end.

#[export] Instance demoBrowser : Browser := {|
  nodeName n := match n with
                | 0%nat => "#document" | 1%nat => "HTML" | 2%nat => "BODY"
                | 3%nat | 4%nat | 5%nat | 6%nat => "DIV" | _ => "" end;
  kind n := match n with 0%nat => DocumentNode | _ => HTMLElem end;
  parentNode n := match n with
                  | 1%nat => Some 0%nat | 2%nat => Some 1%nat | 3%nat => Some 2%nat
                  | 4%nat | 5%nat => Some 3%nat | 6%nat => Some 5%nat | _ => None end;
  assignedSlot _ := None; host _ := None;
  offsetParent n := match n with
                    | 3%nat => Some 2%nat | 4%nat | 5%nat => Some 3%nat
                    | 6%nat => Some 5%nat | _ => None end;
  rootNode _ := 0%nat;
  node_contains p c := (p <=? c)%nat;
  querySelector n sel := match n with 5%nat => Some 6%nat | _ => None end;
  computedStyle n := match n with 3%nat => scrollCss | _ => plainCss end;
  nativeRect := demoRect;
  offsetWidth n := r_width (demoRect n); offsetHeight n := r_height (demoRect n);
  offsetLeft n := r_x (demoRect n); offsetTop n := r_y (demoRect n);
  clientWidth n := r_width (demoRect n); clientHeight n := r_height (demoRect n);
  clientLeft _ := 0; clientTop _ := 0;
  scrollWidth n := r_width (demoRect n); scrollHeight n := r_height (demoRect n);
  scrollLeft _ := 0; scrollTop _ := 0;
  documentElement := 1%nat; body := 2%nat;
  pageXOffset := 0; pageYOffset := 0; devicePixelRatio := 1;
  visualViewport := None;
  userAgent := "Mozilla/5.0 (X11; Linux x86_64) Chrome/120.0 Safari/537.36";
  uaBrands := None; shadowDom := true; treeHeight := 7%nat
|}.

#[export] Instance demoTree : WfTree.
Proof.
  refine {| depth n := Nat.min n 6 |}.
  - intros n. cbn. lia.
  - intros n p. do 7 (destruct n as [|n]; [cbn; intros [= <-]; lia || done|]). done.
  - done.
  - done.
  - intros n p. do 7 (destruct n as [|n]; [cbn; intros [= <-]; lia || done|]). done.
  - intros n. do 2 (destruct n as [|n]; [done|]). cbn. lia.
  - intros n p. do 7 (destruct n as [|n]; [cbn; intros [= <-]; done|]). done.
  - done.
  - done.
  - done.
  - intros n sel p. do 7 (destruct n as [|n]; [by intros [= <-]|]). done.
  - intros n. do 7 (destruct n as [|n]; [done|]). done.
  - done.
Defined.

(** * The theorems of this component *)

(** The search for scroll parents ends on every tree, and misses none: the window and
    every ancestor that scrolls are in the list it returns. *)
Theorem listScrollParents_spec `{W : WfTree} (n : nid) :
  kind n <> DocumentNode ->
  exists l, listScrollParents treeHeight n [] = Ok l /\ In Win l /\
    forall m, ancestor n m -> scrolls m -> In (El m) l.
Proof. intros Hk. apply (listScrollParents_complete _ n []); [apply depth_bound|done]. Qed.

Lemma listScrollParents_spec_witness :
  exists l, listScrollParents treeHeight 4%nat [] = Ok l /\ In (El 3%nat) l.
Proof.
  destruct (listScrollParents_spec 4%nat) as (l & Hl & _ & H); [discriminate|].
  exists l. split; [exact Hl|]. apply H.
  - apply ancestor_up; [reflexivity|]. apply ancestor_here.
  - split; reflexivity.
Defined.

(** C37: the clipping rectangle can be computed for every element, and it is the
    intersection of the rectangles of the clipping parents and the root boundary: it lies inside each
    of them, every rectangle inside all of them lies inside it, and its size agrees with its sides. *)
Theorem getClippingRect_spec `{W : WfTree} (n : nid) (b : boundary) (root : clipTarget) (strategy : string) :
  kind n <> DocumentNode ->
  exists l r, clippersOf n b root = Ok l /\ getClippingRect n b root strategy = Ok r /\
    (forall c, In c l -> insideOf r (getClientRectFromMixedType c strategy)) /\
    (forall q, (forall c, In c l -> insideOf q (getClientRectFromMixedType c strategy)) -> insideOf q r) /\
    cr_width r == cr_right r - cr_left r /\ cr_height r == cr_bottom r - cr_top r.
Proof.
  intros Hk.
  assert (Hl : exists l, clippersOf n b root = Ok l).
  { unfold clippersOf. destruct b as [|l]; [|eexists; done].
    destruct (getClippingParents_total n Hk) as [ps ->]. eexists; done. }
  destruct Hl as [l Hl].
  assert (Hr : exists r, getClippingRect n b root strategy = Ok r).
  { revert Hl. unfold clippersOf, getClippingRect.
    intros (l0 & Hl0 & _)%bind_ok. rewrite Hl0. eexists; done. }
  destruct Hr as [r Hr]. exists l, r. split; [done|]. split; [done|].
  by apply (clip_intersection strategy n b root).
Qed.

Lemma getClippingRect_spec_witness :
  exists r, getClippingRect 5%nat ClippingParents ClipViewport "absolute" = Ok r /\
    insideOf r (getInnerBoundingClientRect 3%nat "absolute").
Proof.
  destruct (getClippingRect_spec 5%nat ClippingParents ClipViewport "absolute")
    as (l & r & Hl & Hr & Hin & _); [discriminate|].
  vm_compute in Hl. injection Hl as <-.
  exists r. split; [exact Hr|]. apply (Hin (ClipElement 3%nat)). left. reflexivity.
Defined.
