(* ===== verification/PopperState.v ===== *)
(** The data Popper's modifiers work on: option objects, modifier objects and the
    [state] object of an instance, with the merge of modifier objects. *)
From Stdlib Require Import Ascii QArith Qminmax Qround Qabs Lqa Lia.
From S2P Require Import Prelude PopperGeometry PopperDom.

(** ** Options of the modifiers
    One record with every option the modifiers read; [None] is [undefined]. *)

Inductive tetherOption :=
  | TetherNum (q : Q)
  | TetherObj (mainAxis altAxis : option Q)
  | TetherFun (f : rects -> string -> Q + (option Q * option Q)).

(** [roundOffsets]: a boolean or a function on the offsets. *)
Inductive roundOption := RoundBool (b : bool) | RoundFun (f : xy -> xy).

(** The [arrow] option [element]: null, a selector or an element. *)
Inductive arrowElementOption := ArrowNull | ArrowSelector (s : string) | ArrowNode (n : nid).

Record modOptions := {
  o_gpuAcceleration : option bool;
  o_adaptive : option bool;
  o_roundOffsets : option roundOption;
  o_scroll : option bool;
  o_resize : option bool;
  o_padding : option padding;
  o_element : option arrowElementOption;
  o_boundary : option boundary;
  o_rootBoundary : option clipTarget;
  o_altBoundary : option bool;
  o_mainAxis : option bool;
  o_altAxis : option bool;
  o_fallbackPlacements : option (list string);
  o_flipVariations : option bool;
  o_allowedAutoPlacements : option (list string);
  o_offset : option offsetOption;
  o_tether : option bool;
  o_tetherOffset : option tetherOption
}.

Definition noOptions : modOptions :=
  Build_modOptions None None None None None None None None None None None None None None None
    None None None.

(** A later property wins over an earlier one. *)
Definition later {A} (a b : option A) : option A := match b with Some _ => b | None => a end.

(** [Object.assign({}, a, b)] on option objects. *)
Definition assignOptions (a b : modOptions) : modOptions := {|
  o_gpuAcceleration := later (o_gpuAcceleration a) (o_gpuAcceleration b);
  o_adaptive := later (o_adaptive a) (o_adaptive b);
  o_roundOffsets := later (o_roundOffsets a) (o_roundOffsets b);
  o_scroll := later (o_scroll a) (o_scroll b);
  o_resize := later (o_resize a) (o_resize b);
  o_padding := later (o_padding a) (o_padding b);
  o_element := later (o_element a) (o_element b);
  o_boundary := later (o_boundary a) (o_boundary b);
  o_rootBoundary := later (o_rootBoundary a) (o_rootBoundary b);
  o_altBoundary := later (o_altBoundary a) (o_altBoundary b);
  o_mainAxis := later (o_mainAxis a) (o_mainAxis b);
  o_altAxis := later (o_altAxis a) (o_altAxis b);
  o_fallbackPlacements := later (o_fallbackPlacements a) (o_fallbackPlacements b);
  o_flipVariations := later (o_flipVariations a) (o_flipVariations b);
  o_allowedAutoPlacements := later (o_allowedAutoPlacements a) (o_allowedAutoPlacements b);
  o_offset := later (o_offset a) (o_offset b);
  o_tether := later (o_tether a) (o_tether b);
  o_tetherOffset := later (o_tetherOffset a) (o_tetherOffset b)
|}.

(** ** Data the modifiers leave for each other
    An entry of [state.modifiersData]: every property is optional, [{}] is [noData]. *)

Record hideData := {
  hd_referenceClippingOffsets : sides; hd_popperEscapeOffsets : sides;
  hd_isReferenceHidden : bool; hd_hasPopperEscaped : bool
}.

Record mdata := {
  md_x : option Q; md_y : option Q; md_centerOffset : option Q;
  md_skip : option bool;                 (** [_skip] *)
  md_byPlacement : obj xy;               (** the [offset] modifier's table *)
  md_padding : option sides;
  md_hide : option hideData
}.

Definition noData : mdata := Build_mdata None None None None [] None None.

Definition assignData (a b : mdata) : mdata := {|
  md_x := later (md_x a) (md_x b); md_y := later (md_y a) (md_y b);
  md_centerOffset := later (md_centerOffset a) (md_centerOffset b);
  md_skip := later (md_skip a) (md_skip b);
  md_byPlacement := oassign (md_byPlacement a) (md_byPlacement b);
  md_padding := later (md_padding a) (md_padding b);
  md_hide := later (md_hide a) (md_hide b)
|}.

Definition dataXY (o : xy) : mdata :=
  Build_mdata (Some (xy_x o)) (Some (xy_y o)) None None [] None None.

(** ** Modifier objects *)

Inductive modFn :=
  | FnPopperOffsets | FnOffset | FnFlip | FnPreventOverflow | FnArrow | FnHide
  | FnComputeStyles | FnApplyStyles | FnNoop
  | FnCustom (id : nat).                 (** a modifier of the caller *)

Inductive modEffect := EffApplyStyles | EffArrow | EffEventListeners.

Record modifier := {
  m_name : string;
  m_enabled : option bool;
  m_phase : option string;
  m_fn : option modFn;
  m_effect : option modEffect;
  m_requires : option (list string);
  m_requiresIfExists : option (list string);
  m_options : option modOptions;
  m_data : option mdata
}.

Definition applyStyles_1 : modifier := {|
  m_name := "applyStyles"; m_enabled := Some true; m_phase := Some "write";
  m_fn := Some FnApplyStyles; m_effect := Some EffApplyStyles;
  m_requires := Some ["computeStyles"]; m_requiresIfExists := None;
  m_options := None; m_data := None |}.

Definition arrow_1 : modifier := {|
  m_name := "arrow"; m_enabled := Some true; m_phase := Some "main";
  m_fn := Some FnArrow; m_effect := Some EffArrow;
  m_requires := Some ["popperOffsets"]; m_requiresIfExists := Some ["preventOverflow"];
  m_options := None; m_data := None |}.

Definition computeStyles_1 : modifier := {|
  m_name := "computeStyles"; m_enabled := Some true; m_phase := Some "beforeWrite";
  m_fn := Some FnComputeStyles; m_effect := None;
  m_requires := None; m_requiresIfExists := None;
  m_options := None; m_data := Some noData |}.

Definition eventListeners : modifier := {|
  m_name := "eventListeners"; m_enabled := Some true; m_phase := Some "write";
  m_fn := Some FnNoop; m_effect := Some EffEventListeners;
  m_requires := None; m_requiresIfExists := None;
  m_options := None; m_data := Some noData |}.

Definition flip_1 : modifier := {|
  m_name := "flip"; m_enabled := Some true; m_phase := Some "main";
  m_fn := Some FnFlip; m_effect := None;
  m_requires := None; m_requiresIfExists := Some ["offset"];
  m_options := None;
  m_data := Some (Build_mdata None None None (Some false) [] None None) |}.

Definition hide_1 : modifier := {|
  m_name := "hide"; m_enabled := Some true; m_phase := Some "main";
  m_fn := Some FnHide; m_effect := None;
  m_requires := None; m_requiresIfExists := Some ["preventOverflow"];
  m_options := None; m_data := None |}.

Definition offset_1 : modifier := {|
  m_name := "offset"; m_enabled := Some true; m_phase := Some "main";
  m_fn := Some FnOffset; m_effect := None;
  m_requires := Some ["popperOffsets"]; m_requiresIfExists := None;
  m_options := None; m_data := None |}.

Definition popperOffsets_1 : modifier := {|
  m_name := "popperOffsets"; m_enabled := Some true; m_phase := Some "read";
  m_fn := Some FnPopperOffsets; m_effect := None;
  m_requires := None; m_requiresIfExists := None;
  m_options := None; m_data := Some noData |}.

Definition preventOverflow_1 : modifier := {|
  m_name := "preventOverflow"; m_enabled := Some true; m_phase := Some "main";
  m_fn := Some FnPreventOverflow; m_effect := None;
  m_requires := None; m_requiresIfExists := Some ["offset"];
  m_options := None; m_data := None |}.

(** The modifier list of [createPopperLite] and of [createPopper]. *)
Definition defaultModifiers_1 : list modifier :=
  [eventListeners; popperOffsets_1; computeStyles_1; applyStyles_1].
Definition defaultModifiers : list modifier :=
  [eventListeners; popperOffsets_1; computeStyles_1; applyStyles_1; offset_1; flip_1;
   preventOverflow_1; arrow_1; hide_1].

(** ** The instance's state *)

Inductive attrVal := AttrStr (s : string) | AttrBool (b : bool).

(** Style values; numbers stay numbers, their decimal text is the browser's. *)
Inductive styleVal :=
  | StyleStr (s : string)
  | StylePx (q : Q)                  (** [q + "px"] *)
  | StyleTranslate (x y : Q)         (** ["translate(xpx, ypx)"] *)
  | StyleTranslate3d (x y : Q).      (** ["translate3d(xpx, ypx, 0)"] *)

Record popperOptions := {
  po_placement : string; po_modifiers : list modifier; po_strategy : string
}.

Definition DEFAULT_OPTIONS : popperOptions :=
  {| po_placement := "bottom"; po_modifiers := []; po_strategy := "absolute" |}.

Record elements := {
  e_reference : refElement; e_popper : nid; e_arrow : option nid
}.

Record scrollParentsOf := { scp_reference : list target; scp_popper : list target }.

Record state := {
  st_placement : string;
  st_orderedModifiers : list modifier;
  st_options : popperOptions;
  st_modifiersData : obj mdata;
  st_elements : elements;
  st_attributes : obj (obj attrVal);
  st_styles : obj (obj styleVal);
  st_rects : rects;                  (** assigned by [forceUpdate] before any modifier runs *)
  st_reset : bool;
  st_scrollParents : scrollParentsOf;
  (* what the instance has written to the page *)
  st_pageStyles : gmap nid (obj styleVal);
  st_pageAttrs : gmap nid (obj attrVal);
  st_listeners : list (target * string)
}.

Definition set_placement (p : string) (s : state) : state :=
  Build_state p (st_orderedModifiers s) (st_options s) (st_modifiersData s) (st_elements s)
    (st_attributes s) (st_styles s) (st_rects s) (st_reset s) (st_scrollParents s)
    (st_pageStyles s) (st_pageAttrs s) (st_listeners s).
Definition set_reset (b : bool) (s : state) : state :=
  Build_state (st_placement s) (st_orderedModifiers s) (st_options s) (st_modifiersData s)
    (st_elements s) (st_attributes s) (st_styles s) (st_rects s) b (st_scrollParents s)
    (st_pageStyles s) (st_pageAttrs s) (st_listeners s).
Definition set_modifiersData (d : obj mdata) (s : state) : state :=
  Build_state (st_placement s) (st_orderedModifiers s) (st_options s) d
    (st_elements s) (st_attributes s) (st_styles s) (st_rects s) (st_reset s) (st_scrollParents s)
    (st_pageStyles s) (st_pageAttrs s) (st_listeners s).
Definition set_elements (e : elements) (s : state) : state :=
  Build_state (st_placement s) (st_orderedModifiers s) (st_options s) (st_modifiersData s)
    e (st_attributes s) (st_styles s) (st_rects s) (st_reset s) (st_scrollParents s)
    (st_pageStyles s) (st_pageAttrs s) (st_listeners s).
Definition set_attributes (a : obj (obj attrVal)) (s : state) : state :=
  Build_state (st_placement s) (st_orderedModifiers s) (st_options s) (st_modifiersData s)
    (st_elements s) a (st_styles s) (st_rects s) (st_reset s) (st_scrollParents s)
    (st_pageStyles s) (st_pageAttrs s) (st_listeners s).
Definition set_styles (a : obj (obj styleVal)) (s : state) : state :=
  Build_state (st_placement s) (st_orderedModifiers s) (st_options s) (st_modifiersData s)
    (st_elements s) (st_attributes s) a (st_rects s) (st_reset s) (st_scrollParents s)
    (st_pageStyles s) (st_pageAttrs s) (st_listeners s).
Definition set_rects (r : rects) (s : state) : state :=
  Build_state (st_placement s) (st_orderedModifiers s) (st_options s) (st_modifiersData s)
    (st_elements s) (st_attributes s) (st_styles s) r (st_reset s) (st_scrollParents s)
    (st_pageStyles s) (st_pageAttrs s) (st_listeners s).
Definition set_page (ps : gmap nid (obj styleVal)) (pa : gmap nid (obj attrVal)) (s : state) : state :=
  Build_state (st_placement s) (st_orderedModifiers s) (st_options s) (st_modifiersData s)
    (st_elements s) (st_attributes s) (st_styles s) (st_rects s) (st_reset s) (st_scrollParents s)
    ps pa (st_listeners s).
Definition set_listeners (l : list (target * string)) (s : state) : state :=
  Build_state (st_placement s) (st_orderedModifiers s) (st_options s) (st_modifiersData s)
    (st_elements s) (st_attributes s) (st_styles s) (st_rects s) (st_reset s) (st_scrollParents s)
    (st_pageStyles s) (st_pageAttrs s) l.
Definition set_setup (ms : list modifier) (o : popperOptions) (sp : scrollParentsOf) (s : state) : state :=
  Build_state (st_placement s) ms o (st_modifiersData s)
    (st_elements s) (st_attributes s) (st_styles s) (st_rects s) (st_reset s) sp
    (st_pageStyles s) (st_pageAttrs s) (st_listeners s).

(** [state.modifiersData[name] = d] *)
Definition put_data (name : string) (d : mdata) (s : state) : state :=
  set_modifiersData (oset name d (st_modifiersData s)) s.
Definition get_data (name : string) (s : state) : option mdata := oget name (st_modifiersData s).
