(* ===== verification/PopperOrder.v ===== *)
(** Ordering of Popper's modifiers: merging by name, the depth-first dependency
    order and the grouping by phase. *)
From Stdlib Require Import Permutation QArith Lia.
From S2P Require Import Prelude PopperGeometry PopperDom PopperState.

(** ** Definitions *)

(** [Object.assign({}, existing, current, {options, data})] *)
Definition mergeModifier (existing current : modifier) : modifier := {|
  m_name := m_name current;
  m_enabled := later (m_enabled existing) (m_enabled current);
  m_phase := later (m_phase existing) (m_phase current);
  m_fn := later (m_fn existing) (m_fn current);
  m_effect := later (m_effect existing) (m_effect current);
  m_requires := later (m_requires existing) (m_requires current);
  m_requiresIfExists := later (m_requiresIfExists existing) (m_requiresIfExists current);
  m_options := Some (assignOptions (default noOptions (m_options existing))
                                   (default noOptions (m_options current)));
  m_data := Some (assignData (default noData (m_data existing)) (default noData (m_data current)))
|}.

Definition mergeStep (merged : obj modifier) (current : modifier) : obj modifier :=
  oset (m_name current)
    (match oget (m_name current) merged with
     | Some existing => mergeModifier existing current
     | None => current
     end) merged.

Definition mergeByName (modifiers : list modifier) : list modifier :=
  map snd (fold_left mergeStep modifiers []).

Definition requiresOf (m : modifier) : list string :=
  default [] (m_requires m) ++ default [] (m_requiresIfExists m).

(** The inner function [sort]: marks the modifier visited, sorts its unvisited
    dependencies, then appends it. *)
Fixpoint sort (fuel : nat) (mp : obj modifier) (m : modifier) (visited : list string)
    (result : list modifier) : res (list string * list modifier) :=
  match fuel with
  | O => Err OutOfFuel
  | S fuel =>
      st ← foldM (fun st dep =>
             if in_strs dep (fst st) then Ok st
             else match oget dep mp with
                  | Some depModifier => sort fuel mp depModifier (fst st) (snd st)
                  | None => Ok st
                  end) (requiresOf m) (m_name m :: visited, result);
      Ok (fst st, snd st ++ [m])
  end.

Definition modifierMap (modifiers : list modifier) : obj modifier :=
  fold_left (fun mp m => oset (m_name m) m mp) modifiers [].

(** The fuel is the number of modifiers: [sort] never nests deeper. *)
Definition order (modifiers : list modifier) : res (list modifier) :=
  let mp := modifierMap modifiers in
  st ← foldM (fun st m =>
         if in_strs (m_name m) (fst st) then Ok st
         else sort (length modifiers) mp m (fst st) (snd st)) modifiers ([], []);
  Ok (snd st).

Definition inPhase (phase : string) (m : modifier) : bool := ostr_eqb (m_phase m) (Some phase).

Definition orderModifiers (modifiers : list modifier) : res (list modifier) :=
  orderedModifiers ← order modifiers;
  Ok (fold_left (fun acc phase => acc ++ List.filter (inPhase phase) orderedModifiers)
        modifierPhases []).

(** * Properties *)

(** ** The depth-first order *)

Section order.
Variable mp : obj modifier.

(** Every dependency that exists stands before the modifier that names it. *)
Inductive topo : list modifier -> Prop :=
  | topo_nil : topo []
  | topo_snoc l m :
      topo l ->
      (forall d dm, In d (requiresOf m) -> oget d mp = Some dm -> In dm l) ->
      topo (l ++ [m]).

(** A rank that goes down along dependencies: there is no dependency cycle. *)
Definition rankOk (rank : string -> nat) : Prop :=
  forall m d dm, oget (m_name m) mp = Some m -> In d (requiresOf m) ->
    oget d mp = Some dm -> (rank d < rank (m_name m))%nat.

Hypothesis mp_keys : forall k m, oget k mp = Some m -> m_name m = k.

Definition unvisited (vis : list string) : nat :=
  length (List.filter (fun k => negb (in_strs k vis)) (okeys mp)).

Lemma in_strs_cons x y l : in_strs x (y :: l) = str_eqb x y || in_strs x l.
Proof. done. Qed.

Lemma unvisited_incl vis vis' :
  incl vis vis' -> (unvisited vis' <= unvisited vis)%nat.
Proof.
  intros Hincl. unfold unvisited. induction (okeys mp) as [|k ks IH]; [done|]. cbn.
  destruct (in_strs k vis) eqn:E.
  - apply in_strs_In, Hincl, in_strs_In in E. rewrite E. done.
  - destruct (in_strs k vis'); cbn; lia.
Qed.

Lemma unvisited_visit k vis :
  In k (okeys mp) -> ~ In k vis -> (unvisited (k :: vis) < unvisited vis)%nat.
Proof.
  unfold unvisited. intros Hin Hk.
  assert (Hk' : in_strs k vis = false).
  { apply not_true_iff_false. rewrite in_strs_In. done. }
  induction (okeys mp) as [|j ks IH]; [done|]. cbn [List.filter].
  rewrite in_strs_cons. destruct (String.eqb_spec j k) as [->|Hj]; cbn [orb negb].
  - rewrite Hk'. cbn [negb length].
    assert (Hle : forall ks, (length (List.filter (fun x => negb (in_strs x (k :: vis))) ks)
                  <= length (List.filter (fun x => negb (in_strs x vis)) ks))%nat).
    { intros ks'. induction ks' as [|x ks' IH']; [done|]. cbn [List.filter]. rewrite in_strs_cons.
      destruct (str_eqb x k), (in_strs x vis); cbn [orb negb length]; lia. }
    specialize (Hle ks). lia.
  - destruct Hin as [->|Hin]; [done|]. specialize (IH Hin).
    destruct (in_strs j vis); cbn [negb length]; lia.
Qed.

(** What a call of [sort] or a loop of calls does to the visited set and the result:
    it appends [l], the newly visited modifiers, each of them once. *)
Record visits (vis vis' : list string) (l : list modifier) : Prop := {
  v_in : forall x, In x l -> oget (m_name x) mp = Some x /\ ~ In (m_name x) vis;
  v_nodup : List.NoDup (map m_name l);
  v_vis : forall k, In k vis' <-> In k vis \/ In k (map m_name l)
}.

Lemma visits_nil vis : visits vis vis [].
Proof.
  split; [intros x []|apply List.NoDup_nil|]. intros k. split; [by left|]. by intros [H|[]].
Qed.

Lemma visits_incl vis vis' l : visits vis vis' l -> incl vis vis'.
Proof. intros [_ _ Hv] k Hk. apply Hv. by left. Qed.

Lemma visits_app vis vis1 vis2 l1 l2 :
  visits vis vis1 l1 -> visits vis1 vis2 l2 -> visits vis vis2 (l1 ++ l2).
Proof.
  intros [Hi1 Hn1 Hv1] [Hi2 Hn2 Hv2]. split.
  - intros x [Hx|Hx]%in_app_iff; [by apply Hi1|]. destruct (Hi2 x Hx) as [Hg Hnot].
    split; [done|]. intros Hin. apply Hnot, Hv1. by left.
  - rewrite map_app. apply NoDup_ListNoDup, NoDup_app.
    split; [by apply NoDup_ListNoDup|]. split; [|by apply NoDup_ListNoDup].
    intros k Hk1 Hk2. apply list_elem_of_In in Hk1, Hk2.
    apply in_map_iff in Hk2 as (x & <- & Hx). destruct (Hi2 x Hx) as [_ Hnot].
    apply Hnot, Hv1. by right.
  - intros k. rewrite Hv2, Hv1, map_app, in_app_iff. tauto.
Qed.

(** The topological half: what is needed of the visited names below a rank. *)
Definition settled (rank : string -> nat) (bound : nat) (vis : list string) (result : list modifier) :=
  forall k x, In k vis -> oget k mp = Some x -> (rank k < bound)%nat -> In x result.

Lemma settled_visits rank bound vis vis' l result :
  settled rank bound vis result -> visits vis vis' l ->
  settled rank bound vis' (result ++ l).
Proof.
  intros Hs [Hi _ Hv] k x Hk Hx Hr. apply Hv in Hk as [Hk|Hk]; apply in_app_iff.
  - left. by eapply Hs.
  - right. apply in_map_iff in Hk as (y & <- & Hy). destruct (Hi y Hy) as [Hg _].
    rewrite Hx in Hg. by injection Hg as ->.
Qed.

Definition sortSpec (fuel : nat) (m : modifier) : Prop := forall vis result,
  oget (m_name m) mp = Some m -> ~ In (m_name m) vis -> (unvisited vis <= fuel)%nat ->
  exists vis' l, sort fuel mp m vis result = Ok (vis', result ++ l) /\
    visits vis vis' l /\ In m l /\
    forall rank, rankOk rank -> topo result ->
      settled rank (rank (m_name m)) vis result -> topo (result ++ l).

Lemma deps_loop fuel m deps vis result :
  (forall dm, sortSpec fuel dm) -> (unvisited vis <= fuel)%nat ->
  oget (m_name m) mp = Some m -> (forall d, In d deps -> In d (requiresOf m)) ->
  exists vis' l,
    foldM (fun st dep => if in_strs dep (fst st) then Ok st
           else match oget dep mp with
                | Some dm => sort fuel mp dm (fst st) (snd st) | None => Ok st end)
      deps (vis, result) = Ok (vis', result ++ l) /\
    visits vis vis' l /\
    (forall d dm, In d deps -> oget d mp = Some dm -> In d vis') /\
    forall rank, rankOk rank -> topo result ->
      settled rank (rank (m_name m)) vis result -> topo (result ++ l).
Proof.
  intros Hsort Hf Hm. revert vis result Hf.
  induction deps as [|d deps IH]; intros vis result Hf Hdeps; cbn [foldM].
  { exists vis, []. rewrite app_nil_r. split; [done|]. split; [apply visits_nil|].
    split; [intros ? ? []|]. intros. by rewrite ?app_nil_r. }
  assert (Hrest : forall d', In d' deps -> In d' (requiresOf m)) by (intros; apply Hdeps; by right).
  cbn [fst snd]. destruct (in_strs d vis) eqn:Ed.
  { cbn [mbind res_bind]. destruct (IH vis result Hf Hrest) as (vis' & l & He & Hv & Hd & Ht).
    exists vis', l. split; [done|]. split; [done|]. split; [|done].
    intros d' dm [<-|Hin] Hg; [|by eapply Hd].
    apply (visits_incl vis vis' l Hv), in_strs_In, Ed. }
  destruct (oget d mp) as [dm|] eqn:Eg; cycle 1.
  { cbn [mbind res_bind]. destruct (IH vis result Hf Hrest) as (vis' & l & He & Hv & Hd & Ht).
    exists vis', l. split; [done|]. split; [done|]. split; [|done].
    intros d' dm [<-|Hin] Hg; [congruence|by eapply Hd]. }
  assert (Hname : m_name dm = d) by (by apply mp_keys).
  destruct (Hsort dm vis result) as (vis1 & l1 & He1 & Hv1 & Hin1 & Ht1).
  { by rewrite Hname. }
  { rewrite Hname, <- in_strs_In. by rewrite Ed. }
  { done. }
  rewrite He1. cbn [mbind res_bind].
  destruct (IH vis1 (result ++ l1)) as (vis2 & l2 & He2 & Hv2 & Hd2 & Ht2).
  { pose proof (unvisited_incl _ _ (visits_incl _ _ _ Hv1)). lia. }
  { done. }
  exists vis2, (l1 ++ l2). rewrite <- app_assoc in He2. split; [done|].
  split; [by eapply visits_app|]. split.
  - intros d' dm' [<-|Hin] Hg; [|by eapply Hd2].
    apply (visits_incl _ _ _ Hv2), Hv1. right. rewrite <- Hname. by apply in_map.
  - intros rank Hr Htop Hs. rewrite app_assoc. apply (Ht2 rank Hr).
    + apply (Ht1 rank Hr Htop). intros k x Hk Hx Hlt. eapply Hs; [done..|].
      rewrite Hname in Hlt. pose proof (Hr m d dm Hm (Hdeps d (or_introl eq_refl)) Eg). lia.
    + by eapply settled_visits.
Qed.

Lemma sort_spec fuel m : sortSpec fuel m.
Proof.
  revert m. induction fuel as [|fuel IH]; intros m vis result Hm Hnot Hf.
  { exfalso. pose proof (unvisited_visit (m_name m) vis (oget_Some_In _ _ _ Hm) Hnot). lia. }
  cbn [sort].
  pose proof (unvisited_visit (m_name m) vis (oget_Some_In _ _ _ Hm) Hnot) as Hlt.
  destruct (deps_loop fuel m (requiresOf m) (m_name m :: vis) result) as (vis' & l & He & Hv & Hd & Ht).
  { apply IH. } { lia. } { done. } { done. }
  rewrite He. cbn [mbind res_bind fst snd].
  assert (Hmv : In (m_name m) vis') by (apply (visits_incl _ _ _ Hv); by left).
  exists vis', (l ++ [m]). split; [by rewrite app_assoc|].
  destruct Hv as [Hi Hn Hv']. split; [|split].
  - split.
    + intros x [Hx|[<-|[]]]%in_app_iff; [|done]. destruct (Hi x Hx) as [Hg Hx'].
      split; [done|]. intros ?. apply Hx'. by right.
    + rewrite map_app. apply NoDup_ListNoDup, NoDup_app.
      split; [by apply NoDup_ListNoDup|]. split; [|apply NoDup_singleton].
      intros k Hk ->%list_elem_of_singleton. apply list_elem_of_In, in_map_iff in Hk as (x & E & Hx).
      destruct (Hi x Hx) as [_ Hx']. apply Hx'. left. done.
    + intros k. rewrite Hv', map_app, in_app_iff. cbn. intuition congruence.
  - apply in_app_iff. right. by left.
  - intros rank Hr Htop Hs. rewrite app_assoc. apply topo_snoc.
    + apply (Ht rank Hr Htop). intros k x [<-|Hk] Hx Hlt'; [lia|]. by eapply Hs.
    + intros d dm Hdin Hg. specialize (Hd d dm Hdin Hg).
      apply Hv' in Hd as [[Hd|Hd]|Hd]; apply in_app_iff.
      * pose proof (Hr m d dm Hm Hdin Hg). rewrite Hd in *. lia.
      * left. eapply Hs; [done..|]. by eapply Hr.
      * right. apply in_map_iff in Hd as (y & <- & Hy). destruct (Hi y Hy) as [Hgy _].
        rewrite Hg in Hgy. by injection Hgy as ->.
Qed.
End order.

(** [a] stands before an occurrence of [b]. *)
Definition precedes {A} (l : list A) (a b : A) : Prop :=
  exists l1 l2, l = l1 ++ b :: l2 /\ In a l1.

Lemma precedes_app_l {A} (l l' : list A) a b : precedes l a b -> precedes (l ++ l') a b.
Proof.
  intros (l1 & l2 & -> & Ha). exists l1, (l2 ++ l'). by rewrite <- app_assoc.
Qed.

Lemma precedes_app_r {A} (l l' : list A) a b : precedes l' a b -> precedes (l ++ l') a b.
Proof.
  intros (l1 & l2 & -> & Ha). exists (l ++ l1), l2. rewrite <- app_assoc.
  split; [done|]. apply in_app_iff. by right.
Qed.

Lemma precedes_app_lr {A} (l l' : list A) a b : In a l -> In b l' -> precedes (l ++ l') a b.
Proof.
  intros Ha (l1 & l2 & ->)%in_split. exists (l ++ l1), l2. rewrite <- app_assoc.
  split; [done|]. apply in_app_iff. by left.
Qed.

Lemma precedes_filter {A} (f : A -> bool) l a b :
  f a = true -> f b = true -> precedes l a b -> precedes (List.filter f l) a b.
Proof.
  intros Ha Hb (l1 & l2 & -> & Hin).
  exists (List.filter f l1), (List.filter f l2). rewrite List.filter_app. cbn. rewrite Hb.
  split; [done|]. by apply filter_In.
Qed.

Lemma topo_precedes mp l m d dm :
  topo mp l -> In m l -> In d (requiresOf m) -> oget d mp = Some dm -> precedes l dm m.
Proof.
  induction 1 as [|l x Hl IH Hx]; [done|].
  intros [Hm|[<-|[]]]%in_app_iff Hd Hg.
  - by apply precedes_app_l, IH.
  - exists l, []. split; [done|]. by eapply Hx.
Qed.

Lemma modifierMap_app l m : modifierMap (l ++ [m]) = oset (m_name m) m (modifierMap l).
Proof. unfold modifierMap. by rewrite fold_left_app. Qed.

Lemma modifierMap_keys l k m : oget k (modifierMap l) = Some m -> m_name m = k /\ In m l.
Proof.
  induction l as [|x l IH] using rev_ind; [done|]. rewrite modifierMap_app, oget_oset.
  destruct (String.eqb_spec k (m_name x)) as [->|Hne].
  - intros [= <-]. split; [done|]. apply in_app_iff. right. by left.
  - intros [Hn Hin]%IH. split; [done|]. apply in_app_iff. by left.
Qed.

Lemma modifierMap_get l m :
  List.NoDup (map m_name l) -> In m l -> oget (m_name m) (modifierMap l) = Some m.
Proof.
  induction l as [|x l IH] using rev_ind; [done|]. rewrite map_app. cbn.
  intros Hnd Hin. apply NoDup_ListNoDup, NoDup_app in Hnd as (Hnd & Hdis & _).
  rewrite modifierMap_app, oget_oset. apply in_app_iff in Hin as [Hin|[->|[]]].
  - destruct (String.eqb_spec (m_name m) (m_name x)) as [E|_].
    + exfalso. apply (Hdis (m_name m)); [by apply list_elem_of_In, in_map|].
      apply list_elem_of_singleton. done.
    + apply IH; [by apply NoDup_ListNoDup|done].
  - by rewrite String.eqb_refl.
Qed.

Lemma modifierMap_size l : (length (okeys (modifierMap l)) <= length l)%nat.
Proof.
  induction l as [|x l IH] using rev_ind; [done|]. rewrite modifierMap_app, length_app. cbn.
  destruct (in_dec String.string_dec (m_name x) (okeys (modifierMap l))).
  - rewrite okeys_oset_old by done. lia.
  - rewrite okeys_oset_new, length_app by done. cbn. lia.
Qed.

Lemma order_loop all l vis result :
  let mp := modifierMap all in
  List.NoDup (map m_name all) -> (forall m, In m l -> In m all) ->
  exists vis' l',
    foldM (fun st m => if in_strs (m_name m) (fst st) then Ok st
                       else sort (length all) mp m (fst st) (snd st)) l (vis, result)
      = Ok (vis', result ++ l') /\
    visits mp vis vis' l' /\ (forall m, In m l -> In (m_name m) vis') /\
    forall rank, rankOk mp rank -> topo mp result ->
      (forall k x, In k vis -> oget k mp = Some x -> In x result) -> topo mp (result ++ l').
Proof.
  intros mp Hnd. revert vis result. induction l as [|m l IH]; intros vis result Hall; cbn [foldM].
  { exists vis, []. rewrite app_nil_r. split; [done|]. split; [apply visits_nil|].
    split; [intros ? []|]. intros. by rewrite ?app_nil_r. }
  assert (Hl : forall x, In x l -> In x all) by (intros; apply Hall; by right).
  cbn [fst snd]. destruct (in_strs (m_name m) vis) eqn:Em.
  { cbn [mbind res_bind]. destruct (IH vis result Hl) as (vis' & l' & He & Hv & Hin & Ht).
    exists vis', l'. split; [done|]. split; [done|]. split; [|done].
    intros x [<-|Hx]; [|by apply Hin]. apply (visits_incl _ _ _ _ Hv), in_strs_In, Em. }
  destruct (sort_spec mp (fun k x H => proj1 (modifierMap_keys all k x H)) (length all) m vis result)
    as (vis1 & l1 & He1 & Hv1 & Hin1 & Ht1).
  { apply modifierMap_get; [done|]. apply Hall. by left. }
  { rewrite <- in_strs_In. by rewrite Em. }
  { pose proof (unvisited_incl mp [] vis ltac:(intros ? [])) as H1.
    pose proof (modifierMap_size all) as H2. fold mp in H2.
    pose proof (List.filter_length_le (fun k => negb (in_strs k [])) (okeys mp)) as H3.
    unfold unvisited in *. lia. }
  rewrite He1. cbn [mbind res_bind].
  destruct (IH vis1 (result ++ l1) Hl) as (vis2 & l2 & He2 & Hv2 & Hin2 & Ht2).
  exists vis2, (l1 ++ l2). rewrite <- app_assoc in He2. split; [done|].
  split; [by eapply visits_app|]. split.
  - intros x [<-|Hx]; [|by apply Hin2]. apply (visits_incl _ _ _ _ Hv2), Hv1.
    right. by apply in_map.
  - intros rank Hr Htop Hs. rewrite app_assoc. apply (Ht2 rank Hr).
    + apply (Ht1 rank Hr Htop). intros k x Hk Hx _. by eapply Hs.
    + intros k x Hk Hx. apply Hv1 in Hk as [Hk|Hk]; apply in_app_iff.
      * left. by eapply Hs.
      * right. apply in_map_iff in Hk as (y & <- & Hy).
        destruct (v_in _ _ _ _ Hv1 y Hy) as [Hg _]. rewrite Hx in Hg. by injection Hg as ->.
Qed.

Lemma order_ok l :
  List.NoDup (map m_name l) ->
  exists r, order l = Ok r /\ Permutation r l /\
    forall rank, rankOk (modifierMap l) rank -> topo (modifierMap l) r.
Proof.
  intros Hnd. unfold order.
  destruct (order_loop l l [] [] Hnd (fun _ H => H)) as (vis & r & He & Hv & Hin & Ht).
  rewrite He. exists r. split; [done|]. split.
  - apply Permutation.NoDup_Permutation.
    + eapply List.NoDup_map_inv, Hv.
    + by eapply List.NoDup_map_inv.
    + intros m. split.
      * intros Hm. destruct (v_in _ _ _ _ Hv m Hm) as [Hg _]. by apply modifierMap_keys in Hg as [_ ?].
      * intros Hm. specialize (Hin m Hm). apply Hv in Hin as [[]|Hin].
        apply in_map_iff in Hin as (y & Ey & Hy). destruct (v_in _ _ _ _ Hv y Hy) as [Hg _].
        rewrite Ey, (modifierMap_get l m Hnd Hm) in Hg. by injection Hg as ->.
  - intros rank Hr. apply (Ht rank Hr); [constructor|]. intros ? ? [].
Qed.

(** ** Grouping by phase *)

Definition byPhases (phases : list string) (l : list modifier) : list modifier :=
  flat_map (fun phase => List.filter (inPhase phase) l) phases.

Lemma byPhases_fold phases l acc :
  fold_left (fun acc phase => acc ++ List.filter (inPhase phase) l) phases acc
  = acc ++ byPhases phases l.
Proof.
  revert acc. induction phases as [|p ps IH]; intros acc; cbn.
  - by rewrite app_nil_r.
  - rewrite IH. by rewrite <- app_assoc.
Qed.

Lemma In_byPhases phases l m :
  In m (byPhases phases l) <-> In m l /\ exists p, m_phase m = Some p /\ In p phases.
Proof.
  unfold byPhases. rewrite in_flat_map. split.
  - intros (p & Hp & [Hm Hph]%filter_In). unfold inPhase in Hph. apply ostr_eqb_eq in Hph. eauto.
  - intros (Hm & p & Hph & Hp). exists p. split; [done|]. apply filter_In. split; [done|].
    by apply ostr_eqb_eq.
Qed.

(** [a]'s phase comes no later than [b]'s. *)
Definition phaseLe (phases : list string) (a b : modifier) : Prop :=
  exists p1 p2 l1 l2, phases = l1 ++ l2 /\ m_phase a = Some p1 /\ m_phase b = Some p2 /\
    ((In p1 l1 /\ In p2 l2) \/ (p1 = p2 /\ In p1 phases)).

Lemma byPhases_precedes phases l a b :
  precedes l a b -> phaseLe phases a b -> precedes (byPhases phases l) a b.
Proof.
  intros Hp (p1 & p2 & l1 & l2 & -> & Ha & Hb & Hcase).
  assert (Hin : In a l /\ In b l).
  { destruct Hp as (x & y & -> & Hx). rewrite !in_app_iff. cbn. tauto. }
  destruct Hcase as [[H1 H2]|[<- H]].
  - unfold byPhases. rewrite flat_map_app. apply precedes_app_lr; apply In_byPhases; split; [tauto|eauto|tauto|eauto].
  - apply in_split in H as (q1 & q2 & ->). unfold byPhases. rewrite flat_map_app. cbn [flat_map].
    apply precedes_app_r, precedes_app_l, precedes_filter; [by apply ostr_eqb_eq..|done].
Qed.

Lemma mergeStep_spec merged m :
  (forall k x, oget k merged = Some x -> m_name x = k) ->
  forall k x, oget k (mergeStep merged m) = Some x -> m_name x = k.
Proof.
  intros H k x. unfold mergeStep. rewrite oget_oset.
  destruct (String.eqb_spec k (m_name m)) as [->|_]; [|apply H].
  intros [= <-]. by destruct (oget (m_name m) merged).
Qed.

Lemma merge_fold_app l m :
  fold_left mergeStep (l ++ [m]) [] = mergeStep (fold_left mergeStep l []) m.
Proof. by rewrite fold_left_app. Qed.

Lemma mergeStep_new merged m :
  oget (m_name m) merged = None -> mergeStep merged m = oset (m_name m) m merged.
Proof. unfold mergeStep. by intros ->. Qed.

Lemma mergeStep_old merged m x :
  oget (m_name m) merged = Some x -> mergeStep merged m = oset (m_name m) (mergeModifier x m) merged.
Proof. unfold mergeStep. by intros ->. Qed.

Lemma oget_In_snd {A} k (x : A) (o : obj A) : oget k o = Some x -> In x (map snd o).
Proof.
  induction o as [|[j y] o IH]; cbn; [done|].
  destruct (String.eqb_spec k j); [intros [= ->]; by left|]. intros H. right. by apply IH.
Qed.

Lemma merge_fold_names l :
  let merged := fold_left mergeStep l [] in
  map m_name (map snd merged) = okeys merged /\ List.NoDup (okeys merged) /\
  (forall k, In k (okeys merged) <-> In k (map m_name l)).
Proof.
  induction l as [|m l (Hn & Hd & Hk)] using rev_ind.
  { cbn. split; [done|]. split; [apply List.NoDup_nil|tauto]. }
  cbv zeta. rewrite merge_fold_app. set (merged := fold_left mergeStep l []) in *.
  unfold mergeStep. set (v := match oget _ _ with Some _ => _ | None => _ end).
  assert (Hv : m_name v = m_name m) by (unfold v; by destruct (oget (m_name m) merged)).
  split; [|split].
  - clearbody v. clear Hd Hk. induction merged as [|[k x] o IH]; cbn in *; [by rewrite Hv|].
    injection Hn as Hx Hn. destruct (String.eqb_spec (m_name m) k) as [E|_]; cbn.
    + by rewrite Hv, E, Hn.
    + by rewrite Hx, IH.
  - by apply NoDup_okeys_oset.
  - intros k. rewrite In_okeys_oset, Hk, map_app, in_app_iff. cbn. intuition congruence.
Qed.

Lemma merge_fold_get l x :
  List.NoDup (map m_name l) -> In x l -> oget (m_name x) (fold_left mergeStep l []) = Some x.
Proof.
  induction l as [|y l IH] using rev_ind; [done|].
  rewrite map_app. cbn. intros Hnd. apply NoDup_ListNoDup, NoDup_app in Hnd as (Hnd & Hdis & _).
  rewrite merge_fold_app, mergeStep_new.
  - intros [Hx|[<-|[]]]%in_app_iff; [|apply oget_oset_eq].
    rewrite oget_oset_ne; [by apply IH; [apply NoDup_ListNoDup|]|].
    intros E. apply (Hdis (m_name x)); [by apply list_elem_of_In, in_map|].
    by apply list_elem_of_singleton.
  - apply oget_None. destruct (merge_fold_names l) as (_ & _ & Hk). rewrite Hk. intros Hy.
    apply (Hdis (m_name y)); [by apply list_elem_of_In|by apply list_elem_of_singleton].
Qed.

Lemma mergeByName_names l :
  List.NoDup (map m_name (mergeByName l)) /\
  forall k, In k (map m_name (mergeByName l)) <-> In k (map m_name l).
Proof.
  destruct (merge_fold_names l) as (Hn & Hd & Hk). unfold mergeByName. rewrite Hn. done.
Qed.

(** * The theorems of this component *)

(** C32: when modifiers have distinct names and their dependencies no cycle, ordering them succeeds: every modifier of
    a known phase appears exactly once, and a modifier comes after each modifier it requires whose
    phase is not a later one. *)
Theorem orderModifiers_spec (l : list modifier) (rank : string -> nat) :
  List.NoDup (map m_name l) ->
  rankOk (modifierMap l) rank ->
  exists r, orderModifiers l = Ok r /\
    List.NoDup r /\
    (forall m, In m r <-> In m l /\ exists p, m_phase m = Some p /\ In p modifierPhases) /\
    (forall m dm, In m r -> In dm l -> In (m_name dm) (requiresOf m) ->
       phaseLe modifierPhases dm m -> precedes r dm m).
Proof.
  intros Hnd Hr. destruct (order_ok l Hnd) as (r & He & Hp & Ht).
  unfold orderModifiers. rewrite He. cbn [mbind res_bind]. rewrite byPhases_fold.
  exists (byPhases modifierPhases r). split; [done|].
  assert (Hin : forall m, In m (byPhases modifierPhases r) <->
            In m l /\ exists p, m_phase m = Some p /\ In p modifierPhases).
  { intros m. rewrite In_byPhases. split; intros [H ?]; (split; [|done]);
      [eapply Permutation_in, H|eapply Permutation_in, H]; [done|by symmetry]. }
  split; [|split; [exact Hin|]].
  - assert (Hndr : List.NoDup r).
    { eapply (List.NoDup_map_inv m_name), Permutation_NoDup; [|exact Hnd].
      by apply Permutation_map; symmetry. }
    clear -Hndr. unfold byPhases.
    assert (Hph : List.NoDup modifierPhases).
    { apply NoDup_ListNoDup. apply (bool_decide_eq_true_1 (NoDup modifierPhases)). reflexivity. }
    induction modifierPhases as [|p ps IH]; cbn; [apply List.NoDup_nil|].
    apply List.NoDup_cons_iff in Hph as [Hp Hps].
    apply NoDup_ListNoDup, NoDup_app. split; [|split].
    + by apply NoDup_ListNoDup, List.NoDup_filter.
    + intros m Hm Hm'. apply list_elem_of_In in Hm, Hm'. apply filter_In in Hm as [_ Hm].
      apply (In_byPhases ps r m) in Hm' as (_ & q & Hq & Hqs).
      unfold inPhase in Hm. apply ostr_eqb_eq in Hm. congruence.
    + by apply NoDup_ListNoDup, IH.
  - intros m dm Hm Hdm Hreq Hle. apply byPhases_precedes; [|done].
    eapply (topo_precedes (modifierMap l)); [exact (Ht rank Hr)| |exact Hreq|by apply modifierMap_get].
    by apply In_byPhases in Hm as [? _].
Qed.

(** The order the default modifiers of [createPopper] run in. *)
Definition defaultOrder : list string :=
  ["popperOffsets"; "offset"; "flip"; "preventOverflow"; "arrow"; "hide"; "computeStyles";
   "eventListeners"; "applyStyles"].

Definition defaultRank (name : string) : nat :=
  match indexOf name defaultOrder with Some i => i | None => 0 end.

Lemma rankOk_forallb l rank :
  forallb (fun m => forallb (fun d => negb (in_strs d (map m_name l)) || (rank d <? rank (m_name m))%nat)
                      (requiresOf m)) l = true ->
  rankOk (modifierMap l) rank.
Proof.
  rewrite forallb_forall. intros H m d dm Hm Hd Hdm.
  apply modifierMap_keys in Hm as [_ Hm]. apply modifierMap_keys in Hdm as [<- Hdm].
  specialize (H m Hm). rewrite forallb_forall in H. specialize (H _ Hd).
  apply orb_true_iff in H as [H|H]; [|by apply Nat.ltb_lt].
  apply negb_true_iff, not_true_iff_false in H. rewrite in_strs_In in H.
  exfalso. by apply H, in_map.
Qed.

Lemma orderModifiers_spec_witness :
  exists r, orderModifiers defaultModifiers = Ok r /\ precedes r preventOverflow_1 arrow_1.
Proof.
  destruct (orderModifiers_spec defaultModifiers defaultRank) as (r & He & _ & Hin & Hpre).
  - apply NoDup_ListNoDup. apply (bool_decide_eq_true_1 (NoDup (map m_name defaultModifiers))). reflexivity.
  - apply rankOk_forallb. reflexivity.
  - exists r. split; [exact He|]. apply Hpre.
    + apply Hin. split; [cbn; tauto|]. exists "main". split; [reflexivity|]. cbn; tauto.
    + cbn; tauto.
    + cbn; tauto.
    + exists "main", "main", [], modifierPhases. split; [reflexivity|]. split; [reflexivity|].
      split; [reflexivity|]. right. split; [reflexivity|]. cbn; tauto.
Defined.

(** With the default modifiers, positions are computed, shifted, flipped, kept inside
    the boundary, then the arrow and visibility are derived, and only then is
    anything written to the page. *)
Theorem default_modifiers_order :
  (orderModifiers (mergeByName defaultModifiers) ≫= fun r => Ok (map m_name r)) = Ok defaultOrder.
Proof. vm_compute. reflexivity. Qed.

(** What the caller passes for a modifier is merged into the default one of that name, option by
    option; names stay distinct and the other modifiers are untouched. *)
Theorem mergeByName_override (defaults : list modifier) (existing current : modifier) :
  List.NoDup (map m_name defaults) -> In existing defaults -> m_name existing = m_name current ->
  List.NoDup (map m_name (mergeByName (defaults ++ [current]))) /\
  In (mergeModifier existing current) (mergeByName (defaults ++ [current])) /\
  forall x, In x defaults -> m_name x <> m_name current -> In x (mergeByName (defaults ++ [current])).
Proof.
  intros Hnd Hin Hname. split; [apply mergeByName_names|].
  pose proof (merge_fold_get defaults existing Hnd Hin) as Hex. rewrite Hname in Hex.
  unfold mergeByName. rewrite merge_fold_app, (mergeStep_old _ _ _ Hex). split.
  - eapply oget_In_snd, oget_oset_eq.
  - intros x Hx Hne. eapply (oget_In_snd (m_name x)). rewrite oget_oset_ne by done.
    by apply merge_fold_get.
Qed.

Definition dropdownOffset : modifier := {|
  m_name := "offset"; m_enabled := None; m_phase := None; m_fn := None; m_effect := None;
  m_requires := None; m_requiresIfExists := None;
  m_options := Some (Build_modOptions None None None None None None None None None None None None
                       None None None (Some (OffArr [0%Q; 2%Q])) None None);
  m_data := None |}.

Lemma mergeByName_override_witness :
  In (mergeModifier offset_1 dropdownOffset) (mergeByName (defaultModifiers ++ [dropdownOffset])) /\
  m_fn (mergeModifier offset_1 dropdownOffset) = Some FnOffset.
Proof.
  split; [|reflexivity].
  destruct (mergeByName_override defaultModifiers offset_1 dropdownOffset) as (_ & H & _);
    [| | |exact H].
  - apply NoDup_ListNoDup. apply (bool_decide_eq_true_1 (NoDup (map m_name defaultModifiers))). reflexivity.
  - cbn; tauto.
  - reflexivity.
Defined.
