(* ===== verification/PopperModifiers.v ===== *)
(** Popper's modifiers: overflow detection and the nine built-in modifiers with
    their effects, as functions on the instance's state. *)
From Stdlib Require Import Ascii QArith Qminmax Qround Qabs Lqa Lia.
From S2P Require Import Prelude PopperGeometry PopperDom PopperState.

Local Open Scope Q_scope.

Inductive elementContext := CtxPopper | CtxReference.
#[export] Instance elementContext_eq_dec : EqDecision elementContext.
Proof. solve_decision. Defined.

Record overflowOptions := {
  ov_placement : option string;
  ov_strategy : option string;
  ov_boundary : option boundary;
  ov_rootBoundary : option clipTarget;
  ov_elementContext : option elementContext;
  ov_altBoundary : option bool;
  ov_padding : option padding
}.

Section modifiers.
Context `{B : Browser}.

(** [state.elements[context]] *)
Definition elementOf (c : elementContext) (e : elements) : refElement :=
  match c with CtxPopper => RefNode (e_popper e) | CtxReference => e_reference e end.

(** [isElement(element) ? element : element.contextElement || getDocumentElement(...)] *)
Definition clipNodeOf (e : refElement) : nid :=
  match e with
  | RefNode n => if isElement (El n) then n else getDocumentElement
  | RefVirtual v => default getDocumentElement (ve_contextElement v)
  end.

Definition rectOfClientRect (c : clientRect) : rect :=
  Rect (cr_x c) (cr_y c) (cr_width c) (cr_height c).

(** [typeof padding !== 'number' ? padding : expandToHashMap(padding, basePlacements)];
    a function has no own side properties. *)
Definition paddingSides (p : padding) : sides :=
  mergePaddingObject (match p with
                      | PadNum q => expandToHashMap q basePlacements
                      | PadObj o => o
                      | PadFun _ => []
                      end).

(** [overflowOffsets[key] += offset[axis] * multiply] for the four sides. *)
Definition addOffset (o : xy) (s : sides) : sides :=
  {| s_top := s_top s + xy_y o * (-1); s_bottom := s_bottom s + xy_y o * 1;
     s_left := s_left s + xy_x o * (-1); s_right := s_right s + xy_x o * 1 |}.

(** [state.strategy] is never assigned: without an option the strategy is
    [undefined], which equals no strategy name. *)
Definition undefinedStrategy : string := "".

Definition detectOverflow (s : state) (o : overflowOptions) : res sides :=
  let placement := default (st_placement s) (ov_placement o) in
  let strategy := default undefinedStrategy (ov_strategy o) in
  let b := default ClippingParents (ov_boundary o) in
  let rootBoundary := default ClipViewport (ov_rootBoundary o) in
  let context := default CtxPopper (ov_elementContext o) in
  let altBoundary := default false (ov_altBoundary o) in
  let paddingObject := paddingSides (default (PadNum 0) (ov_padding o)) in
  let altContext := match context with CtxPopper => CtxReference | CtxReference => CtxPopper end in
  let popperRect := rs_popper (st_rects s) in
  let element := elementOf (if altBoundary then altContext else context) (st_elements s) in
  clip ← getClippingRect (clipNodeOf element) b rootBoundary strategy;
  let referenceClientRect := getBoundingClientRect (e_reference (st_elements s)) false false in
  let popperOffsets := computeOffsets (rectOfClientRect referenceClientRect) popperRect (Some placement) in
  let popperClientRect := rectToClientRect
    (Rect (xy_x popperOffsets) (xy_y popperOffsets) (r_width popperRect) (r_height popperRect)) in
  let el := match context with CtxPopper => popperClientRect | CtxReference => referenceClientRect end in
  let overflowOffsets :=
    {| s_top := cr_top clip - cr_top el + s_top paddingObject;
       s_bottom := cr_bottom el - cr_bottom clip + s_bottom paddingObject;
       s_left := cr_left clip - cr_left el + s_left paddingObject;
       s_right := cr_right el - cr_right clip + s_right paddingObject |} in
  match context, get_data "offset" s with
  | CtxPopper, Some offsetData =>
      offset ← need_obj (oget placement (md_byPlacement offsetData));
      Ok (addOffset offset overflowOffsets)
  | _, _ => Ok overflowOffsets
  end.

(** ** popperOffsets *)

Definition popperOffsets (s : state) (name : string) : state :=
  put_data name (dataXY (computeOffsets (rs_reference (st_rects s)) (rs_popper (st_rects s))
                           (Some (st_placement s)))) s.

(** ** offset *)

(** [acc[placement] = distanceAndSkiddingToXY(...)] over all placements. *)
Definition offsetTable (rs : rects) (o : offsetOption) : obj xy :=
  fold_left (fun acc placement => oset placement (distanceAndSkiddingToXY placement rs o) acc)
    placements [].

(** [a.x += x]: an undefined [x] property becomes [NaN]. *)
Definition addData (d : mdata) (o : xy) : res mdata :=
  x ← need (md_x d); y ← need (md_y d);
  Ok (assignData d (dataXY (XY (x + xy_x o) (y + xy_y o)))).

Definition offset (s : state) (options : modOptions) (name : string) : res state :=
  let o := default (OffArr [0; 0]) (o_offset options) in
  let data := offsetTable (st_rects s) o in
  cur ← need_obj (oget (st_placement s) data);
  s ← (match get_data "popperOffsets" s with
       | Some d => d' ← addData d cur; Ok (put_data "popperOffsets" d' s)
       | None => Ok s
       end);
  Ok (put_data name (Build_mdata None None None None data None None) s).

(** ** flip *)

(** Stable sort by increasing overflow, as [Array.prototype.sort]. *)
Fixpoint insertBy (x : string * Q) (l : list (string * Q)) : list (string * Q) :=
  match l with
  | [] => [x]
  | y :: l => if Qlt_bool (snd x) (snd y) then x :: y :: l else y :: insertBy x l
  end.
Definition sortBy (l : list (string * Q)) : list (string * Q) :=
  fold_left (fun acc x => insertBy x acc) l [].

Definition computeAutoPlacement (s : state) (placement : string) (b : option boundary)
    (rootBoundary : option clipTarget) (pad : option padding) (flipVariations : bool)
    (allowed : option (list string)) : res (list string) :=
  let allowedAutoPlacements := default placements allowed in
  let variation := getVariation placement in
  let placements_1 :=
    match variation with
    | Some v =>
        if str_truthy v then
          if flipVariations then variationPlacements
          else List.filter (fun p => ostr_eqb (getVariation p) variation) variationPlacements
        else basePlacements
    | None => basePlacements
    end in
  let allowedPlacements := List.filter (fun p => in_strs p allowedAutoPlacements) placements_1 in
  let allowedPlacements := if (length allowedPlacements =? 0)%nat then placements_1 else allowedPlacements in
  overflows ← foldM (fun acc p =>
    ov ← detectOverflow s (Build_overflowOptions (Some p) None b rootBoundary None None pad);
    q ← need (side_get (getBasePlacement p) ov);
    Ok (oset p q acc)) allowedPlacements [];
  Ok (map fst (sortBy overflows)).

Definition le0 (k : string) (ov : sides) : bool :=
  match side_get k ov with Some q => Qle_bool q 0 | None => false end.

(** The checks of one placement: main axis, then both sides of the other axis. *)
Definition flipChecks (s : state) (options : modOptions) (placement : string) : res (list bool) :=
  let checkMainAxis := default true (o_mainAxis options) in
  let checkAltAxis := default true (o_altAxis options) in
  let basePlacement := getBasePlacement placement in
  let isStartVariation := ostr_eqb (getVariation placement) (Some start) in
  let isVertical := in_strs basePlacement [top; bottom] in
  let l := if isVertical then Width else Height in
  overflow ← detectOverflow s (Build_overflowOptions (Some placement) None (o_boundary options)
                (o_rootBoundary options) None (o_altBoundary options) (o_padding options));
  let mainVariationSide := if isVertical then (if isStartVariation then right else left)
                           else (if isStartVariation then bottom else top) in
  let mainVariationSide :=
    if Qlt_bool (rect_len l (rs_popper (st_rects s))) (rect_len l (rs_reference (st_rects s)))
    then getOppositePlacement mainVariationSide else mainVariationSide in
  let altVariationSide := getOppositePlacement mainVariationSide in
  Ok ((if checkMainAxis then [le0 basePlacement overflow] else []) ++
      (if checkAltAxis then [le0 mainVariationSide overflow; le0 altVariationSide overflow] else [])).

(** The first loop: stops at a placement all of whose checks hold. *)
Fixpoint flipScan (s : state) (options : modOptions) (ps : list string) (checksMap : obj (list bool))
    : res (option string * obj (list bool)) :=
  match ps with
  | [] => Ok (None, checksMap)
  | placement :: ps =>
      checks ← flipChecks s options placement;
      if forallb id checks then Ok (Some placement, checksMap)
      else flipScan s options ps (oset placement checks checksMap)
  end.

Definition fitsFirst (checksMap : obj (list bool)) (i : nat) (placement : string) : bool :=
  match oget placement checksMap with
  | Some checks => forallb id (firstn i checks)
  | None => false
  end.

(** The second loop, from [i] checks down to one. *)
Fixpoint flipFallback (ps : list string) (checksMap : obj (list bool)) (i : nat) (first : string) : string :=
  match i with
  | O => first
  | S j =>
      match List.find (fitsFirst checksMap i) ps with
      | Some p => if str_truthy p then p else flipFallback ps checksMap j first
      | None => flipFallback ps checksMap j first
      end
  end.

(** The candidate placements, with [auto] expanded. *)
Definition flipPlacements (s : state) (options : modOptions) : res (list string) :=
  let flipVariations := default true (o_flipVariations options) in
  let preferredPlacement := po_placement (st_options s) in
  let isBasePlacement := str_eqb (getBasePlacement preferredPlacement) preferredPlacement in
  let fallbackPlacements :=
    match o_fallbackPlacements options with
    | Some l => l
    | None => if isBasePlacement || negb flipVariations then [getOppositePlacement preferredPlacement]
              else getExpandedFallbackPlacements preferredPlacement
    end in
  foldM (fun acc placement =>
    if str_eqb (getBasePlacement placement) auto then
      l ← computeAutoPlacement s placement (o_boundary options) (o_rootBoundary options)
            (o_padding options) flipVariations (o_allowedAutoPlacements options);
      Ok (acc ++ l)
    else Ok (acc ++ [placement])) (preferredPlacement :: fallbackPlacements) [].

Definition flip (s : state) (options : modOptions) (name : string) : res state :=
  d ← need_obj (get_data name s);
  if default false (md_skip d) then Ok s
  else
    ps ← flipPlacements s options;
    first ← need_obj (hd_error ps);
    scan ← flipScan s options ps [];
    let firstFittingPlacement :=
      match fst scan with
      | Some p => p
      | None =>
          let numberOfChecks := if default true (o_flipVariations options) then 3%nat else 1%nat in
          flipFallback ps (snd scan) numberOfChecks first
      end in
    if str_eqb (st_placement s) firstFittingPlacement then Ok s
    else
      let d' := assignData d (Build_mdata None None None (Some true) [] None None) in
      Ok (set_reset true (set_placement firstFittingPlacement (put_data name d' s))).

(** ** preventOverflow *)

Definition tetherValues (s : state) (t : tetherOption) : Q * Q :=
  let v := match t with
           | TetherFun f => f (st_rects s) (st_placement s)
           | TetherNum q => inl q
           | TetherObj m a => inr (m, a)
           end in
  match v with
  | inl q => (q, q)
  | inr (m, a) => (default 0 m, default 0 a)
  end.

(** The side an axis starts and ends with. *)
Definition startSide (a : axis) : string := match a with AxisY => top | AxisX => left end.
Definition endSide (a : axis) : string := match a with AxisY => bottom | AxisX => right end.

(** A side of an object that has all four of them. *)
Definition sideOf (k : string) (s : sides) : Q := default 0 (side_get k s).

Definition data_get (a : axis) (d : mdata) : option Q :=
  match a with AxisX => md_x d | AxisY => md_y d end.
Definition data_set (a : axis) (q : Q) (d : mdata) : mdata :=
  match a with
  | AxisX => assignData d (Build_mdata (Some q) None None None [] None None)
  | AxisY => assignData d (Build_mdata None (Some q) None None [] None None)
  end.

(** The numbers both halves of [preventOverflow] work with. *)
Record poEnv := {
  pe_overflow : sides; pe_basePlacement : string; pe_variation : option string;
  pe_mainAxis : axis; pe_tether : bool; pe_tetherOffset : Q * Q;
  pe_offsetModifier : option xy
}.

Definition arrowRectOf (s : state) (tether : bool) : rect :=
  match e_arrow (st_elements s) with
  | Some a => if tether then getLayoutRect a else Rect 0 0 0 0
  | None => Rect 0 0 0 0
  end.

(** [arrowOffsetParent ? clientTop/clientLeft || 0 : 0]; the window has neither. *)
Definition arrowClientOffset (s : state) (a : axis) : res Q :=
  match e_arrow (st_elements s) with
  | None => Ok 0
  | Some n =>
      p ← getOffsetParent n;
      match p with
      | El p => Ok (match a with AxisY => clientTop p | AxisX => clientLeft p end)
      | _ => Ok 0
      end
  end.

Definition preventMainAxis (s : state) (e : poEnv) (offset : Q) : res Q :=
  let a := pe_mainAxis e in
  let mainSide := startSide a in
  let altSide := endSide a in
  let l := len_of_axis a in
  let reference := rect_len l (rs_reference (st_rects s)) in
  let popper := rect_len l (rs_popper (st_rects s)) in
  let tether := pe_tether e in
  let min_1 := offset + sideOf mainSide (pe_overflow e) in
  let max_1 := offset - sideOf altSide (pe_overflow e) in
  let additive := if tether then - popper / 2 else 0 in
  let isStart := ostr_eqb (pe_variation e) (Some start) in
  let minLen := if isStart then reference else popper in
  let maxLen := if isStart then - popper else - reference in
  let arrowRect := arrowRectOf s tether in
  arrowPaddingObject ← (match get_data "arrow#persistent" s with
                        | Some d => need_obj (md_padding d)
                        | None => Ok getFreshSideObject
                        end);
  let arrowPaddingMin := sideOf mainSide arrowPaddingObject in
  let arrowPaddingMax := sideOf altSide arrowPaddingObject in
  let arrowLen := within 0 reference (rect_len l arrowRect) in
  let t := fst (pe_tetherOffset e) in
  let isBasePlacement := match pe_variation e with Some v => negb (str_truthy v) | None => true end in
  let minOffset := if isBasePlacement then reference / 2 - additive - arrowLen - arrowPaddingMin - t
                   else minLen - arrowLen - arrowPaddingMin - t in
  let maxOffset := if isBasePlacement then - reference / 2 + additive + arrowLen + arrowPaddingMax + t
                   else maxLen + arrowLen + arrowPaddingMax + t in
  clientOffset ← arrowClientOffset s a;
  let offsetModifierValue := match pe_offsetModifier e with Some o => xy_get a o | None => 0 end in
  let tetherMin := offset + minOffset - offsetModifierValue - clientOffset in
  let tetherMax := offset + maxOffset - offsetModifierValue in
  Ok (within (if tether then Qmin min_1 tetherMin else min_1) offset
             (if tether then Qmax max_1 tetherMax else max_1)).

Definition preventAltAxis (s : state) (e : poEnv) (offset : Q) : Q :=
  let altAxis := getAltAxis (pe_mainAxis e) in
  let l := len_of_axis altAxis in
  let reference := rect_len l (rs_reference (st_rects s)) in
  let popper := rect_len l (rs_popper (st_rects s)) in
  let tether := pe_tether e in
  let min_ := offset + sideOf (startSide altAxis) (pe_overflow e) in
  let max_ := offset - sideOf (endSide altAxis) (pe_overflow e) in
  let isOriginSide := in_strs (pe_basePlacement e) [top; left] in
  let offsetModifierValue := match pe_offsetModifier e with Some o => xy_get altAxis o | None => 0 end in
  let t := snd (pe_tetherOffset e) in
  let tetherMin := if isOriginSide then min_
                   else offset - reference - popper - offsetModifierValue + t in
  let tetherMax := if isOriginSide then offset + reference + popper - offsetModifierValue - t
                   else max_ in
  if tether && isOriginSide then withinMaxClamp tetherMin offset tetherMax
  else within (if tether then tetherMin else min_) offset (if tether then tetherMax else max_).

Definition preventOverflow (s : state) (options : modOptions) (name : string) : res state :=
  let checkMainAxis := default true (o_mainAxis options) in
  let checkAltAxis := default false (o_altAxis options) in
  overflow ← detectOverflow s (Build_overflowOptions None None (o_boundary options)
                (o_rootBoundary options) None (o_altBoundary options) (o_padding options));
  let basePlacement := getBasePlacement (st_placement s) in
  let mainAxis := getMainAxisFromPlacement basePlacement in
  let altAxis := getAltAxis mainAxis in
  let e := {| pe_overflow := overflow; pe_basePlacement := basePlacement;
              pe_variation := getVariation (st_placement s); pe_mainAxis := mainAxis;
              pe_tether := default true (o_tether options);
              pe_tetherOffset := tetherValues s (default (TetherNum 0) (o_tetherOffset options));
              pe_offsetModifier := match get_data "offset" s with
                                   | Some d => oget (st_placement s) (md_byPlacement d)
                                   | None => None
                                   end |} in
  match get_data "popperOffsets" s with
  | None => Ok s
  | Some offsets =>
      '(offsets, data) ←
        (if checkMainAxis then
           offset ← need (data_get mainAxis offsets);
           prevented ← preventMainAxis s e offset;
           Ok (data_set mainAxis prevented offsets, xy_set mainAxis (prevented - offset) (XY 0 0))
         else Ok (offsets, XY 0 0));
      '(offsets, data) ←
        (if checkAltAxis then
           offset ← need (data_get altAxis offsets);
           let prevented := preventAltAxis s e offset in
           Ok (data_set altAxis prevented offsets, xy_set altAxis (prevented - offset) data)
         else Ok (offsets, data));
      Ok (put_data name (dataXY data) (put_data "popperOffsets" offsets s))
  end.

(** ** arrow *)

(** [arrowOffsetParent ? clientHeight/clientWidth || 0 : 0]; the window has neither. *)
Definition arrowClientSize (n : nid) (a : axis) : res Q :=
  p ← getOffsetParent n;
  match p with
  | El p => Ok (match a with AxisY => clientHeight p | AxisX => clientWidth p end)
  | _ => Ok 0
  end.

Definition arrow (s : state) (options : modOptions) (name : string) : res state :=
  let basePlacement := getBasePlacement (st_placement s) in
  let a := getMainAxisFromPlacement basePlacement in
  let isVertical := in_strs basePlacement [left; right] in
  let l := if isVertical then Height else Width in
  match e_arrow (st_elements s), get_data "popperOffsets" s with
  | Some arrowElement, Some offsets =>
      let paddingObject := match o_padding options with
                           | Some p => toPaddingObject p (st_rects s) (st_placement s)
                           | None => mergePaddingObject []
                           end in
      let arrowRect := getLayoutRect arrowElement in
      let reference := rs_reference (st_rects s) in
      let popper := rs_popper (st_rects s) in
      at_ ← need (data_get a offsets);
      let endDiff := rect_len l reference + rect_pos a reference - at_ - rect_len l popper in
      let startDiff := at_ - rect_pos a reference in
      clientSize ← arrowClientSize arrowElement a;
      let centerToReference := endDiff / 2 - startDiff / 2 in
      let min_ := sideOf (startSide a) paddingObject in
      let max_ := clientSize - rect_len l arrowRect - sideOf (endSide a) paddingObject in
      let center := clientSize / 2 - rect_len l arrowRect / 2 + centerToReference in
      let off := within min_ center max_ in
      Ok (put_data name
            (match a with
             | AxisX => Build_mdata (Some off) None (Some (off - center)) None [] None None
             | AxisY => Build_mdata None (Some off) (Some (off - center)) None [] None None
             end) s)
  | _, _ => Ok s
  end.

(** The effect of [arrow]: finds the arrow element inside the popper. *)
Definition arrowEffect (s : state) (options : modOptions) : res state :=
  let e := default (ArrowSelector "[data-popper-arrow]") (o_element options) in
  let found := match e with
               | ArrowNull => None
               | ArrowSelector sel => querySelector (e_popper (st_elements s)) sel
               | ArrowNode n => Some n
               end in
  match found with
  | None => Ok s
  | Some n =>
      inside ← contains (e_popper (st_elements s)) n;
      if (inside : bool) then
        Ok (set_elements {| e_reference := e_reference (st_elements s);
                            e_popper := e_popper (st_elements s); e_arrow := Some n |} s)
      else Ok s
  end.

(** ** hide *)

Definition hide (s : state) (name : string) : res state :=
  let referenceRect := rs_reference (st_rects s) in
  let popperRect := rs_popper (st_rects s) in
  let preventedOffsets := get_data "preventOverflow" s in
  referenceOverflow ← detectOverflow s
    (Build_overflowOptions None None None None (Some CtxReference) None None);
  popperAltOverflow ← detectOverflow s
    (Build_overflowOptions None None None None None (Some true) None);
  prevented ← (match preventedOffsets with
               | None => Ok (XY 0 0)
               | Some d => x ← need (md_x d); y ← need (md_y d); Ok (XY x y)
               end);
  let referenceClippingOffsets := getSideOffsets referenceOverflow referenceRect (XY 0 0) in
  let popperEscapeOffsets := getSideOffsets popperAltOverflow popperRect prevented in
  let isReferenceHidden := isAnySideFullyClipped referenceClippingOffsets in
  let hasPopperEscaped := isAnySideFullyClipped popperEscapeOffsets in
  let s := put_data name (Build_mdata None None None None [] None
             (Some {| hd_referenceClippingOffsets := referenceClippingOffsets;
                      hd_popperEscapeOffsets := popperEscapeOffsets;
                      hd_isReferenceHidden := isReferenceHidden;
                      hd_hasPopperEscaped := hasPopperEscaped |})) s in
  Ok (set_attributes (oset "popper"
        (oassign (default [] (oget "popper" (st_attributes s)))
           [("data-popper-reference-hidden", AttrBool isReferenceHidden);
            ("data-popper-escaped", AttrBool hasPopperEscaped)]) (st_attributes s)) s).

(** ** computeStyles *)

Definition unsetSides : obj styleVal :=
  [("top", StyleStr "auto"); ("right", StyleStr "auto");
   ("bottom", StyleStr "auto"); ("left", StyleStr "auto")].

Record styleInput := {
  si_popper : nid; si_popperRect : rect; si_placement : string; si_variation : option string;
  si_offsets : mdata; si_position : string; si_gpuAcceleration : bool; si_adaptive : bool;
  si_roundOffsets : roundOption; si_isFixed : bool
}.

(** The sides the popper is anchored to, with the offsets measured from them. *)
Definition adaptSides (i : styleInput) (x y : Q) : res (string * string * Q * Q) :=
  if si_adaptive i then
    op ← getOffsetParent (si_popper i);
    (* a window is replaced by the document element *)
    let '(n, useScroll) :=
      match op with
      | El n => (n, false)
      | _ => (getDocumentElement,
              negb (str_eqb (css_position (computedStyle getDocumentElement)) "static") &&
              str_eqb (si_position i) "absolute")
      end in
    let height := if useScroll then scrollHeight n else clientHeight n in
    let width := if useScroll then scrollWidth n else clientWidth n in
    let isEnd := ostr_eqb (si_variation i) (Some end_) in
    let p := si_placement i in
    let sign := if si_gpuAcceleration i then 1 else (-1) in
    let '(sideY, y) :=
      if str_eqb p top || (str_eqb p left || str_eqb p right) && isEnd
      then (bottom, (y - (height - r_height (si_popperRect i))) * sign) else (top, y) in
    let '(sideX, x) :=
      if str_eqb p left || (str_eqb p top || str_eqb p bottom) && isEnd
      then (right, (x - (width - r_width (si_popperRect i))) * sign) else (left, x) in
    Ok (sideX, sideY, x, y)
  else Ok (left, top, x, y).

Definition mapToStyles (i : styleInput) : res (obj styleVal) :=
  let x := default 0 (md_x (si_offsets i)) in
  let y := default 0 (md_y (si_offsets i)) in
  let o := match si_roundOffsets i with RoundFun f => f (XY x y) | RoundBool _ => XY x y end in
  let hasX := match md_x (si_offsets i) with Some _ => true | None => false end in
  let hasY := match md_y (si_offsets i) with Some _ => true | None => false end in
  '(sideX, sideY, x, y) ← adaptSides i (xy_x o) (xy_y o);
  let commonStyles := oassign [("position", StyleStr (si_position i))]
                        (if si_adaptive i then unsetSides else []) in
  let o := match si_roundOffsets i with
           | RoundBool true => roundOffsetsByDPR (XY x y) devicePixelRatio
           | _ => XY x y
           end in
  let dpr := if Qeq_bool devicePixelRatio 0 then 1 else devicePixelRatio in
  if si_gpuAcceleration i then
    Ok (oassign commonStyles
          (oset "transform" (if Qle_bool dpr 1 then StyleTranslate (xy_x o) (xy_y o)
                             else StyleTranslate3d (xy_x o) (xy_y o))
            (oset sideX (StyleStr (if hasX then "0" else ""))
              (oset sideY (StyleStr (if hasY then "0" else "")) []))))
  else
    Ok (oassign commonStyles
          (oset "transform" (StyleStr "")
            (oset sideX (if hasX then StylePx (xy_x o) else StyleStr "")
              (oset sideY (if hasY then StylePx (xy_y o) else StyleStr "") [])))).

Definition computeStyles (s : state) (options : modOptions) : res state :=
  let common offsets position adaptive :=
    {| si_popper := e_popper (st_elements s); si_popperRect := rs_popper (st_rects s);
       si_placement := getBasePlacement (st_placement s);
       si_variation := getVariation (st_placement s); si_offsets := offsets;
       si_position := position;
       si_gpuAcceleration := default true (o_gpuAcceleration options);
       si_adaptive := adaptive;
       si_roundOffsets := default (RoundBool true) (o_roundOffsets options);
       si_isFixed := str_eqb (po_strategy (st_options s)) "fixed" |} in
  s ← (match get_data "popperOffsets" s with
       | Some d =>
           st ← mapToStyles (common d (po_strategy (st_options s)) (default true (o_adaptive options)));
           Ok (set_styles (oset "popper" (oassign (default [] (oget "popper" (st_styles s))) st)
                             (st_styles s)) s)
       | None => Ok s
       end);
  s ← (match get_data "arrow" s with
       | Some d =>
           st ← mapToStyles (common d "absolute" false);
           Ok (set_styles (oset "arrow" (oassign (default [] (oget "arrow" (st_styles s))) st)
                             (st_styles s)) s)
       | None => Ok s
       end);
  Ok (set_attributes (oset "popper"
        (oassign (default [] (oget "popper" (st_attributes s)))
           [("data-popper-placement", AttrStr (st_placement s))]) (st_attributes s)) s).

(** ** applyStyles *)

(** The entries of [state.elements] that are nodes. *)
Definition elementNodes (e : elements) : list (string * nid) :=
  (match e_reference e with RefNode n => [("reference", n)] | RefVirtual _ => [] end) ++
  [("popper", e_popper e)] ++
  (match e_arrow e with Some n => [("arrow", n)] | None => [] end).

Definition writable (n : nid) : bool := isHTMLElement (El n) && str_truthy (getNodeName (El n)).

Definition writeAttr (attrs : obj attrVal) (kv : string * attrVal) : obj attrVal :=
  match snd kv with
  | AttrBool false => odelete (fst kv) attrs
  | AttrBool true => oset (fst kv) (AttrStr "") attrs
  | AttrStr v => oset (fst kv) (AttrStr v) attrs
  end.

Definition applyTo (s : state) (named : string * nid) : state :=
  let '(name, n) := named in
  if writable n then
    let style := default [] (oget name (st_styles s)) in
    let attributes := default [] (oget name (st_attributes s)) in
    set_page (<[n := oassign (default [] (st_pageStyles s !! n)) style]> (st_pageStyles s))
             (<[n := fold_left writeAttr attributes (default [] (st_pageAttrs s !! n))]> (st_pageAttrs s)) s
  else s.

Definition applyStyles (s : state) : state :=
  fold_left applyTo (elementNodes (st_elements s)) s.

(** ** Effects of [applyStyles] and [eventListeners], with what their cleanup needs *)

Definition initialStyles (strategy : string) : obj (obj styleVal) :=
  [("popper", [("position", StyleStr strategy); ("left", StyleStr "0");
               ("top", StyleStr "0"); ("margin", StyleStr "0")]);
   ("arrow", [("position", StyleStr "absolute")]);
   ("reference", [])].

Definition assignPage (n : nid) (style : obj styleVal) (s : state) : state :=
  set_page (<[n := oassign (default [] (st_pageStyles s !! n)) style]> (st_pageStyles s))
           (st_pageAttrs s) s.

Definition applyStylesEffect (s : state) : state :=
  let init := initialStyles (po_strategy (st_options s)) in
  let s := assignPage (e_popper (st_elements s)) (default [] (oget "popper" init)) s in
  let s := set_styles init s in
  match e_arrow (st_elements s) with
  | Some n => assignPage n (default [] (oget "arrow" init)) s
  | None => s
  end.

(** The function [effect$2] returns: unsets what was set. *)
Definition cleanupTo (init : obj (obj styleVal)) (s : state) (named : string * nid) : state :=
  let '(name, n) := named in
  if writable n then
    let attributes := default [] (oget name (st_attributes s)) in
    let styleProperties := okeys (match oget name (st_styles s) with
                                  | Some st => st
                                  | None => default [] (oget name init)
                                  end) in
    let style := fold_left (fun st p => oset p (StyleStr "") st) styleProperties [] in
    set_page (<[n := oassign (default [] (st_pageStyles s !! n)) style]> (st_pageStyles s))
             (<[n := fold_left (fun a p => odelete p a) (okeys attributes)
                       (default [] (st_pageAttrs s !! n))]> (st_pageAttrs s)) s
  else s.

Definition applyStylesCleanup (init : obj (obj styleVal)) (s : state) : state :=
  fold_left (cleanupTo init) (elementNodes (st_elements s)) s.

Definition listenedTargets (scroll resize : bool) (scrollParents : list target) : list (target * string) :=
  (if scroll then map (fun t => (t, "scroll")) scrollParents else []) ++
  (if resize then [(Win, "resize")] else []).

(** [addEventListener] with the same function twice registers it once. *)
Definition addListener (ls : list (target * string)) (l : target * string) : list (target * string) :=
  if decide (l ∈ ls) then ls else ls ++ [l].
Definition removeListener (ls : list (target * string)) (l : target * string) : list (target * string) :=
  filter (fun l' => l' <> l) ls.

Definition eventListenersEffect (s : state) (options : modOptions) : state * list (target * string) :=
  let scroll := default true (o_scroll options) in
  let resize := default true (o_resize options) in
  let scrollParents := scp_reference (st_scrollParents s) ++ scp_popper (st_scrollParents s) in
  let ls := listenedTargets scroll resize scrollParents in
  (set_listeners (fold_left addListener ls (st_listeners s)) s, ls).

Definition eventListenersCleanup (ls : list (target * string)) (s : state) : state :=
  set_listeners (fold_left removeListener ls (st_listeners s)) s.
End modifiers.

(** * Properties *)

Section overflow.
Context `{B : Browser}.

(** The rectangle a popper of the current size has at [placement]. *)
Definition popperAt (s : state) (placement : string) : clientRect :=
  let o := computeOffsets
             (rectOfClientRect (getBoundingClientRect (e_reference (st_elements s)) false false))
             (rs_popper (st_rects s)) (Some placement) in
  rectToClientRect (Rect (xy_x o) (xy_y o) (r_width (rs_popper (st_rects s)))
                         (r_height (rs_popper (st_rects s)))).

(** [r] moved by [d] and grown by the padding. *)
Definition grown (r : clientRect) (d : xy) (p : sides) : clientRect := {|
  cr_width := cr_width r; cr_height := cr_height r; cr_x := cr_x r; cr_y := cr_y r;
  cr_top := cr_top r + xy_y d - s_top p; cr_left := cr_left r + xy_x d - s_left p;
  cr_bottom := cr_bottom r + xy_y d + s_bottom p; cr_right := cr_right r + xy_x d + s_right p |}.

Definition noOverflow (ov : sides) : Prop :=
  s_top ov <= 0 /\ s_right ov <= 0 /\ s_bottom ov <= 0 /\ s_left ov <= 0.

(** The distance the [offset] modifier adds at a placement. *)
Definition offsetAt (s : state) (placement : string) : option xy :=
  match get_data "offset" s with
  | None => Some (XY 0 0)
  | Some d => oget placement (md_byPlacement d)
  end.

Lemma detectOverflow_inside s o clip placement ov d :
  default (st_placement s) (ov_placement o) = placement ->
  default CtxPopper (ov_elementContext o) = CtxPopper ->
  offsetAt s placement = Some d ->
  getClippingRect
    (clipNodeOf (elementOf (if default false (ov_altBoundary o) then CtxReference else CtxPopper)
                   (st_elements s)))
    (default ClippingParents (ov_boundary o)) (default ClipViewport (ov_rootBoundary o))
    (default undefinedStrategy (ov_strategy o)) = Ok clip ->
  detectOverflow s o = Ok ov ->
  (noOverflow ov <->
   insideOf (grown (popperAt s placement) d (paddingSides (default (PadNum 0) (ov_padding o)))) clip).
Proof.
  intros Hp Hc Hd Hclip Hov. unfold detectOverflow in Hov. rewrite Hp, Hc in Hov.
  rewrite Hclip in Hov. cbn [mbind res_bind] in Hov.
  unfold offsetAt in Hd. destruct (get_data "offset" s) as [od|].
  - rewrite Hd in Hov. cbn in Hov. injection Hov as <-.
    unfold noOverflow, insideOf, grown, popperAt; cbn. split; intros (?&?&?&?); repeat split; lra.
  - injection Hd as <-. injection Hov as <-.
    unfold noOverflow, insideOf, grown, popperAt; cbn. split; intros (?&?&?&?); repeat split; lra.
Qed.
End overflow.

(** ** flip *)

Section flip.
Context `{B : Browser}.

Lemma flipScan_Some s options ps m0 p m :
  flipScan s options ps m0 = Ok (Some p, m) ->
  exists before after, ps = before ++ p :: after /\
    (exists checks, flipChecks s options p = Ok checks /\ forallb id checks = true) /\
    forall q, In q before -> exists checks, flipChecks s options q = Ok checks /\ forallb id checks = false.
Proof.
  revert m0. induction ps as [|q ps IH]; intros m0; cbn [flipScan]; [done|].
  intros H. apply bind_ok in H as (checks & Hc & H).
  destruct (forallb id checks) eqn:E.
  - injection H as <- <-. exists [], ps. split; [done|]. split; [eauto|]. intros ? [].
  - destruct (IH _ H) as (bs & af & -> & Hp & Hb). exists (q :: bs), af.
    split; [done|]. split; [done|]. intros x [<-|Hx]; [eauto|by apply Hb].
Qed.

Lemma flipScan_None s options ps m0 m :
  flipScan s options ps m0 = Ok (None, m) ->
  forall q, In q ps -> exists checks, flipChecks s options q = Ok checks /\ forallb id checks = false.
Proof.
  revert m0. induction ps as [|q ps IH]; intros m0; cbn [flipScan]; [done|].
  intros H. apply bind_ok in H as (checks & Hc & H).
  destruct (forallb id checks) eqn:E; [done|].
  intros x [<-|Hx]; [eauto|by eapply IH].
Qed.

Lemma flipFallback_In ps m i first : In first ps -> In (flipFallback ps m i first) ps.
Proof.
  induction i as [|i IH]; intros H; cbn [flipFallback]; [done|].
  destruct (List.find _ ps) as [p|] eqn:E; [|by apply IH].
  destruct (str_truthy p); [|by apply IH]. by apply find_some in E as [? _].
Qed.

(** What one run of [flip] can do. *)
Lemma flip_cases s options name s' :
  flip s options name = Ok s' ->
  exists d, get_data name s = Some d /\
  ((s' = s /\ (default false (md_skip d) = true \/
               exists ps, flipPlacements s options = Ok ps /\ In (st_placement s) ps)) \/
   (default false (md_skip d) = false /\
    exists ps p, flipPlacements s options = Ok ps /\ In p ps /\ p <> st_placement s /\
    s' = set_reset true (set_placement p (put_data name
           (assignData d (Build_mdata None None None (Some true) [] None None)) s)))).
Proof.
  unfold flip. intros H. apply bind_ok in H as (d & Hd & H).
  exists d. split; [by destruct (get_data name s); [injection Hd as ->|]|].
  destruct (default false (md_skip d)); [injection H as <-; eauto|].
  apply bind_ok in H as (ps & Hps & H). apply bind_ok in H as (first & Hf & H).
  apply bind_ok in H as ([found m] & Hs & H). cbn [fst snd] in H.
  assert (Hfirst : In first ps).
  { destruct ps; [done|]. injection Hf as ->. by left. }
  set (p := match found with Some p => p | None => _ end) in *.
  assert (Hp : In p ps).
  { unfold p. destruct found as [q|]; [|by apply flipFallback_In].
    apply flipScan_Some in Hs as (bs & af & -> & _). apply in_app_iff. right. by left. }
  destruct (String.eqb_spec (st_placement s) p) as [E|E]; injection H as <-.
  - left. split; [done|]. right. exists ps. split; [done|]. by rewrite E.
  - right. split; [done|]. exists ps, p. repeat split; congruence.
Qed.
End flip.

(** ** preventOverflow *)

Section prevent.
Context `{B : Browser}.

(** Without overflow along the main axis nothing is moved. *)
Lemma preventMainAxis_noop s e off r :
  sideOf (startSide (pe_mainAxis e)) (pe_overflow e) <= 0 ->
  sideOf (endSide (pe_mainAxis e)) (pe_overflow e) <= 0 ->
  preventMainAxis s e off = Ok r -> r == off.
Proof.
  intros Hs He. unfold preventMainAxis. intros H.
  apply bind_ok in H as (pad & _ & H). apply bind_ok in H as (c & _ & H). injection H as <-.
  destruct (pe_tether e); apply within_id; q_lra.
Qed.

(** Without tethering the popper is moved inside the boundary when it fits. *)
Lemma preventMainAxis_inside s e off r :
  pe_tether e = false ->
  sideOf (startSide (pe_mainAxis e)) (pe_overflow e)
    + sideOf (endSide (pe_mainAxis e)) (pe_overflow e) <= 0 ->
  preventMainAxis s e off = Ok r ->
  sideOf (startSide (pe_mainAxis e)) (pe_overflow e) - (r - off) <= 0 /\
  sideOf (endSide (pe_mainAxis e)) (pe_overflow e) + (r - off) <= 0.
Proof.
  intros Ht Hfit. unfold preventMainAxis. rewrite Ht. intros H.
  apply bind_ok in H as (pad & _ & H). apply bind_ok in H as (c & _ & H). injection H as <-.
  set (a := sideOf (startSide _) _) in *. set (b := sideOf (endSide _) _) in *.
  assert (Hle : off + a <= off - b) by lra.
  pose proof (within_ge_min (off + a) off (off - b)).
  pose proof (within_le_max (off + a) off (off - b) Hle). split; lra.
Qed.

(** The movement never goes past the boundary: towards the start it is at most the
    overflow at the end and the other way round. *)
Lemma preventMainAxis_bounded s e off r :
  preventMainAxis s e off = Ok r ->
  off - r <= Qmax 0 (sideOf (endSide (pe_mainAxis e)) (pe_overflow e)) /\
  r - off <= Qmax 0 (sideOf (startSide (pe_mainAxis e)) (pe_overflow e)).
Proof.
  unfold preventMainAxis. intros H.
  apply bind_ok in H as (pad & _ & H). apply bind_ok in H as (c & _ & H). injection H as <-.
  unfold within. destruct (pe_tether e); q_lra.
Qed.
End prevent.

(** ** hide *)

Lemma isAnySideFullyClipped_spec s :
  isAnySideFullyClipped s = true <->
  0 <= s_top s \/ 0 <= s_right s \/ 0 <= s_bottom s \/ 0 <= s_left s.
Proof.
  unfold isAnySideFullyClipped. cbn. rewrite !orb_true_iff, !Qle_bool_iff. intuition congruence.
Qed.

(** ** The styles that anchor the popper *)

(** Anchored to the bottom or right edge without GPU acceleration, the offset is the
    distance between that edge of the offset parent and the popper's. *)
Lemma adaptSides_distance `{B : Browser} (i : styleInput) x y n sideX sideY x' y' :
  si_adaptive i = true -> si_gpuAcceleration i = false ->
  getOffsetParent (si_popper i) = Ok (El n) ->
  adaptSides i x y = Ok (sideX, sideY, x', y') ->
  (sideY = bottom /\ y + r_height (si_popperRect i) + y' == clientHeight n \/ sideY = top /\ y' = y) /\
  (sideX = right /\ x + r_width (si_popperRect i) + x' == clientWidth n \/ sideX = left /\ x' = x).
Proof.
  intros Ha Hg Hop. unfold adaptSides. rewrite Ha, Hg, Hop. cbn [mbind res_bind].
  destruct (str_eqb (si_placement i) top || _); destruct (str_eqb (si_placement i) left || _);
    intros [= <- <- <- <-]; split; (left; split; [done|lra]) || (right; done).
Qed.

(** ** Listeners *)

Lemma In_addListeners ls l0 x :
  In x (fold_left addListener ls l0) <-> In x l0 \/ In x ls.
Proof.
  revert l0. induction ls as [|l ls IH]; intros l0; cbn; [tauto|]. rewrite IH.
  unfold addListener. case_decide as H.
  - apply list_elem_of_In in H. intuition congruence.
  - rewrite in_app_iff. cbn. tauto.
Qed.

Lemma In_removeListeners ls l0 x :
  In x (fold_left removeListener ls l0) <-> In x l0 /\ ~ In x ls.
Proof.
  revert l0. induction ls as [|l ls IH]; intros l0; cbn; [tauto|]. rewrite IH.
  unfold removeListener. rewrite <- !list_elem_of_In, list_elem_of_filter.
  rewrite !list_elem_of_In. intuition congruence.
Qed.

(** [flip] throws nothing when a candidate placement fits, and takes the first one that does: the
    placement changes to it, and when that is another one than before a new round is requested. *)
Theorem flip_first_fitting `{B : Browser} (s : state) (options : modOptions) (name : string) (d : mdata)
    (ps before after : list string) (p : string) (checks : list bool) :
  get_data name s = Some d -> default false (md_skip d) = false ->
  flipPlacements s options = Ok ps -> ps = before ++ p :: after ->
  flipChecks s options p = Ok checks -> forallb id checks = true ->
  (forall q, In q before -> exists checks, flipChecks s options q = Ok checks /\ forallb id checks = false) ->
  exists s', flip s options name = Ok s' /\ st_placement s' = p /\ (st_placement s <> p -> st_reset s' = true).
Proof.
  intros Hd Hskip Hps Hsplit Hp Hc Hbefore. unfold flip. rewrite Hd. cbn [need_obj mbind res_bind].
  rewrite Hskip, Hps. cbn [mbind res_bind].
  assert (Hscan : forall m, exists m', flipScan s options ps m = Ok (Some p, m')).
  { rewrite Hsplit. clear -Hp Hc Hbefore. induction before as [|q bs IH]; intros m; cbn [flipScan app].
    - rewrite Hp. cbn [mbind res_bind]. rewrite Hc. eauto.
    - destruct (Hbefore q (or_introl eq_refl)) as (cs & Hq & Hf).
      rewrite Hq. cbn [mbind res_bind]. rewrite Hf. apply IH. intros x Hx. apply Hbefore. by right. }
  destruct (hd_error ps) as [first|] eqn:Ehd; [|rewrite Hsplit in Ehd; by destruct before].
  cbn [need_obj mbind res_bind]. destruct (Hscan []) as (m' & ->). cbn [mbind res_bind fst snd].
  destruct (String.eqb_spec (st_placement s) p) as [E|E]; eexists; (split; [reflexivity|done]).
Qed.
