(* ===== verification/PopperCore.v ===== *)
(** Popper's instances: [createPopper] with [setOptions], [forceUpdate], the
    debounced [update] and [destroy], the loop over the ordered modifiers and the
    effects with their cleanup functions. *)
From Stdlib Require Import Ascii QArith Lia.
From S2P Require Import Prelude PopperGeometry PopperDom PopperState PopperOrder PopperModifiers.

(** The cleanup functions the effects return. *)
Inductive cleanup :=
  | CleanupStyles (init : obj (obj styleVal))
  | CleanupListeners (ls : list (target * string))
  | CleanupNoop.

Record instance := {
  in_state : state;
  in_effectCleanupFns : list cleanup;
  in_isDestroyed : bool;
  in_pending : bool                    (** an update is queued as a microtask *)
}.

(** Option objects a caller passes; [None] is a property that is not there. *)
Record partialOptions := {
  pp_placement : option string; pp_modifiers : option (list modifier); pp_strategy : option string
}.

Inductive optionsAction :=
  | ActObject (o : partialOptions)
  | ActFunction (f : popperOptions -> partialOptions).

(** What [popperGenerator] is given. *)
Record generatorOptions := {
  g_defaultModifiers : list modifier; g_defaultOptions : partialOptions
}.

Definition assignPopperOptions (a : popperOptions) (b : partialOptions) : popperOptions := {|
  po_placement := default (po_placement a) (pp_placement b);
  po_modifiers := default (po_modifiers a) (pp_modifiers b);
  po_strategy := default (po_strategy a) (pp_strategy b) |}.

Definition noPartial : partialOptions := Build_partialOptions None None None.

Definition with_state (s : state) (i : instance) : instance :=
  Build_instance s (in_effectCleanupFns i) (in_isDestroyed i) (in_pending i).

Section core.
Context `{B : Browser}.

(** The modifiers of the caller: what [fn] of [FnCustom id] does to the state. *)
Variable custom : nat -> string -> modOptions -> state -> res state.

Definition runFn (f : modFn) (s : state) (options : modOptions) (name : string) : res state :=
  match f with
  | FnPopperOffsets => Ok (popperOffsets s name)
  | FnOffset => offset s options name
  | FnFlip => flip s options name
  | FnPreventOverflow => preventOverflow s options name
  | FnArrow => arrow s options name
  | FnHide => hide s name
  | FnComputeStyles => computeStyles s options
  | FnApplyStyles => Ok (applyStyles s)
  | FnNoop => Ok s
  | FnCustom id => custom id name options s
  end.

(** The [for] loop of [forceUpdate]; a reset starts it over. *)
Fixpoint updateLoop (fuel : nat) (index : nat) (s : state) : res state :=
  match fuel with
  | O => Err OutOfFuel
  | S fuel =>
      match st_orderedModifiers s !! index with
      | None => Ok s
      | Some m =>
          if st_reset s then updateLoop fuel 0 (set_reset false s)
          else
            s' ← (match m_fn m with
                  | Some f => runFn f s (default noOptions (m_options m)) (m_name m)
                  | None => Ok s
                  end);
            updateLoop fuel (S index) s'
      end
  end.

(** Twice round the modifiers: the placement is changed at most once. *)
Definition updateFuel (s : state) : nat := 2 * length (st_orderedModifiers s) + 4.

Definition areValidElements (reference : refElement) (popper : nid) : bool :=
  match reference with
  | RefNode n => isElement (El n)
  | RefVirtual _ => true
  end && isElement (El popper).

(** The state the loop starts from. *)
Definition beginUpdate (s : state) : res state :=
  op ← getOffsetParent (e_popper (st_elements s));
  let s := set_rects {| rs_reference := getCompositeRect (e_reference (st_elements s)) op
                                          (str_eqb (po_strategy (st_options s)) "fixed");
                        rs_popper := getLayoutRect (e_popper (st_elements s)) |} s in
  let s := set_placement (po_placement (st_options s)) (set_reset false s) in
  Ok (fold_left (fun s m => put_data (m_name m) (default noData (m_data m)) s)
        (st_orderedModifiers s) s).

Definition forceUpdate (i : instance) : res instance :=
  let s := in_state i in
  if in_isDestroyed i then Ok i
  else if negb (areValidElements (e_reference (st_elements s)) (e_popper (st_elements s))) then Ok i
  else
    s ← beginUpdate s;
    s ← updateLoop (updateFuel s) 0 s;
    Ok (with_state s i).

(** [update]: [debounce] queues at most one microtask at a time. *)
Definition update (i : instance) : instance :=
  Build_instance (in_state i) (in_effectCleanupFns i) (in_isDestroyed i) true.

(** The queued microtask. *)
Definition runPending (i : instance) : res instance :=
  if in_pending i then
    forceUpdate (Build_instance (in_state i) (in_effectCleanupFns i) (in_isDestroyed i) false)
  else Ok i.

Definition runEffect (e : modEffect) (s : state) (options : modOptions) : res (state * cleanup) :=
  match e with
  | EffApplyStyles => Ok (applyStylesEffect s, CleanupStyles (initialStyles (po_strategy (st_options s))))
  | EffArrow => s' ← arrowEffect s options; Ok (s', CleanupNoop)
  | EffEventListeners => let '(s', ls) := eventListenersEffect s options in Ok (s', CleanupListeners ls)
  end.

Definition runModifierEffects (i : instance) : res instance :=
  foldM (fun i m =>
    match m_effect m with
    | None => Ok i
    | Some e =>
        '(s, c) ← runEffect e (in_state i) (default noOptions (m_options m));
        Ok (Build_instance s (in_effectCleanupFns i ++ [c]) (in_isDestroyed i) (in_pending i))
    end) (st_orderedModifiers (in_state i)) i.

Definition runCleanup (s : state) (c : cleanup) : state :=
  match c with
  | CleanupStyles init => applyStylesCleanup init s
  | CleanupListeners ls => eventListenersCleanup ls s
  | CleanupNoop => s
  end.

Definition cleanupModifierEffects (i : instance) : instance :=
  Build_instance (fold_left runCleanup (in_effectCleanupFns i) (in_state i)) []
    (in_isDestroyed i) (in_pending i).

Definition destroy (i : instance) : instance :=
  let i := cleanupModifierEffects i in
  Build_instance (in_state i) (in_effectCleanupFns i) true (in_pending i).

Definition setOptions (g : generatorOptions) (action : optionsAction) (i : instance) : res instance :=
  let options := match action with
                 | ActFunction f => f (st_options (in_state i))
                 | ActObject o => o
                 end in
  let i := cleanupModifierEffects i in
  let s := in_state i in
  let opts := assignPopperOptions
                (assignPopperOptions (assignPopperOptions DEFAULT_OPTIONS (g_defaultOptions g))
                   (Build_partialOptions (Some (po_placement (st_options s)))
                      (Some (po_modifiers (st_options s))) (Some (po_strategy (st_options s)))))
                options in
  reference ← (match e_reference (st_elements s) with
               | RefNode n => if isElement (El n) then listScrollParents treeHeight n [] else Ok []
               | RefVirtual v => match ve_contextElement v with
                                 | Some n => listScrollParents treeHeight n []
                                 | None => Ok []
                                 end
               end);
  popper ← listScrollParents treeHeight (e_popper (st_elements s)) [];
  ordered ← orderModifiers (mergeByName (g_defaultModifiers g ++ po_modifiers opts));
  let enabled := List.filter (fun m => default false (m_enabled m)) ordered in
  i ← runModifierEffects
        (with_state (set_setup enabled opts
           {| scp_reference := reference; scp_popper := popper |} s) i);
  Ok (update i).

Definition initialState (g : generatorOptions) (reference : refElement) (popper : nid) : state := {|
  st_placement := "bottom"; st_orderedModifiers := [];
  st_options := assignPopperOptions DEFAULT_OPTIONS (g_defaultOptions g);
  st_modifiersData := []; st_elements := Build_elements reference popper None;
  st_attributes := []; st_styles := [];
  st_rects := Rects (Rect 0 0 0 0) (Rect 0 0 0 0); st_reset := false;
  st_scrollParents := Build_scrollParentsOf [] [];
  st_pageStyles := ∅; st_pageAttrs := ∅; st_listeners := [] |}.

Definition createPopper (g : generatorOptions) (reference : refElement) (popper : nid)
    (options : partialOptions) : res instance :=
  let i := Build_instance (initialState g reference popper) [] false false in
  if negb (areValidElements reference popper) then Ok i
  else setOptions g (ActObject options) i.
End core.

(** The generator of the bundle's [createPopper]. *)
Definition fullGenerator : generatorOptions :=
  {| g_defaultModifiers := defaultModifiers; g_defaultOptions := noPartial |}.
