(* ===== verification/PopperTotal.v ===== *)
(** An update of a popper always comes to an end with a position: on a well-formed
    page, with the default modifiers and any options, [forceUpdate] throws no error,
    reads no undefined number and runs round its modifiers at most twice. *)
From Stdlib Require Import Ascii QArith Lqa Lia.
From S2P Require Import Prelude PopperGeometry PopperDom PopperState PopperOrder PopperModifiers PopperCore.

Local Open Scope Q_scope.

(** ** What the modifiers leave alone *)

(** The parts of the state no modifier changes. *)
Definition sameBase (s s' : state) : Prop :=
  st_orderedModifiers s' = st_orderedModifiers s /\ st_options s' = st_options s /\
  st_elements s' = st_elements s /\ st_rects s' = st_rects s /\
  st_listeners s' = st_listeners s /\ st_scrollParents s' = st_scrollParents s.

(** The modifier data of every name outside [names] is unchanged. *)
Definition sameDataBut (names : list string) (s s' : state) : Prop :=
  forall k, ~ In k names -> get_data k s' = get_data k s.

Definition samePlace (s s' : state) : Prop :=
  st_placement s' = st_placement s /\ st_reset s' = st_reset s.

#[export] Instance sameBase_preorder : PreOrder sameBase.
Proof.
  split.
  - intros s. repeat split.
  - intros a b c (?&?&?&?&?&?) (?&?&?&?&?&?). unfold sameBase. repeat split; congruence.
Qed.

Lemma sameDataBut_refl l s : sameDataBut l s s.
Proof. by intros k _. Qed.

Lemma sameDataBut_put k d s : sameDataBut [k] s (put_data k d s).
Proof.
  intros j Hj. unfold get_data, put_data. cbn. apply oget_oset_ne. cbn in Hj. intuition congruence.
Qed.

Lemma get_put k d s : get_data k (put_data k d s) = Some d.
Proof. apply oget_oset_eq. Qed.

Lemma get_put_ne k j d s : j <> k -> get_data j (put_data k d s) = get_data j s.
Proof. apply oget_oset_ne. Qed.

#[export] Hint Resolve sameDataBut_refl sameDataBut_put get_put : js.

(** ** The data the modifiers need *)

Definition hasXY (k : string) (s : state) : Prop :=
  exists d x y, get_data k s = Some d /\ md_x d = Some x /\ md_y d = Some y.

Definition fullTable (s : state) : Prop :=
  exists d, get_data "offset" s = Some d /\
    forall p, In p placements -> exists o, oget p (md_byPlacement d) = Some o.

Definition tableOrNone (s : state) : Prop := get_data "offset" s = None \/ fullTable s.

Section total.
Context `{W : WfTree}.

(** The elements of the instance are elements, not the document. *)
Definition goodElements (e : elements) : Prop :=
  kind (e_popper e) <> DocumentNode /\
  (forall n, e_arrow e = Some n -> kind n <> DocumentNode) /\
  (forall v n, e_reference e = RefVirtual v -> ve_contextElement v = Some n -> kind n <> DocumentNode).

Lemma clipNodeOf_good e c : goodElements e -> kind (clipNodeOf (elementOf c e)) <> DocumentNode.
Proof.
  intros (Hp & _ & Hv). unfold clipNodeOf, elementOf, isElement.
  destruct c; [destruct (kind (e_popper e)) eqn:E; try (rewrite E; done); apply kind_html|].
  destruct (e_reference e) as [n|v] eqn:Er.
  - destruct (kind n) eqn:E; try (rewrite E; done); apply kind_html.
  - destruct (ve_contextElement v) eqn:Ev; cbn; [by eapply Hv|apply kind_html].
Qed.

Lemma getClippingRect_total n b root strategy :
  kind n <> DocumentNode -> exists r, getClippingRect n b root strategy = Ok r.
Proof.
  intros Hk. unfold getClippingRect. destruct b as [|l]; [|eexists; done].
  destruct (getClippingParents_total n Hk) as [ps ->]. eexists; done.
Qed.

Lemma detectOverflow_total s o :
  goodElements (st_elements s) -> tableOrNone s ->
  In (default (st_placement s) (ov_placement o)) placements ->
  exists ov, detectOverflow s o = Ok ov.
Proof.
  intros He Ht Hp. unfold detectOverflow.
  set (el := elementOf _ _).
  destruct (getClippingRect_total (clipNodeOf el) (default ClippingParents (ov_boundary o))
              (default ClipViewport (ov_rootBoundary o)) (default undefinedStrategy (ov_strategy o)))
    as [clip ->].
  { unfold el. by apply clipNodeOf_good. }
  cbn [mbind res_bind]. destruct (default CtxPopper _); [|eexists; done].
  destruct Ht as [->|(d & -> & Hd)]; [eexists; done|].
  destruct (Hd _ Hp) as [x ->]. eexists; done.
Qed.

(** ** popperOffsets and offset *)

Lemma popperOffsets_ok s :
  let s' := popperOffsets s "popperOffsets" in
  hasXY "popperOffsets" s' /\ sameBase s s' /\ samePlace s s' /\ sameDataBut ["popperOffsets"] s s'.
Proof.
  cbv zeta. unfold popperOffsets. split; [|split; [|split]].
  - eexists _, _, _. split; [apply get_put|]. done.
  - repeat split.
  - done.
  - apply sameDataBut_put.
Qed.

Lemma offsetTable_get rs o p :
  In p placements -> oget p (offsetTable rs o) = Some (distanceAndSkiddingToXY p rs o).
Proof. intros H. each_member H; reflexivity. Qed.

Lemma offset_ok s options :
  In (st_placement s) placements -> hasXY "popperOffsets" s ->
  exists s', offset s options "offset" = Ok s' /\
    hasXY "popperOffsets" s' /\ fullTable s' /\ sameBase s s' /\ samePlace s s' /\
    sameDataBut ["popperOffsets"; "offset"] s s'.
Proof.
  intros Hp (d & x & y & Hd & Hx & Hy). unfold offset.
  rewrite (offsetTable_get _ _ _ Hp). cbn [need_obj mbind res_bind]. rewrite Hd.
  unfold addData. rewrite Hx, Hy. cbn [need mbind res_bind].
  eexists. split; [done|]. split; [|split; [|split; [|split]]].
  - eexists _, _, _. split; [rewrite get_put_ne by done; apply get_put|]. done.
  - eexists. split; [apply get_put|]. intros p Hin. cbn [md_byPlacement]. rewrite offsetTable_get by done. eauto.
  - repeat split.
  - done.
  - intros k Hk. cbn in Hk. rewrite !get_put_ne by intuition congruence. done.
Qed.

(** ** flip *)

Lemma insertBy_In x l y : In y (insertBy x l) <-> y = x \/ In y l.
Proof.
  induction l as [|z l IH]; cbn; [intuition congruence|].
  destruct (Qlt_bool (snd x) (snd z)); cbn; [intuition congruence|]. rewrite IH. tauto.
Qed.

Lemma sortBy_In l y : In y (sortBy l) <-> In y l.
Proof.
  unfold sortBy. enough (H : forall acc, In y (fold_left (fun acc x => insertBy x acc) l acc)
    <-> In y acc \/ In y l) by (rewrite H; cbn; tauto).
  induction l as [|x l IH]; intros acc; cbn; [tauto|]. rewrite IH, insertBy_In. intuition congruence.
Qed.

Lemma side_get_base p ov :
  In p sidePlacements -> exists q, side_get (getBasePlacement p) ov = Some q.
Proof. intros H. each_member H; cbn; eauto. Qed.

Lemma autoFold_ok s b root pad l acc :
  goodElements (st_elements s) -> tableOrNone s -> (forall p, In p l -> In p sidePlacements) ->
  exists r, foldM (fun acc p =>
      ov ← detectOverflow s (Build_overflowOptions (Some p) None b root None None pad);
      q ← need (side_get (getBasePlacement p) ov);
      Ok (oset p q acc)) l acc = Ok r /\
    forall k, In k (okeys r) <-> In k (okeys acc) \/ In k l.
Proof.
  intros He Ht. revert acc. induction l as [|p l IH]; intros acc Hl; cbn [foldM].
  { exists acc. split; [done|]. cbn. tauto. }
  pose proof (Hl p (or_introl eq_refl)) as Hp.
  destruct (detectOverflow_total s (Build_overflowOptions (Some p) None b root None None pad) He Ht)
    as [ov ->]; [by apply sidePlacements_placements|].
  cbn [mbind res_bind]. destruct (side_get_base p ov Hp) as [q ->]. cbn [need mbind res_bind].
  destruct (IH (oset p q acc)) as (r & Hr & Hk); [intros; apply Hl; by right|].
  exists r. split; [done|]. intros k. rewrite Hk, In_okeys_oset. cbn. intuition congruence.
Qed.

Lemma computeAutoPlacement_ok s p b root pad fv allowed :
  goodElements (st_elements s) -> tableOrNone s -> In p placements ->
  exists l, computeAutoPlacement s p b root pad fv allowed = Ok l /\ l <> [] /\
    forall q, In q l -> In q sidePlacements.
Proof.
  intros He Ht Hp. unfold computeAutoPlacement.
  set (l1 := match getVariation p with Some v => _ | None => basePlacements end).
  assert (Hl1 : (forall q, In q l1 -> In q sidePlacements) /\ l1 <> []).
  { assert (Hbase : (forall q, In q basePlacements -> In q sidePlacements) /\ basePlacements <> []).
    { split; [|done]. intros q Hq. apply in_app_iff. by left. }
    unfold l1. destruct (getVariation p) as [v|] eqn:Ev; [|exact Hbase].
    destruct (str_truthy v); [|exact Hbase]. destruct fv.
    - split; [|done]. intros q Hq. apply in_app_iff. by right.
    - split; [intros q [Hq _]%filter_In; apply in_app_iff; by right|].
      clear -Hp Ev. each_member Hp; vm_compute in Ev; try discriminate Ev; injection Ev as <-; done. }
  clearbody l1. set (l2 := if (length _ =? 0)%nat then l1 else _).
  assert (Hl2 : (forall q, In q l2 -> In q sidePlacements) /\ l2 <> []).
  { unfold l2. destruct (length _ =? 0)%nat eqn:E; [exact Hl1|].
    split; [intros q [Hq _]%filter_In; by apply Hl1|]. intros El. by rewrite El in E. }
  clearbody l2. destruct Hl2 as [Hside Hne].
  destruct (autoFold_ok s b root pad l2 [] He Ht Hside) as (r & Hr & Hk).
  rewrite Hr. cbn [mbind res_bind]. eexists. split; [done|].
  assert (Hin : forall q, In q (map fst (sortBy r)) <-> In q l2).
  { intros q. rewrite in_map_iff. split.
    - intros (y & <- & Hy). apply (proj1 (sortBy_In _ _)) in Hy.
      destruct (proj1 (Hk (fst y)) (in_map fst r y Hy)) as [Hnil|Hl2]; [destruct Hnil|exact Hl2].
    - intros Hq. destruct (Hk q) as [_ Hk2]. specialize (Hk2 (or_intror Hq)).
      apply in_map_iff in Hk2 as (y & <- & Hy). exists y. split; [done|]. by apply sortBy_In. }
  split.
  - destruct l2 as [|x xs]; [done|]. intros E. specialize (Hin x). rewrite E in Hin.
    destruct Hin as [_ Hin]. destruct (Hin (or_introl eq_refl)).
  - intros q Hq. by apply Hside, Hin.
Qed.

Lemma flipChecks_total s options p :
  goodElements (st_elements s) -> tableOrNone s -> In p placements ->
  exists checks, flipChecks s options p = Ok checks.
Proof.
  intros He Ht Hp. unfold flipChecks.
  destruct (detectOverflow_total s (Build_overflowOptions (Some p) None (o_boundary options)
    (o_rootBoundary options) None (o_altBoundary options) (o_padding options)) He Ht Hp) as [ov ->].
  eexists; done.
Qed.

Lemma flipScan_total s options ps m :
  goodElements (st_elements s) -> tableOrNone s -> (forall p, In p ps -> In p placements) ->
  exists r, flipScan s options ps m = Ok r.
Proof.
  intros He Ht. revert m. induction ps as [|p ps IH]; intros m Hps; cbn [flipScan]; [eauto|].
  destruct (flipChecks_total s options p He Ht) as [checks ->]; [apply Hps; by left|].
  cbn [mbind res_bind]. destruct (forallb id checks); [eauto|]. apply IH. intros; apply Hps. by right.
Qed.

(** The options of [flip] name placements only. *)
Definition flipOptionsOk (options : modOptions) : Prop :=
  forall l, o_fallbackPlacements options = Some l -> forall p, In p l -> In p placements.

Lemma opposite_placements p : In p placements -> In (getOppositePlacement p) placements.
Proof. intros H. each_member H; vm_compute; tauto. Qed.

Lemma expanded_placements p q :
  In p placements -> In q (getExpandedFallbackPlacements p) -> In q placements.
Proof. intros H. each_member H; vm_compute; tauto. Qed.

Lemma flipPlacements_ok s options :
  goodElements (st_elements s) -> tableOrNone s ->
  In (po_placement (st_options s)) placements -> flipOptionsOk options ->
  exists ps, flipPlacements s options = Ok ps /\ ps <> [] /\ forall p, In p ps -> In p placements.
Proof.
  intros He Ht Hpref Hopt. unfold flipPlacements.
  set (fb := match o_fallbackPlacements options with Some l => l | None => _ end).
  assert (Hfb : forall p, In p fb -> In p placements).
  { unfold fb. destruct (o_fallbackPlacements options) as [l|] eqn:E; [by eapply Hopt|].
    destruct (_ || _); intros p Hin.
    - destruct Hin as [<-|[]]. by apply opposite_placements.
    - by eapply expanded_placements. }
  clearbody fb. set (fv := default true (o_flipVariations options)).
  assert (Hloop : forall l acc, (forall p, In p l -> In p placements) ->
    exists r, foldM (fun acc placement =>
        if str_eqb (getBasePlacement placement) auto then
          l ← computeAutoPlacement s placement (o_boundary options) (o_rootBoundary options)
                (o_padding options) fv (o_allowedAutoPlacements options);
          Ok (acc ++ l)
        else Ok (acc ++ [placement])) l acc = Ok (acc ++ r) /\ (l <> [] -> r <> []) /\
      forall p, In p r -> In p placements).
  { induction l as [|p l IH]; intros acc Hl; cbn [foldM].
    { exists []. rewrite app_nil_r. split; [done|]. split; [done|]. intros ? []. }
    assert (Hstep : exists r0, (if str_eqb (getBasePlacement p) auto then
          l ← computeAutoPlacement s p (o_boundary options) (o_rootBoundary options)
                (o_padding options) fv (o_allowedAutoPlacements options); Ok (acc ++ l)
        else Ok (acc ++ [p])) = Ok (acc ++ r0) /\ r0 <> [] /\ forall q, In q r0 -> In q placements).
    { pose proof (Hl p (or_introl eq_refl)) as Hp. destruct (str_eqb _ auto).
      - destruct (computeAutoPlacement_ok s p (o_boundary options) (o_rootBoundary options)
          (o_padding options) fv (o_allowedAutoPlacements options) He Ht Hp) as (l0 & -> & Hne & Hin).
        exists l0. split; [done|]. split; [done|]. intros q Hq. by apply sidePlacements_placements, Hin.
      - exists [p]. split; [done|]. split; [done|]. by intros q [<-|[]]. }
    destruct Hstep as (r0 & -> & Hne & Hin). cbn [mbind res_bind].
    destruct (IH (acc ++ r0)) as (r & Hr & _ & Hinr); [intros; apply Hl; by right|].
    exists (r0 ++ r). rewrite app_assoc. split; [done|]. split.
    - intros _ E. apply Hne. by destruct r0.
    - intros q [Hq|Hq]%in_app_iff; auto. }
  destruct (Hloop (po_placement (st_options s) :: fb) []) as (r & Hr & Hne & Hin).
  { intros p [<-|Hp]; auto. }
  exists r. split; [exact Hr|]. split; [by apply Hne|done].
Qed.

Lemma flip_ok s options d :
  goodElements (st_elements s) -> tableOrNone s -> get_data "flip" s = Some d ->
  In (po_placement (st_options s)) placements -> In (st_placement s) placements ->
  flipOptionsOk options ->
  exists s', flip s options "flip" = Ok s' /\ sameBase s s' /\ sameDataBut ["flip"] s s' /\
    In (st_placement s') placements /\
    (s' = s \/ st_reset s' = true /\ default false (md_skip d) = false /\
       exists d', get_data "flip" s' = Some d' /\ md_skip d' = Some true).
Proof.
  intros He Ht Hd Hpref Hp Hopt.
  destruct (flipPlacements_ok s options He Ht Hpref Hopt) as (ps & Hps & Hne & Hin).
  assert (Hok : exists s', flip s options "flip" = Ok s').
  { unfold flip. rewrite Hd. cbn [need_obj mbind res_bind].
    destruct (default false (md_skip d)); [eauto|]. rewrite Hps. cbn [mbind res_bind].
    destruct ps as [|p0 ps]; [done|]. cbn [hd_error need_obj mbind res_bind].
    destruct (flipScan_total s options (p0 :: ps) [] He Ht Hin) as [[f m] ->].
    cbn [mbind res_bind fst snd]. destruct (str_eqb _ _); eauto. }
  destruct Hok as [s' Hs']. exists s'. split; [done|].
  apply flip_cases in Hs' as (d0 & Hd0 & Hcase). rewrite Hd in Hd0. injection Hd0 as <-.
  destruct Hcase as [[-> _]|(Hskip & ps' & p & Hps' & Hpin & _ & ->)].
  - split; [reflexivity|]. split; [apply sameDataBut_refl|]. split; [done|by left].
  - rewrite Hps in Hps'. injection Hps' as <-. split; [repeat split|].
    split; [intros k Hk; cbn; apply oget_oset_ne; cbn in Hk; intuition congruence|].
    split; [by apply Hin|]. right. split; [done|]. split; [done|].
    eexists. split; [apply oget_oset_eq|]. done.
Qed.

(** ** preventOverflow, arrow, hide, computeStyles *)

Lemma data_get_set a q d : data_get a (data_set a q d) = Some q.
Proof. by destruct a. Qed.

Lemma data_set_defined a q d :
  md_x d <> None -> md_y d <> None -> md_x (data_set a q d) <> None /\ md_y (data_set a q d) <> None.
Proof. destruct a; cbn; unfold later; split; try done; by destruct (md_x d), (md_y d). Qed.

Lemma hasXY_alt k s d :
  get_data k s = Some d -> md_x d <> None -> md_y d <> None -> hasXY k s.
Proof.
  intros Hd Hx Hy. destruct (md_x d) as [x|] eqn:Ex; [|done].
  destruct (md_y d) as [y|] eqn:Ey; [|done]. by exists d, x, y.
Qed.

Lemma data_get_defined a d : md_x d <> None -> md_y d <> None -> exists q, data_get a d = Some q.
Proof. intros Hx Hy. destruct a; cbn; [destruct (md_x d)|destruct (md_y d)]; eauto; done. Qed.

(** No one leaves a padding for the arrow ([arrow#persistent] is never written). *)
Definition noArrowPadding (s : state) : Prop := get_data "arrow#persistent" s = None.

Lemma arrowClientOffset_total s a :
  goodElements (st_elements s) -> exists q, arrowClientOffset s a = Ok q.
Proof.
  intros (_ & Ha & _). unfold arrowClientOffset.
  destruct (e_arrow (st_elements s)) as [n|] eqn:E; [|eauto].
  destruct (getOffsetParent_total n (Ha n eq_refl)) as [t ->]. cbn. destruct t; eauto.
Qed.

Lemma preventMainAxis_total s e off :
  goodElements (st_elements s) -> noArrowPadding s -> exists q, preventMainAxis s e off = Ok q.
Proof.
  intros He Hp. unfold preventMainAxis. rewrite Hp. cbn [mbind res_bind].
  destruct (arrowClientOffset_total s (pe_mainAxis e) He) as [c ->]. eexists; done.
Qed.

Lemma preventOverflow_ok s options :
  goodElements (st_elements s) -> tableOrNone s -> In (st_placement s) placements ->
  hasXY "popperOffsets" s -> noArrowPadding s ->
  exists s', preventOverflow s options "preventOverflow" = Ok s' /\
    hasXY "popperOffsets" s' /\ hasXY "preventOverflow" s' /\ sameBase s s' /\ samePlace s s' /\
    sameDataBut ["popperOffsets"; "preventOverflow"] s s'.
Proof.
  intros He Ht Hp (d & x & y & Hd & Hx & Hy) Hnp. unfold preventOverflow.
  destruct (detectOverflow_total s (Build_overflowOptions None None (o_boundary options)
    (o_rootBoundary options) None (o_altBoundary options) (o_padding options)) He Ht Hp) as [ov ->].
  cbn [mbind res_bind]. rewrite Hd. set (e := Build_poEnv _ _ _ _ _ _ _).
  set (a := getMainAxisFromPlacement _).
  assert (Hx' : md_x d <> None) by congruence. assert (Hy' : md_y d <> None) by congruence.
  clear x y Hx Hy.
  set (first := if default true (o_mainAxis options) then _ else _).
  assert (Hfirst : exists d1 v1, first = Ok (d1, v1) /\ md_x d1 <> None /\ md_y d1 <> None).
  { unfold first. destruct (default true (o_mainAxis options)); [|by exists d, (XY 0 0)].
    destruct (data_get_defined a d Hx' Hy') as [q ->]. cbn [need mbind res_bind].
    destruct (preventMainAxis_total s e q He Hnp) as [r ->]. cbn [mbind res_bind].
    eexists _, _. split; [done|]. by apply data_set_defined. }
  destruct Hfirst as (d1 & v1 & -> & Hx1 & Hy1). cbn [mbind res_bind].
  set (second := if default false (o_altAxis options) then _ else _).
  assert (Hsecond : exists d2 v2, second = Ok (d2, v2) /\ md_x d2 <> None /\ md_y d2 <> None).
  { unfold second. destruct (default false (o_altAxis options)); [|by exists d1, v1].
    destruct (data_get_defined (getAltAxis a) d1 Hx1 Hy1) as [q ->]. cbn [need mbind res_bind].
    eexists _, _. split; [done|]. by apply data_set_defined. }
  destruct Hsecond as (d2 & v2 & -> & Hx2 & Hy2). cbn [mbind res_bind].
  eexists. split; [done|]. split; [|split; [|split; [|split]]].
  - eapply hasXY_alt; [rewrite get_put_ne by done; apply get_put|done..].
  - by eexists _, _, _; split; [apply get_put|].
  - repeat split.
  - done.
  - intros k Hk. cbn in Hk. rewrite !get_put_ne by intuition congruence. done.
Qed.

Lemma arrow_ok s options :
  goodElements (st_elements s) -> hasXY "popperOffsets" s ->
  exists s', arrow s options "arrow" = Ok s' /\ sameBase s s' /\ samePlace s s' /\
    sameDataBut ["arrow"] s s'.
Proof.
  intros (_ & Ha & _) (d & x & y & Hd & Hx & Hy). unfold arrow. rewrite Hd.
  destruct (e_arrow (st_elements s)) as [n|] eqn:En; cycle 1.
  { exists s. repeat split. }
  destruct (data_get_defined (getMainAxisFromPlacement (getBasePlacement (st_placement s))) d)
    as [q ->]; [congruence..|].
  cbn [need mbind res_bind]. unfold arrowClientSize.
  destruct (getOffsetParent_total n (Ha n eq_refl)) as [t ->]. cbn [mbind res_bind].
  destruct t; cbn [mbind res_bind]; eexists; (split; [done|]);
    (split; [repeat split|]); (split; [done|]); apply sameDataBut_put.
Qed.

Lemma hide_ok s :
  goodElements (st_elements s) -> tableOrNone s -> In (st_placement s) placements ->
  hasXY "preventOverflow" s ->
  exists s', hide s "hide" = Ok s' /\ sameBase s s' /\ samePlace s s' /\ sameDataBut ["hide"] s s'.
Proof.
  intros He Ht Hp (d & x & y & Hd & Hx & Hy). unfold hide.
  destruct (detectOverflow_total s (Build_overflowOptions None None None None (Some CtxReference)
    None None) He Ht Hp) as [ov1 ->]. cbn [mbind res_bind].
  destruct (detectOverflow_total s (Build_overflowOptions None None None None None
    (Some true) None) He Ht Hp) as [ov2 ->]. cbn [mbind res_bind].
  rewrite Hd, Hx, Hy. cbn [need mbind res_bind].
  eexists. split; [done|]. split; [repeat split|]. split; [done|]. apply sameDataBut_put.
Qed.

Lemma mapToStyles_total i :
  kind (si_popper i) <> DocumentNode -> exists st, mapToStyles i = Ok st.
Proof.
  intros Hk. unfold mapToStyles, adaptSides. destruct (si_adaptive i).
  - destruct (getOffsetParent_total _ Hk) as [t ->]. cbn [mbind res_bind].
    set (p := match t with El n => _ | _ => _ end). destruct p as [n us].
    destruct (_ || _), (_ || _); cbn [mbind res_bind]; destruct (si_gpuAcceleration i); eauto.
  - cbn [mbind res_bind]. destruct (si_gpuAcceleration i); eauto.
Qed.

Lemma computeStyles_ok s options :
  goodElements (st_elements s) ->
  exists s', computeStyles s options = Ok s' /\ sameBase s s' /\ samePlace s s' /\ sameDataBut [] s s'.
Proof.
  intros (Hk & _). unfold computeStyles.
  assert (Hmap : forall i, si_popper i = e_popper (st_elements s) -> exists st, mapToStyles i = Ok st).
  { intros i Hi. apply mapToStyles_total. by rewrite Hi. }
  destruct (get_data "popperOffsets" s) as [d|].
  - match goal with |- context [mapToStyles ?i] => destruct (Hmap i eq_refl) as [st ->] end.
    cbn [mbind res_bind]. change (get_data "arrow" (set_styles _ s)) with (get_data "arrow" s).
    destruct (get_data "arrow" s) as [d2|].
    + match goal with |- context [mapToStyles ?i] => destruct (Hmap i eq_refl) as [st2 ->] end.
      cbn [mbind res_bind]. eexists. split; [done|]. repeat split.
    + cbn [mbind res_bind]. eexists. split; [done|]. repeat split.
  - cbn [mbind res_bind]. destruct (get_data "arrow" s) as [d2|].
    + match goal with |- context [mapToStyles ?i] => destruct (Hmap i eq_refl) as [st2 ->] end.
      cbn [mbind res_bind]. eexists. split; [done|]. repeat split.
    + cbn [mbind res_bind]. eexists. split; [done|]. repeat split.
Qed.

Lemma applyStyles_frame s :
  sameBase s (applyStyles s) /\ samePlace s (applyStyles s) /\ sameDataBut [] s (applyStyles s).
Proof.
  unfold applyStyles. generalize (elementNodes (st_elements s)). intros l.
  assert (H : forall s0, sameBase s s0 /\ samePlace s s0 /\ sameDataBut [] s s0 ->
    let s1 := fold_left applyTo l s0 in sameBase s s1 /\ samePlace s s1 /\ sameDataBut [] s s1).
  { induction l as [|[name n] l IH]; intros s0 H0; [exact H0|]. cbn [fold_left].
    apply IH. unfold applyTo. destruct (writable n); [|exact H0]. exact H0. }
  apply H. repeat split.
Qed.
End total.
