(* ===== verification/PopperInstance.v ===== *)
(** Instances of Popper over their life: a created popper gets a position, an update
    runs round the modifiers at most twice, and a destroyed popper leaves neither a
    listener nor a style on the page. *)
From Stdlib Require Import Ascii QArith Lqa Lia.
From S2P Require Import Prelude PopperGeometry PopperDom PopperState PopperOrder PopperModifiers PopperCore PopperTotal.

Local Open Scope nat_scope.

(** What a caller can make of the default modifiers and still have a position: one function of the
    caller before the main phase, and nothing written to the page. *)
Record shape := Shape { sh_before : option nat; sh_writes : bool }.
Definition defaultShape : shape := Shape None true.

(** The order of the modifiers, with the functions they run. *)
Definition seqOf (sh : shape) : list (string * option modFn) :=
  ("popperOffsets", Some FnPopperOffsets) ::
  match sh_before sh with Some id => [("preSetPlacement", Some (FnCustom id))] | None => [] end ++
  [("offset", Some FnOffset); ("flip", Some FnFlip);
   ("preventOverflow", Some FnPreventOverflow); ("arrow", Some FnArrow); ("hide", Some FnHide);
   ("computeStyles", Some FnComputeStyles); ("eventListeners", Some FnNoop)] ++
  if sh_writes sh then [("applyStyles", Some FnApplyStyles)] else [].

(** How many modifiers run before the main phase, apart from the first. *)
Definition extra (sh : shape) : nat := match sh_before sh with Some _ => 1 | None => 0 end.

(** The ordered modifiers are those of the shape, whatever their options. *)
Definition pipeline (sh : shape) (ms : list modifier) : Prop :=
  map (fun m => (m_name m, m_fn m)) ms = seqOf sh /\
  forall m, In m ms -> m_name m = "flip" -> flipOptionsOk (default noOptions (m_options m)).

Lemma pipeline_lookup sh ms i nf :
  pipeline sh ms -> seqOf sh !! i = Some nf ->
  exists m, ms !! i = Some m /\ m_name m = fst nf /\ m_fn m = snd nf.
Proof.
  intros [Hm _] Hi. rewrite <- Hm in Hi. change (map ?f ms) with (f <$> ms) in Hi.
  apply list_lookup_fmap_Some in Hi as (m & -> & Hl). by exists m.
Qed.

Lemma pipeline_names sh ms : pipeline sh ms -> map m_name ms = map fst (seqOf sh).
Proof. intros [Hm _]. by rewrite <- Hm, map_map. Qed.

Lemma pipeline_length sh ms : pipeline sh ms -> 8 <= length ms <= 10.
Proof.
  intros [Hm _]. pose proof (f_equal length Hm) as E. rewrite length_map in E. rewrite E.
  destruct sh as [[]  []]; cbn; lia.
Qed.

Lemma fresh_names sh k :
  in_strs k ["arrow#persistent"; "popper"] = true -> ~ In k (map fst (seqOf sh)).
Proof. intros Hk%in_strs_In. destruct sh as [[] []], Hk as [<-|[<-|[]]]; cbn; intuition discriminate. Qed.

Section updates.
Context `{W : WfTree}.
Variable custom : nat -> string -> modOptions -> state -> res state.
Variable sh : shape.

(** The function of the caller leaves the state of the popper alone. *)
Hypothesis custom_frame : forall id options s, sh_before sh = Some id ->
  exists s', custom id "preSetPlacement" options s = Ok s' /\ sameBase s s' /\ samePlace s s' /\ sameDataBut [] s s'.

(** What holds of the state between any two modifiers of an update. *)
Record ready (s : state) : Prop := {
  rd_elements : goodElements (st_elements s);
  rd_preferred : In (po_placement (st_options s)) placements;
  rd_placement : In (st_placement s) placements;
  rd_padding : noArrowPadding s;
  rd_pipeline : pipeline sh (st_orderedModifiers s)
}.

Lemma ready_frame names s s' :
  ready s -> sameBase s s' -> In (st_placement s') placements -> sameDataBut names s s' ->
  ~ In "arrow#persistent" names -> ready s'.
Proof.
  intros [He Hpr Hpl Hpad Hpipe] (Ho & Hopt & Hel & _) Hp Hd Hn.
  split; [congruence| congruence|done| |congruence].
  unfold noArrowPadding. by rewrite Hd.
Qed.

Lemma hasXY_frame names k s s' : hasXY k s -> sameDataBut names s s' -> ~ In k names -> hasXY k s'.
Proof. intros (d & x & y & Hd & H) Hs Hk. exists d, x, y. by rewrite Hs. Qed.

Lemma fullTable_frame names s s' :
  fullTable s -> sameDataBut names s s' -> ~ In "offset" names -> fullTable s'.
Proof. intros (d & Hd & H) Hs Hk. exists d. by rewrite Hs. Qed.

Ltac not_in := cbn; intuition discriminate.
Ltac carry :=
  match goal with
  | R : ready ?s, B : sameBase ?s ?s', D : sameDataBut _ ?s ?s' |- ready ?s' =>
      eapply (ready_frame _ s); [exact R|exact B| |exact D|not_in]
  | H : hasXY _ ?s, D : sameDataBut _ ?s ?s' |- hasXY _ ?s' =>
      eapply hasXY_frame; [exact H|exact D|not_in]
  | H : fullTable ?s, D : sameDataBut _ ?s ?s' |- fullTable ?s' =>
      eapply fullTable_frame; [exact H|exact D|not_in]
  end.

(** One turn of the loop at a modifier of the order. *)
Lemma updateLoop_step (P Q : state -> Prop) fuel i nf f s :
  ready s -> st_reset s = false -> seqOf sh !! i = Some nf -> snd nf = Some f ->
  (forall options, (fst nf = "flip" -> flipOptionsOk options) ->
     exists s', runFn custom f s options (fst nf) = Ok s' /\ Q s') ->
  (forall s', Q s' -> exists r, updateLoop custom fuel (S i) s' = Ok r /\ P r) ->
  exists r, updateLoop custom (S fuel) i s = Ok r /\ P r.
Proof.
  intros R Hr Hi Hf Hok Hrest.
  destruct (pipeline_lookup _ _ _ _ (rd_pipeline _ R) Hi) as (m & Hm & Hn & Hfn).
  cbn [updateLoop]. rewrite Hm, Hr, Hfn, Hf, Hn.
  assert (Ho : fst nf = "flip" -> flipOptionsOk (default noOptions (m_options m))).
  { intros E. apply (proj2 (rd_pipeline _ R)); [|congruence].
    apply list_elem_of_In. by eapply list_elem_of_lookup_2. }
  destruct (Hok _ Ho) as (s1 & -> & H1). cbn [mbind res_bind]. by apply Hrest.
Qed.

Lemma updateLoop_end fuel i s : ready s -> seqOf sh !! i = None -> updateLoop custom (S fuel) i s = Ok s.
Proof.
  intros R Hi%lookup_ge_None_1. cbn [updateLoop]. rewrite lookup_ge_None_2; [done|].
  pose proof (f_equal length (proj1 (rd_pipeline _ R))) as E. rewrite length_map in E. by rewrite E.
Qed.

(** The modifiers of the main phase and those after it that run in every shape. *)
Definition mainSeq : list (string * option modFn) :=
  [("offset", Some FnOffset); ("flip", Some FnFlip); ("preventOverflow", Some FnPreventOverflow); ("arrow", Some FnArrow);
   ("hide", Some FnHide); ("computeStyles", Some FnComputeStyles); ("eventListeners", Some FnNoop)].

Lemma seqOf_main k nf : mainSeq !! k = Some nf -> seqOf sh !! (S k + extra sh) = Some nf.
Proof.
  intros Hk. assert (k < 7) by (by apply lookup_lt_Some in Hk).
  do 7 (destruct k as [|k]; [injection Hk as <-; by destruct sh as [[] []]|]). lia.
Qed.

Lemma main_step k name f (P Q : state -> Prop) fuel s :
  mainSeq !! k = Some (name, Some f) -> ready s -> st_reset s = false ->
  (forall options, (name = "flip" -> flipOptionsOk options) ->
     exists s', runFn custom f s options name = Ok s' /\ Q s') ->
  (forall s', Q s' -> exists r, updateLoop custom fuel (S (S k) + extra sh) s' = Ok r /\ P r) ->
  exists r, updateLoop custom (S fuel) (S k + extra sh) s = Ok r /\ P r.
Proof. intros Hk%seqOf_main R Hr Hok Hrest. by eapply updateLoop_step. Qed.

(** A position was found and nothing asks for another round. *)
Definition positioned (s : state) : Prop :=
  ready s /\ st_reset s = false /\ hasXY "popperOffsets" s /\ hasXY "preventOverflow" s.

Lemma positioned_frame names s s' :
  positioned s -> sameBase s s' -> samePlace s s' -> sameDataBut names s s' ->
  in_strs "arrow#persistent" names || in_strs "popperOffsets" names ||
    in_strs "preventOverflow" names = false ->
  positioned s'.
Proof.
  intros (R & Hr & H1 & H2) HB [Hp Hr'] HD Hn.
  rewrite !orb_false_iff, !in_strs_false in Hn. destruct Hn as [[? ?] ?].
  split; [|split; [congruence|split; by eapply hasXY_frame]].
  eapply ready_frame; [done..| |done|done]. rewrite Hp. apply R.
Qed.

(** What is left when there is nothing to write, or the position to write. *)
Lemma loop_end fuel s :
  positioned s -> exists r, updateLoop custom (2 + fuel) (8 + extra sh) s = Ok r /\ positioned r.
Proof.
  intros P. pose proof P as (R & Hr & _). destruct (sh_writes sh) eqn:Ew.
  - eapply (updateLoop_step _ positioned _ _ ("applyStyles", Some FnApplyStyles)); [done|done|by destruct sh as [[] []]|done| |].
    + intros options _. destruct (applyStyles_frame s) as (HB & HP & HD).
      eexists. split; [reflexivity|]. by eapply positioned_frame.
    + intros s' P'. exists s'. split; [|done]. apply updateLoop_end; [apply P'|by destruct sh as [[] []]].
  - exists s. split; [|done]. apply updateLoop_end; [done|by destruct sh as [[] []]].
Qed.

Lemma loop_tail fuel s :
  positioned s -> fullTable s ->
  exists r, updateLoop custom (6 + fuel) (4 + extra sh) s = Ok r /\ positioned r.
Proof.
  intros P T. pose proof P as (R & Hr & HX & _).
  eapply (main_step 3 _ _ _ (fun s' => positioned s' /\ fullTable s')); [done..| |].
  { intros options _. destruct (arrow_ok s options (rd_elements _ R) HX) as (s' & H & HB & HP & HD).
    exists s'. split; [exact H|]. split; [by eapply positioned_frame|carry]. }
  clear s P T R Hr HX. intros s [P T]. pose proof P as (R & Hr & HX & HV).
  eapply (main_step 4 _ _ _ positioned); [done..| |].
  { intros options _. destruct (hide_ok s (rd_elements _ R) (or_intror T) (rd_placement _ R) HV)
      as (s' & H & HB & HP & HD). exists s'. split; [exact H|]. by eapply positioned_frame. }
  clear s P T R Hr HX HV. intros s P. pose proof P as (R & Hr & _).
  eapply (main_step 5 _ _ _ positioned); [done..| |].
  { intros options _. destruct (computeStyles_ok s options (rd_elements _ R)) as (s' & H & HB & HP & HD).
    exists s'. split; [exact H|]. by eapply positioned_frame. }
  clear s P R Hr. intros s P. pose proof P as (R & Hr & _).
  eapply (main_step 6 _ _ _ positioned); [done..| |].
  { intros options _. by exists s. }
  intros s' P'. by apply loop_end.
Qed.

Lemma loop_rest fuel s :
  ready s -> st_reset s = false -> hasXY "popperOffsets" s -> fullTable s ->
  exists r, updateLoop custom (7 + fuel) (3 + extra sh) s = Ok r /\ positioned r.
Proof.
  intros R Hr HX T.
  eapply (main_step 2 _ _ _ (fun s' => positioned s' /\ fullTable s')); [done..| |].
  { intros options _. destruct (preventOverflow_ok s options (rd_elements _ R) (or_intror T)
      (rd_placement _ R) HX (rd_padding _ R)) as (s' & H & HX' & HV & HB & [HP HR] & HD).
    exists s'. split; [exact H|]. split; [|carry]. split; [carry; rewrite HP; apply R|].
    split; [congruence|done]. }
  clear s R Hr HX T. intros s [P T]. by apply loop_tail.
Qed.

(** What holds before [flip] runs. *)
Definition beforeFlip (d : mdata) (s : state) : Prop :=
  ready s /\ st_reset s = false /\ hasXY "popperOffsets" s /\ fullTable s /\ get_data "flip" s = Some d.

(** What holds before [offset] runs. *)
Definition beforeOffset (d : mdata) (s : state) : Prop :=
  ready s /\ st_reset s = false /\ get_data "flip" s = Some d /\ hasXY "popperOffsets" s.

(** The function of the caller, where there is one. *)
Lemma loop_before (P : state -> Prop) d fuel s :
  beforeOffset d s ->
  (forall s', beforeOffset d s' -> exists r, updateLoop custom fuel (1 + extra sh) s' = Ok r /\ P r) ->
  exists r, updateLoop custom (extra sh + fuel) 1 s = Ok r /\ P r.
Proof.
  intros Hb Hrest. destruct (sh_before sh) as [id|] eqn:Eb; unfold extra in Hrest |- *; rewrite Eb in Hrest |- *; [|by apply Hrest].
  destruct Hb as (R & Hr & Hd & HX).
  eapply (updateLoop_step _ (beforeOffset d) _ _ ("preSetPlacement", Some (FnCustom id)));
    [done..|unfold seqOf; by rewrite Eb|done| |exact Hrest].
  intros options _. destruct (custom_frame id options s eq_refl) as (s' & H & HB & [HP HR] & HD).
  exists s'. split; [exact H|]. split; [carry; rewrite HP; apply R|]. split; [congruence|].
  split; [rewrite HD by not_in; done|carry].
Qed.

Lemma loop_start (P : state -> Prop) d fuel s :
  ready s -> st_reset s = false -> get_data "flip" s = Some d ->
  (forall s', beforeFlip d s' -> exists r, updateLoop custom fuel (2 + extra sh) s' = Ok r /\ P r) ->
  exists r, updateLoop custom (S (extra sh + S fuel)) 0 s = Ok r /\ P r.
Proof.
  intros R Hr Hd Hrest.
  eapply (updateLoop_step _ (beforeOffset d) _ _ ("popperOffsets", Some FnPopperOffsets)); [done..| |].
  { intros options _. destruct (popperOffsets_ok s) as (HX & HB & [HP HR] & HD).
    exists (popperOffsets s "popperOffsets"). split; [reflexivity|].
    split; [carry; apply R|]. split; [congruence|].
    split; [rewrite HD by not_in; done|done]. }
  clear s R Hr Hd. intros s Hb. apply (loop_before _ d); [done|]. clear s Hb. intros s (R & Hr & Hd & HX).
  eapply (main_step 0 _ _ _ (beforeFlip d)); [done..| |exact Hrest].
  intros options _. destruct (offset_ok s options (rd_placement _ R) HX) as (s' & H & HX' & T & HB & [HP HR] & HD).
  exists s'. split; [exact H|]. split; [carry; rewrite HP; apply R|]. split; [congruence|].
  split; [done|]. split; [done|]. rewrite HD by not_in. done.
Qed.

(** [flip] has either kept the placement or asked for its only second round. *)
Definition afterFlip (d : mdata) (s : state) : Prop :=
  ready s /\
  (st_reset s = false /\ hasXY "popperOffsets" s /\ fullTable s \/
   st_reset s = true /\ default false (md_skip d) = false /\
     exists d', get_data "flip" s = Some d' /\ md_skip d' = Some true).

Lemma loop_flip (P : state -> Prop) d fuel s :
  beforeFlip d s ->
  (forall s', afterFlip d s' -> exists r, updateLoop custom fuel (3 + extra sh) s' = Ok r /\ P r) ->
  exists r, updateLoop custom (S fuel) (2 + extra sh) s = Ok r /\ P r.
Proof.
  intros (R & Hr & HX & T & Hd) Hrest. eapply (main_step 1 _ _ _ (afterFlip d)); [done..| |exact Hrest].
  intros options Ho. destruct (flip_ok s options d (rd_elements _ R) (or_intror T) Hd (rd_preferred _ R)
    (rd_placement _ R) (Ho eq_refl)) as (s' & H & HB & HD & HP & Hcase).
  exists s'. split; [exact H|]. split; [carry; exact HP|]. destruct Hcase as [->|Hcase]; [by left|by right].
Qed.

Lemma updateLoop_total d fuel s :
  ready s -> st_reset s = false -> get_data "flip" s = Some d -> 14 + 2 * extra sh <= fuel ->
  exists r, updateLoop custom fuel 0 s = Ok r /\ positioned r.
Proof.
  intros R Hr Hd Hf.
  assert (exists k, fuel = S (extra sh + S (S (S (S (extra sh + S (S (7 + k)))))))) as [k ->] by (exists (fuel - (14 + 2 * extra sh)); lia).
  eapply loop_start; [done..|]. clear s R Hr Hd. intros s Hb.
  eapply loop_flip; [done|]. clear s Hb. intros s (R & [(Hr & HX & T)|(Hr & _ & d' & Hd & Hs)]).
  { replace (S (S (extra sh + S (S (7 + k))))) with (7 + (extra sh + k + 4)) by lia. by apply loop_rest. }
  destruct (pipeline_lookup _ _ (3 + extra sh) _ (rd_pipeline _ R) (seqOf_main 2 _ eq_refl)) as (m & Hm & _).
  cbn [updateLoop]. rewrite Hm, Hr. eapply loop_start; try done.
  { eapply (ready_frame []); [exact R|repeat split|apply R|by intros ? _|not_in]. }
  clear s R Hr Hd Hm. intros s Hb. eapply loop_flip; [done|]. clear s Hb.
  intros s (R & [(Hr & HX & T)|(_ & Hn & _)]); [by apply loop_rest|]. rewrite Hs in Hn. done.
Qed.

(** What an instance has to bring for its updates to succeed. *)
Record updatable (s : state) : Prop := {
  up_elements : goodElements (st_elements s);
  up_preferred : In (po_placement (st_options s)) placements;
  up_padding : noArrowPadding s;
  up_pipeline : pipeline sh (st_orderedModifiers s)
}.

Lemma fillData_frame ms s :
  let s' := fold_left (fun s m => put_data (m_name m) (default noData (m_data m)) s) ms s in
  sameBase s s' /\ samePlace s s' /\ sameDataBut (map m_name ms) s s' /\
  forall k, In k (map m_name ms) -> exists d, get_data k s' = Some d.
Proof.
  cbv zeta. revert s. induction ms as [|m ms IH]; intros s; cbn [fold_left map].
  { repeat split. intros k []. }
  specialize (IH (put_data (m_name m) (default noData (m_data m)) s)).
  destruct IH as (HB & HP & HD & HK). split; [exact HB|]. split; [exact HP|]. split.
  - intros k Hk. cbn in Hk. rewrite HD by tauto. apply get_put_ne. intuition congruence.
  - intros k Hk. destruct (in_dec String.string_dec k (map m_name ms)) as [Hin|Hout]; [by apply HK|].
    destruct Hk as [<-|Hk]; [|done]. rewrite HD by done. rewrite get_put. eauto.
Qed.

Lemma beginUpdate_ready s :
  updatable s -> exists s' d, beginUpdate s = Ok s' /\ ready s' /\ st_reset s' = false /\
    get_data "flip" s' = Some d /\ 16 <= updateFuel s'.
Proof.
  intros [He Hp Hpad Hpipe]. unfold beginUpdate.
  destruct (getOffsetParent_total _ (proj1 He)) as [op ->]. cbn [mbind res_bind].
  match goal with |- context [fold_left ?f ?l ?x] => set (s1 := x) end.
  change (st_orderedModifiers (set_rects _ s)) with (st_orderedModifiers s).
  change (st_orderedModifiers s1) with (st_orderedModifiers s).
  destruct (fillData_frame (st_orderedModifiers s) s1) as (HB & [HP HR] & HD & HK).
  rewrite (pipeline_names _ _ Hpipe) in HD, HK.
  destruct (HK "flip") as [d Hd]; [destruct sh as [[] []]; cbn; tauto|].
  eexists _, d. split; [done|]. split; [|split; [by rewrite HR|split; [done|]]].
  - destruct HB as (Hord & Hopt & Hel & _). split.
    + rewrite Hel. exact He.
    + rewrite Hopt. exact Hp.
    + rewrite HP. exact Hp.
    + unfold noArrowPadding. rewrite HD by (by apply fresh_names). exact Hpad.
    + rewrite Hord. exact Hpipe.
  - unfold updateFuel. destruct HB as (Hord & _). rewrite Hord.
    change (st_orderedModifiers s1) with (st_orderedModifiers s). pose proof (pipeline_length _ _ Hpipe). lia.
Qed.

(** One update; the result can be updated again. *)
Lemma forceUpdate_positions i :
  updatable (in_state i) -> in_isDestroyed i = false ->
  areValidElements (e_reference (st_elements (in_state i))) (e_popper (st_elements (in_state i))) = true ->
  exists i', forceUpdate custom i = Ok i' /\ positioned (in_state i') /\
    in_effectCleanupFns i' = in_effectCleanupFns i /\ in_pending i' = in_pending i.
Proof.
  intros U Hd Hv. unfold forceUpdate. rewrite Hd, Hv. cbn [negb].
  destruct (beginUpdate_ready _ U) as (s & d & -> & R & Hr & Hf & Hfuel). cbn [mbind res_bind].
  destruct (updateLoop_total d (updateFuel s) s R Hr Hf) as (r & -> & Hpos); [unfold extra; destruct (sh_before sh); lia|].
  cbn [mbind res_bind]. by eexists.
Qed.
End updates.

(** ** Creating an instance *)

Definition defaultOrdered : list modifier :=
  [popperOffsets_1; offset_1; flip_1; preventOverflow_1; arrow_1; hide_1; computeStyles_1;
   eventListeners; applyStyles_1].

Lemma defaultOrdered_ok : orderModifiers (mergeByName (defaultModifiers ++ [])) = Ok defaultOrdered.
Proof. vm_compute. reflexivity. Qed.

Lemma defaultOrdered_pipeline : pipeline defaultShape defaultOrdered.
Proof. split; [reflexivity|]. intros m Hm Hn l. cbn in Hm. intuition (subst; done). Qed.

(** The modifiers that are not switched off. *)
Definition enabledOf (ms : list modifier) : list modifier := List.filter (fun m => default false (m_enabled m)) ms.

Section creation.
Context `{W : WfTree}.

(** What is given as the element of the arrow is an element. *)
Definition arrowOptionsOk (o : modOptions) : Prop :=
  forall n, o_element o = Some (ArrowNode n) -> kind n <> DocumentNode.

(** What the effects keep of the state. *)
Record setUp (s s' : state) : Prop := {
  su_elements : goodElements (st_elements s');
  su_reference : e_reference (st_elements s') = e_reference (st_elements s);
  su_popper : e_popper (st_elements s') = e_popper (st_elements s);
  su_options : st_options s' = st_options s;
  su_modifiers : st_orderedModifiers s' = st_orderedModifiers s;
  su_data : sameDataBut [] s s'
}.

Lemma setUp_refl s : goodElements (st_elements s) -> setUp s s.
Proof. by split. Qed.

Lemma setUp_trans s1 s2 s3 : setUp s1 s2 -> setUp s2 s3 -> setUp s1 s3.
Proof.
  intros [_ A2 A3 A4 A5 A6] [B1 B2 B3 B4 B5 B6]. split; [done|congruence..|].
  intros k Hk. by rewrite B6, A6.
Qed.

Lemma arrowEffect_ok s options :
  goodElements (st_elements s) -> arrowOptionsOk options ->
  exists s', arrowEffect s options = Ok s' /\ setUp s s'.
Proof.
  intros He Ho. unfold arrowEffect.
  match goal with |- context [match ?x with Some _ => _ | None => _ end] => destruct x as [n|] eqn:Eq end; [|exists s; by split].
  assert (Hn : kind n <> DocumentNode).
  { destruct (o_element options) as [[| |m]|] eqn:Eo; cbn in Eq; [done|by eapply kind_querySelector| |by eapply kind_querySelector].
    injection Eq as <-. by apply Ho. }
  destruct (contains_total (e_popper (st_elements s)) n) as [b ->]. cbn [mbind res_bind].
  destruct b; [|exists s; by split]. eexists. split; [done|]. destruct He as (Hp & _ & Hv).
  split; try done. split; [done|]. split; [|done]. by intros m [= <-].
Qed.

Lemma applyStylesEffect_setUp s : goodElements (st_elements s) -> setUp s (applyStylesEffect s).
Proof. intros He. unfold applyStylesEffect. cbn. destruct (e_arrow (st_elements s)); by split. Qed.

Lemma runEffect_ok e s options :
  goodElements (st_elements s) -> arrowOptionsOk options ->
  exists s' c, runEffect e s options = Ok (s', c) /\ setUp s s'.
Proof.
  intros He Ho. destruct e; cbn [runEffect].
  - eexists _, _. split; [done|]. by apply applyStylesEffect_setUp.
  - destruct (arrowEffect_ok s options He Ho) as (s' & -> & H). by eexists _, _.
  - eexists _, _. split; [done|]. by split.
Qed.

Lemma runModifierEffects_ok i :
  goodElements (st_elements (in_state i)) ->
  (forall m, In m (st_orderedModifiers (in_state i)) -> arrowOptionsOk (default noOptions (m_options m))) ->
  exists i', runModifierEffects i = Ok i' /\ setUp (in_state i) (in_state i') /\ in_isDestroyed i' = in_isDestroyed i.
Proof.
  unfold runModifierEffects. generalize (st_orderedModifiers (in_state i)) as ms. intros ms. revert i.
  induction ms as [|m ms IH]; intros i He Ho; cbn [foldM].
  { exists i. split; [done|]. split; [by apply setUp_refl|done]. }
  destruct (m_effect m) as [e|]; cbn [mbind res_bind]; [|apply IH; [done|intros; apply Ho; by right]].
  destruct (runEffect_ok e (in_state i) _ He (Ho m (or_introl eq_refl))) as (s' & c & -> & H). cbn [mbind res_bind].
  destruct (IH (Build_instance s' (in_effectCleanupFns i ++ [c]) (in_isDestroyed i) (in_pending i)))
    as (i' & Hi & H' & Hd).
  - apply H.
  - intros m' Hm. apply Ho. by right.
  - exists i'. split; [done|]. split; [by eapply setUp_trans|done].
Qed.

(** The elements handed to [createPopper] are elements of the page. *)
Definition validReference (r : refElement) : Prop :=
  forall v n, r = RefVirtual v -> ve_contextElement v = Some n -> kind n <> DocumentNode.

Lemma isElement_kind n : isElement (El n) = true -> kind n <> DocumentNode.
Proof. cbn. by destruct (kind n). Qed.

Lemma scrollParentsOf_total n : kind n <> DocumentNode -> exists l, listScrollParents treeHeight n [] = Ok l.
Proof.
  intros Hk. destruct (listScrollParents_complete treeHeight n []) as (l & Hl & _); [apply depth_bound|done|].
  by exists l.
Qed.

Lemma createPopper_ok sh reference popper options ordered :
  areValidElements reference popper = true -> validReference reference ->
  orderModifiers (mergeByName (defaultModifiers ++ default [] (pp_modifiers options))) = Ok ordered ->
  pipeline sh (enabledOf ordered) ->
  (forall m, In m (enabledOf ordered) -> arrowOptionsOk (default noOptions (m_options m))) ->
  (forall p, pp_placement options = Some p -> In p placements) ->
  exists i, createPopper fullGenerator reference popper options = Ok i /\
    updatable sh (in_state i) /\ in_isDestroyed i = false /\ in_pending i = true /\
    areValidElements (e_reference (st_elements (in_state i))) (e_popper (st_elements (in_state i))) = true.
Proof.
  intros Hv Hr Ho Hpipe Harrow Hp. unfold createPopper. rewrite Hv. cbn [negb].
  pose proof Hv as [Href Hpop]%andb_true_iff.
  unfold setOptions, initialState, cleanupModifierEffects. cbn [in_effectCleanupFns fold_left in_state st_elements e_reference e_popper].
  match goal with |- context [x ← ?m; _] =>
    match m with context [isElement] => assert (Hl : exists l, m = Ok l) end end.
  { destruct reference as [n|v].
    - cbn [areValidElements] in Href. rewrite Href. by apply scrollParentsOf_total, isElement_kind.
    - destruct (ve_contextElement v) as [n|] eqn:E; [|eauto]. apply scrollParentsOf_total. by eapply Hr. }
  destruct Hl as [l ->]. cbn [mbind res_bind].
  destruct (scrollParentsOf_total popper (isElement_kind _ Hpop)) as [l2 ->]. cbn [mbind res_bind].
  match goal with |- context [orderModifiers ?m] =>
    replace m with (mergeByName (defaultModifiers ++ default [] (pp_modifiers options))) by (cbn; destruct (pp_modifiers options); reflexivity) end.
  rewrite Ho. cbn [mbind res_bind]. change (List.filter _ ordered) with (enabledOf ordered).
  match goal with |- context [runModifierEffects ?i] => set (i0 := i) end.
  assert (He : goodElements (st_elements (in_state i0))) by (split; [by apply isElement_kind|done]).
  destruct (runModifierEffects_ok i0 He Harrow) as (i1 & -> & [U1 U2 U3 U4 U5 U6] & Ed).
  cbn [mbind res_bind]. eexists. split; [done|]. cbn [update in_state in_isDestroyed in_pending].
  split; [|split; [exact Ed|split; [done|rewrite U2, U3; exact Hv]]]. split.
  - done.
  - rewrite U4. cbn. destruct (pp_placement options) as [p|]; cbn; [by apply Hp|tauto].
  - unfold noArrowPadding. by rewrite U6 by (intros []).
  - by rewrite U5.
Qed.

(** A popper that is made, and its first update. *)
Lemma popper_settles sh custom reference popper options ordered :
  (forall id options s, sh_before sh = Some id ->
    exists s', custom id "preSetPlacement" options s = Ok s' /\ sameBase s s' /\ samePlace s s' /\ sameDataBut [] s s') ->
  areValidElements reference popper = true -> validReference reference ->
  orderModifiers (mergeByName (defaultModifiers ++ default [] (pp_modifiers options))) = Ok ordered ->
  pipeline sh (enabledOf ordered) ->
  (forall m, In m (enabledOf ordered) -> arrowOptionsOk (default noOptions (m_options m))) ->
  (forall p, pp_placement options = Some p -> In p placements) ->
  exists i i', createPopper fullGenerator reference popper options = Ok i /\ in_pending i = true /\
    runPending custom i = Ok i' /\ in_pending i' = false /\
    hasXY "popperOffsets" (in_state i') /\ In (st_placement (in_state i')) placements /\
    st_reset (in_state i') = false.
Proof.
  intros Hc Hv Hr Ho Hpipe Harrow Hp.
  destruct (createPopper_ok sh _ popper options ordered Hv Hr Ho Hpipe Harrow Hp) as (i & Hi & U & Hd & Hpe & Hv').
  unfold runPending.
  destruct (forceUpdate_positions custom sh Hc
    (Build_instance (in_state i) (in_effectCleanupFns i) (in_isDestroyed i) false) U Hd Hv')
    as (i' & Hu & (R & Hreset & HX & _) & _ & Hpe').
  exists i, i'. rewrite Hpe. repeat split; try done. apply R.
Qed.
End creation.

(** ** The life of an instance *)

Section life.
Context `{B : Browser}.
Variable custom : nat -> string -> modOptions -> state -> res state.
Variable g : generatorOptions.

(** What a page can do with an instance. *)
Inductive call :=
  | CallSetOptions (action : optionsAction)
  | CallForceUpdate
  | CallUpdate
  | CallTick.                      (** the microtask queued by [update] runs *)

Definition runCall (i : instance) (c : call) : res instance :=
  match c with
  | CallSetOptions action => setOptions g action i
  | CallForceUpdate => forceUpdate custom i
  | CallUpdate => Ok (update i)
  | CallTick => runPending custom i
  end.

(** Every listener on the page is one a cleanup function will remove. *)
Definition listenersCovered (i : instance) : Prop :=
  forall x, In x (st_listeners (in_state i)) ->
    exists ls, In (CleanupListeners ls) (in_effectCleanupFns i) /\ In x ls.

Lemma runCleanup_listeners cs s x :
  In x (st_listeners (fold_left runCleanup cs s)) ->
  In x (st_listeners s) /\ forall ls, In (CleanupListeners ls) cs -> ~ In x ls.
Proof.
  revert s. induction cs as [|c cs IH]; intros s; cbn [fold_left].
  { intros H. split; [done|]. intros ls []. }
  intros [Hin Hno]%IH. destruct c as [init|ls|]; cbn [runCleanup] in Hin.
  - assert (E : forall l s0, st_listeners (fold_left (cleanupTo init) l s0) = st_listeners s0).
    { induction l as [|[name n] l IHl]; intros s0; cbn [fold_left]; [done|].
      rewrite IHl. cbn. by destruct (writable n). }
    unfold applyStylesCleanup in Hin. rewrite E in Hin. split; [done|].
    intros ls [?|?]; [discriminate|by apply Hno].
  - apply In_removeListeners in Hin as [Hin Hout]. split; [done|].
    intros ls' [[= <-]|?]; [done|by apply Hno].
  - split; [done|]. intros ls [?|?]; [discriminate|by apply Hno].
Qed.

Lemma cleanup_no_listeners i :
  listenersCovered i -> st_listeners (in_state (cleanupModifierEffects i)) = [].
Proof.
  intros H. destruct (st_listeners _) as [|x l] eqn:E; [done|].
  assert (Hx : In x (st_listeners (in_state (cleanupModifierEffects i)))) by (rewrite E; by left).
  cbn in Hx. apply runCleanup_listeners in Hx as [Hin Hno].
  destruct (H x Hin) as (ls & Hls & Hx). by destruct (Hno ls Hls).
Qed.

Lemma runEffect_covered e s o s' c x :
  runEffect e s o = Ok (s', c) -> In x (st_listeners s') ->
  In x (st_listeners s) \/ exists ls, c = CleanupListeners ls /\ In x ls.
Proof.
  destruct e; cbn.
  - intros [= <- <-]. unfold applyStylesEffect. cbn. destruct (e_arrow _); by left.
  - intros (s1 & H & [= <- <-])%bind_ok. revert H. unfold arrowEffect. left.
    revert H. destruct (match _ with ArrowNull => _ | _ => _ end); [|by intros [= <-]].
    intros (b & _ & H)%bind_ok. by destruct b; injection H as <-.
  - intros [= <- <-]. cbn. rewrite In_addListeners. intros [H|H]; [by left|right; eauto].
Qed.

Lemma runModifierEffects_covered ms i i' :
  listenersCovered i ->
  foldM (fun i m =>
    match m_effect m with
    | None => Ok i
    | Some e =>
        '(s, c) ← runEffect e (in_state i) (default noOptions (m_options m));
        Ok (Build_instance s (in_effectCleanupFns i ++ [c]) (in_isDestroyed i) (in_pending i))
    end) ms i = Ok i' -> listenersCovered i'.
Proof.
  revert i. induction ms as [|m ms IH]; intros i Hc; cbn [foldM]; [by intros [= <-]|].
  intros (i1 & H1 & H2)%bind_ok. apply (IH i1); [|exact H2]. clear H2.
  destruct (m_effect m) as [e|]; [|by injection H1 as <-].
  apply bind_ok in H1 as ([s c] & He & [= <-]). intros x Hx. cbn in Hx |- *.
  destruct (runEffect_covered _ _ _ _ _ _ He Hx) as [Hin|(ls & -> & Hin)].
  - destruct (Hc x Hin) as (ls & Hls & Hxl). exists ls. rewrite in_app_iff. eauto.
  - exists ls. rewrite in_app_iff. cbn. eauto.
Qed.

(** Follows the successful run [H] of a modifier to the state it returns. *)
Ltac run_of H :=
  cbn beta zeta iota in H;
  lazymatch type of H with
  | Ok _ = Ok _ => injection H as <-
  | Err _ = Ok _ => discriminate H
  | (match ?x with _ => _ end) = Ok _ => destruct x; run_of H
  | _ => apply bind_ok in H as (? & ? & H); run_of H
  end.

Lemma runFn_listeners f s o name s' :
  (forall id name o s s', custom id name o s = Ok s' -> st_listeners s' = st_listeners s) ->
  runFn custom f s o name = Ok s' -> st_listeners s' = st_listeners s.
Proof.
  intros Hc. destruct f; cbn [runFn]; intros H.
  - by injection H as <-.
  - unfold offset in H. apply bind_ok in H as (cur & _ & H). apply bind_ok in H as (s1 & H1 & H).
    assert (E1 : st_listeners s1 = st_listeners s) by (by run_of H1). by run_of H.
  - apply flip_cases in H as (d & _ & [[-> _]|(_ & ps & p & _ & _ & _ & ->)]); done.
  - unfold preventOverflow in H. by run_of H.
  - unfold arrow in H. by run_of H.
  - unfold hide in H. by run_of H.
  - unfold computeStyles in H. apply bind_ok in H as (s1 & H1 & H).
    apply bind_ok in H as (s2 & H2 & H).
    assert (E1 : st_listeners s1 = st_listeners s) by (by run_of H1).
    assert (E2 : st_listeners s2 = st_listeners s1) by (by run_of H2).
    run_of H. cbn. congruence.
  - injection H as <-. apply applyStyles_frame.
  - by injection H as <-.
  - by eapply Hc.
Qed.

(** *** Modifiers that write nothing *)

Definition quiet (m : modifier) : bool :=
  match m_fn m with Some (FnApplyStyles | FnCustom _) => false | _ => true end &&
  match m_effect m with Some EffApplyStyles => false | _ => true end.

(** The page is as it was, and so are the modifiers. *)
Definition samePage (s s' : state) : Prop :=
  st_pageStyles s' = st_pageStyles s /\ st_pageAttrs s' = st_pageAttrs s /\ st_orderedModifiers s' = st_orderedModifiers s.

Lemma runFn_page m f s o name s' :
  quiet m = true -> m_fn m = Some f -> runFn custom f s o name = Ok s' -> samePage s s'.
Proof.
  unfold quiet. intros Hq Hf. rewrite Hf in Hq. destruct f; cbn [runFn] in *; try done; intros H.
  - by injection H as <-.
  - unfold offset in H. apply bind_ok in H as (cur & _ & H). apply bind_ok in H as (s1 & H1 & H).
    assert (E1 : samePage s s1) by (by run_of H1). by run_of H.
  - apply flip_cases in H as (d & _ & [[-> _]|(_ & ps & p & _ & _ & _ & ->)]); done.
  - unfold preventOverflow in H. by run_of H.
  - unfold arrow in H. by run_of H.
  - unfold hide in H. by run_of H.
  - unfold computeStyles in H. apply bind_ok in H as (s1 & H1 & H).
    apply bind_ok in H as (s2 & H2 & H).
    assert (E1 : samePage s s1) by (by run_of H1).
    assert (E2 : samePage s1 s2) by (by run_of H2).
    injection H as <-. unfold samePage in *. cbn. intuition congruence.
  - by injection H as <-.
Qed.

Lemma updateLoop_page fuel index s s' :
  forallb quiet (st_orderedModifiers s) = true -> updateLoop custom fuel index s = Ok s' -> samePage s s'.
Proof.
  revert index s. induction fuel as [|fuel IH]; intros index s Hq; cbn [updateLoop]; [done|].
  destruct (_ !! index) as [m|] eqn:Em; [|by intros [= <-]].
  destruct (st_reset s); [intros H; exact (IH _ (set_reset false s) Hq H)|]. intros (s1 & H1 & H2)%bind_ok.
  assert (E : samePage s s1).
  { destruct (m_fn m) as [f|] eqn:Ef; [|by injection H1 as <-]. eapply runFn_page; [|exact Ef|exact H1].
    rewrite forallb_forall in Hq. apply Hq, list_elem_of_In. by eapply list_elem_of_lookup_2. }
  apply IH in H2; [|destruct E as (_ & _ & ->); done]. unfold samePage in *. intuition congruence.
Qed.

Lemma forceUpdate_page i i' :
  forallb quiet (st_orderedModifiers (in_state i)) = true -> forceUpdate custom i = Ok i' -> samePage (in_state i) (in_state i').
Proof.
  intros Hq. unfold forceUpdate. destruct (in_isDestroyed i); [by intros [= <-]|].
  destruct (negb _); [by intros [= <-]|].
  intros (s1 & H1 & H)%bind_ok. apply bind_ok in H as (s2 & H2 & [= <-]).
  unfold beginUpdate in H1. apply bind_ok in H1 as (op & _ & [= <-]).
  match type of H2 with context [fold_left _ ?l ?x] => assert (E : samePage x (fold_left
    (fun s m => put_data (m_name m) (default noData (m_data m)) s) l x)) end.
  { generalize (st_orderedModifiers (in_state i)) at 1. intros ms.
    match goal with |- samePage ?x _ => generalize x end. induction ms as [|m ms IH]; intros x; [done|].
    destruct (IH (put_data (m_name m) (default noData (m_data m)) x)) as (E1 & E2 & E3). by repeat split. }
  apply updateLoop_page in H2; [|destruct E as (_ & _ & ->); done]. unfold samePage in *. cbn in *. intuition congruence.
Qed.

Lemma runEffect_page m e s o s' c :
  quiet m = true -> m_effect m = Some e -> runEffect e s o = Ok (s', c) -> samePage s s'.
Proof.
  intros Hq He. unfold quiet in Hq. rewrite He in Hq. destruct e; cbn [runEffect]; [by rewrite andb_false_r in Hq|..].
  - intros (s1 & H & [= <- <-])%bind_ok. unfold arrowEffect in H. by run_of H.
  - by intros [= <- <-].
Qed.

Lemma runModifierEffects_page i i' :
  forallb quiet (st_orderedModifiers (in_state i)) = true -> runModifierEffects i = Ok i' -> samePage (in_state i) (in_state i').
Proof.
  unfold runModifierEffects. generalize (st_orderedModifiers (in_state i)) as ms. intros ms. revert i.
  induction ms as [|m ms IH]; intros i; cbn [forallb foldM]; [by intros _ [= <-]|].
  intros [Hm Hq]%andb_true_iff (i1 & H1 & H2)%bind_ok. apply IH in H2; [|done].
  assert (E : samePage (in_state i) (in_state i1)).
  { destruct (m_effect m) as [e|] eqn:Ee; [|by injection H1 as <-].
    apply bind_ok in H1 as ([s c] & He & [= <-]). by eapply runEffect_page. }
  unfold samePage in *. intuition congruence.
Qed.

(** A popper all of whose modifiers are quiet has written nothing when it is made. *)
Lemma quiet_created reference popper options ordered i :
  orderModifiers (mergeByName (defaultModifiers ++ default [] (pp_modifiers options))) = Ok ordered ->
  forallb quiet (enabledOf ordered) = true -> createPopper fullGenerator reference popper options = Ok i ->
  st_pageStyles (in_state i) = ∅ /\ st_pageAttrs (in_state i) = ∅ /\ forallb quiet (st_orderedModifiers (in_state i)) = true.
Proof.
  intros Ho Hq. unfold createPopper. destruct (negb _); [by intros [= <-]|]. unfold setOptions.
  intros (r & _ & H)%bind_ok. apply bind_ok in H as (p & _ & H). apply bind_ok in H as (ms & Hms & H).
  apply bind_ok in H as (i1 & H1 & [= <-]).
  assert (ms = ordered) as ->.
  { enough (E : Ok ms = Ok ordered) by (by injection E). rewrite <- Hms, <- Ho. destruct options as [? [] ?]; reflexivity. }
  apply runModifierEffects_page in H1; [|done]. destruct H1 as (E1 & E2 & E3). cbn in *. by rewrite E1, E2, E3.
Qed.

Hypothesis custom_listeners : forall id name o s s',
  custom id name o s = Ok s' -> st_listeners s' = st_listeners s.

Lemma updateLoop_listeners fuel index s s' :
  updateLoop custom fuel index s = Ok s' -> st_listeners s' = st_listeners s.
Proof.
  revert index s. induction fuel as [|fuel IH]; intros index s; cbn [updateLoop]; [done|].
  destruct (_ !! index) as [m|]; [|by intros [= <-]].
  destruct (st_reset s); [by intros ->%IH|]. intros (s1 & H1 & ->%IH)%bind_ok.
  destruct (m_fn m); [by eapply runFn_listeners|by injection H1 as <-].
Qed.

Lemma forceUpdate_covered i i' :
  forceUpdate custom i = Ok i' -> listenersCovered i -> listenersCovered i'.
Proof.
  unfold forceUpdate. destruct (in_isDestroyed i); [by intros [= <-]|].
  destruct (negb _); [by intros [= <-]|].
  intros (s1 & H1 & H)%bind_ok Hc. apply bind_ok in H as (s2 & H2 & [= <-]).
  apply updateLoop_listeners in H2. unfold beginUpdate in H1. apply bind_ok in H1 as (op & _ & [= <-]).
  match type of H2 with context [fold_left _ ?l ?x] => destruct (fillData_frame l x) as (HB & _) end.
  destruct HB as (_ & _ & _ & _ & E & _). rewrite E in H2.
  intros x Hx. cbn in Hx. rewrite H2 in Hx. exact (Hc x Hx).
Qed.

Lemma runCall_covered i c i' : runCall i c = Ok i' -> listenersCovered i -> listenersCovered i'.
Proof.
  destruct c as [action| | |]; cbn [runCall].
  - unfold setOptions. intros H Hc. apply cleanup_no_listeners in Hc.
    repeat (apply bind_ok in H as (? & ? & H)).
    match goal with R : runModifierEffects _ = Ok _ |- _ => apply runModifierEffects_covered in R; [|] end.
    + injection H as <-. done.
    + intros y Hy. cbn in Hy, Hc. by rewrite Hc in Hy.
  - apply forceUpdate_covered.
  - intros [= <-] Hc. exact Hc.
  - unfold runPending. destruct (in_pending i); [|by intros [= <-]].
    intros H Hc. eapply forceUpdate_covered; [exact H|]. exact Hc.
Qed.

Lemma calls_covered cs i i' :
  foldM runCall cs i = Ok i' -> listenersCovered i -> listenersCovered i'.
Proof.
  revert i. induction cs as [|c cs IH]; intros i; cbn [foldM]; [by intros [= <-]|].
  intros (i1 & H1 & H2)%bind_ok Hc. eapply IH; [exact H2|]. by eapply runCall_covered.
Qed.

Lemma createPopper_covered reference popper options i :
  createPopper g reference popper options = Ok i -> listenersCovered i.
Proof.
  unfold createPopper. destruct (negb _); [intros [= <-] x []|].
  intros H. apply (runCall_covered _ (CallSetOptions (ActObject options)) _ H). intros x [].
Qed.

(** What may still be called on a destroyed instance without setting it up again. *)
Definition isUpdate (c : call) : bool := match c with CallSetOptions _ => false | _ => true end.

Lemma destroyed_inert cs i :
  in_isDestroyed i = true -> forallb isUpdate cs = true ->
  exists i', foldM runCall cs i = Ok i' /\ in_state i' = in_state i.
Proof.
  revert i. induction cs as [|c cs IH]; intros i Hd Hu; cbn [foldM]; [eauto|].
  cbn in Hu. apply andb_true_iff in Hu as [Hc Hu].
  assert (exists i1, runCall i c = Ok i1 /\ in_isDestroyed i1 = true /\ in_state i1 = in_state i)
    as (i1 & -> & Hd1 & Hs1).
  { destruct c; [done| | |]; cbn [runCall].
    - unfold forceUpdate. rewrite Hd. eauto.
    - eexists. split; [done|]. done.
    - unfold runPending, forceUpdate. destruct (in_pending i); [|eauto]. cbn. rewrite Hd. eauto. }
  cbn [mbind res_bind]. destruct (IH i1 Hd1 Hu) as (i' & -> & Hs'). exists i'. split; [done|congruence].
Qed.
End life.

(** * The theorems of this component *)

(** With the default modifiers and any placement and strategy, creating a popper
    throws nothing and queues one update, and that update comes to an end: it leaves a
    position for the popper, a legal placement and no request for another round. *)
Theorem createPopper_positions `{W : WfTree}
    (custom : nat -> string -> modOptions -> state -> res state)
    (reference : refElement) (popper : nid) (options : partialOptions) :
  areValidElements reference popper = true -> validReference reference ->
  pp_modifiers options = None -> (forall p, pp_placement options = Some p -> In p placements) ->
  exists i i', createPopper fullGenerator reference popper options = Ok i /\ in_pending i = true /\
    runPending custom i = Ok i' /\ in_pending i' = false /\
    hasXY "popperOffsets" (in_state i') /\ In (st_placement (in_state i')) placements /\
    st_reset (in_state i') = false.
Proof.
  intros Hv Hr Hm Hp. apply (popper_settles defaultShape custom _ popper options defaultOrdered); try done.
  - by rewrite Hm.
  - exact defaultOrdered_pipeline.
  - intros m Hm' n. cbn in Hm'. intuition (subst; done).
Qed.

Lemma createPopper_positions_witness :
  exists i i', createPopper fullGenerator (RefNode 4) 5 (Build_partialOptions (Some "right") None None) = Ok i /\
    runPending (fun _ _ _ s => Ok s) i = Ok i' /\ hasXY "popperOffsets" (in_state i').
Proof.
  destruct (createPopper_positions (fun _ _ _ s => Ok s) (RefNode 4) 5
    (Build_partialOptions (Some "right") None None)) as (i & i' & Hi & _ & Hu & _ & HX & _).
  - reflexivity.
  - intros v n E. discriminate E.
  - reflexivity.
  - intros p [= <-]. vm_compute. tauto.
  - exists i, i'. split; [exact Hi|]. split; [exact Hu|exact HX].
Defined.

(** C11: whatever was done with a popper, destroying it removes every event listener it
    has put on the page, and no update that is still queued or requested later
    changes the page again. *)
Theorem destroy_leaves_nothing `{B : Browser}
    (custom : nat -> string -> modOptions -> state -> res state) (g : generatorOptions)
    (reference : refElement) (popper : nid) (options : partialOptions) (before after : list call)
    (i0 i : instance) :
  (forall id name o s s', custom id name o s = Ok s' -> st_listeners s' = st_listeners s) ->
  createPopper g reference popper options = Ok i0 -> foldM (runCall custom g) before i0 = Ok i ->
  forallb isUpdate after = true ->
  st_listeners (in_state (destroy i)) = [] /\
  exists i', foldM (runCall custom g) after (destroy i) = Ok i' /\ in_state i' = in_state (destroy i).
Proof.
  intros Hcu Hc Hb Ha. split.
  - apply cleanup_no_listeners. eapply calls_covered; [exact Hcu|exact Hb|]. by eapply createPopper_covered.
  - by apply destroyed_inert.
Qed.

Lemma destroy_leaves_nothing_witness :
  exists i0 i, createPopper fullGenerator (RefNode 4) 5 noPartial = Ok i0 /\
    foldM (runCall (fun _ _ _ s => Ok s) fullGenerator) [CallTick] i0 = Ok i /\
    st_listeners (in_state i) <> [] /\ st_listeners (in_state (destroy i)) = [].
Proof.
  destruct (createPopper fullGenerator (RefNode 4) 5 noPartial) as [i0|] eqn:E0; [|vm_compute in E0; discriminate E0].
  destruct (foldM (runCall (fun _ _ _ s => Ok s) fullGenerator) [CallTick] i0) as [i|] eqn:E1.
  - exists i0, i. split; [reflexivity|]. split; [exact E1|]. split.
    + vm_compute in E0. injection E0 as <-. vm_compute in E1. injection E1 as <-. discriminate.
    + apply (destroy_leaves_nothing (fun _ _ _ s => Ok s) fullGenerator (RefNode 4) 5 noPartial
               [CallTick] [CallTick] i0 i).
      * intros id name o s s' [= <-]. reflexivity.
      * exact E0.
      * exact E1.
      * reflexivity.
  - vm_compute in E0. injection E0 as <-. vm_compute in E1. discriminate E1.
Defined.

(** A popper that is to be above its reference, when it is [flip]'s turn. *)
Definition atFlip : res state :=
  i ← createPopper fullGenerator (RefNode 4) 5 (Build_partialOptions (Some "top") None None);
  s ← beginUpdate (in_state i);
  offset (popperOffsets s "popperOffsets") noOptions "offset".

Lemma flip_first_fitting_witness :
  exists s s', atFlip = Ok s /\ st_placement s = "top" /\ flip s noOptions "flip" = Ok s' /\ st_placement s' = "bottom".
Proof.
  destruct atFlip as [s|] eqn:E; [|vm_compute in E; discriminate E].
  vm_compute in E. injection E as <-.
  match goal with |- exists s s', Ok ?x = _ /\ _ =>
    destruct (flip_first_fitting x noOptions "flip" (Build_mdata None None None (Some false) [] None None)
      ["top"; "bottom"] ["top"] [] "bottom" [true; true; true]) as (s' & H1 & H2 & _) end.
  - vm_compute. reflexivity.
  - reflexivity.
  - vm_compute. reflexivity.
  - reflexivity.
  - vm_compute. reflexivity.
  - reflexivity.
  - intros q [<-|[]]. exists [false; true; true]. split; vm_compute; reflexivity.
  - eexists _, s'. split; [reflexivity|]. split; [reflexivity|]. split; [exact H1|exact H2].
Defined.
