(* ===== verification/PopperLife.v ===== *)
(** A popper while the page around it changes: it is updated under one layout after the other, and every update measures
    the layout of its time. *)
From Stdlib Require Import Ascii QArith Lia.
From S2P Require Import Prelude PopperGeometry PopperDom PopperState PopperOrder PopperModifiers PopperCore PopperTotal PopperInstance.

Local Open Scope nat_scope.

(** ** What an update leaves alone *)

Section base.
Context `{B : Browser}.
Variable custom : nat -> string -> modOptions -> state -> res state.
Variable sh : shape.
Hypothesis custom_frame : forall id options s, sh_before sh = Some id ->
  exists s', custom id "preSetPlacement" options s = Ok s' /\ sameBase s s' /\ samePlace s s' /\ sameDataBut [] s s'.

#[local] Ltac run_of H :=
  cbn beta zeta iota in H;
  lazymatch type of H with
  | Ok _ = Ok _ => injection H as <-
  | Err _ = Ok _ => discriminate H
  | (match ?x with _ => _ end) = Ok _ => destruct x; run_of H
  | _ => apply bind_ok in H as (? & ? & H); run_of H
  end.

Definition ownFn (f : modFn) : bool := match f with FnCustom _ => false | _ => true end.

Lemma runFn_base f s o name s' : ownFn f = true -> runFn custom f s o name = Ok s' -> sameBase s s'.
Proof.
  intros Hf. destruct f; try done; cbn [runFn]; intros H.
  - by injection H as <-.
  - unfold offset in H. apply bind_ok in H as (cur & _ & H). apply bind_ok in H as (s1 & H1 & H).
    assert (E1 : sameBase s s1) by (by run_of H1). by run_of H.
  - apply flip_cases in H as (d & _ & [[-> _]|(_ & ps & p & _ & _ & _ & ->)]); done.
  - unfold preventOverflow in H. by run_of H.
  - unfold arrow in H. by run_of H.
  - unfold hide in H. by run_of H.
  - unfold computeStyles in H. apply bind_ok in H as (s1 & H1 & H). apply bind_ok in H as (s2 & H2 & H).
    assert (E1 : sameBase s s1) by (by run_of H1). assert (E2 : sameBase s1 s2) by (by run_of H2).
    injection H as <-. transitivity s1; [done|]. transitivity s2; [done|]. done.
  - injection H as <-. apply applyStyles_frame.
  - by injection H as <-.
Qed.

Lemma pipeline_custom ms m id : pipeline sh ms -> m ∈ ms -> m_fn m = Some (FnCustom id) ->
  m_name m = "preSetPlacement" /\ sh_before sh = Some id.
Proof.
  intros [Hm _] Hin Hf. assert (Hx : In (m_name m, m_fn m) (seqOf sh)).
  { rewrite <- Hm. apply (in_map (fun m => (m_name m, m_fn m))). by apply list_elem_of_In. }
  rewrite Hf in Hx. destruct sh as [[id'|] []]; cbn in Hx; intuition (try discriminate); by simplify_eq.
Qed.

Lemma updateLoop_base fuel index s s' :
  pipeline sh (st_orderedModifiers s) -> updateLoop custom fuel index s = Ok s' -> sameBase s s'.
Proof.
  revert index s. induction fuel as [|fuel IH]; intros index s Hp; cbn [updateLoop]; [done|].
  destruct (_ !! index) as [m|] eqn:Em; [|by intros [= <-]].
  destruct (st_reset s); [intros H; exact (IH _ (set_reset false s) Hp H)|]. intros (s1 & H1 & H2)%bind_ok.
  assert (E : sameBase s s1).
  { destruct (m_fn m) as [f|] eqn:Ef; [|by injection H1 as <-]. destruct (ownFn f) eqn:Eo; [by eapply runFn_base|].
    destruct f as [| | | | | | | | |id]; try discriminate Eo.
    destruct (pipeline_custom _ m id Hp) as [Hn Hs]; [by eapply list_elem_of_lookup_2|done|]. cbn [runFn] in H1. rewrite Hn in H1.
    destruct (custom_frame id (default noOptions (m_options m)) s Hs) as (s2 & H & HB & _). rewrite H in H1. by injection H1 as <-. }
  transitivity s1; [done|]. apply (IH (S index)); [|done]. by rewrite (proj1 E).
Qed.

(** The rectangles of the state are those that the page has now. *)
Definition measured (s : state) : Prop :=
  exists op, getOffsetParent (e_popper (st_elements s)) = Ok op /\
    st_rects s = Rects (getCompositeRect (e_reference (st_elements s)) op (str_eqb (po_strategy (st_options s)) "fixed"))
                       (getLayoutRect (e_popper (st_elements s))).

Lemma forceUpdate_measures i i' : pipeline sh (st_orderedModifiers (in_state i)) -> in_isDestroyed i = false ->
  areValidElements (e_reference (st_elements (in_state i))) (e_popper (st_elements (in_state i))) = true ->
  forceUpdate custom i = Ok i' ->
  measured (in_state i') /\ st_options (in_state i') = st_options (in_state i) /\
  st_elements (in_state i') = st_elements (in_state i) /\ st_orderedModifiers (in_state i') = st_orderedModifiers (in_state i) /\
  in_isDestroyed i' = false /\ in_pending i' = in_pending i.
Proof.
  intros Hp Hd Hv. unfold forceUpdate. rewrite Hd, Hv. cbn [negb]. intros (s1 & H1 & H)%bind_ok.
  apply bind_ok in H as (s2 & H2 & [= <-]). unfold beginUpdate in H1. apply bind_ok in H1 as (op & Hop & [= <-]).
  match type of H2 with context [fold_left _ ?l ?x] => destruct (fillData_frame l x) as (E & _) end.
  apply updateLoop_base in H2; [|by rewrite (proj1 E)].
  destruct E as (E1 & E2 & E3 & E4 & _), H2 as (F1 & F2 & F3 & F4 & _). cbn in *.
  assert (G1 : st_elements s2 = st_elements (in_state i)) by congruence.
  assert (G2 : st_options s2 = st_options (in_state i)) by congruence.
  split; [|split_and!; congruence]. exists op. rewrite G1, G2. split; [done|]. by rewrite F4, E4.
Qed.
End base.

(** ** Layouts *)

(** What the browser shows at some time. *)
Record layout := Layout { l_browser : Browser; l_tree : @WfTree l_browser }.

(** Nodes may come, go and move; none changes from a document into something else. *)
Definition sameKinds (l l' : layout) : Prop := forall n, @kind (l_browser l') n = @kind (l_browser l) n.

Inductive refresh := Update | ForceUpdate | Tick.

Section follow.
Variable custom : nat -> string -> modOptions -> state -> res state.
Variable sh : shape.
Hypothesis custom_frame : forall id options s, sh_before sh = Some id ->
  exists s', custom id "preSetPlacement" options s = Ok s' /\ sameBase s s' /\ samePlace s s' /\ sameDataBut [] s s'.
Implicit Types (i : instance) (l : layout).

(** A call or a microtask under a layout. *)
Definition refreshAt l (c : refresh) i : res instance :=
  match c with
  | Update => Ok (update i)
  | ForceUpdate => @forceUpdate (l_browser l) custom i
  | Tick => @runPending (l_browser l) custom i
  end.

Definition follow (es : list (layout * refresh)) i : res instance := foldM (fun i e => refreshAt e.1 e.2 i) es i.

Definition legal (s : state) : Prop := In (st_placement s) placements /\ st_reset s = false.

(** An instance that can be updated under [l], and whether it has been. *)
Record living l i : Prop := {
  lv_updatable : @updatable (l_browser l) sh (in_state i);
  lv_there : in_isDestroyed i = false;
  lv_valid : @areValidElements (l_browser l) (e_reference (st_elements (in_state i))) (e_popper (st_elements (in_state i))) = true
}.

Lemma valid_kinds l l' r p : sameKinds l l' -> @areValidElements (l_browser l') r p = @areValidElements (l_browser l) r p.
Proof. intros K. unfold areValidElements, isElement. rewrite !K. by destruct r as [n|v]; rewrite ?K. Qed.

Lemma living_moves l l' i : sameKinds l l' -> living l i -> living l' i.
Proof.
  intros K [[(U1 & U2 & U3) U4 U5 U6] D V]. split; [split|done|by rewrite (valid_kinds l)]; try done.
  split_and!; intros *; rewrite K; eauto.
Qed.

(** What a round round the modifiers comes to. *)
Definition settled l i : Prop :=
  in_pending i = false /\ hasXY "popperOffsets" (in_state i) /\ legal (in_state i) /\ @measured (l_browser l) (in_state i).

Lemma force_living l i : living l i ->
  exists i', @forceUpdate (l_browser l) custom i = Ok i' /\ living l i' /\ in_pending i' = in_pending i /\
    hasXY "popperOffsets" (in_state i') /\ legal (in_state i') /\ @measured (l_browser l) (in_state i').
Proof.
  intros [U D V].
  destruct (@forceUpdate_positions (l_browser l) (l_tree l) custom sh custom_frame i U D V) as (i' & Hi & (R & Hr & HX & _) & _ & Hp).
  destruct (@forceUpdate_measures (l_browser l) custom sh custom_frame i i' (up_pipeline _ _ U) D V Hi) as (M & E1 & E2 & E3 & D' & _).
  exists i'. split; [done|]. split; [|split_and!; try done; split; [apply R|done]].
  destruct R as [R1 R2 R3 R4 R5]. split; [by split|done|by rewrite E2].
Qed.

Lemma refresh_living l c i : living l i -> exists i', refreshAt l c i = Ok i' /\ living l i'.
Proof.
  intros I. destruct c; cbn [refreshAt].
  - exists (update i). split; [done|]. by destruct I as [U D V].
  - destruct (force_living l i I) as (i' & H & I' & _). by exists i'.
  - unfold runPending. destruct (in_pending i); [|by exists i].
    destruct (force_living l (Build_instance (in_state i) (in_effectCleanupFns i) (in_isDestroyed i) false)) as (i' & H & I' & _); [by destruct I|by exists i'].
Qed.

Lemma follow_living l es i : living l i -> Forall (fun e => sameKinds l e.1) es -> exists i', follow es i = Ok i' /\ living l i'.
Proof.
  revert i. induction es as [|[l1 c] es IH]; intros i I F; [by exists i|]. apply Forall_cons in F as [K F]. cbn in K.
  destruct (refresh_living l1 c i) as (i1 & H1 & I1); [by apply (living_moves l)|].
  assert (K' : sameKinds l1 l) by (intros n; by rewrite K). apply (living_moves l1 l) in I1; [|done].
  destruct (IH i1 I1 F) as (i' & H & I'). exists i'. split; [|done]. unfold follow in *. cbn [foldM fst snd]. by rewrite H1.
Qed.

(** An update that is asked for under a layout settles there, whatever came before. *)
Lemma follow_settles l0 es l i : living l0 i -> Forall (fun e => sameKinds l0 e.1) es -> sameKinds l0 l ->
  exists i', follow (es ++ [(l, Update); (l, Tick)]) i = Ok i' /\ settled l i'.
Proof.
  intros I F K. destruct (follow_living l0 es i I F) as (i1 & H1 & I1).
  destruct (force_living l (Build_instance (in_state i1) (in_effectCleanupFns i1) (in_isDestroyed i1) false)) as (i2 & H2 & _ & P & X & G & M).
  { apply (living_moves l0); [done|]. by destruct I1. }
  exists i2. split; [|by split]. unfold follow in *. rewrite foldM_app, H1. cbn [mbind res_bind foldM fst snd refreshAt]. unfold runPending, update. cbn [in_pending in_state in_effectCleanupFns in_isDestroyed].
  by rewrite H2.
Qed.
End follow.

(** A popper that is made under one layout and updated under others. *)
Lemma popper_lives sh custom l0 reference popper options ordered :
  (forall id options s, sh_before sh = Some id ->
    exists s', custom id "preSetPlacement" options s = Ok s' /\ sameBase s s' /\ samePlace s s' /\ sameDataBut [] s s') ->
  @areValidElements (l_browser l0) reference popper = true -> @validReference (l_browser l0) reference ->
  orderModifiers (mergeByName (defaultModifiers ++ default [] (pp_modifiers options))) = Ok ordered ->
  pipeline sh (enabledOf ordered) ->
  (forall m, In m (enabledOf ordered) -> @arrowOptionsOk (l_browser l0) (default noOptions (m_options m))) ->
  (forall p, pp_placement options = Some p -> In p placements) ->
  exists i, @createPopper (l_browser l0) fullGenerator reference popper options = Ok i /\ in_pending i = true /\
    forall es l, Forall (fun e => sameKinds l0 e.1) es -> sameKinds l0 l ->
      exists i', follow custom (es ++ [(l, Update); (l, Tick)]) i = Ok i' /\ settled l i'.
Proof.
  intros Hc Hv Hr Ho Hpipe Harrow Hp.
  destruct (@createPopper_ok (l_browser l0) (l_tree l0) sh _ popper options ordered Hv Hr Ho Hpipe Harrow Hp) as (i & Hi & U & Hd & Hpe & Hv').
  exists i. split; [done|]. split; [done|]. intros es l F K. by apply (follow_settles custom sh Hc l0).
Qed.

(** A popper of quiet modifiers writes nothing under any layout. *)
Lemma follow_page custom es i i' : forallb quiet (st_orderedModifiers (in_state i)) = true -> follow custom es i = Ok i' ->
  samePage (in_state i) (in_state i').
Proof.
  revert i. induction es as [|[l c] es IH]; intros i Hq; unfold follow; cbn [foldM]; [intros [= <-]; by repeat split|]. intros (i1 & H1 & H2)%bind_ok.
  assert (E : samePage (in_state i) (in_state i1)).
  { destruct c; cbn [refreshAt fst snd] in H1; [injection H1 as <-; by repeat split|by apply (@forceUpdate_page (l_browser l) custom)|].
    unfold runPending in H1. destruct (in_pending i); [|injection H1 as <-; by repeat split]. by apply (@forceUpdate_page (l_browser l) custom) in H1. }
  apply (IH i1) in H2; [|by rewrite (proj2 (proj2 E))]. unfold samePage in *. intuition congruence.
Qed.

(** From its creation on. *)
Lemma quiet_popper_follows custom l0 reference popper options ordered i i' es :
  orderModifiers (mergeByName (defaultModifiers ++ default [] (pp_modifiers options))) = Ok ordered ->
  forallb quiet (enabledOf ordered) = true ->
  @createPopper (l_browser l0) fullGenerator reference popper options = Ok i -> follow custom es i = Ok i' ->
  st_pageStyles (in_state i') = ∅ /\ st_pageAttrs (in_state i') = ∅.
Proof.
  intros Ho Hq Hi Hf. destruct (@quiet_created (l_browser l0) reference popper options ordered i Ho Hq Hi) as (E1 & E2 & E3).
  apply follow_page in Hf as (E4 & E5 & _); [|done]. by rewrite E4, E5.
Qed.

(** C4: With the default modifiers and any placement and strategy, creating a popper throws nothing and queues one update.
    From then on, however the page changes around it, and however often updates are asked for, forced and carried out
    meanwhile, nothing throws; and each time an update is asked for and its turn comes, it comes to an end with a position that was
    computed from the rectangles of the elements in the layout of that time, a legal placement, and no request for another
    round. *)
Theorem popper_follows_layout (custom : nat -> string -> modOptions -> state -> res state) (l0 l : layout)
    (reference : refElement) (popper : nid) (options : partialOptions) (es : list (layout * refresh)) :
  @areValidElements (l_browser l0) reference popper = true -> @validReference (l_browser l0) reference ->
  pp_modifiers options = None -> (forall p, pp_placement options = Some p -> In p placements) ->
  Forall (fun e => sameKinds l0 e.1) es -> sameKinds l0 l ->
  exists i i', @createPopper (l_browser l0) fullGenerator reference popper options = Ok i /\ in_pending i = true /\
    follow custom (es ++ [(l, Update); (l, Tick)]) i = Ok i' /\ in_pending i' = false /\
    hasXY "popperOffsets" (in_state i') /\ In (st_placement (in_state i')) placements /\ st_reset (in_state i') = false /\
    @measured (l_browser l) (in_state i').
Proof.
  intros Hv Hr Hm Hp F K.
  destruct (popper_lives defaultShape custom l0 reference popper options defaultOrdered) as (i & Hi & Hpe & Hf); try done.
  - by rewrite Hm.
  - exact defaultOrdered_pipeline.
  - intros m Hm' n. cbn in Hm'. intuition (subst; done).
  - destruct (Hf es l F K) as (i' & H & P & X & [G1 G2] & M). exists i, i'. split_and!; done.
Qed.

(** The page of [PopperDom], scrolled: the reference has moved up. *)
Definition scrolledBrowser : Browser :=
  let b := demoBrowser in {|
  nodeName := @nodeName b; kind := @kind b; parentNode := @parentNode b; assignedSlot := @assignedSlot b; host := @host b;
  offsetParent := @offsetParent b; rootNode := @rootNode b; node_contains := @node_contains b; querySelector := @querySelector b;
  computedStyle := @computedStyle b;
  nativeRect n := let r := @nativeRect b n in if n =? 4 then Rect (r_x r) (r_y r - 7) (r_width r) (r_height r) else r;
  offsetWidth := @offsetWidth b; offsetHeight := @offsetHeight b; offsetLeft := @offsetLeft b; offsetTop := @offsetTop b;
  clientWidth := @clientWidth b; clientHeight := @clientHeight b; clientLeft := @clientLeft b; clientTop := @clientTop b;
  scrollWidth := @scrollWidth b; scrollHeight := @scrollHeight b; scrollLeft := @scrollLeft b; scrollTop := @scrollTop b;
  documentElement := @documentElement b; body := @body b; pageXOffset := @pageXOffset b; pageYOffset := @pageYOffset b;
  devicePixelRatio := @devicePixelRatio b; visualViewport := @visualViewport b; userAgent := @userAgent b; uaBrands := @uaBrands b;
  shadowDom := @shadowDom b; treeHeight := @treeHeight b |}.

Definition scrolledTree : @WfTree scrolledBrowser.
Proof.
  exact (@Build_WfTree scrolledBrowser (@depth _ demoTree) (@depth_bound _ demoTree) (@depth_parent _ demoTree) (@depth_slot _ demoTree)
    (@depth_host _ demoTree) (@depth_offsetParent _ demoTree) (@depth_html _ demoTree) (@kind_parent _ demoTree) (@kind_slot _ demoTree)
    (@kind_host _ demoTree) (@kind_html _ demoTree) (@kind_querySelector _ demoTree) (@name_document _ demoTree) (@body_is_body _ demoTree)).
Defined.

Definition firstLayout : layout := Layout demoBrowser demoTree.
Definition scrolledLayout : layout := Layout scrolledBrowser scrolledTree.
Definition noCustom (id : nat) (name : string) (o : modOptions) (s : state) : res state := Ok s.

Lemma popper_follows_layout_witness :
  exists i i' i'', @createPopper demoBrowser fullGenerator (RefNode 4) 5 (Build_partialOptions (Some "right") None None) = Ok i /\
    follow noCustom [(firstLayout, Tick)] i = Ok i' /\ follow noCustom [(firstLayout, Tick); (scrolledLayout, Update); (scrolledLayout, Tick)] i = Ok i'' /\
    r_y (rs_reference (st_rects (in_state i'))) <> r_y (rs_reference (st_rects (in_state i''))) /\ @measured scrolledBrowser (in_state i'').
Proof.
  destruct (popper_follows_layout noCustom firstLayout scrolledLayout (RefNode 4) 5 (Build_partialOptions (Some "right") None None)
    [(firstLayout, Tick)]) as (i & i'' & Hi & _ & Hf & _ & _ & _ & _ & M).
  - reflexivity.
  - intros v n E. discriminate E.
  - reflexivity.
  - intros p [= <-]. vm_compute. tauto.
  - repeat constructor.
  - intros n. reflexivity.
  - destruct (follow noCustom [(firstLayout, Tick)] i) as [i'|] eqn:E.
    + exists i, i', i''. split; [exact Hi|]. split; [exact E|]. split; [exact Hf|]. split; [|exact M].
      vm_compute in Hi. injection Hi as <-. vm_compute in E. injection E as <-. vm_compute in Hf. injection Hf as <-. discriminate.
    + vm_compute in Hi. injection Hi as <-. vm_compute in E. discriminate E.
Defined.
