(* ===== verification/BsPopper.v ===== *)
(** The poppers of dropdowns, tooltips and popovers: the objects that Bootstrap passes to [createPopper],
    as Popper reads them, and what becomes of an instance that is made with them. The elements of
    the page of [BsDom] are the nodes of [PopperDom], under the same numbers. *)
From Stdlib Require Import Ascii QArith Lqa Lia.
From S2P Require Import Prelude BsCore BsDom BsConfig BsSanitizer BsTemplate BsTooltip BsDropdown.
From S2P Require Import PopperGeometry PopperDom PopperState PopperOrder PopperModifiers PopperCore PopperTotal PopperInstance PopperLife.

Local Open Scope nat_scope.

Module Poppers.

Section reading.
(** The functions of the caller for the option [offset]. *)
Variable offsetFunction : nat -> rects -> string -> list Q.

(** ** The options as Popper reads them *)

(** A string that names no boundary stands for the document. *)
Definition readBoundary (v : value) : option boundary :=
  match v with
  | VStr s =>
      Some (if str_eqb s "clippingParents" then ClippingParents
            else BoundaryList [if str_eqb s "viewport" then ClipViewport else ClipDocument])
  | VElement e => Some (BoundaryList [ClipElement e])
  | _ => None
  end.

(** [skidding || 0]: what is not a number counts as zero. *)
Definition readLength (v : value) : option Q :=
  match v with VNum q => Some q | VNaN | VUndefined | VNull => Some 0%Q | _ => None end.

Definition readOffset (v : value) : option offsetOption :=
  match v with
  | VArr l => OffArr <$> mapM readLength l
  | VFunction f => Some (OffFun (offsetFunction f))
  | _ => None
  end.

Definition readString (v : value) : option string := match v with VStr s => Some s | _ => None end.
Definition readBool (v : value) : option bool := match v with VBool b => Some b | _ => None end.
Definition readStrings (v : value) : option (list string) := match v with VArr l => mapM readString l | _ => None end.

Definition readArrow (v : value) : option arrowElementOption :=
  match v with VStr s => Some (ArrowSelector s) | VElement e => Some (ArrowNode e) | VNull => Some ArrowNull | _ => None end.

(** A property that may be missing or undefined; the outer option is for values that are not read. *)
Definition orUndefined {A} (read : value -> option A) (v : value) : option (option A) :=
  match v with VUndefined => Some None | _ => Some <$> read v end.
Definition property {A} (read : value -> option A) (k : string) (o : obj value) : option (option A) :=
  match oget k o with None => Some None | Some v => orUndefined read v end.

(** The object has no property but these. *)
Definition only (ks : list string) (o : obj value) : bool := forallb (fun k => in_strs k ks) (okeys o).

Definition modifierOptions (b : option boundary) (fallbacks : option (list string)) (offset : option offsetOption)
    (element : option arrowElementOption) : modOptions :=
  Build_modOptions None None None None None None element b None None None None fallbacks None None offset None None.

Definition readOptions (v : value) : option modOptions :=
  match v with
  | VObj o =>
      if only ["boundary"; "fallbackPlacements"; "offset"; "element"] o then
        b ← property readBoundary "boundary" o;
        fallbacks ← property readStrings "fallbackPlacements" o;
        offset ← property readOffset "offset" o;
        element ← property readArrow "element" o;
        Some (modifierOptions b fallbacks offset element)
      else None
  | _ => None
  end.

Definition readFn (v : value) : option modFn := match v with VFunction id => Some (FnCustom id) | _ => None end.

Definition readModifier (v : value) : option modifier :=
  match v with
  | VObj o =>
      if only ["name"; "enabled"; "phase"; "fn"; "options"] o then
        name ← (oget "name" o ≫= readString);
        enabled ← property readBool "enabled" o;
        phase ← property readString "phase" o;
        fn ← property readFn "fn" o;
        options ← property readOptions "options" o;
        Some (Build_modifier name enabled phase fn None None None options None)
      else None
  | _ => None
  end.

(** The third argument of [createPopper]. *)
Definition readConfig (o : obj value) : option partialOptions :=
  if only ["placement"; "modifiers"; "strategy"] o then
    placement ← (oget "placement" o ≫= readString);
    modifiers ← property (fun v => match v with VArr l => mapM readModifier l | _ => None end) "modifiers" o;
    strategy ← property readString "strategy" o;
    Some (Build_partialOptions (Some placement) modifiers strategy)
  else None.
End reading.

(** ** The modifiers of the components *)

(** A modifier that the component only configures. *)
Definition configured (name : string) (o : modOptions) : modifier :=
  Build_modifier name None None None None None None (Some o) None.

(** The modifiers of a menu that is positioned, of one that is not, and of a tip. *)
Definition menuModifiers (b : option boundary) (o : option offsetOption) : list modifier :=
  [configured "preventOverflow" (modifierOptions b None None None); configured "offset" (modifierOptions None None o None)].
Definition staticModifiers : list modifier :=
  [Build_modifier "applyStyles" (Some false) None None None None None None None].
Definition tipModifiers (preSet : nat) (fallbacks : option (list string)) (o : option offsetOption) (b : option boundary)
    (arrow : string) : list modifier :=
  [configured "flip" (modifierOptions None fallbacks None None); configured "offset" (modifierOptions None None o None);
   configured "preventOverflow" (modifierOptions b None None None);
   configured "arrow" (modifierOptions None None None (Some (ArrowSelector arrow)));
   Build_modifier "preSetPlacement" (Some true) (Some "beforeMain") (Some (FnCustom preSet)) None None None None None].

(** [fn] of [preSetPlacement]: the tip is the popper. *)
Definition preSetPlacement (s : PopperState.state) : PopperState.state :=
  let n := e_popper (st_elements s) in
  PopperState.set_page (st_pageStyles s)
    (<[n := oset "data-popper-placement" (AttrStr (st_placement s)) (default [] (st_pageAttrs s !! n))]> (st_pageAttrs s)) s.

Definition orderedOf (ms : list modifier) : list modifier :=
  match orderModifiers (mergeByName (defaultModifiers ++ ms)) with Ok l => l | Err _ => [] end.

Lemma menu_ordered b o : orderModifiers (mergeByName (defaultModifiers ++ menuModifiers b o)) = Ok (orderedOf (menuModifiers b o)).
Proof. vm_compute. reflexivity. Qed.
Lemma static_ordered : orderModifiers (mergeByName (defaultModifiers ++ staticModifiers)) = Ok (orderedOf staticModifiers).
Proof. vm_compute. reflexivity. Qed.
Lemma tip_ordered k f o b a : orderModifiers (mergeByName (defaultModifiers ++ tipModifiers k f o b a)) = Ok (orderedOf (tipModifiers k f o b a)).
Proof. vm_compute. reflexivity. Qed.

(** The functions that run, in order: those of a popper with one function of the caller or none, that writes to the page or not. *)
Lemma menu_pipeline b o : pipeline defaultShape (enabledOf (orderedOf (menuModifiers b o))).
Proof. split; [vm_compute; reflexivity|]. vm_compute. intuition (subst; done). Qed.
Lemma static_pipeline : pipeline (Shape None false) (enabledOf (orderedOf staticModifiers)).
Proof. split; [vm_compute; reflexivity|]. vm_compute. intuition (subst; done). Qed.
Lemma tip_pipeline k f o b a : (forall l, f = Some l -> forall p, In p l -> In p placements) ->
  pipeline (Shape (Some k) true) (enabledOf (orderedOf (tipModifiers k f o b a))).
Proof.
  intros Hf. split; [vm_compute; reflexivity|]. intros m Hm Hn l Hl. vm_compute in Hm.
  repeat (destruct Hm as [<-|Hm]; [first [discriminate Hn|by apply Hf; destruct f]|]). destruct Hm.
Qed.

(** None of these modifiers is given an element for the arrow. *)
Lemma menu_arrow `{PopperDom.Browser} b o m : In m (enabledOf (orderedOf (menuModifiers b o))) -> arrowOptionsOk (default noOptions (m_options m)).
Proof. vm_compute. intros Hm n Hn. intuition (subst; done). Qed.
Lemma static_arrow `{PopperDom.Browser} m : In m (enabledOf (orderedOf staticModifiers)) -> arrowOptionsOk (default noOptions (m_options m)).
Proof. vm_compute. intros Hm n Hn. intuition (subst; done). Qed.
Lemma tip_arrow `{PopperDom.Browser} k f o b a m :
  In m (enabledOf (orderedOf (tipModifiers k f o b a))) -> arrowOptionsOk (default noOptions (m_options m)).
Proof. vm_compute. intros Hm n Hn. intuition (subst; done). Qed.

(** ** What is read *)

Section read.
Variable offsetFunction : nat -> rects -> string -> list Q.

Lemma orUndefined_read {A} (read : value -> option A) v a : orUndefined read v = Some (Some a) -> read v = Some a.
Proof.
  assert (H : Some <$> read v = Some (Some a) -> read v = Some a) by (destruct (read v); cbn; congruence).
  unfold orUndefined. by destruct v.
Qed.

(** Puts [orUndefined] back where it was computed away. *)
Ltac fold_read read v :=
  let t := eval cbv [orUndefined] in (orUndefined read v) in change t with (orUndefined read v).

Lemma read_menu placement boundary offset po :
  readConfig offsetFunction [("placement", VStr placement);
    ("modifiers", VArr [VObj [("name", VStr "preventOverflow"); ("options", VObj [("boundary", boundary)])];
                        VObj [("name", VStr "offset"); ("options", VObj [("offset", offset)])]])] = Some po ->
  exists b o, po = Build_partialOptions (Some placement) (Some (menuModifiers b o)) None.
Proof.
  unfold readConfig. cbn -[readBoundary readOffset]. fold_read readBoundary boundary. fold_read (readOffset offsetFunction) offset.
  destruct (orUndefined readBoundary boundary) as [b|]; [|done].
  destruct (orUndefined (readOffset offsetFunction) offset) as [o|]; [|done].
  intros [= <-]. by exists b, o.
Qed.

Lemma read_static placement :
  readConfig offsetFunction [("placement", VStr placement); ("modifiers", VArr [VObj [("name", VStr "applyStyles"); ("enabled", VBool false)]])]
  = Some (Build_partialOptions (Some placement) (Some staticModifiers) None).
Proof. reflexivity. Qed.

Lemma read_tip attachment fallbacks offset boundary arrow preSet po :
  readConfig offsetFunction [("placement", match attachment with Some a => VStr a | None => VUndefined end);
    ("modifiers", VArr [VObj [("name", VStr "flip"); ("options", VObj [("fallbackPlacements", fallbacks)])];
                        VObj [("name", VStr "offset"); ("options", VObj [("offset", offset)])];
                        VObj [("name", VStr "preventOverflow"); ("options", VObj [("boundary", boundary)])];
                        VObj [("name", VStr "arrow"); ("options", VObj [("element", VStr arrow)])];
                        VObj [("name", VStr "preSetPlacement"); ("enabled", VBool true); ("phase", VStr "beforeMain"); ("fn", VFunction preSet)]])] = Some po ->
  exists a f o b, attachment = Some a /\ orUndefined readStrings fallbacks = Some f /\
    po = Build_partialOptions (Some a) (Some (tipModifiers preSet f o b arrow)) None.
Proof.
  destruct attachment as [a|]; [|done]. unfold readConfig. cbn -[readBoundary readOffset readStrings].
  fold_read readStrings fallbacks. fold_read readBoundary boundary. fold_read (readOffset offsetFunction) offset.
  destruct (orUndefined readStrings fallbacks) as [f|] eqn:Ef; [|done].
  destruct (orUndefined (readOffset offsetFunction) offset) as [o|]; [|done].
  destruct (orUndefined readBoundary boundary) as [b|]; [|done].
  intros [= <-]. by exists a, f, o, b.
Qed.
End read.
End Poppers.

Lemma getPlacement_legal rtl bsPosition d i menu p :
  Dropdown._getPlacement rtl bsPosition d i menu = Ok p -> In p placements.
Proof.
  unfold Dropdown._getPlacement. intros (q & _ & H)%bind_ok. revert H.
  repeat match goal with |- context [if ?b then _ else _] => destruct b end; intros [= <-]; destruct rtl; vm_compute; tauto.
Qed.


(** A menu below its button, on the page of [PopperDom]: the button is element 4, the menu element 5. *)
Definition menuButton : Dropdown.instance :=
  Dropdown.Instance (Some 3) (Some 5) false None (oset "reference" (VElement 4) Dropdown.Default).

Definition openedMenu (i : Dropdown.instance) : res Dropdown.state :=
  @Dropdown._createPopper demoCaller false (fun _ _ => "") 4 i 5 (Dropdown.State ∅ ∅ None [] false 0 []).

Definition readDemo (o : obj value) : option partialOptions := Poppers.readConfig (fun _ _ _ => []) o.



(** A tooltip with the default options on element 4, its tip element 5. *)
Definition defaultTip : Tooltip.tooltipConfig :=
  Tooltip.readConfig (fun _ => DefaultAllowlist) (fun _ s => s) (Tooltip.Default (VObj []) TooltipClass).

Definition preSetOnly (id : nat) (name : string) (o : modOptions) (s : PopperState.state) : res PopperState.state :=
  Ok (Poppers.preSetPlacement s).

